(** * SnapPlan measurement core: a shallow embedding and its properties

    This development embeds the geometric core of the SnapPlan backend
    (scale calibration, shoelace geometry, ray casting, wall lengths,
    door-symbol measurement, overlap suppression and hatch filtering),
    the code around it (line and wall extraction, gap finding, width
    validation and deduplication of openings, scale detection from page
    text, the drywall trade) and proves properties of it.

    Modelling conventions.
    - A Python [float] is a real number ([R]); arithmetic is exact, so the
      rounding of binary64 is not part of the model.  [round(x, 4)] is the
      one place where the source itself rounds, and it is modelled
      ([Py.round_ndigits]).  The one float equality of the specification
      is also checked on binary64 itself ([Binary64]).
    - A Python [int] is a [Z], injected with [IZR] where the source mixes it
      with floats.
    - A function that can raise returns a [Py.result]; every division whose
      divisor is not guarded by the source is [Py.div], which raises
      [ZeroDivisionError] on a zero divisor.
    - Identifiers drawn from [uuid4], log calls and formatted note strings
      are left out of the records: no property below reads them.  Where a
      record keeps its identifier (wall segments, wall openings), the hex
      digits of the successive [uuid4] calls are a stream the environment
      supplies.
    - Services outside the core (PDF parsing, rendering, image processing,
      regular-expression search) appear as the data they hand over: a page
      is its list of drawing items, a rendering step is its outcome, a
      pattern search is the denominator it captures. *)

From Stdlib Require Import Reals Lra Lia ZArith String List Bool Permutation
  Sorted.
From Stdlib Require PrimFloat Uint63 DecimalString.
Import ListNotations.
Open Scope R_scope.

(* ================================================================== *)
(** * Part I: the embedding *)
(* ================================================================== *)

(** ** Python values, exceptions and float helpers *)

Module Py.

Inductive exn : Type :=
| ValueError (msg : string)
| ZeroDivisionError
| ImportError (msg : string)
| FileNotFoundError (msg : string)
| RuntimeError (msg : string).

Inductive result (A : Type) : Type :=
| Ok (a : A)
| Raise (e : exn).
Arguments Ok {A} a.
Arguments Raise {A} e.

Definition bind {A B : Type} (m : result A) (k : A -> result B) : result B :=
  match m with
  | Ok a => k a
  | Raise e => Raise e
  end.

Definition Rltb (a b : R) : bool := if Rlt_dec a b then true else false.
Definition Rleb (a b : R) : bool := if Rle_dec a b then true else false.
Definition Reqb (a b : R) : bool := if Req_dec_T a b then true else false.

(** [a / b] on floats: a zero divisor raises. *)
Definition div (a b : R) : result R :=
  if Reqb b 0 then Raise ZeroDivisionError else Ok (a / b).

(** [round(x)] to the nearest integer, ties to the even one. *)
Definition round_half_even (x : R) : Z :=
  let f := Int_part x in
  let d := x - IZR f in
  if Rltb d (1 / 2) then f
  else if Rltb (1 / 2) d then (f + 1)%Z
  else if Z.even f then f else (f + 1)%Z.

(** [round(x, ndigits)] for a float [x] and [ndigits >= 0]. *)
Definition round_ndigits (x : R) (ndigits : nat) : R :=
  IZR (round_half_even (x * 10 ^ ndigits)) / 10 ^ ndigits.

(** [math.atan2(y, x)], by the quadrant of [(x, y)]. *)
Definition atan2 (y x : R) : R :=
  if Rltb 0 x then atan (y / x)
  else if Rltb x 0 then
    (if Rleb 0 y then atan (y / x) + PI else atan (y / x) - PI)
  else if Rltb 0 y then PI / 2
  else if Rltb y 0 then - (PI / 2)
  else 0.

(** [math.degrees]. *)
Definition degrees (a : R) : R := a * 180 / PI.

End Py.

Notation "x <- m ;; k" := (Py.bind m (fun x => k))
  (at level 61, m at next level, right associativity).

(** ** scale_calibration.py *)

Module ScaleCalibration.
Import Py.

Inductive DetectionMethod : Type :=
| TEXT_SCALE | USER_CALIBRATION | DIMENSION_LINE | SCALE_BAR | NONE.

Definition DetectionMethod_value (m : DetectionMethod) : string :=
  match m with
  | TEXT_SCALE => "text_scale"
  | USER_CALIBRATION => "user_calibration"
  | DIMENSION_LINE => "dimension_line"
  | SCALE_BAR => "scale_bar"
  | NONE => "none"
  end.

(** plan_ingestion.PageInfo, the fields calibration reads. *)
Record PageInfo : Type := mkPageInfo {
  width_points : R;
  height_points : R;
  dpi : Z
}.

Record ScaleContext : Type := mkScaleContext {
  file_id : option string;
  scale_string : option string;
  scale_factor : option R;
  pixels_per_meter : option R;
  detection_method : string;
  confidence : R;
  source_page : Z;
  page_width_points : option R;
  page_height_points : option R;
  render_dpi : Z;
  user_reference_px : option R;
  user_reference_m : option R;
  is_active : bool
}.

(** The [has_scale] property. *)
Definition has_scale (s : ScaleContext) : bool :=
  match pixels_per_meter s with
  | Some ppm => Rltb 0 ppm
  | None => false
  end.

Definition INCHES_PER_METER : R := 39.3701.

(** The dict [COMMON_SCALES], in insertion order. *)
Definition COMMON_SCALES : list (string * R) :=
  [ ("1:1", 1); ("1:2", 2); ("1:5", 5); ("1:10", 10); ("1:20", 20);
    ("1:25", 25); ("1:50", 50); ("1:100", 100); ("1:200", 200);
    ("1:250", 250); ("1:500", 500); ("1:1000", 1000) ]%string.

Fixpoint dict_get (d : list (string * R)) (k : string) : option R :=
  match d with
  | [] => None
  | (k', v) :: d' => if String.eqb k' k then Some v else dict_get d' k
  end.

Definition compute_pixels_per_meter
    (scale_factor page_width_points page_height_points : R) (dpi : Z)
    : result R :=
  if Rleb scale_factor 0 then Raise (ValueError "scale_factor must be positive")
  else Ok ((1 / scale_factor) * INCHES_PER_METER * IZR dpi).

(** The loop of [infer_scale_string] over the items of a dict. *)
Fixpoint infer_scale_string_loop (items : list (string * R))
    (pixels_per_meter : R) (dpi : Z) : result (option string) :=
  match items with
  | [] => Ok None
  | (scale_string, scale_factor) :: rest =>
      expected_ppm <- compute_pixels_per_meter scale_factor 0 0 dpi ;;
      rel <- div (Rabs (pixels_per_meter - expected_ppm)) expected_ppm ;;
      if Rltb rel 0.05 then Ok (Some scale_string)
      else infer_scale_string_loop rest pixels_per_meter dpi
  end.

Definition infer_scale_string (pixels_per_meter : R) (dpi : Z)
    : result (option string) :=
  infer_scale_string_loop COMMON_SCALES pixels_per_meter dpi.

(** [page_info.dpi if page_info else 150]. *)
Definition dpi_of (page_info : option PageInfo) : Z :=
  match page_info with Some p => dpi p | None => 150%Z end.

Definition compute_scale_from_points
    (pixel_distance real_distance_meters : R) (page_number : Z)
    (page_info : option PageInfo) (file_id : option string)
    : result ScaleContext :=
  if Rleb pixel_distance 0 then
    Raise (ValueError "pixel_distance must be positive")
  else if Rleb real_distance_meters 0 then
    Raise (ValueError "real_distance_meters must be positive")
  else
    let pixels_per_meter := pixel_distance / real_distance_meters in
    let dpi := dpi_of page_info in
    scale_string <- infer_scale_string pixels_per_meter dpi ;;
    let scale_factor :=
      match scale_string with
      | Some s => dict_get COMMON_SCALES s
      | None => None
      end in
    Ok {| file_id := file_id;
          scale_string := scale_string;
          scale_factor := scale_factor;
          pixels_per_meter := Some pixels_per_meter;
          detection_method := DetectionMethod_value USER_CALIBRATION;
          confidence := 1;
          source_page := page_number;
          page_width_points := option_map width_points page_info;
          page_height_points := option_map height_points page_info;
          render_dpi := dpi;
          user_reference_px := Some pixel_distance;
          user_reference_m := Some real_distance_meters;
          is_active := true |}.

(** Default arguments: [page_number = 1], [page_info = None],
    [file_id = None]. *)
Definition compute_scale_from_points_default
    (pixel_distance real_distance_meters : R) : result ScaleContext :=
  compute_scale_from_points pixel_distance real_distance_meters 1 None None.

(** *** Conversions and validation *)

(** [ScaleContext.px_to_meters]. *)
Definition px_to_meters (self : ScaleContext) (px : R) : result R :=
  match pixels_per_meter self with
  | None =>
      Raise (ValueError "Scale not calibrated - pixels_per_meter is not set")
  | Some ppm =>
      if Reqb ppm 0 then
        Raise (ValueError "Scale not calibrated - pixels_per_meter is not set")
      else Ok (px / ppm)
  end.

(** [ScaleContext.meters_to_px]. *)
Definition meters_to_px (self : ScaleContext) (meters : R) : result R :=
  match pixels_per_meter self with
  | None =>
      Raise (ValueError "Scale not calibrated - pixels_per_meter is not set")
  | Some ppm => Ok (meters * ppm)
  end.

Definition validate_scale_tolerance_default : R := 0.05.

Definition validate_scale (scale : ScaleContext)
    (test_dimension_px expected_dimension_m tolerance : R) : result bool :=
  if negb (has_scale scale) then Ok false
  else
    computed_m <- px_to_meters scale test_dimension_px ;;
    relative_error <-
      div (Rabs (computed_m - expected_dimension_m)) expected_dimension_m ;;
    Ok (Rleb relative_error tolerance).

End ScaleCalibration.

(** ** measurement_engine.py *)

Module MeasurementEngine.
Import Py.

Definition Point : Type := (R * R)%type.

Record Sector : Type := mkSector {
  sector_id : string;
  file_id : string;
  page_number : Z;
  name : string;
  polygon_points : list Point
}.

(** One pass of the body of [for i in range(n)] in [Sector.contains_point];
    the state is [(inside, j)]. *)
Definition contains_point_body (pts : list Point) (x y : R)
    (st : bool * nat) (i : nat) : bool * nat :=
  let '(inside, j) := st in
  let '(xi, yi) := nth i pts (0, 0) in
  let '(xj, yj) := nth j pts (0, 0) in
  let crosses :=
    if xorb (Rltb y yi) (Rltb y yj)
    then Rltb x ((xj - xi) * (y - yi) / (yj - yi) + xi)
    else false in
  ((if crosses then negb inside else inside), i).

Definition contains_point (self : Sector) (x y : R) : bool :=
  let n := length (polygon_points self) in
  if (n <? 3)%nat then false
  else
    fst (fold_left (contains_point_body (polygon_points self) x y)
                   (seq 0 n) (false, (n - 1)%nat)).

(** A line of [MeasurementResult.assumptions]; the f-strings of the source
    carry these values. *)
Inductive Assumption : Type :=
| A_pixels_per_meter (v : R)
| A_segment_count (n : nat)
| A_require_both_endpoints (b : bool)
| A_wall_length_m (v : R)
| A_wall_height_m (v : R)
| A_note (s : string).

Record MeasurementResult : Type := mkMeasurementResult {
  measurement_type : string;
  value : R;
  unit : string;
  mr_file_id : string;
  mr_page_number : Z;
  confidence : R;
  method : string;
  assumptions : list Assumption;
  source : string;
  mr_sector_id : option string;
  scale_context_id : option string
}.

Definition VECTOR_GEOMETRY : string := "vector_geometry".

Definition shoelace_area_pixels (polygon_points : list Point) : result R :=
  let n := length polygon_points in
  if (n <? 3)%nat then
    Raise (ValueError "Polygon must have at least 3 points")
  else
    let area :=
      fold_left
        (fun area i =>
           let j := ((i + 1) mod n)%nat in
           let '(xi, yi) := nth i polygon_points (0, 0) in
           let '(xj, yj) := nth j polygon_points (0, 0) in
           area + xi * yj - xj * yi)
        (seq 0 n) 0 in
    Ok (Rabs area / 2).

Definition shoelace_perimeter_pixels (polygon_points : list Point)
    : result R :=
  let n := length polygon_points in
  if (n <? 2)%nat then
    Raise (ValueError "Polygon must have at least 2 points")
  else
    Ok (fold_left
          (fun perimeter i =>
             let j := ((i + 1) mod n)%nat in
             let '(xi, yi) := nth i polygon_points (0, 0) in
             let '(xj, yj) := nth j polygon_points (0, 0) in
             let distance := sqrt ((xj - xi) ^ 2 + (yj - yi) ^ 2) in
             perimeter + distance)
          (seq 0 n) 0).

(** *** Areas and perimeters in metres *)

Definition compute_sector_area_m2 (polygon_points : list Point)
    (pixels_per_meter : R) : result R :=
  if Rleb pixels_per_meter 0 then
    Raise (ValueError "pixels_per_meter must be positive")
  else
    area_pixels <- shoelace_area_pixels polygon_points ;;
    Ok (area_pixels / pixels_per_meter ^ 2).

Definition compute_sector_perimeter_m (polygon_points : list Point)
    (pixels_per_meter : R) : result R :=
  if Rleb pixels_per_meter 0 then
    Raise (ValueError "pixels_per_meter must be positive")
  else
    perimeter_pixels <- shoelace_perimeter_pixels polygon_points ;;
    Ok (perimeter_pixels / pixels_per_meter).

(** [calculate_polygon_area] and [calculate_polygon_perimeter], on the
    [pixels_per_meter] of the scale context they are given. *)
Definition calculate_polygon_area (polygon_points : list Point)
    (scale_pixels_per_meter : option R) : result R :=
  match scale_pixels_per_meter with
  | None => Raise (ValueError "ScaleContext must have pixels_per_meter set")
  | Some ppm => compute_sector_area_m2 polygon_points ppm
  end.

Definition calculate_polygon_perimeter (polygon_points : list Point)
    (scale_pixels_per_meter : option R) : result R :=
  match scale_pixels_per_meter with
  | None => Raise (ValueError "ScaleContext must have pixels_per_meter set")
  | Some ppm => compute_sector_perimeter_m polygon_points ppm
  end.

End MeasurementEngine.

(** ** vector_measurement.py: segments, ray casting, wall lengths *)

Module VectorMeasurement.
Import Py.

Definition Point : Type := (R * R)%type.

Record LineSegment : Type := mkLineSegment {
  x1 : R;
  y1 : R;
  x2 : R;
  y2 : R;
  page_number : Z
}.

Definition length_px (self : LineSegment) : R :=
  sqrt ((x2 self - x1 self) ^ 2 + (y2 self - y1 self) ^ 2).

Definition midpoint (self : LineSegment) : Point :=
  ((x1 self + x2 self) / 2, (y1 self + y2 self) / 2).

Definition angle_degrees (self : LineSegment) : R :=
  let angle_rad := atan2 (y2 self - y1 self) (x2 self - x1 self) in
  let angle_deg := degrees angle_rad in
  if Rltb angle_deg 0 then angle_deg + 180 else angle_deg.

Record WallSegment : Type := mkWallSegment {
  segment_id : string;
  segment : LineSegment;
  kind : string;
  ws_confidence : R
}.

Definition ws_length_px (self : WallSegment) : R := length_px (segment self).
Definition ws_page_number (self : WallSegment) : Z :=
  page_number (segment self).

(** One pass of the body of [for i in range(n)] in [point_in_polygon]. *)
Definition point_in_polygon_body (polygon_points : list Point) (x y : R)
    (st : bool * nat) (i : nat) : bool * nat :=
  let '(inside, j) := st in
  let '(xi, yi) := nth i polygon_points (0, 0) in
  let '(xj, yj) := nth j polygon_points (0, 0) in
  if (if xorb (Rltb y yi) (Rltb y yj)
      then Rltb x ((xj - xi) * (y - yi) / (yj - yi) + xi)
      else false)
  then (negb inside, i)
  else (inside, i).

Definition point_in_polygon (x y : R) (polygon_points : list Point) : bool :=
  let n := length polygon_points in
  if (n <? 3)%nat then false
  else
    fst (fold_left (point_in_polygon_body polygon_points x y)
                   (seq 0 n) (false, (n - 1)%nat)).

Definition segment_in_polygon (segment : LineSegment)
    (polygon_points : list Point) (require_both_endpoints : bool) : bool :=
  let p1_inside := point_in_polygon (x1 segment) (y1 segment) polygon_points in
  let p2_inside := point_in_polygon (x2 segment) (y2 segment) polygon_points in
  if require_both_endpoints then p1_inside && p2_inside
  else p1_inside || p2_inside.

(** The accumulators of the loop of [compute_wall_length_in_sector_m]. *)
Record WallAcc : Type := mkWallAcc {
  total_length_px : R;
  segment_count : nat;
  included_segment_ids : list string
}.

Definition wall_length_body (sector : MeasurementEngine.Sector)
    (require_both_endpoints : bool) (acc : WallAcc) (wall : WallSegment)
    : WallAcc :=
  if negb (ws_page_number wall =? MeasurementEngine.page_number sector)%Z
  then acc
  else if segment_in_polygon (segment wall)
            (MeasurementEngine.polygon_points sector) require_both_endpoints
  then {| total_length_px := total_length_px acc + ws_length_px wall;
          segment_count := S (segment_count acc);
          included_segment_ids :=
            included_segment_ids acc ++ [segment_id wall] |}
  else acc.

Definition wall_length_loop (wall_segments : list WallSegment)
    (sector : MeasurementEngine.Sector) (require_both_endpoints : bool)
    : WallAcc :=
  fold_left (wall_length_body sector require_both_endpoints) wall_segments
            {| total_length_px := 0; segment_count := 0;
               included_segment_ids := [] |}.

Definition compute_wall_length_in_sector_m
    (wall_segments : list WallSegment)
    (sector : MeasurementEngine.Sector)
    (scale_context : ScaleCalibration.ScaleContext)
    (require_both_endpoints : bool)
    : result MeasurementEngine.MeasurementResult :=
  if negb (ScaleCalibration.has_scale scale_context) then
    Raise (ValueError "ScaleContext must have valid pixels_per_meter")
  else
  match ScaleCalibration.pixels_per_meter scale_context with
  | None => Raise (ValueError "ScaleContext must have valid pixels_per_meter")
  | Some pixels_per_meter =>
        let acc :=
          wall_length_loop wall_segments sector require_both_endpoints in
        let total_length_m := total_length_px acc / pixels_per_meter in
        Ok {| MeasurementEngine.measurement_type := "sector_wall_length";
              MeasurementEngine.value := round_ndigits total_length_m 4;
              MeasurementEngine.unit := "m";
              MeasurementEngine.mr_file_id := MeasurementEngine.file_id sector;
              MeasurementEngine.mr_page_number :=
                MeasurementEngine.page_number sector;
              MeasurementEngine.confidence := 1;
              MeasurementEngine.method := MeasurementEngine.VECTOR_GEOMETRY;
              MeasurementEngine.assumptions :=
                [ MeasurementEngine.A_pixels_per_meter pixels_per_meter;
                  MeasurementEngine.A_segment_count (segment_count acc);
                  MeasurementEngine.A_require_both_endpoints
                    require_both_endpoints;
                  MeasurementEngine.A_note
                    "All line segments treated as walls (no layer filtering)" ];
              MeasurementEngine.source :=
                ("Sector: " ++ MeasurementEngine.name sector)%string;
              MeasurementEngine.mr_sector_id :=
                Some (MeasurementEngine.sector_id sector);
              MeasurementEngine.scale_context_id := None |}
  end.

(** The scan of the wall-length assumptions for the segment count. *)
Fixpoint find_segment_count (l : list MeasurementEngine.Assumption) : nat :=
  match l with
  | [] => 0%nat
  | MeasurementEngine.A_segment_count n :: _ => n
  | _ :: rest => find_segment_count rest
  end.

Definition compute_drywall_area_in_sector_m2
    (wall_segments : list WallSegment)
    (sector : MeasurementEngine.Sector)
    (scale_context : ScaleCalibration.ScaleContext)
    (wall_height_m : R)
    (require_both_endpoints : bool)
    : result MeasurementEngine.MeasurementResult :=
  if Rleb wall_height_m 0 then
    Raise (ValueError "wall_height_m must be positive")
  else
    wall_length_result <-
      compute_wall_length_in_sector_m wall_segments sector scale_context
        require_both_endpoints ;;
    let total_wall_length_m := MeasurementEngine.value wall_length_result in
    let drywall_area_m2 := total_wall_length_m * wall_height_m in
    let segment_count :=
      find_segment_count (MeasurementEngine.assumptions wall_length_result) in
    Ok {| MeasurementEngine.measurement_type := "sector_drywall_area";
          MeasurementEngine.value := round_ndigits drywall_area_m2 4;
          MeasurementEngine.unit := "m2";
          MeasurementEngine.mr_file_id := MeasurementEngine.file_id sector;
          MeasurementEngine.mr_page_number :=
            MeasurementEngine.page_number sector;
          MeasurementEngine.confidence := 1;
          MeasurementEngine.method := MeasurementEngine.VECTOR_GEOMETRY;
          MeasurementEngine.assumptions :=
            [ MeasurementEngine.A_wall_length_m total_wall_length_m;
              MeasurementEngine.A_wall_height_m wall_height_m;
              MeasurementEngine.A_pixels_per_meter
                (match ScaleCalibration.pixels_per_meter scale_context with
                 | Some p => p | None => 0 end);
              MeasurementEngine.A_segment_count segment_count;
              MeasurementEngine.A_note "All wall segments treated as drywall";
              MeasurementEngine.A_note
                "Single-sided area (multiply by 2 for both sides)";
              MeasurementEngine.A_note "Constant wall height assumed" ];
          MeasurementEngine.source :=
            ("Sector: " ++ MeasurementEngine.name sector)%string;
          MeasurementEngine.mr_sector_id :=
            Some (MeasurementEngine.sector_id sector);
          MeasurementEngine.scale_context_id := None |}.

(** *** Door symbols *)

Record DoorSymbol : Type := mkDoorSymbol {
  ds_page_number : Z;
  arc_center : Point;
  arc_radius_px : R;
  arc_start_angle : R;
  arc_end_angle : R;
  leaf_line : option LineSegment;
  width_m : option R;
  ds_confidence : R;
  detection_method : string;
  md_arc_index : nat;
  md_line_index : nat;
  md_is_roof_plan : bool
}.

(** The dict returned by [_analyze_bezier_arc]. *)
Record ArcInfo : Type := mkArcInfo {
  ai_center : Point;
  ai_radius : R;
  ai_start_angle : R;
  ai_end_angle : R;
  ai_arc_angle : R
}.

(** State of the candidate loop of [_analyze_bezier_arc]:
    [best_center], [best_error] ([None] is [float('inf')]) and
    [approx_radius]. *)
Definition bezier_candidate_body (x1 y1 x4 y4 : R)
    (st : option Point * option R * R) (c : Point)
    : option Point * option R * R :=
  let '(best_center, best_error, approx_radius) := st in
  let '(cx, cy) := c in
  let d1 := sqrt ((x1 - cx) ^ 2 + (y1 - cy) ^ 2) in
  let d4 := sqrt ((x4 - cx) ^ 2 + (y4 - cy) ^ 2) in
  let error := Rabs (d1 - d4) in
  if (match best_error with
      | None => true
      | Some be => Rltb error be
      end) && Rltb 5 d1
  then (Some (cx, cy), Some error, (d1 + d4) / 2)
  else st.

Definition normalize_360 (a : R) : R := if Rltb a 0 then a + 360 else a.

Definition _analyze_bezier_arc (p1 p2 p3 p4 : Point) : option ArcInfo :=
  let '(x1, y1) := p1 in
  let '(x4, y4) := p4 in
  let chord_length := sqrt ((x4 - x1) ^ 2 + (y4 - y1) ^ 2) in
  if Rltb chord_length 5 then None
  else
    let approx_radius := chord_length / sqrt 2 in
    let candidates := [ (x1, y4); (x4, y1) ] in
    let '(best_center, best_error, approx_radius) :=
      fold_left (bezier_candidate_body x1 y1 x4 y4) candidates
                (None, None, approx_radius) in
    match best_center, best_error with
    | Some (cx, cy), Some best_error =>
        if Rltb (approx_radius * 0.3) best_error then None
        else
          let start_angle :=
            normalize_360 (degrees (atan2 (y1 - cy) (x1 - cx))) in
          let end_angle :=
            normalize_360 (degrees (atan2 (y4 - cy) (x4 - cx))) in
          let angle_diff := Rabs (end_angle - start_angle) in
          let angle_diff :=
            if Rltb 180 angle_diff then 360 - angle_diff else angle_diff in
          if Rltb 70 angle_diff && Rltb angle_diff 110 then
            Some {| ai_center := (cx, cy);
                    ai_radius := approx_radius;
                    ai_start_angle := start_angle;
                    ai_end_angle := end_angle;
                    ai_arc_angle := angle_diff |}
          else None
    | _, _ => None
    end.

(** An entry of [drawing["items"]]: a curve [("c", p1, p2, p3, p4)] (the
    source also accepts one without [p4]), a line [("l", p1, p2)], or
    anything else. *)
Inductive Item : Type :=
| ItemCurve (p1 p2 p3 : Point) (p4 : option Point)
| ItemLine (p1 p2 : Point)
| ItemOther.

(** A page as the PDF library hands it over: the items of each drawing and
    the verdict of [_is_roof_plan_page]. *)
Record Page : Type := mkPage {
  drawings : list (list Item);
  is_roof_plan : bool
}.

(** What the source finds outside itself: whether PyMuPDF is installed,
    whether the path exists, and the pages [fitz.open] yields. *)
Record PdfEnv : Type := mkPdfEnv {
  FITZ_AVAILABLE : bool;
  path_exists : bool;
  doc : list Page
}.

(** An entry of the list [arcs]. *)
Record Arc : Type := mkArc {
  center : Point;
  radius : R;
  start_angle : R;
  end_angle : R
}.

(** The body of [for item in items]; the state is [(arcs, lines)]. *)
Definition collect_item_body (page_number : Z) (scale : R)
    (min_radius_px max_radius_px : R)
    (st : list Arc * list LineSegment) (item : Item)
    : list Arc * list LineSegment :=
  let '(arcs, lines) := st in
  match item with
  | ItemCurve p1 p2 p3 p4 =>
      let p4 := match p4 with Some p => p | None => p3 end in
      match _analyze_bezier_arc p1 p2 p3 p4 with
      | Some arc_info =>
          let center_x := fst (ai_center arc_info) * scale in
          let center_y := snd (ai_center arc_info) * scale in
          let radius := ai_radius arc_info * scale in
          if Rleb min_radius_px radius && Rleb radius max_radius_px then
            (arcs ++ [ {| center := (center_x, center_y);
                          radius := radius;
                          start_angle := ai_start_angle arc_info;
                          end_angle := ai_end_angle arc_info |} ], lines)
          else st
      | None => st
      end
  | ItemLine p1 p2 =>
      let x1 := fst p1 * scale in
      let y1 := snd p1 * scale in
      let x2 := fst p2 * scale in
      let y2 := snd p2 * scale in
      let length := sqrt ((x2 - x1) ^ 2 + (y2 - y1) ^ 2) in
      if Rleb min_radius_px length && Rleb length max_radius_px then
        (arcs, lines ++ [ {| x1 := x1; y1 := y1; x2 := x2; y2 := y2;
                             page_number := page_number |} ])
      else st
  | ItemOther => st
  end.

Definition collect_items (page_number : Z) (scale : R)
    (min_radius_px max_radius_px : R) (drawings : list (list Item))
    : list Arc * list LineSegment :=
  fold_left
    (fun st items =>
       fold_left (collect_item_body page_number scale
                    min_radius_px max_radius_px) items st)
    drawings ([], []).

(** [best_line], [best_line_idx] and [best_score] once a line matched. *)
Record BestLine : Type := mkBestLine {
  best_line : LineSegment;
  best_line_idx : nat;
  best_score : R
}.

(** The body of [for j, line in enumerate(lines)]. *)
Definition match_line_body (center : Point) (radius : R)
    (max_center_dist_ratio max_length_diff_ratio : R)
    (used_lines : list nat)
    (st : result (option BestLine)) (jl : nat * LineSegment)
    : result (option BestLine) :=
  best <- st ;;
  let '(j, line) := jl in
  if existsb (Nat.eqb j) used_lines then Ok best
  else
    let dist_to_p1 :=
      sqrt ((x1 line - fst center) ^ 2 + (y1 line - snd center) ^ 2) in
    let dist_to_p2 :=
      sqrt ((x2 line - fst center) ^ 2 + (y2 line - snd center) ^ 2) in
    let min_dist := Rmin dist_to_p1 dist_to_p2 in
    length_diff <- div (Rabs (length_px line - radius)) radius ;;
    if Rltb min_dist (radius * max_center_dist_ratio)
       && Rltb length_diff max_length_diff_ratio
    then
      let score := min_dist + length_diff * radius in
      if match best with
         | None => true
         | Some b => Rltb score (best_score b)
         end
      then Ok (Some {| best_line := line; best_line_idx := j;
                       best_score := score |})
      else Ok best
    else Ok best.

Definition enumerate {A : Type} (l : list A) : list (nat * A) :=
  combine (seq 0 (List.length l)) l.

(** State of [for i, arc in enumerate(arcs)]: [doors], [used_arcs],
    [used_lines]. *)
Definition match_arc_body (page_number : Z) (is_roof_plan : bool)
    (lines : list LineSegment)
    (max_center_dist_ratio max_length_diff_ratio base_confidence : R)
    (st : result (list DoorSymbol * list nat * list nat))
    (ia : nat * Arc)
    : result (list DoorSymbol * list nat * list nat) :=
  s <- st ;;
  let '(doors, used_arcs, used_lines) := s in
  let '(i, arc) := ia in
  if existsb (Nat.eqb i) used_arcs then Ok s
  else
    best <- fold_left
              (match_line_body (center arc) (radius arc)
                 max_center_dist_ratio max_length_diff_ratio used_lines)
              (enumerate lines) (Ok None) ;;
    match best with
    | Some b =>
        let door :=
          {| ds_page_number := page_number;
             arc_center := center arc;
             arc_radius_px := radius arc;
             arc_start_angle := start_angle arc;
             arc_end_angle := end_angle arc;
             leaf_line := Some (best_line b);
             width_m := None;
             ds_confidence := base_confidence;
             detection_method := "arc_pattern";
             md_arc_index := i;
             md_line_index := best_line_idx b;
             md_is_roof_plan := is_roof_plan |} in
        Ok (doors ++ [door], i :: used_arcs, best_line_idx b :: used_lines)
    | None => Ok s
    end.

Definition extract_min_door_width_m_default : R := 0.5.
Definition extract_max_door_width_m_default : R := 2.5.

Definition extract_door_symbols_from_page (env : PdfEnv)
    (page_number : Z) (dpi : Z)
    (min_door_width_m max_door_width_m : R)
    (pixels_per_meter : option R)
    : result (list DoorSymbol) :=
  if negb (FITZ_AVAILABLE env) then
    Raise (ImportError "PyMuPDF (fitz) is required for door detection")
  else if negb (path_exists env) then
    Raise (FileNotFoundError "PDF file not found")
  else
    let '(min_radius_px, max_radius_px) :=
      match pixels_per_meter with
      | Some ppm =>
          if Reqb ppm 0 then (20, 200)
          else (min_door_width_m * ppm, max_door_width_m * ppm)
      | None => (20, 200)
      end in
    let page_idx := (page_number - 1)%Z in
    if ((page_idx <? 0) || (Z.of_nat (List.length (doc env)) <=? page_idx))%Z
    then Raise (ValueError "Invalid page number")
    else
      match nth_error (doc env) (Z.to_nat page_idx) with
      | None => Raise (ValueError "Invalid page number")
      | Some page =>
          let scale := IZR dpi / 72 in
          let '(arcs, lines) :=
            collect_items page_number scale min_radius_px max_radius_px
                          (drawings page) in
          let '(max_center_dist_ratio, max_length_diff_ratio,
                base_confidence) :=
            if is_roof_plan page then (0.25, 0.20, 0.70)
            else (0.6, 0.3, 0.85) in
          s <- fold_left
                 (match_arc_body page_number (is_roof_plan page) lines
                    max_center_dist_ratio max_length_diff_ratio
                    base_confidence)
                 (enumerate arcs) (Ok ([], [], [])) ;;
          Ok (fst (fst s))
      end.

Definition measure_dpi_default : Z := 150.
Definition measure_min_door_width_m_default : R := 0.62.
Definition measure_max_door_width_m_default : R := 2.0.

(** The body of [for door in doors]: [door.width_m] is set. *)
Definition set_width_m (pixels_per_meter : R) (door : DoorSymbol)
    : result DoorSymbol :=
  w <- div (arc_radius_px door) pixels_per_meter ;;
  Ok {| ds_page_number := ds_page_number door;
        arc_center := arc_center door;
        arc_radius_px := arc_radius_px door;
        arc_start_angle := arc_start_angle door;
        arc_end_angle := arc_end_angle door;
        leaf_line := leaf_line door;
        width_m := Some w;
        ds_confidence := ds_confidence door;
        detection_method := detection_method door;
        md_arc_index := md_arc_index door;
        md_line_index := md_line_index door;
        md_is_roof_plan := md_is_roof_plan door |}.

Fixpoint set_widths (pixels_per_meter : R) (doors : list DoorSymbol)
    : result (list DoorSymbol) :=
  match doors with
  | [] => Ok []
  | door :: rest =>
      door' <- set_width_m pixels_per_meter door ;;
      rest' <- set_widths pixels_per_meter rest ;;
      Ok (door' :: rest')
  end.

Definition measure_doors_on_page (env : PdfEnv)
    (page_number : Z) (pixels_per_meter : R) (dpi : Z)
    (min_door_width_m max_door_width_m : R)
    : result (list DoorSymbol) :=
  doors <- extract_door_symbols_from_page env page_number dpi
             min_door_width_m max_door_width_m (Some pixels_per_meter) ;;
  set_widths pixels_per_meter doors.

(** The call with the defaults of [dpi], [min_door_width_m] and
    [max_door_width_m]. *)
Definition measure_doors_on_page_default (env : PdfEnv)
    (page_number : Z) (pixels_per_meter : R) : result (list DoorSymbol) :=
  measure_doors_on_page env page_number pixels_per_meter
    measure_dpi_default measure_min_door_width_m_default
    measure_max_door_width_m_default.


End VectorMeasurement.

(** ** cv_pipeline.py: overlap suppression *)

Module CvPipeline.
Import Py.

Record BoundingBox : Type := mkBoundingBox {
  x : R;
  y : R;
  width : R;
  height : R
}.

Definition area (self : BoundingBox) : R := width self * height self.

Record DetectedObject : Type := mkDetectedObject {
  object_id : string;
  object_type : string;
  bbox : BoundingBox;
  confidence : R;
  page_number : Z
}.

(** [sorted(l, key=key, reverse=True)]: descending by key, and stable
    (items with equal keys keep their order). *)
Fixpoint insert_desc {A : Type} (key : A -> R) (a : A) (l : list A) : list A :=
  match l with
  | [] => [a]
  | b :: l' =>
      if Rltb (key a) (key b) then b :: insert_desc key a l' else a :: l
  end.

Definition sorted_reverse {A : Type} (key : A -> R) (l : list A) : list A :=
  fold_right (insert_desc key) [] l.

Definition _compute_iou (box1 box2 : BoundingBox) : R :=
  let x1 := Rmax (x box1) (x box2) in
  let y1 := Rmax (y box1) (y box2) in
  let x2 := Rmin (x box1 + width box1) (x box2 + width box2) in
  let y2 := Rmin (y box1 + height box1) (y box2 + height box2) in
  if Rleb x2 x1 || Rleb y2 y1 then 0
  else
    let intersection := (x2 - x1) * (y2 - y1) in
    let union := area box1 + area box2 - intersection in
    if Rltb 0 union then intersection / union else 0.

(** The value of [sorted_objects[j]] for an index out of range is never
    read by the source; [nth] needs one. *)
Definition no_object : DetectedObject :=
  {| object_id := ""; object_type := "";
     bbox := {| x := 0; y := 0; width := 0; height := 0 |};
     confidence := 0; page_number := 0 |}.

(** The body of [for j in range(i + 1, len(sorted_objects))]; the state is
    the set [suppressed]. *)
Definition suppress_body (sorted_objects : list DetectedObject)
    (obj : DetectedObject) (iou_threshold : R)
    (suppressed : list nat) (j : nat) : list nat :=
  if existsb (Nat.eqb j) suppressed then suppressed
  else
    let iou := _compute_iou (bbox obj) (bbox (nth j sorted_objects no_object)) in
    if Rltb iou_threshold iou then j :: suppressed else suppressed.

(** The body of [for i, obj in enumerate(sorted_objects)]; the state is
    [(kept, suppressed)]. *)
Definition merge_body (sorted_objects : list DetectedObject)
    (iou_threshold : R)
    (st : list DetectedObject * list nat) (io : nat * DetectedObject)
    : list DetectedObject * list nat :=
  let '(kept, suppressed) := st in
  let '(i, obj) := io in
  if existsb (Nat.eqb i) suppressed then st
  else
    (kept ++ [obj],
     fold_left (suppress_body sorted_objects obj iou_threshold)
               (seq (i + 1) (List.length sorted_objects - (i + 1)))
               suppressed).

Definition _merge_overlapping_detections (objects : list DetectedObject)
    (iou_threshold : R) : list DetectedObject :=
  if (List.length objects <=? 1)%nat then objects
  else
    let sorted_objects := sorted_reverse confidence objects in
    fst (fold_left (merge_body sorted_objects iou_threshold)
                   (combine (seq 0 (List.length sorted_objects)) sorted_objects)
                   ([], [])).

Definition iou_threshold_default : R := 0.5.

(** The same loop, recording the positions (in [sorted_objects]) of the
    objects it keeps instead of the objects; used to state which
    candidates survive. *)
Definition merge_body_idx (sorted_objects : list DetectedObject)
    (iou_threshold : R)
    (st : list nat * list nat) (io : nat * DetectedObject)
    : list nat * list nat :=
  let '(kept, suppressed) := st in
  let '(i, obj) := io in
  if existsb (Nat.eqb i) suppressed then st
  else
    (kept ++ [i],
     fold_left (suppress_body sorted_objects obj iou_threshold)
               (seq (i + 1) (List.length sorted_objects - (i + 1)))
               suppressed).

Definition kept_positions (sorted_objects : list DetectedObject)
    (iou_threshold : R) : list nat :=
  fst (fold_left (merge_body_idx sorted_objects iou_threshold)
                 (combine (seq 0 (List.length sorted_objects)) sorted_objects)
                 ([], [])).

(** *** Bounding boxes *)

(** [BoundingBox.center]. *)
Definition center (self : BoundingBox) : R * R :=
  (x self + width self / 2, y self + height self / 2).

(** [BoundingBox.contains_point]. *)
Definition contains_point (self : BoundingBox) (px py : R) : bool :=
  (Rleb (x self) px && Rleb px (x self + width self))
  && (Rleb (y self) py && Rleb py (y self + height self)).

(** [BoundingBox.overlaps]. *)
Definition overlaps (self other : BoundingBox) : bool :=
  negb (Rltb (x self + width self) (x other)
        || Rltb (x other + width other) (x self)
        || Rltb (y self + height self) (y other)
        || Rltb (y other + height other) (y self)).

End CvPipeline.

(** ** wall_opening_detector.py *)

Module WallOpeningDetector.
Import Py.

Record WallOpening : Type := mkWallOpening {
  opening_id : string;
  page_number : Z;
  center_x : R;
  center_y : R;
  width_px : R;
  angle_degrees : R;
  wall_thickness_px : R;
  width_m : option R;
  confidence : R;
  is_door : bool;
  detection_signals : list string;
  md_door_type : option string
}.

Record DoorDetectionResult : Type := mkDoorDetectionResult {
  dr_page_number : Z;
  doors : list WallOpening;
  total_openings_analyzed : nat;
  wall_mask_generated : bool;
  hatch_regions_filtered : nat;
  warnings : list string
}.

Definition HatchRegion : Type := (Z * Z * Z * Z)%type.

(** The inner loop of [filter_openings_in_hatch], with its [break]. *)
Fixpoint in_hatch_loop (opening : WallOpening)
    (hatch_regions : list HatchRegion) : bool :=
  match hatch_regions with
  | [] => false
  | (hx, hy, hw, hh) :: rest =>
      if Rleb (IZR hx) (center_x opening)
         && Rleb (center_x opening) (IZR (hx + hw))
         && (Rleb (IZR hy) (center_y opening)
             && Rleb (center_y opening) (IZR (hy + hh)))
      then true
      else in_hatch_loop opening rest
  end.

Definition filter_openings_in_hatch (openings : list WallOpening)
    (hatch_regions : list HatchRegion) : list WallOpening :=
  match hatch_regions with
  | [] => openings
  | _ :: _ =>
      fold_left
        (fun filtered opening =>
           if negb (in_hatch_loop opening hatch_regions)
           then filtered ++ [opening] else filtered)
        openings []
  end.

(** *** Width validation and deduplication *)

Definition standard_widths_default : list R :=
  [0.625; 0.755; 0.885; 1.01; 1.135; 1.26; 1.385; 1.51; 1.76; 2.01].

(** [min(...)] of a sequence of floats; an empty one raises. *)
Definition py_min (l : list R) : result R :=
  match l with
  | [] => Raise (ValueError "min() arg is an empty sequence")
  | a :: rest => Ok (fold_left Rmin rest a)
  end.

(** The body of the loop of [validate_door_openings]. *)
Definition validate_body (pixels_per_meter : R)
    (min_door_width_m max_door_width_m : R) (standard_widths : list R)
    (st : result (list WallOpening)) (opening : WallOpening)
    : result (list WallOpening) :=
  validated <- st ;;
  width_m <- div (width_px opening) pixels_per_meter ;;
  if Rleb min_door_width_m width_m && Rleb width_m max_door_width_m then
    min_deviation <-
      py_min (map (fun std => Rabs (width_m - std)) standard_widths) ;;
    let '(conf, signal) :=
      if Rltb min_deviation 0.05 then (0.9, "standard_width"%string)
      else if Rltb min_deviation 0.10 then (0.75, "near_standard_width"%string)
      else (0.6, "non_standard_width"%string) in
    let door_type :=
      if Rltb width_m 0.70 then "narrow"%string
      else if Rltb width_m 0.95 then "standard"%string
      else if Rltb width_m 1.30 then "wide"%string
      else "double"%string in
    Ok (validated ++
        [ {| opening_id := opening_id opening;
             page_number := page_number opening;
             center_x := center_x opening;
             center_y := center_y opening;
             width_px := width_px opening;
             angle_degrees := angle_degrees opening;
             wall_thickness_px := wall_thickness_px opening;
             width_m := Some width_m;
             confidence := conf;
             is_door := true;
             detection_signals := detection_signals opening ++ [signal];
             md_door_type := Some door_type |} ])
  else Ok validated.

Definition validate_door_openings (openings : list WallOpening)
    (pixels_per_meter : R) (min_door_width_m max_door_width_m : R)
    (standard_widths : option (list R)) : result (list WallOpening) :=
  let standard_widths :=
    match standard_widths with
    | None => standard_widths_default
    | Some l => l
    end in
  fold_left (validate_body pixels_per_meter min_door_width_m
               max_door_width_m standard_widths)
            openings (Ok []).

(** The scan of [kept] in [deduplicate_openings], with its [break]. *)
Fixpoint is_duplicate_loop (opening : WallOpening) (kept : list WallOpening)
    (distance_threshold_px : R) : bool :=
  match kept with
  | [] => false
  | kept_opening :: rest =>
      let dist :=
        sqrt ((center_x opening - center_x kept_opening) ^ 2 +
              (center_y opening - center_y kept_opening) ^ 2) in
      if Rltb dist distance_threshold_px then true
      else is_duplicate_loop opening rest distance_threshold_px
  end.

Definition deduplicate_body (distance_threshold_px : R)
    (st : list WallOpening * list string) (opening : WallOpening)
    : list WallOpening * list string :=
  let '(kept, used) := st in
  if existsb (String.eqb (opening_id opening)) used then st
  else if is_duplicate_loop opening kept distance_threshold_px then st
  else (kept ++ [opening], opening_id opening :: used).

Definition deduplicate_openings (openings : list WallOpening)
    (distance_threshold_px : R) : list WallOpening :=
  if (List.length openings <=? 1)%nat then openings
  else
    let sorted_openings := CvPipeline.sorted_reverse confidence openings in
    fst (fold_left (deduplicate_body distance_threshold_px)
                   sorted_openings ([], [])).

Definition distance_threshold_px_default : R := 50.

(** *** The pipeline entry point *)

(** [int(x)] of a float: truncation towards zero. *)
Definition int_of_float (v : R) : Z :=
  if Rleb 0 v then Int_part v else (- Int_part (- v))%Z.

(** [str(e)] of an exception. *)
Definition exn_str (e : exn) : string :=
  match e with
  | ValueError m => m
  | ZeroDivisionError => "float division by zero"
  | ImportError m => m
  | FileNotFoundError m => m
  | RuntimeError m => m
  end.

(** A wall mask, as far as the entry point looks at it: [np.sum]. *)
Record WallMask : Type := mkWallMask {
  mask_sum : Z
}.

(** The steps the entry point calls and does not catch or compute itself:
    library availability, rendering, mask extraction, gap finding and hatch
    detection, each with the outcome it has on the given arguments. *)
Record Steps : Type := mkSteps {
  CV2_AVAILABLE : bool;
  FITZ_AVAILABLE : bool;
  render_pdf_page_high_dpi : string -> Z -> Z -> result string;
  extract_wall_mask : string -> option string -> result (option WallMask);
  find_wall_openings : WallMask -> Z -> Z -> Z -> result (list WallOpening);
  detect_hatch_regions : string -> result (list HatchRegion)
}.

Definition empty_result (page_number : Z) (warnings : list string)
    : DoorDetectionResult :=
  {| dr_page_number := page_number;
     doors := [];
     total_openings_analyzed := 0;
     wall_mask_generated := false;
     hatch_regions_filtered := 0;
     warnings := warnings |}.

Definition min_door_width_m_default : R := 0.60.
Definition max_door_width_m_default : R := 2.20.

Definition detect_doors_from_wall_openings (env : Steps)
    (pdf_path : string) (page_number scale dpi : Z)
    (min_door_width_m max_door_width_m : R)
    (debug_output_dir : option string) : result DoorDetectionResult :=
  if negb (CV2_AVAILABLE env) then
    Ok (empty_result page_number ["OpenCV not available"%string])
  else if negb (FITZ_AVAILABLE env) then
    Ok (empty_result page_number ["PyMuPDF not available"%string])
  else
    let METERS_PER_INCH := 0.0254 in
    paper_meters_per_real_meter <- div 1 (IZR scale) ;;
    let inches_per_paper_meter := 1 / METERS_PER_INCH in
    let pixels_per_meter :=
      paper_meters_per_real_meter * inches_per_paper_meter * IZR dpi in
    match render_pdf_page_high_dpi env pdf_path page_number dpi with
    | Raise e =>
        Ok (empty_result page_number
              [("Failed to render PDF: " ++ exn_str e)%string])
    | Ok image_path =>
        wall_mask <- extract_wall_mask env image_path debug_output_dir ;;
        match wall_mask with
        | None =>
            Ok (empty_result page_number ["No walls detected in image"%string])
        | Some mask =>
            if (mask_sum mask =? 0)%Z then
              Ok (empty_result page_number
                    ["No walls detected in image"%string])
            else
              let min_opening_px :=
                int_of_float (min_door_width_m * pixels_per_meter) in
              let max_opening_px :=
                int_of_float (max_door_width_m * pixels_per_meter) in
              openings <- find_wall_openings env mask min_opening_px
                            max_opening_px page_number ;;
              let total_openings := List.length openings in
              hatch_regions <- detect_hatch_regions env image_path ;;
              let hatch_filtered := List.length hatch_regions in
              let openings :=
                match hatch_regions with
                | [] => openings
                | _ :: _ => filter_openings_in_hatch openings hatch_regions
                end in
              doors <- validate_door_openings openings pixels_per_meter
                         min_door_width_m max_door_width_m None ;;
              let doors :=
                deduplicate_openings doors distance_threshold_px_default in
              Ok {| dr_page_number := page_number;
                    doors := doors;
                    total_openings_analyzed := total_openings;
                    wall_mask_generated := true;
                    hatch_regions_filtered := hatch_filtered;
                    warnings := [] |}
        end
    end.


End WallOpeningDetector.

(** ** Python text helpers *)

Module PyText.

(** [str(n)] of an int, as the f-strings print it. *)
Definition str_int (n : Z) : string :=
  DecimalString.NilEmpty.string_of_int (Z.to_int n).

End PyText.

(** ** scale_calibration.py: the scale written on a page *)

Module ScaleDetection.
Import Py ScaleCalibration.

(** The regular expressions of the source: those of
    [patterns_with_confidence] ("Massstab 1:N", "SCALE 1:N", "M 1:N", and a
    plain "1:N" not preceded by a digit or a slash) and the plain pattern
    of [SCALE_PATTERNS] (not preceded by a digit). *)
Inductive Pattern : Type :=
| P_MASSSTAB | P_SCALE | P_M | P_PLAIN_NO_SLASH | P_PLAIN.

(** What the source finds outside itself.  [re_search pattern text] is
    [None] when [re.search(pattern, text)] finds no match, and otherwise
    the outcome of [int(match.group(1))] for the match: the integer, or
    the [ValueError] that [int] raises on a digit run longer than the
    interpreter allows (4300 digits unless configured otherwise).
    [extract_page_text] is the outcome of the text extraction of a
    page. *)
Record TextEnv : Type := mkTextEnv {
  re_search : Pattern -> string -> option (result Z);
  extract_page_text : string -> Z -> result string
}.

Definition SCALE_PATTERNS : list Pattern :=
  [ P_M; P_MASSSTAB; P_SCALE; P_PLAIN ].

(** The loop of [parse_scale_from_text]. *)
Fixpoint parse_loop (env : TextEnv) (patterns : list Pattern)
    (text : string) : result (option (string * R)) :=
  match patterns with
  | [] => Ok None
  | pattern :: rest =>
      match re_search env pattern text with
      | Some converted =>
          denominator <- converted ;;
          if ((1 <=? denominator) && (denominator <=? 10000))%Z then
            Ok (Some (("1:" ++ PyText.str_int denominator)%string,
                      IZR denominator))
          else parse_loop env rest text
      | None => parse_loop env rest text
      end
  end.

Definition parse_scale_from_text (env : TextEnv) (text : string)
    : result (option (string * R)) :=
  parse_loop env SCALE_PATTERNS text.

Definition patterns_with_confidence : list (Pattern * R) :=
  [ (P_MASSSTAB, 0.95); (P_SCALE, 0.90); (P_M, 0.85);
    (P_PLAIN_NO_SLASH, 0.70) ].

(** The loop of [detect_scale_from_text]. *)
Fixpoint detect_loop (env : TextEnv) (patterns : list (Pattern * R))
    (page_text : string) : result (option (string * R * R)) :=
  match patterns with
  | [] => Ok None
  | (pattern, confidence) :: rest =>
      match re_search env pattern page_text with
      | Some converted =>
          denominator <- converted ;;
          if ((1 <=? denominator) && (denominator <=? 10000))%Z then
            Ok (Some (("1:" ++ PyText.str_int denominator)%string,
                      IZR denominator, confidence))
          else detect_loop env rest page_text
      | None => detect_loop env rest page_text
      end
  end.

Definition detect_scale_from_text (env : TextEnv) (page_text : string)
    : result (option (string * R * R)) :=
  detect_loop env patterns_with_confidence page_text.

(** The context of a page on which no scale was read. *)
Definition no_scale_on_page (page_number : Z) (page_info : PageInfo)
    (file_id : option string) : ScaleContext :=
  {| file_id := file_id;
     scale_string := None;
     scale_factor := None;
     pixels_per_meter := None;
     detection_method := DetectionMethod_value NONE;
     confidence := 0;
     source_page := page_number;
     page_width_points := Some (width_points page_info);
     page_height_points := Some (height_points page_info);
     render_dpi := dpi page_info;
     user_reference_px := None;
     user_reference_m := None;
     is_active := true |}.

Definition detect_scale_from_page (env : TextEnv) (file_path : string)
    (page_number : Z) (page_info : PageInfo) (file_id : option string)
    : result ScaleContext :=
  match extract_page_text env file_path page_number with
  | Raise e => Ok (no_scale_on_page page_number page_info file_id)
  | Ok page_text =>
      detected <- detect_scale_from_text env page_text ;;
      match detected with
      | None => Ok (no_scale_on_page page_number page_info file_id)
      | Some (scale_string, scale_factor, confidence) =>
          pixels_per_meter <-
            compute_pixels_per_meter scale_factor (width_points page_info)
              (height_points page_info) (dpi page_info) ;;
          Ok {| file_id := file_id;
                scale_string := Some scale_string;
                scale_factor := Some scale_factor;
                pixels_per_meter := Some pixels_per_meter;
                detection_method := DetectionMethod_value TEXT_SCALE;
                confidence := confidence;
                source_page := page_number;
                page_width_points := Some (width_points page_info);
                page_height_points := Some (height_points page_info);
                render_dpi := dpi page_info;
                user_reference_px := None;
                user_reference_m := None;
                is_active := true |}
      end
  end.

(** plan_ingestion.PlanDocument; a page is listed with its
    [page_number]. *)
Record PlanDocument : Type := mkPlanDocument {
  doc_file_id : string;
  doc_file_path : string;
  total_pages : Z;
  pages : list (Z * PageInfo)
}.

(** [PlanDocument.get_page]. *)
Fixpoint get_page_loop (pages : list (Z * PageInfo)) (page_number : Z)
    : option PageInfo :=
  match pages with
  | [] => None
  | (n, page) :: rest =>
      if (n =? page_number)%Z then Some page
      else get_page_loop rest page_number
  end.

Definition get_page (self : PlanDocument) (page_number : Z)
    : option PageInfo :=
  get_page_loop (pages self) page_number.

(** The context returned when no searched page gave a scale. *)
Definition no_scale_in_document (document : PlanDocument) : ScaleContext :=
  {| file_id := Some (doc_file_id document);
     scale_string := None;
     scale_factor := None;
     pixels_per_meter := None;
     detection_method := DetectionMethod_value NONE;
     confidence := 0;
     source_page := 1;
     page_width_points := None;
     page_height_points := None;
     render_dpi := 150;
     user_reference_px := None;
     user_reference_m := None;
     is_active := true |}.

(** The loop of [detect_scale_from_document], with its early [return];
    the state is [best_result] and [best_confidence]. *)
Fixpoint document_loop (env : TextEnv) (document : PlanDocument)
    (search_pages : list Z) (best_result : option ScaleContext)
    (best_confidence : R) : result ScaleContext :=
  match search_pages with
  | [] =>
      match best_result with
      | Some r => Ok r
      | None => Ok (no_scale_in_document document)
      end
  | page_num :: rest =>
      match get_page document page_num with
      | None => document_loop env document rest best_result best_confidence
      | Some page_info =>
          r <- detect_scale_from_page env (doc_file_path document) page_num
                 page_info (Some (doc_file_id document)) ;;
          if Rleb 0.9 (confidence r) then Ok r
          else if Rltb best_confidence (confidence r) then
            document_loop env document rest (Some r) (confidence r)
          else document_loop env document rest best_result best_confidence
      end
  end.

(** [list(range(1, document.total_pages + 1))]. *)
Definition all_pages (document : PlanDocument) : list Z :=
  map Z.of_nat (seq 1 (Z.to_nat (total_pages document))).

Definition detect_scale_from_document (env : TextEnv)
    (document : PlanDocument) (search_pages : option (list Z))
    : result ScaleContext :=
  let search_pages :=
    match search_pages with
    | None => all_pages document
    | Some l => l
    end in
  document_loop env document search_pages None 0.

End ScaleDetection.

(** ** vector_measurement.py: the line and wall segments of a page *)

Module VectorExtraction.
Import Py.

(** An entry of [drawing["items"]] as the line extraction reads it: a
    moveto [("m", p)], a line [("l", p1, p2)], a rectangle [("re", rect)]
    with the corners of [rect], a curve [("c", p1, p2, p3, p4)] (or one
    without [p4], whose last entry is then [p3]), or anything else. *)
Inductive Item : Type :=
| ItemMove (p : VectorMeasurement.Point)
| ItemLine (p1 p2 : VectorMeasurement.Point)
| ItemRect (rect_x0 rect_y0 rect_x1 rect_y1 : R)
| ItemCurve (p1 p2 p3 : VectorMeasurement.Point)
            (p4 : option VectorMeasurement.Point)
| ItemOther.

Record Page : Type := mkPage {
  drawings : list (list Item)
}.

(** What the source finds outside itself: whether PyMuPDF is installed,
    whether the path exists, the pages [fitz.open] yields, and the hex
    digits [uuid.uuid4().hex[:12]] gives at its successive calls. *)
Record PdfEnv : Type := mkPdfEnv {
  FITZ_AVAILABLE : bool;
  path_exists : bool;
  doc : list Page;
  uuid4_hex : nat -> string
}.

(** The length check and the [segments.append] that the source writes out
    for a line, for each side of a rectangle and for a curve. *)
Definition append_if_long (page_number : Z) (min_length_px : R)
    (segments : list VectorMeasurement.LineSegment) (ax ay bx by_ : R)
    : list VectorMeasurement.LineSegment :=
  let length := sqrt ((bx - ax) ^ 2 + (by_ - ay) ^ 2) in
  if Rleb min_length_px length then
    segments ++ [ {| VectorMeasurement.x1 := ax;
                     VectorMeasurement.y1 := ay;
                     VectorMeasurement.x2 := bx;
                     VectorMeasurement.y2 := by_;
                     VectorMeasurement.page_number := page_number |} ]
  else segments.

(** The body of [for item in items]; [current_point] is written and never
    read, and is left out. *)
Definition line_item_body (page_number : Z) (scale min_length_px : R)
    (segments : list VectorMeasurement.LineSegment) (item : Item)
    : list VectorMeasurement.LineSegment :=
  match item with
  | ItemMove _ => segments
  | ItemLine p1 p2 =>
      append_if_long page_number min_length_px segments
        (fst p1 * scale) (snd p1 * scale) (fst p2 * scale) (snd p2 * scale)
  | ItemRect rect_x0 rect_y0 rect_x1 rect_y1 =>
      let x0 := rect_x0 * scale in
      let y0 := rect_y0 * scale in
      let x1 := rect_x1 * scale in
      let y1 := rect_y1 * scale in
      let rect_segments :=
        [ (x0, y0, x1, y0); (x1, y0, x1, y1);
          (x1, y1, x0, y1); (x0, y1, x0, y0) ] in
      fold_left
        (fun segments (r : R * R * R * R) =>
           let '(rx1, ry1, rx2, ry2) := r in
           append_if_long page_number min_length_px segments rx1 ry1 rx2 ry2)
        rect_segments segments
  | ItemCurve p1 _ p3 p4 =>
      let p4 := match p4 with Some p => p | None => p3 end in
      append_if_long page_number min_length_px segments
        (fst p1 * scale) (snd p1 * scale) (fst p4 * scale) (snd p4 * scale)
  | ItemOther => segments
  end.

Definition line_min_length_px_default : R := 5.
Definition wall_min_length_px_default : R := 10.
Definition dpi_default : Z := 150.

Definition extract_line_segments_from_page (env : PdfEnv)
    (page_number dpi : Z) (min_length_px : R)
    : result (list VectorMeasurement.LineSegment) :=
  if negb (FITZ_AVAILABLE env) then
    Raise (ImportError "PyMuPDF (fitz) is required for vector extraction")
  else if negb (path_exists env) then
    Raise (FileNotFoundError "PDF file not found")
  else
    let page_idx := (page_number - 1)%Z in
    if ((page_idx <? 0) || (Z.of_nat (List.length (doc env)) <=? page_idx))%Z
    then Raise (ValueError "Invalid page number")
    else
      match nth_error (doc env) (Z.to_nat page_idx) with
      | None => Raise (ValueError "Invalid page number")
      | Some page =>
          let scale := IZR dpi / 72 in
          Ok (fold_left
                (fun segments items =>
                   fold_left (line_item_body page_number scale min_length_px)
                             items segments)
                (drawings page) [])
      end.

(** [generate_wall_segment_id()], at the [n]-th call. *)
Definition generate_wall_segment_id (env : PdfEnv) (n : nat) : string :=
  ("wall_" ++ uuid4_hex env n)%string.

(** The test that [filter_by_angle] applies to a line. *)
Definition axis_aligned (line : VectorMeasurement.LineSegment) : bool :=
  let angle := VectorMeasurement.angle_degrees line in
  let is_horizontal := Rltb angle 5 || Rltb 175 angle in
  let is_vertical := Rltb 85 angle && Rltb angle 95 in
  is_horizontal || is_vertical.

(** The body of [for line in line_segments]; one identifier is drawn for
    each wall that is made. *)
Definition wall_body (env : PdfEnv) (filter_by_angle : bool)
    (wall_segments : list VectorMeasurement.WallSegment)
    (line : VectorMeasurement.LineSegment)
    : list VectorMeasurement.WallSegment :=
  if filter_by_angle && negb (axis_aligned line) then wall_segments
  else
    wall_segments ++
    [ {| VectorMeasurement.segment_id :=
           generate_wall_segment_id env (List.length wall_segments);
         VectorMeasurement.segment := line;
         VectorMeasurement.kind := "wall";
         VectorMeasurement.ws_confidence := 1 |} ].

Definition extract_wall_segments_from_page (env : PdfEnv)
    (page_number dpi : Z) (min_length_px : R) (filter_by_angle : bool)
    : result (list VectorMeasurement.WallSegment) :=
  line_segments <- extract_line_segments_from_page env page_number dpi
                     min_length_px ;;
  Ok (fold_left (wall_body env filter_by_angle) line_segments []).

End VectorExtraction.

(** ** gewerke.py: the drywall trade *)

Module Gewerke.
Import Py.

(** A line of [errors] or [warnings]; the f-strings of the source carry
    these values. *)
Inductive Message : Type :=
| M_wall_height_not_positive (wall_height_m : R)
| M_no_scale
| M_exception (e : exn)
| M_no_wall_segments (page_number : Z).

(** The identifiers ([item_id], [measurement_ids], [scale_context_id],
    [gewerk_id]) and the time stamp come from [uuid4] and the clock and
    are left out. *)
Record DrywallGewerkItem : Type := mkDrywallGewerkItem {
  sector_id : string;
  sector_name : string;
  page_number : Z;
  wall_length_m : R;
  wall_height_m : R;
  drywall_area_m2 : R;
  wall_segment_count : nat;
  confidence : R;
  assumptions : list MeasurementEngine.Assumption
}.

Record DrywallGewerkSummary : Type := mkDrywallGewerkSummary {
  total_sectors : nat;
  total_wall_length_m : R;
  total_drywall_area_m2 : R;
  average_wall_height_m : R
}.

Record DrywallGewerkResult : Type := mkDrywallGewerkResult {
  gewerk_type : string;
  source_file : string;
  status : string;
  items : list DrywallGewerkItem;
  summary : DrywallGewerkSummary;
  errors : list Message;
  warnings : list Message
}.

(** The defaults of the dataclass [DrywallGewerkSummary]. *)
Definition default_summary : DrywallGewerkSummary :=
  {| total_sectors := 0;
     total_wall_length_m := 0;
     total_drywall_area_m2 := 0;
     average_wall_height_m := 0 |}.

(** A result that stops with one error. *)
Definition error_result (pdf_path : string) (error : Message)
    (warnings : list Message) : DrywallGewerkResult :=
  {| gewerk_type := "drywall";
     source_file := pdf_path;
     status := "error";
     items := [];
     summary := default_summary;
     errors := [error];
     warnings := warnings |}.

Definition render_dpi_default : Z := 150.
Definition min_segment_length_px_default : R := 5.

Definition run_drywall_gewerk_for_sector (env : VectorExtraction.PdfEnv)
    (pdf_path : string) (sector : MeasurementEngine.Sector)
    (scale_context : ScaleCalibration.ScaleContext) (wall_height_m : R)
    (render_dpi : Z) (min_segment_length_px : R) : DrywallGewerkResult :=
  if Rleb wall_height_m 0 then
    error_result pdf_path (M_wall_height_not_positive wall_height_m) []
  else if negb (ScaleCalibration.has_scale scale_context) then
    error_result pdf_path M_no_scale []
  else
    match VectorExtraction.extract_wall_segments_from_page env
            (MeasurementEngine.page_number sector) render_dpi
            min_segment_length_px false with
    | Raise e => error_result pdf_path (M_exception e) []
    | Ok wall_segments =>
        let warnings :=
          match wall_segments with
          | [] => [ M_no_wall_segments (MeasurementEngine.page_number sector) ]
          | _ :: _ => []
          end in
        match
          (wall_length_result <-
             VectorMeasurement.compute_wall_length_in_sector_m wall_segments
               sector scale_context true ;;
           drywall_area_result <-
             VectorMeasurement.compute_drywall_area_in_sector_m2
               wall_segments sector scale_context wall_height_m true ;;
           Ok (wall_length_result, drywall_area_result))
        with
        | Raise e => error_result pdf_path (M_exception e) warnings
        | Ok (wall_length_result, drywall_area_result) =>
            let segment_count :=
              VectorMeasurement.find_segment_count
                (MeasurementEngine.assumptions wall_length_result) in
            let item :=
              {| sector_id := MeasurementEngine.sector_id sector;
                 sector_name := MeasurementEngine.name sector;
                 page_number := MeasurementEngine.page_number sector;
                 wall_length_m := MeasurementEngine.value wall_length_result;
                 wall_height_m := wall_height_m;
                 drywall_area_m2 :=
                   MeasurementEngine.value drywall_area_result;
                 wall_segment_count := segment_count;
                 confidence :=
                   Rmin (MeasurementEngine.confidence wall_length_result)
                        (MeasurementEngine.confidence drywall_area_result);
                 assumptions :=
                   MeasurementEngine.assumptions drywall_area_result |} in
            {| gewerk_type := "drywall";
               source_file := pdf_path;
               status := "ok";
               items := [item];
               summary :=
                 {| total_sectors := 1;
                    total_wall_length_m :=
                      MeasurementEngine.value wall_length_result;
                    total_drywall_area_m2 :=
                      MeasurementEngine.value drywall_area_result;
                    average_wall_height_m := wall_height_m |};
               errors := [];
               warnings := warnings |}
        end
    end.

(** The accumulators of the loop of [run_drywall_gewerk_for_sectors]:
    [result.items], [result.warnings], [result.errors], [total_length]
    and [total_area]. *)
Record SectorsAcc : Type := mkSectorsAcc {
  acc_items : list DrywallGewerkItem;
  acc_warnings : list Message;
  acc_errors : list Message;
  total_length : R;
  total_area : R
}.

Definition sectors_body (env : VectorExtraction.PdfEnv) (pdf_path : string)
    (scale_context : ScaleCalibration.ScaleContext) (wall_height_m : R)
    (render_dpi : Z) (min_segment_length_px : R)
    (acc : SectorsAcc) (sector : MeasurementEngine.Sector) : SectorsAcc :=
  let sector_result :=
    run_drywall_gewerk_for_sector env pdf_path sector scale_context
      wall_height_m render_dpi min_segment_length_px in
  {| acc_items := acc_items acc ++ items sector_result;
     acc_warnings := acc_warnings acc ++ warnings sector_result;
     acc_errors := acc_errors acc ++ errors sector_result;
     total_length :=
       fold_left (fun t item => t + wall_length_m item)
                 (items sector_result) (total_length acc);
     total_area :=
       fold_left (fun t item => t + drywall_area_m2 item)
                 (items sector_result) (total_area acc) |}.

Definition run_drywall_gewerk_for_sectors (env : VectorExtraction.PdfEnv)
    (pdf_path : string) (sectors : list MeasurementEngine.Sector)
    (scale_context : ScaleCalibration.ScaleContext) (wall_height_m : R)
    (render_dpi : Z) (min_segment_length_px : R) : DrywallGewerkResult :=
  let acc :=
    fold_left (sectors_body env pdf_path scale_context wall_height_m
                 render_dpi min_segment_length_px)
              sectors
              {| acc_items := []; acc_warnings := []; acc_errors := [];
                 total_length := 0; total_area := 0 |} in
  {| gewerk_type := "drywall";
     source_file := pdf_path;
     status :=
       match acc_errors acc with
       | [] => "ok"
       | _ :: _ =>
           match acc_items acc with
           | [] => "error"
           | _ :: _ => "partial"
           end
       end;
     items := acc_items acc;
     summary :=
       {| total_sectors := List.length sectors;
          total_wall_length_m := total_length acc;
          total_drywall_area_m2 := total_area acc;
          average_wall_height_m := wall_height_m |};
     errors := acc_errors acc;
     warnings := acc_warnings acc |}.

End Gewerke.

(** ** wall_opening_detector.py: gaps between collinear wall lines *)

Module WallGaps.
Import Py.

(** A line [(x1, y1, x2, y2)] of the Hough transform. *)
Definition Line : Type := (Z * Z * Z * Z)%type.

(** [sorted(l, key=key)]: ascending by key, and stable. *)
Fixpoint insert_asc {A : Type} (key : A -> R) (a : A) (l : list A) : list A :=
  match l with
  | [] => [a]
  | b :: l' =>
      if Rltb (key b) (key a) then b :: insert_asc key a l' else a :: l
  end.

Definition sorted {A : Type} (key : A -> R) (l : list A) : list A :=
  fold_right (insert_asc key) [] l.

Definition tolerance : R := 20.

Definition position_key (orientation : string) (l : Line) : R :=
  let '(lx1, ly1, lx2, ly2) := l in
  if String.eqb orientation "horizontal" then IZR (ly1 + ly2) / 2
  else IZR (lx1 + lx2) / 2.

Definition extent_key (orientation : string) (l : Line) : Z * Z :=
  let '(lx1, ly1, lx2, ly2) := l in
  if String.eqb orientation "horizontal"
  then (Z.min lx1 lx2, Z.max lx1 lx2)
  else (Z.min ly1 ly2, Z.max ly1 ly2).

(** The body of [for line in lines_sorted[1:]]; the state is [groups],
    [current_group] and [current_pos]. *)
Definition group_body (orientation : string)
    (st : list (list Line) * list Line * R) (line : Line)
    : list (list Line) * list Line * R :=
  let '(groups, current_group, current_pos) := st in
  let pos := position_key orientation line in
  if Rleb (Rabs (pos - current_pos)) tolerance then
    (groups, current_group ++ [line], current_pos)
  else
    ((if (2 <=? List.length current_group)%nat
      then groups ++ [current_group] else groups),
     [line], pos).

(** The body of [for i in range(len(segments) - 1)]; the state is
    [openings], and [uuid4_hex] gives the hex digits of the successive
    identifiers. *)
Definition gap_body (uuid4_hex : nat -> string) (orientation : string)
    (min_gap max_gap min_context page_number : Z)
    (group : list Line) (segments : list (Z * Z))
    (openings : list WallOpeningDetector.WallOpening) (i : nat)
    : list WallOpeningDetector.WallOpening :=
  let end_of_first := snd (nth i segments (0, 0)%Z) in
  let start_of_second := fst (nth (i + 1) segments (0, 0)%Z) in
  let gap := (start_of_second - end_of_first)%Z in
  if ((min_gap <=? gap) && (gap <=? max_gap))%Z then
    let len_first :=
      (snd (nth i segments (0, 0)%Z) - fst (nth i segments (0, 0)%Z))%Z in
    let len_second :=
      (snd (nth (i + 1) segments (0, 0)%Z)
       - fst (nth (i + 1) segments (0, 0)%Z))%Z in
    if ((min_context <=? len_first) && (min_context <=? len_second))%Z then
      let gap_center := IZR end_of_first + IZR gap / 2 in
      let line_pos :=
        position_key orientation (nth 0 group (0, 0, 0, 0)%Z) in
      let '(center_x, center_y, angle) :=
        if String.eqb orientation "horizontal"
        then (gap_center, line_pos, 0)
        else (line_pos, gap_center, 90) in
      openings ++
      [ {| WallOpeningDetector.opening_id :=
             ("opening_" ++ uuid4_hex (List.length openings))%string;
           WallOpeningDetector.page_number := page_number;
           WallOpeningDetector.center_x := center_x;
           WallOpeningDetector.center_y := center_y;
           WallOpeningDetector.width_px := IZR gap;
           WallOpeningDetector.angle_degrees := angle;
           WallOpeningDetector.wall_thickness_px := 10;
           WallOpeningDetector.width_m := None;
           WallOpeningDetector.confidence := 0.5;
           WallOpeningDetector.is_door := false;
           WallOpeningDetector.detection_signals :=
             [ (orientation ++ "_wall")%string;
               "collinear_gap"%string;
               ("context_L" ++ PyText.str_int len_first ++ "_R"
                ++ PyText.str_int len_second)%string ];
           WallOpeningDetector.md_door_type := None |} ]
    else openings
  else openings.

(** The body of [for group in groups]. *)
Definition gaps_of_group (uuid4_hex : nat -> string) (orientation : string)
    (min_gap max_gap min_context page_number : Z)
    (openings : list WallOpeningDetector.WallOpening) (group : list Line)
    : list WallOpeningDetector.WallOpening :=
  let segments :=
    sorted (fun s : Z * Z => IZR (fst s))
           (map (extent_key orientation) group) in
  fold_left (gap_body uuid4_hex orientation min_gap max_gap min_context
               page_number group segments)
            (seq 0 (List.length segments - 1)) openings.

(** The groups of lines at similar positions. *)
Definition groups_of (orientation : string) (lines_sorted : list Line)
    : list (list Line) :=
  match lines_sorted with
  | [] => []
  | first :: rest =>
      let '(groups, current_group, _) :=
        fold_left (group_body orientation) rest
                  ([], [first], position_key orientation first) in
      if (2 <=? List.length current_group)%nat
      then groups ++ [current_group] else groups
  end.

Definition _find_collinear_gaps (uuid4_hex : nat -> string)
    (lines : list Line) (orientation : string)
    (min_gap max_gap min_context page_number img_h img_w : Z)
    : list WallOpeningDetector.WallOpening :=
  if (List.length lines <? 2)%nat then []
  else
    let lines_sorted := sorted (position_key orientation) lines in
    let groups := groups_of orientation lines_sorted in
    fold_left (gaps_of_group uuid4_hex orientation min_gap max_gap
                 min_context page_number)
              groups [].

End WallGaps.

(** ** Binary64 check of the calibration quotient

    The model above is over the reals.  The one equality the specification
    states on floats themselves is checked here on IEEE 754 binary64, the
    representation of a Python [float]. *)

Module Binary64.
Import Uint63.

(** [pixel_distance / real_distance_meters] on binary64. *)
Definition pixels_per_meter_quotient
    (pixel_distance real_distance_meters : PrimFloat.float)
    : PrimFloat.float :=
  PrimFloat.div pixel_distance real_distance_meters.

(** The floats [90.0], [0.9] (its nearest binary64) and [100.0]. *)
Definition f90 : PrimFloat.float := PrimFloat.of_uint63 90%uint63.
Definition f100 : PrimFloat.float := PrimFloat.of_uint63 100%uint63.
Definition f0_9 : PrimFloat.float :=
  PrimFloat.div (PrimFloat.of_uint63 9%uint63) (PrimFloat.of_uint63 10%uint63).

End Binary64.

(** ** Vocabulary of the properties *)

(** The centre lies strictly inside the box [(hx, hy, hw, hh)]. *)
Definition strictly_inside (o : WallOpeningDetector.WallOpening) (h : WallOpeningDetector.HatchRegion) : Prop :=
  let '(hx, hy, hw, hh) := h in
  IZR hx < WallOpeningDetector.center_x o < IZR hx + IZR hw
  /\ IZR hy < WallOpeningDetector.center_y o < IZR hy + IZR hh.

(** The centre lies [d] or more outside the box, along one axis. *)
Definition outside_by (d : R) (o : WallOpeningDetector.WallOpening) (h : WallOpeningDetector.HatchRegion) : Prop :=
  let '(hx, hy, hw, hh) := h in
  WallOpeningDetector.center_x o <= IZR hx - d \/ IZR hx + IZR hw + d <= WallOpeningDetector.center_x o
  \/ WallOpeningDetector.center_y o <= IZR hy - d \/ IZR hy + IZR hh + d <= WallOpeningDetector.center_y o.

(** The centre lies in the closed box. *)
Definition in_box (o : WallOpeningDetector.WallOpening) (h : WallOpeningDetector.HatchRegion) : Prop :=
  let '(hx, hy, hw, hh) := h in
  IZR hx <= WallOpeningDetector.center_x o <= IZR hx + IZR hw
  /\ IZR hy <= WallOpeningDetector.center_y o <= IZR hy + IZR hh.

(** The summand of the shoelace formula for the edge from [p] to [q]. *)
Definition cross (p q : R * R) : R := fst p * snd q - fst q * snd p.

(** The Euclidean distance between two points. *)
Definition euclid (p q : R * R) : R :=
  sqrt ((fst q - fst p) ^ 2 + (snd q - snd p) ^ 2).

(** The sum of [f] over the consecutive pairs of a list. *)
Fixpoint path_sum (f : R * R -> R * R -> R) (l : list (R * R)) : R :=
  match l with
  | a :: (b :: _) as t => f a b + path_sum f t
  | _ => 0
  end.

(** A vertex list followed by its first vertex: the closed polygon. *)
Definition closed (l : list (R * R)) : list (R * R) := l ++ [hd (0, 0) l].

(** Cyclic rotation of a list by one position, and by [k] positions. *)
Definition rot1 {A : Type} (l : list A) : list A :=
  match l with
  | [] => []
  | a :: t => t ++ [a]
  end.

Definition rotate {A : Type} (k : nat) (l : list A) : list A :=
  Nat.iter k rot1 l.

Definition unit_square : list (R * R) := [(0, 0); (1, 0); (1, 1); (0, 1)].

(** The sum of a list of reals. *)
Definition Rsum (l : list R) : R := fold_right Rplus 0 l.

(** A wall segment counts for a sector: it is on the sector's page and
    passes [segment_in_polygon]. *)
Definition counted (sector : MeasurementEngine.Sector)
    (require_both_endpoints : bool) (w : VectorMeasurement.WallSegment)
    : bool :=
  (VectorMeasurement.ws_page_number w
   =? MeasurementEngine.page_number sector)%Z
  && VectorMeasurement.segment_in_polygon (VectorMeasurement.segment w)
       (MeasurementEngine.polygon_points sector) require_both_endpoints.

(** The total pixel length of the segments that count. *)
Definition counted_length_px (sector : MeasurementEngine.Sector)
    (require_both_endpoints : bool)
    (ws : list VectorMeasurement.WallSegment) : R :=
  Rsum (map VectorMeasurement.ws_length_px
            (filter (counted sector require_both_endpoints) ws)).

(** [ScaleContext(pixels_per_meter=ppm)]: the other fields at their
    dataclass defaults. *)
Definition scale_with (ppm : R) : ScaleCalibration.ScaleContext :=
  {| ScaleCalibration.file_id := None;
     ScaleCalibration.scale_string := None;
     ScaleCalibration.scale_factor := None;
     ScaleCalibration.pixels_per_meter := Some ppm;
     ScaleCalibration.detection_method :=
       ScaleCalibration.DetectionMethod_value ScaleCalibration.NONE;
     ScaleCalibration.confidence := 0;
     ScaleCalibration.source_page := 1;
     ScaleCalibration.page_width_points := None;
     ScaleCalibration.page_height_points := None;
     ScaleCalibration.render_dpi := 150;
     ScaleCalibration.user_reference_px := None;
     ScaleCalibration.user_reference_m := None;
     ScaleCalibration.is_active := true |}.

(** The square sector of the end-to-end scenario, on page 1. *)
Definition square_sector : MeasurementEngine.Sector :=
  {| MeasurementEngine.sector_id := "sect_1";
     MeasurementEngine.file_id := "file_1";
     MeasurementEngine.page_number := 1;
     MeasurementEngine.name := "Room";
     MeasurementEngine.polygon_points :=
       [(0, 0); (100, 0); (100, 100); (0, 100)] |}.

(** A wall segment from [(xa, ya)] to [(xb, yb)] on a page. *)
Definition wall_between (xa ya xb yb : R) (page : Z)
    : VectorMeasurement.WallSegment :=
  {| VectorMeasurement.segment_id := "wall_1";
     VectorMeasurement.segment :=
       {| VectorMeasurement.x1 := xa; VectorMeasurement.y1 := ya;
          VectorMeasurement.x2 := xb; VectorMeasurement.y2 := yb;
          VectorMeasurement.page_number := page |};
     VectorMeasurement.kind := "wall";
     VectorMeasurement.ws_confidence := 1 |}.

(** A wall opening centred at [(cx, cy)], as gap finding creates it. *)
Definition opening_at (cx cy : R) : WallOpeningDetector.WallOpening :=
  {| WallOpeningDetector.opening_id := "opening_1";
     WallOpeningDetector.page_number := 1;
     WallOpeningDetector.center_x := cx;
     WallOpeningDetector.center_y := cy;
     WallOpeningDetector.width_px := 90;
     WallOpeningDetector.angle_degrees := 0;
     WallOpeningDetector.wall_thickness_px := 10;
     WallOpeningDetector.width_m := None;
     WallOpeningDetector.confidence := 0.5;
     WallOpeningDetector.is_door := false;
     WallOpeningDetector.detection_signals := ["horizontal_wall"%string];
     WallOpeningDetector.md_door_type := None |}.

(** A door candidate with the given box and confidence. *)
Definition candidate (bx by_ bw bh conf : R) : CvPipeline.DetectedObject :=
  {| CvPipeline.object_id := "door_1";
     CvPipeline.object_type := "door";
     CvPipeline.bbox :=
       {| CvPipeline.x := bx; CvPipeline.y := by_;
          CvPipeline.width := bw; CvPipeline.height := bh |};
     CvPipeline.confidence := conf;
     CvPipeline.page_number := 1 |}.

(** The candidate at position [i] of [s] suppresses the one at [j]: their
    IoU exceeds the threshold. *)
Definition overlaps_at (s : list CvPipeline.DetectedObject) (thr : R)
    (i j : nat) : Prop :=
  thr < CvPipeline._compute_iou
          (CvPipeline.bbox (nth i s CvPipeline.no_object))
          (CvPipeline.bbox (nth j s CvPipeline.no_object)).

(** Descending by confidence. *)
Definition descending (s : list CvPipeline.DetectedObject) : Prop :=
  forall i j, (i < j < List.length s)%nat ->
    CvPipeline.confidence (nth j s CvPipeline.no_object)
    <= CvPipeline.confidence (nth i s CvPipeline.no_object).

(** Every element has a key at most that of each one before it. *)
Inductive desc_sorted {A : Type} (key : A -> R) : list A -> Prop :=
| desc_nil : desc_sorted key []
| desc_cons a l :
    Forall (fun b => key b <= key a) l -> desc_sorted key l ->
    desc_sorted key (a :: l).

(** A page with one door drawn on it: the swing arc from (61,0) to
    (0,61) and the leaf from (61,61) to (61,0), in PDF points. *)
Definition door_page : VectorMeasurement.Page :=
  {| VectorMeasurement.drawings :=
       [ [ VectorMeasurement.ItemCurve (61, 0) (27, 0) (0, 27)
             (Some (0, 61));
           VectorMeasurement.ItemLine (61, 61) (61, 0) ] ];
     VectorMeasurement.is_roof_plan := false |}.

(** A one-page document holding [door_page], with PyMuPDF installed. *)
Definition door_env : VectorMeasurement.PdfEnv :=
  {| VectorMeasurement.FITZ_AVAILABLE := true;
     VectorMeasurement.path_exists := true;
     VectorMeasurement.doc := [door_page] |}.

(** An installation with both libraries, whose steps all succeed: the
    page renders, the mask has wall pixels, and no gap or hatch is
    found. *)
Definition steps_ok : WallOpeningDetector.Steps :=
  {| WallOpeningDetector.CV2_AVAILABLE := true;
     WallOpeningDetector.FITZ_AVAILABLE := true;
     WallOpeningDetector.render_pdf_page_high_dpi :=
       fun _ _ _ => Py.Ok "page.png"%string;
     WallOpeningDetector.extract_wall_mask :=
       fun _ _ =>
         Py.Ok (Some {| WallOpeningDetector.mask_sum := 255 |});
     WallOpeningDetector.find_wall_openings := fun _ _ _ _ => Py.Ok [];
     WallOpeningDetector.detect_hatch_regions := fun _ => Py.Ok [] |}.

(** The same installation without OpenCV. *)
Definition steps_without_cv2 : WallOpeningDetector.Steps :=
  {| WallOpeningDetector.CV2_AVAILABLE := false;
     WallOpeningDetector.FITZ_AVAILABLE := true;
     WallOpeningDetector.render_pdf_page_high_dpi :=
       WallOpeningDetector.render_pdf_page_high_dpi steps_ok;
     WallOpeningDetector.extract_wall_mask :=
       WallOpeningDetector.extract_wall_mask steps_ok;
     WallOpeningDetector.find_wall_openings :=
       WallOpeningDetector.find_wall_openings steps_ok;
     WallOpeningDetector.detect_hatch_regions :=
       WallOpeningDetector.detect_hatch_regions steps_ok |}.

(** A result that reports no door and one warning. *)
Definition degraded (r : WallOpeningDetector.DoorDetectionResult)
    (warning : string) : Prop :=
  WallOpeningDetector.doors r = []
  /\ WallOpeningDetector.warnings r = [warning].

(** A vertex list moved by [(dx, dy)], and one divided by [k]. *)
Definition translate (dx dy : R) (l : list (R * R)) : list (R * R) :=
  map (fun p => (fst p + dx, snd p + dy)) l.

Definition shrink (k : R) (l : list (R * R)) : list (R * R) :=
  map (fun p => (fst p / k, snd p / k)) l.

(** The axis-aligned rectangle with corners [(xa, ya)] and [(xb, yb)]. *)
Definition rectangle (xa ya xb yb : R) : list (R * R) :=
  [(xa, ya); (xb, ya); (xb, yb); (xa, yb)].

(** The vertex before position [k] in the cyclic order of [n] vertices. *)
Definition prev_index (n k : nat) : nat :=
  match k with
  | O => (n - 1)%nat
  | S k' => k'
  end.

(** The same segment drawn from its other end. *)
Definition reversed (s : VectorMeasurement.LineSegment)
    : VectorMeasurement.LineSegment :=
  {| VectorMeasurement.x1 := VectorMeasurement.x2 s;
     VectorMeasurement.y1 := VectorMeasurement.y2 s;
     VectorMeasurement.x2 := VectorMeasurement.x1 s;
     VectorMeasurement.y2 := VectorMeasurement.y1 s;
     VectorMeasurement.page_number := VectorMeasurement.page_number s |}.

(** A box with sides that are not negative. *)
Definition well_formed_box (b : CvPipeline.BoundingBox) : Prop :=
  0 <= CvPipeline.width b /\ 0 <= CvPipeline.height b.

(** The distance between the centres of two openings. *)
Definition centre_distance (a b : WallOpeningDetector.WallOpening) : R :=
  sqrt ((WallOpeningDetector.center_x a - WallOpeningDetector.center_x b) ^ 2
        + (WallOpeningDetector.center_y a
           - WallOpeningDetector.center_y b) ^ 2).

(** The confidence [c] that goes with a width of [w] metres, given the
    standard widths [W]: 0.9 within 5 cm of one of them, 0.75 within
    10 cm, 0.6 otherwise. *)
Definition graded (W : list R) (w c : R) : Prop :=
  (c = 0.9 /\ exists std, In std W /\ Rabs (w - std) < 0.05)
  \/ (c = 0.75
      /\ (forall std, In std W -> 0.05 <= Rabs (w - std))
      /\ exists std, In std W /\ Rabs (w - std) < 0.10)
  \/ (c = 0.6 /\ forall std, In std W -> 0.10 <= Rabs (w - std)).

(** [d] is the opening [o] validated as a door: the same opening at the
    same place, flagged, with its width in metres inside the accepted
    range and the confidence that goes with that width. *)
Definition door_of (W : list R) (ppm minw maxw : R)
    (o d : WallOpeningDetector.WallOpening) : Prop :=
  WallOpeningDetector.opening_id d = WallOpeningDetector.opening_id o
  /\ WallOpeningDetector.page_number d = WallOpeningDetector.page_number o
  /\ WallOpeningDetector.center_x d = WallOpeningDetector.center_x o
  /\ WallOpeningDetector.center_y d = WallOpeningDetector.center_y o
  /\ WallOpeningDetector.width_px d = WallOpeningDetector.width_px o
  /\ WallOpeningDetector.is_door d = true
  /\ WallOpeningDetector.width_m d
     = Some (WallOpeningDetector.width_px o / ppm)
  /\ minw <= WallOpeningDetector.width_px o / ppm <= maxw
  /\ graded W (WallOpeningDetector.width_px o / ppm)
            (WallOpeningDetector.confidence d).

(** The line [line] passes for the leaf of a door whose swing arc has the
    given centre and radius: one of its ends is closer to the centre than
    [rc] radii, and its length differs from the radius by less than [rl]
    of the radius. *)
Definition leaf_matches (rc rl : R) (center : VectorMeasurement.Point)
    (radius : R) (line : VectorMeasurement.LineSegment) : Prop :=
  Rmin (sqrt ((VectorMeasurement.x1 line - fst center) ^ 2
              + (VectorMeasurement.y1 line - snd center) ^ 2))
       (sqrt ((VectorMeasurement.x2 line - fst center) ^ 2
              + (VectorMeasurement.y2 line - snd center) ^ 2))
  < radius * rc
  /\ Rabs (VectorMeasurement.length_px line - radius) / radius < rl.

(** A door as the extraction builds it: on the page asked for, not yet
    measured, with a leaf line that matches its arc under the thresholds
    [rc] and [rl], and with confidence [conf]. *)
Definition door_with_leaf (page_number : Z) (roof : bool) (rc rl conf : R)
    (d : VectorMeasurement.DoorSymbol) : Prop :=
  VectorMeasurement.ds_page_number d = page_number
  /\ VectorMeasurement.md_is_roof_plan d = roof
  /\ VectorMeasurement.ds_confidence d = conf
  /\ VectorMeasurement.width_m d = None
  /\ exists line,
       VectorMeasurement.leaf_line d = Some line
       /\ leaf_matches rc rl (VectorMeasurement.arc_center d)
            (VectorMeasurement.arc_radius_px d) line.

(** A one-page document whose page has no drawing. *)
Definition blank_env : VectorMeasurement.PdfEnv :=
  {| VectorMeasurement.FITZ_AVAILABLE := true;
     VectorMeasurement.path_exists := true;
     VectorMeasurement.doc :=
       [ {| VectorMeasurement.drawings := [];
            VectorMeasurement.is_roof_plan := false |} ] |}.

(** A one-page document whose page holds one rectangle, from (10,10) to
    (90,90) in PDF points, with PyMuPDF installed. *)
Definition room_env : VectorExtraction.PdfEnv :=
  {| VectorExtraction.FITZ_AVAILABLE := true;
     VectorExtraction.path_exists := true;
     VectorExtraction.doc :=
       [ {| VectorExtraction.drawings :=
              [ [ VectorExtraction.ItemRect 10 10 90 90 ] ] |} ];
     VectorExtraction.uuid4_hex := fun _ => "0123456789ab"%string |}.

(** What the extraction guarantees of a line segment: it is on the page
    asked for and at least [min_length_px] long. *)
Definition extracted_on (page_number : Z) (min_length_px : R)
    (s : VectorMeasurement.LineSegment) : Prop :=
  VectorMeasurement.page_number s = page_number
  /\ min_length_px <= VectorMeasurement.length_px s.

(** A one-page document whose page has no drawing, for the line
    extraction. *)
Definition blank_line_env : VectorExtraction.PdfEnv :=
  {| VectorExtraction.FITZ_AVAILABLE := true;
     VectorExtraction.path_exists := true;
     VectorExtraction.doc := [ {| VectorExtraction.drawings := [] |} ];
     VectorExtraction.uuid4_hex := fun _ => "0123456789ab"%string |}.

(** The walls with both ends inside the polygon of a sector. *)
Definition walls_inside (sector : MeasurementEngine.Sector)
    (walls : list VectorMeasurement.WallSegment)
    : list VectorMeasurement.WallSegment :=
  filter (fun w =>
            VectorMeasurement.segment_in_polygon
              (VectorMeasurement.segment w)
              (MeasurementEngine.polygon_points sector) true) walls.

(** The number of lines in a list of groups. *)
Definition total_members (groups : list (list WallGaps.Line)) : nat :=
  fold_right (fun g n => (List.length g + n)%nat) 0%nat groups.

(** A group as the grouping loop closes it: at least two of the given
    lines, each within the tolerance of the first one. *)
Definition good_group (orientation : string) (lines : list WallGaps.Line)
    (g : list WallGaps.Line) : Prop :=
  (2 <= List.length g)%nat
  /\ incl g lines
  /\ Forall (fun l =>
               Rabs (WallGaps.position_key orientation l
                     - WallGaps.position_key orientation
                         (nth 0 g (0, 0, 0, 0)%Z))
               <= WallGaps.tolerance) g.

(** The opening [op] is the gap between the end of the line [l1] and the
    start of the line [l2], at the position of the line [l0]: its width is
    the gap, which lies in the accepted range, both lines are at least
    [min_context] long, and both lie within the tolerance of [l0]. *)
Definition gap_between (orientation : string)
    (min_gap max_gap min_context : Z) (l0 l1 l2 : WallGaps.Line)
    (op : WallOpeningDetector.WallOpening) : Prop :=
  let e1 := WallGaps.extent_key orientation l1 in
  let e2 := WallGaps.extent_key orientation l2 in
  let gap := (fst e2 - snd e1)%Z in
  WallOpeningDetector.width_px op = IZR gap
  /\ (min_gap <= gap <= max_gap)%Z
  /\ (min_context <= snd e1 - fst e1)%Z
  /\ (min_context <= snd e2 - fst e2)%Z
  /\ (if String.eqb orientation "horizontal"
      then WallOpeningDetector.center_x op = IZR (snd e1) + IZR gap / 2
           /\ WallOpeningDetector.center_y op
              = WallGaps.position_key orientation l0
           /\ WallOpeningDetector.angle_degrees op = 0
      else WallOpeningDetector.center_y op = IZR (snd e1) + IZR gap / 2
           /\ WallOpeningDetector.center_x op
              = WallGaps.position_key orientation l0
           /\ WallOpeningDetector.angle_degrees op = 90)
  /\ Rabs (WallGaps.position_key orientation l1
           - WallGaps.position_key orientation l0) <= WallGaps.tolerance
  /\ Rabs (WallGaps.position_key orientation l2
           - WallGaps.position_key orientation l0) <= WallGaps.tolerance.

(** An opening as gap finding creates it from the given lines. *)
Definition found_gap (orientation : string)
    (min_gap max_gap min_context page_number : Z)
    (lines : list WallGaps.Line) (op : WallOpeningDetector.WallOpening)
    : Prop :=
  WallOpeningDetector.page_number op = page_number
  /\ WallOpeningDetector.is_door op = false
  /\ WallOpeningDetector.width_m op = None
  /\ WallOpeningDetector.confidence op = 0.5
  /\ exists l0 l1 l2,
       In l0 lines /\ In l1 lines /\ In l2 lines
       /\ gap_between orientation min_gap max_gap min_context l0 l1 l2 op.

(** A context read from the text of a page rendered at [dpi]: the scale
    "1:d" with [d] between 1 and 10000, the pixels per metre that go with
    it, and the confidence of the pattern that matched. *)
Definition text_scale_context (dpi : Z) (r : ScaleCalibration.ScaleContext)
    : Prop :=
  ScaleCalibration.detection_method r = "text_scale"%string
  /\ (ScaleCalibration.confidence r = 0.95
      \/ ScaleCalibration.confidence r = 0.90
      \/ ScaleCalibration.confidence r = 0.85
      \/ ScaleCalibration.confidence r = 0.70)
  /\ exists d : Z,
       (1 <= d <= 10000)%Z
       /\ ScaleCalibration.scale_factor r = Some (IZR d)
       /\ ScaleCalibration.scale_string r
          = Some ("1:" ++ PyText.str_int d)%string
       /\ ScaleCalibration.pixels_per_meter r
          = Some (1 / IZR d * ScaleCalibration.INCHES_PER_METER * IZR dpi).

(** The pages [detect_scale_from_document] searches. *)
Definition searched_pages (document : ScaleDetection.PlanDocument)
    (search_pages : option (list Z)) : list Z :=
  match search_pages with
  | None => ScaleDetection.all_pages document
  | Some l => l
  end.

(** The context [r] is what [detect_scale_from_page] returns for one of
    the pages [l] of the document. *)
Definition read_from_page (env : ScaleDetection.TextEnv)
    (document : ScaleDetection.PlanDocument) (l : list Z)
    (r : ScaleCalibration.ScaleContext) : Prop :=
  exists page_num page_info,
    In page_num l
    /\ ScaleDetection.get_page document page_num = Some page_info
    /\ ScaleDetection.detect_scale_from_page env
         (ScaleDetection.doc_file_path document) page_num page_info
         (Some (ScaleDetection.doc_file_id document)) = Py.Ok r.

(** A plan whose one page reads "M 1:100", with the one pattern that
    matches it; and the page, an A4 sheet rendered at 150 DPI. *)
Definition plan_text_env : ScaleDetection.TextEnv :=
  {| ScaleDetection.re_search :=
       fun p _ =>
         match p with
         | ScaleDetection.P_M => Some (Py.Ok 100%Z)
         | _ => None
         end;
     ScaleDetection.extract_page_text := fun _ _ => Py.Ok "M 1:100"%string |}.

Definition a4_page : ScaleCalibration.PageInfo :=
  {| ScaleCalibration.width_points := 595;
     ScaleCalibration.height_points := 842;
     ScaleCalibration.dpi := 150 |}.

Definition one_page_plan : ScaleDetection.PlanDocument :=
  {| ScaleDetection.doc_file_id := "file_1";
     ScaleDetection.doc_file_path := "plan.pdf";
     ScaleDetection.total_pages := 1;
     ScaleDetection.pages := [ (1%Z, a4_page) ] |}.

(** A page as the loader records it when asked to render at 0 DPI. *)
Definition unrendered_page : ScaleCalibration.PageInfo :=
  {| ScaleCalibration.width_points := 595;
     ScaleCalibration.height_points := 842;
     ScaleCalibration.dpi := 0 |}.

(** The same plan when its page reads "Massstab 1:" followed by a digit
    run that [int] refuses. *)
Definition long_digits_env : ScaleDetection.TextEnv :=
  {| ScaleDetection.re_search :=
       fun p _ =>
         match p with
         | ScaleDetection.P_MASSSTAB =>
             Some (Py.Raise
                     (Py.ValueError
                        "Exceeds the limit (4300 digits) for integer string conversion"))
         | _ => None
         end;
     ScaleDetection.extract_page_text :=
       fun _ _ => Py.Ok "Massstab 1:1000..."%string |}.

(** [detect_scale_from_page] raises [e] on one of the pages [l] of the
    document. *)
Definition raised_on_page (env : ScaleDetection.TextEnv)
    (document : ScaleDetection.PlanDocument) (l : list Z) (e : Py.exn)
    : Prop :=
  exists page_num page_info,
    In page_num l
    /\ ScaleDetection.get_page document page_num = Some page_info
    /\ ScaleDetection.detect_scale_from_page env
         (ScaleDetection.doc_file_path document) page_num page_info
         (Some (ScaleDetection.doc_file_id document)) = Py.Raise e.

(** A wall gap 90 px wide centred at [(cx, cy)], as gap finding creates
    it. *)
Definition gap_opening (id : string) (cx cy : R)
    : WallOpeningDetector.WallOpening :=
  {| WallOpeningDetector.opening_id := id;
     WallOpeningDetector.page_number := 1;
     WallOpeningDetector.center_x := cx;
     WallOpeningDetector.center_y := cy;
     WallOpeningDetector.width_px := 90;
     WallOpeningDetector.angle_degrees := 0;
     WallOpeningDetector.wall_thickness_px := 10;
     WallOpeningDetector.width_m := None;
     WallOpeningDetector.confidence := 0.5;
     WallOpeningDetector.is_door := false;
     WallOpeningDetector.detection_signals := ["horizontal_wall"%string];
     WallOpeningDetector.md_door_type := None |}.

(** That gap once validated at 100 px per metre: a door 0.9 m wide. *)
Definition standard_door (id : string) (cx cy : R)
    : WallOpeningDetector.WallOpening :=
  {| WallOpeningDetector.opening_id := id;
     WallOpeningDetector.page_number := 1;
     WallOpeningDetector.center_x := cx;
     WallOpeningDetector.center_y := cy;
     WallOpeningDetector.width_px := 90;
     WallOpeningDetector.angle_degrees := 0;
     WallOpeningDetector.wall_thickness_px := 10;
     WallOpeningDetector.width_m := Some (90 / 100);
     WallOpeningDetector.confidence := 0.9;
     WallOpeningDetector.is_door := true;
     WallOpeningDetector.detection_signals :=
       ["horizontal_wall"%string; "standard_width"%string];
     WallOpeningDetector.md_door_type := Some "standard"%string |}.

(** An installation whose steps all succeed and find four gaps, two of
    them 30 px apart and one inside the one hatch region of the page. *)
Definition steps_with_gaps : WallOpeningDetector.Steps :=
  {| WallOpeningDetector.CV2_AVAILABLE := true;
     WallOpeningDetector.FITZ_AVAILABLE := true;
     WallOpeningDetector.render_pdf_page_high_dpi :=
       fun _ _ _ => Py.Ok "page.png"%string;
     WallOpeningDetector.extract_wall_mask :=
       fun _ _ =>
         Py.Ok (Some {| WallOpeningDetector.mask_sum := 255 |});
     WallOpeningDetector.find_wall_openings :=
       fun _ _ _ _ =>
         Py.Ok [ gap_opening "opening_1" 100 100;
                 gap_opening "opening_2" 130 100;
                 gap_opening "opening_3" 400 100;
                 gap_opening "opening_4" 500 500 ];
     WallOpeningDetector.detect_hatch_regions :=
       fun _ => Py.Ok [ (480, 480, 40, 40)%Z ] |}.

(* ================================================================== *)
(** * Part II: properties *)
(* ================================================================== *)

(** ** Boolean comparisons on reals *)

Lemma Rltb_true_iff (a b : R) : Py.Rltb a b = true <-> a < b.
Proof. unfold Py.Rltb. destruct (Rlt_dec a b); split; intros; auto; discriminate. Qed.

Lemma Rltb_false_iff (a b : R) : Py.Rltb a b = false <-> b <= a.
Proof.
  unfold Py.Rltb. destruct (Rlt_dec a b); split; intros; auto; try discriminate; lra.
Qed.

Lemma Rleb_true_iff (a b : R) : Py.Rleb a b = true <-> a <= b.
Proof. unfold Py.Rleb. destruct (Rle_dec a b); split; intros; auto; discriminate. Qed.

Lemma Rleb_false_iff (a b : R) : Py.Rleb a b = false <-> b < a.
Proof.
  unfold Py.Rleb. destruct (Rle_dec a b); split; intros; auto; try discriminate; lra.
Qed.

Lemma Reqb_true_iff (a b : R) : Py.Reqb a b = true <-> a = b.
Proof. unfold Py.Reqb. destruct (Req_dec_T a b); split; intros; auto; discriminate. Qed.

Lemma Reqb_false_iff (a b : R) : Py.Reqb a b = false <-> a <> b.
Proof.
  unfold Py.Reqb. destruct (Req_dec_T a b); split; intros; auto; try discriminate.
  contradiction.
Qed.

(** Decide the comparison at the head of a goal, keeping the order fact. *)
Ltac case_Rltb a b :=
  let H := fresh "Hcmp" in
  destruct (Py.Rltb a b) eqn:H;
  [ apply Rltb_true_iff in H | apply Rltb_false_iff in H ].

Ltac case_Rleb a b :=
  let H := fresh "Hcmp" in
  destruct (Py.Rleb a b) eqn:H;
  [ apply Rleb_true_iff in H | apply Rleb_false_iff in H ].

Ltac case_Reqb a b :=
  let H := fresh "Hcmp" in
  destruct (Py.Reqb a b) eqn:H;
  [ apply Reqb_true_iff in H | apply Reqb_false_iff in H ].

(** Rewrite a comparison whose outcome [lra] can settle. *)
Ltac Rb_true a b := replace (Py.Rltb a b) with true
  by (symmetry; apply Rltb_true_iff; lra).
Ltac Rb_false a b := replace (Py.Rltb a b) with false
  by (symmetry; apply Rltb_false_iff; lra).
Ltac Rle_true a b := replace (Py.Rleb a b) with true
  by (symmetry; apply Rleb_true_iff; lra).
Ltac Rle_false a b := replace (Py.Rleb a b) with false
  by (symmetry; apply Rleb_false_iff; lra).

(** ** Scale calibration *)

Section ScaleCalibrationFacts.
Import Py ScaleCalibration.

Lemma COMMON_SCALES_positive :
  Forall (fun p : string * R => 0 < snd p) COMMON_SCALES.
Proof. unfold COMMON_SCALES. repeat constructor; simpl; lra. Qed.

Lemma expected_ppm_nonzero (scale_factor : R) (dpi : Z) :
  0 < scale_factor -> dpi <> 0%Z ->
  1 / scale_factor * INCHES_PER_METER * IZR dpi <> 0.
Proof.
  intros Hsf Hdpi. unfold INCHES_PER_METER.
  assert (IZR dpi <> 0) by (apply not_0_IZR; exact Hdpi).
  assert (0 < 1 / scale_factor) by (apply Rdiv_lt_0_compat; lra).
  apply Rmult_integral_contrapositive_currified; [ | assumption ].
  nra.
Qed.

(** The scale-string search raises no [ValueError] on a table of positive
    scale factors. *)
Lemma infer_scale_string_loop_no_ValueError
    (items : list (string * R)) (ppm : R) (dpi : Z) :
  Forall (fun p : string * R => 0 < snd p) items ->
  forall msg, infer_scale_string_loop items ppm dpi <> Raise (ValueError msg).
Proof.
  induction 1 as [ | [s sf] rest Hsf _ IH ]; intros msg; simpl.
  - discriminate.
  - simpl in Hsf. unfold compute_pixels_per_meter.
    Rle_false sf 0. simpl. unfold div.
    case_Reqb (1 / sf * INCHES_PER_METER * IZR dpi) 0; simpl.
    + discriminate.
    + destruct (Rltb _ 0.05); [ discriminate | apply IH ].
Qed.

(** With a non-zero rendering resolution it returns. *)
Lemma infer_scale_string_loop_returns
    (items : list (string * R)) (ppm : R) (dpi : Z) :
  Forall (fun p : string * R => 0 < snd p) items -> dpi <> 0%Z ->
  exists s, infer_scale_string_loop items ppm dpi = Ok s.
Proof.
  intros Hpos Hdpi.
  induction Hpos as [ | [s sf] rest Hsf _ IH ]; simpl.
  - eauto.
  - simpl in Hsf. unfold compute_pixels_per_meter.
    Rle_false sf 0. simpl. unfold div.
    case_Reqb (1 / sf * INCHES_PER_METER * IZR dpi) 0; simpl.
    + exfalso. revert Hcmp. apply expected_ppm_nonzero; assumption.
    + destruct (Rltb _ 0.05); [ eauto | apply IH ].
Qed.

(** C2: [compute_scale_from_points] raises [ValueError] exactly when one of
    the two distances is not positive.  For positive distances it returns
    a context whose [pixels_per_meter] is their quotient, whose detection
    method is user calibration and whose confidence is 1: for the default
    call, and for every page whose rendering resolution is not zero.  The
    inputs [(90, 0.9)] give [pixels_per_meter = 100]. *)
Theorem compute_scale_from_points_spec :
  (forall pd rd pn pi fid,
      (exists msg, compute_scale_from_points pd rd pn pi fid
                   = Raise (ValueError msg))
      <-> (pd <= 0 \/ rd <= 0))
  /\ (forall pd rd, 0 < pd -> 0 < rd ->
        exists ctx,
          compute_scale_from_points_default pd rd = Ok ctx
          /\ pixels_per_meter ctx = Some (pd / rd)
          /\ detection_method ctx = "user_calibration"%string
          /\ confidence ctx = 1)
  /\ (forall pd rd pn pi fid, 0 < pd -> 0 < rd -> dpi_of pi <> 0%Z ->
        exists ctx,
          compute_scale_from_points pd rd pn pi fid = Ok ctx
          /\ pixels_per_meter ctx = Some (pd / rd)
          /\ detection_method ctx = "user_calibration"%string
          /\ confidence ctx = 1)
  /\ (exists ctx,
        compute_scale_from_points_default 90 0.9 = Ok ctx
        /\ pixels_per_meter ctx = Some 100).
Proof.
  assert (General : forall pd rd pn pi fid,
             0 < pd -> 0 < rd -> dpi_of pi <> 0%Z ->
             exists ctx,
               compute_scale_from_points pd rd pn pi fid = Ok ctx
               /\ pixels_per_meter ctx = Some (pd / rd)
               /\ detection_method ctx = "user_calibration"%string
               /\ confidence ctx = 1).
  { intros pd rd pn pi fid Hpd Hrd Hdpi. unfold compute_scale_from_points.
    Rle_false pd 0. Rle_false rd 0.
    destruct (infer_scale_string_loop_returns COMMON_SCALES (pd / rd)
                (dpi_of pi) COMMON_SCALES_positive Hdpi) as [s Hs].
    unfold infer_scale_string. rewrite Hs. simpl.
    eexists. split; [ reflexivity | ]. simpl. auto. }
  split; [ | split; [ | split ] ].
  - intros pd rd pn pi fid. unfold compute_scale_from_points. split.
    + intros [msg H].
      case_Rleb pd 0; [ left; assumption | ].
      case_Rleb rd 0; [ right; assumption | ].
      exfalso. unfold infer_scale_string in H.
      destruct (infer_scale_string_loop COMMON_SCALES (pd / rd) _) eqn:E;
        simpl in H; [ discriminate | ].
      inversion H; subst.
      exact (infer_scale_string_loop_no_ValueError _ _ _
               COMMON_SCALES_positive _ E).
    + intros [H | H].
      * Rle_true pd 0. eauto.
      * case_Rleb pd 0; [ eauto | ]. Rle_true rd 0. eauto.
  - intros pd rd Hpd Hrd. apply General; simpl; auto; lia.
  - exact General.
  - destruct (General 90 0.9 1%Z None None) as [ctx (H1 & H2 & _)];
      simpl; try lra; try lia.
    exists ctx. split; [ exact H1 | ]. rewrite H2. f_equal. lra.
Qed.

(** The theorem at the inputs [(90, 0.9)]. *)
Lemma compute_scale_from_points_spec_witness :
  0 < 90 /\ 0 < 0.9 /\
  exists ctx,
    compute_scale_from_points_default 90 0.9 = Ok ctx
    /\ pixels_per_meter ctx = Some (90 / 0.9)
    /\ detection_method ctx = "user_calibration"%string
    /\ confidence ctx = 1.
Proof.
  split; [ lra | split; [ lra | ] ].
  apply (proj1 (proj2 compute_scale_from_points_spec)); lra.
Defined.

(** C2 as stated fails: on a page whose rendering resolution is zero,
    positive distances do not give a context.  The inference of the scale
    string divides by the pixels per metre it expects, which are zero
    there, and the call raises [ZeroDivisionError]. *)
Lemma compute_scale_from_points_raises_on_zero_dpi :
  0 < 100 /\ 0 < 1
  /\ compute_scale_from_points 100 1 1 (Some unrendered_page) None
     = Raise ZeroDivisionError
  /\ ~ exists ctx,
         compute_scale_from_points 100 1 1 (Some unrendered_page) None
         = Ok ctx.
Proof.
  assert (E : compute_scale_from_points 100 1 1 (Some unrendered_page) None
              = Raise ZeroDivisionError).
  { unfold compute_scale_from_points. Rle_false 100 0. Rle_false 1 0.
    cbv zeta. unfold infer_scale_string, COMMON_SCALES.
    cbn [infer_scale_string_loop dpi_of dpi unrendered_page].
    unfold compute_pixels_per_meter. Rle_false 1 0. cbn [bind].
    unfold div.
    replace (Reqb (1 / 1 * INCHES_PER_METER * IZR 0) 0) with true
      by (symmetry; apply Reqb_true_iff; lra).
    reflexivity. }
  split; [ lra | ]. split; [ lra | ]. split; [ exact E | ].
  intros [ctx H]. rewrite E in H. discriminate H.
Qed.

End ScaleCalibrationFacts.

(** On binary64 the quotient of [90.0] by [0.9] is [100.0] exactly. *)
Lemma binary64_quotient_90_0_9 :
  Binary64.pixels_per_meter_quotient Binary64.f90 Binary64.f0_9
  = Binary64.f100.
Proof. vm_compute. reflexivity. Qed.

(** ** Ray casting: the two implementations *)

Section RayCastingFacts.
Import Py.

Lemma fold_left_ext_fun {A B : Type} (f g : A -> B -> A) (l : list B) (a : A) :
  (forall a b, f a b = g a b) -> fold_left f l a = fold_left g l a.
Proof.
  intros Hfg. revert a. induction l as [ | b l IH ]; intros a; simpl.
  - reflexivity.
  - rewrite Hfg. apply IH.
Qed.

Lemma contains_point_body_eq (pts : list (R * R)) (x y : R)
    (st : bool * nat) (i : nat) :
  MeasurementEngine.contains_point_body pts x y st i
  = VectorMeasurement.point_in_polygon_body pts x y st i.
Proof.
  unfold MeasurementEngine.contains_point_body,
    VectorMeasurement.point_in_polygon_body.
  unfold MeasurementEngine.Point, VectorMeasurement.Point.
  destruct st as [inside j].
  destruct (nth i pts (0, 0)) as [xi yi].
  destruct (nth j pts (0, 0)) as [xj yj].
  destruct (xorb (Rltb y yi) (Rltb y yj)); [ | reflexivity ].
  destruct (Rltb x _); reflexivity.
Qed.

(** C9: [Sector.contains_point] and [point_in_polygon] return the same
    boolean on every point and every vertex list, and both return [False]
    on fewer than three vertices. *)
Theorem contains_point_agrees_with_point_in_polygon :
  forall (s : MeasurementEngine.Sector) (x y : R),
    MeasurementEngine.contains_point s x y
    = VectorMeasurement.point_in_polygon x y
        (MeasurementEngine.polygon_points s)
    /\ ((List.length (MeasurementEngine.polygon_points s) < 3)%nat ->
        MeasurementEngine.contains_point s x y = false
        /\ VectorMeasurement.point_in_polygon x y
             (MeasurementEngine.polygon_points s) = false).
Proof.
  intros s x y.
  unfold MeasurementEngine.contains_point, VectorMeasurement.point_in_polygon.
  unfold MeasurementEngine.Point, VectorMeasurement.Point.
  split.
  - rewrite (fold_left_ext_fun
               (MeasurementEngine.contains_point_body
                  (MeasurementEngine.polygon_points s) x y)
               (VectorMeasurement.point_in_polygon_body
                  (MeasurementEngine.polygon_points s) x y))
      by (intros; apply contains_point_body_eq).
    reflexivity.
  - intros Hlen. apply Nat.ltb_lt in Hlen. rewrite Hlen. auto.
Qed.

(** The theorem on a two-vertex polygon. *)
Lemma contains_point_agrees_with_point_in_polygon_witness :
  let s := {| MeasurementEngine.sector_id := "s";
              MeasurementEngine.file_id := "f";
              MeasurementEngine.page_number := 1;
              MeasurementEngine.name := "two points";
              MeasurementEngine.polygon_points := [(0, 0); (1, 1)] |} in
  MeasurementEngine.contains_point s 0 0 = false
  /\ VectorMeasurement.point_in_polygon 0 0
       (MeasurementEngine.polygon_points s) = false.
Proof.
  intros s.
  apply (proj2 (contains_point_agrees_with_point_in_polygon s 0 0)).
  simpl. lia.
Defined.

End RayCastingFacts.

(** ** Hatch filtering *)

Section HatchFacts.
Import Py WallOpeningDetector.

Lemma in_hatch_loop_true_iff (o : WallOpening) (hs : list HatchRegion) :
  in_hatch_loop o hs = true <-> exists h, In h hs /\ in_box o h.
Proof.
  induction hs as [ | [[[hx hy] hw] hh] rest IH ]; simpl.
  - split; [ discriminate | intros (h & [] & _) ].
  - rewrite !plus_IZR.
    case_Rleb (IZR hx) (center_x o); simpl.
    2: { rewrite IH. split.
         - intros (h & Hin & Hb). eauto.
         - intros (h & [Heq | Hin] & Hb); [ | eauto ].
           subst h. simpl in Hb. lra. }
    case_Rleb (center_x o) (IZR hx + IZR hw); simpl.
    2: { rewrite IH. split.
         - intros (h & Hin & Hb). eauto.
         - intros (h & [Heq | Hin] & Hb); [ | eauto ].
           subst h. simpl in Hb. lra. }
    case_Rleb (IZR hy) (center_y o); simpl.
    2: { rewrite IH. split.
         - intros (h & Hin & Hb). eauto.
         - intros (h & [Heq | Hin] & Hb); [ | eauto ].
           subst h. simpl in Hb. lra. }
    case_Rleb (center_y o) (IZR hy + IZR hh); simpl.
    2: { rewrite IH. split.
         - intros (h & Hin & Hb). eauto.
         - intros (h & [Heq | Hin] & Hb); [ | eauto ].
           subst h. simpl in Hb. lra. }
    split; [ intros _ | reflexivity ].
    exists (hx, hy, hw, hh). split; [ auto | simpl; lra ].
Qed.

Lemma fold_left_append_filter {A : Type} (p : A -> bool) (l acc : list A) :
  fold_left (fun filtered a => if p a then filtered ++ [a] else filtered) l acc
  = acc ++ filter p l.
Proof.
  revert acc. induction l as [ | a l IH ]; intros acc; simpl.
  - now rewrite app_nil_r.
  - rewrite IH. destruct (p a); [ | reflexivity ].
    now rewrite <- app_assoc.
Qed.

Lemma filter_openings_in_hatch_filter (os : list WallOpening)
    (hs : list HatchRegion) :
  filter_openings_in_hatch os hs
  = filter (fun o => negb (in_hatch_loop o hs)) os.
Proof.
  unfold filter_openings_in_hatch. destruct hs as [ | h hs ].
  - simpl. induction os as [ | o os IH ]; simpl; [ reflexivity | ].
    now rewrite <- IH.
  - apply (fold_left_append_filter
             (fun o => negb (in_hatch_loop o (h :: hs))) os []).
Qed.

(** C5: [filter_openings_in_hatch] drops every opening whose centre is
    strictly inside some hatch box, keeps every opening whose centre is
    1 px or more outside all of them (an opening survives exactly when its
    centre is in no closed hatch box), returns the survivors unchanged and
    in their order (it is a [filter] of the input), and returns the input
    when there is no hatch region. *)
Theorem filter_openings_in_hatch_spec :
  forall (os : list WallOpening) (hs : list HatchRegion),
    (forall o h, In h hs -> strictly_inside o h ->
                 ~ In o (filter_openings_in_hatch os hs))
    /\ (forall o, In o os -> (forall h, In h hs -> outside_by 1 o h) ->
                  In o (filter_openings_in_hatch os hs))
    /\ (forall o, In o (filter_openings_in_hatch os hs)
                  <-> In o os /\ ~ exists h, In h hs /\ in_box o h)
    /\ (exists keep, filter_openings_in_hatch os hs = filter keep os)
    /\ filter_openings_in_hatch os [] = os.
Proof.
  intros os hs. rewrite filter_openings_in_hatch_filter.
  split; [ | split; [ | split; [ | split ] ] ].
  - intros o [[[hx hy] hw] hh] Hin Hs Hf.
    apply filter_In in Hf. destruct Hf as [_ Hf].
    apply negb_true_iff in Hf.
    assert (Ht : in_hatch_loop o hs = true).
    { apply in_hatch_loop_true_iff. exists (hx, hy, hw, hh).
      split; [ assumption | ]. simpl in *. lra. }
    congruence.
  - intros o Hin Hout. apply filter_In. split; [ assumption | ].
    apply negb_true_iff. apply not_true_is_false. intros Ht.
    apply in_hatch_loop_true_iff in Ht.
    destruct Ht as ([[[hx hy] hw] hh] & Hh & Hb).
    specialize (Hout _ Hh). simpl in *. lra.
  - intros o. rewrite filter_In, negb_true_iff.
    rewrite <- in_hatch_loop_true_iff.
    destruct (in_hatch_loop o hs); split; intros [H1 H2]; split;
      auto; try discriminate; try congruence.
  - eexists. reflexivity.
  - reflexivity.
Qed.

(** The theorem at a box from (10,10) of size 100 x 100: the opening
    centred at (50,50) goes, the one centred at (111,50) stays. *)
Lemma filter_openings_in_hatch_spec_witness :
  ~ In (opening_at 50 50)
       (filter_openings_in_hatch [opening_at 50 50; opening_at 111 50]
          [(10, 10, 100, 100)%Z])
  /\ In (opening_at 111 50)
        (filter_openings_in_hatch [opening_at 50 50; opening_at 111 50]
           [(10, 10, 100, 100)%Z]).
Proof.
  destruct (filter_openings_in_hatch_spec
              [opening_at 50 50; opening_at 111 50] [(10, 10, 100, 100)%Z])
    as (H1 & H2 & _).
  split.
  - apply (H1 _ (10, 10, 100, 100)%Z); [ left; reflexivity | simpl; lra ].
  - apply H2; [ right; left; reflexivity | ].
    intros h [Hh | []]. subst h. simpl. lra.
Defined.

End HatchFacts.

(** ** Shoelace area and perimeter *)

Section ShoelaceFacts.
Import Py MeasurementEngine.

Lemma fold_left_ext_in {A B : Type} (f g : A -> B -> A) (l : list B) (a : A) :
  (forall a b, In b l -> f a b = g a b) -> fold_left f l a = fold_left g l a.
Proof.
  revert a. induction l as [ | b l IH ]; intros a Hfg; simpl.
  - reflexivity.
  - rewrite Hfg by (left; reflexivity).
    apply IH. intros a' b' Hin. apply Hfg. right. exact Hin.
Qed.

Lemma fold_left_cons_eq {A B : Type} (f : A -> B -> A) (b : B) (l : list B)
    (a : A) :
  fold_left f (b :: l) a = fold_left f l (f a b).
Proof. reflexivity. Qed.

Lemma fold_left_map_seq {A B C : Type} (f : A -> C -> A) (h : B -> C)
    (l : list B) (a : A) :
  fold_left f (map h l) a = fold_left (fun a b => f a (h b)) l a.
Proof.
  revert a. induction l as [ | b l IH ]; intros a; simpl; auto.
Qed.

(** A loop over the positions of a list that adds [g] of each element and
    its successor is the path sum of the list. *)
Lemma index_loop_path_sum (g : R * R -> R * R -> R) (L : list (R * R))
    (acc : R) :
  fold_left (fun acc i => acc + g (nth i L (0, 0)) (nth (S i) L (0, 0)))
            (seq 0 (List.length L - 1)) acc
  = acc + path_sum g L.
Proof.
  revert acc. induction L as [ | a L IH ]; intros acc.
  - simpl. lra.
  - destruct L as [ | b t ].
    + simpl. lra.
    + change (List.length (a :: b :: t) - 1)%nat with (S (List.length t)).
      rewrite <- cons_seq, <- seq_shift, fold_left_cons_eq, fold_left_map_seq.
      change (path_sum g (a :: b :: t)) with (g a b + path_sum g (b :: t)).
      replace (List.length t) with (List.length (b :: t) - 1)%nat
        by (simpl; lia).
      rewrite <- Rplus_assoc. rewrite <- IH. reflexivity.
Qed.

Lemma nth_succ_mod_closed (l : list (R * R)) (i : nat) :
  (i < List.length l)%nat ->
  nth ((i + 1) mod List.length l) l (0, 0) = nth (S i) (closed l) (0, 0).
Proof.
  intros Hi. unfold closed.
  destruct (Nat.eq_dec (S i) (List.length l)) as [E | E].
  - replace (i + 1)%nat with (List.length l) by lia.
    rewrite Nat.Div0.mod_same.
    rewrite app_nth2 by lia. rewrite E, Nat.sub_diag. simpl.
    destruct l; reflexivity.
  - rewrite Nat.mod_small by lia.
    rewrite app_nth1 by lia. f_equal. lia.
Qed.

(** The wrap-around loop of the two shoelace functions is the path sum
    over the closed polygon. *)
Lemma wrap_loop_path_sum (g : R * R -> R * R -> R) (l : list (R * R)) :
  fold_left
    (fun acc i =>
       acc + g (nth i l (0, 0)) (nth ((i + 1) mod List.length l) l (0, 0)))
    (seq 0 (List.length l)) 0
  = path_sum g (closed l).
Proof.
  rewrite (fold_left_ext_in _
             (fun acc i => acc + g (nth i (closed l) (0, 0))
                                   (nth (S i) (closed l) (0, 0)))).
  - replace (List.length l) with (List.length (closed l) - 1)%nat at 1.
    + rewrite index_loop_path_sum. lra.
    + unfold closed. rewrite length_app. simpl. lia.
  - intros acc i Hin. apply in_seq in Hin.
    rewrite nth_succ_mod_closed by lia.
    replace (nth i (closed l) (0, 0)) with (nth i l (0, 0))
      by (unfold closed; rewrite app_nth1 by lia; reflexivity).
    reflexivity.
Qed.

Lemma shoelace_area_pixels_closed (pts : list (R * R)) :
  (3 <= List.length pts)%nat ->
  shoelace_area_pixels pts = Ok (Rabs (path_sum cross (closed pts)) / 2).
Proof.
  intros Hn. unfold shoelace_area_pixels, Point.
  rewrite (proj2 (Nat.ltb_ge _ _) Hn).
  do 3 f_equal. rewrite <- wrap_loop_path_sum.
  apply fold_left_ext_fun. intros a i.
  cbv zeta.
  destruct (nth i pts (0, 0)) as [xi yi].
  destruct (nth ((i + 1) mod List.length pts) pts (0, 0)) as [xj yj].
  unfold cross. simpl. ring.
Qed.

Lemma shoelace_perimeter_pixels_closed (pts : list (R * R)) :
  (2 <= List.length pts)%nat ->
  shoelace_perimeter_pixels pts = Ok (path_sum euclid (closed pts)).
Proof.
  intros Hn. unfold shoelace_perimeter_pixels, Point.
  rewrite (proj2 (Nat.ltb_ge _ _) Hn).
  f_equal. rewrite <- wrap_loop_path_sum.
  apply fold_left_ext_fun. intros a i.
  cbv zeta.
  destruct (nth i pts (0, 0)) as [xi yi].
  destruct (nth ((i + 1) mod List.length pts) pts (0, 0)) as [xj yj].
  reflexivity.
Qed.

Lemma path_sum_snoc (f : R * R -> R * R -> R) (l : list (R * R))
    (p q : R * R) :
  path_sum f (l ++ [p; q]) = path_sum f (l ++ [p]) + f p q.
Proof.
  induction l as [ | a l IH ].
  - simpl. lra.
  - destruct l as [ | b t ].
    + simpl. lra.
    + change (path_sum f ((a :: b :: t) ++ [p; q]))
        with (f a b + path_sum f ((b :: t) ++ [p; q])).
      change (path_sum f ((a :: b :: t) ++ [p]))
        with (f a b + path_sum f ((b :: t) ++ [p])).
      rewrite IH. lra.
Qed.

(** Rotating the vertex list by one position leaves the closed path sum
    unchanged, whatever is summed along the edges. *)
Lemma closed_path_sum_rot1 (f : R * R -> R * R -> R) (l : list (R * R)) :
  path_sum f (closed (rot1 l)) = path_sum f (closed l).
Proof.
  destruct l as [ | a [ | b t ] ]; try reflexivity.
  unfold closed, rot1.
  change (hd (0, 0) ((b :: t) ++ [a])) with b.
  change (hd (0, 0) (a :: b :: t)) with a.
  rewrite <- app_assoc.
  change ([a] ++ [b]) with [a; b].
  rewrite path_sum_snoc.
  change (path_sum f ((a :: b :: t) ++ [a]))
    with (f a b + path_sum f ((b :: t) ++ [a])).
  lra.
Qed.

Lemma closed_path_sum_rotate (f : R * R -> R * R -> R) (k : nat)
    (l : list (R * R)) :
  path_sum f (closed (rotate k l)) = path_sum f (closed l).
Proof.
  induction k as [ | k IH ]; [ reflexivity | ].
  unfold rotate in *. simpl. now rewrite closed_path_sum_rot1.
Qed.

Lemma cross_antisym (p q : R * R) : cross q p = - cross p q.
Proof. unfold cross. ring. Qed.

Lemma path_sum_cross_rev (l : list (R * R)) :
  path_sum cross (rev l) = - path_sum cross l.
Proof.
  induction l as [ | a l IH ].
  - simpl. lra.
  - destruct l as [ | b t ].
    + simpl. lra.
    + change (path_sum cross (a :: b :: t))
        with (cross a b + path_sum cross (b :: t)).
      change (rev (a :: b :: t)) with ((rev t ++ [b]) ++ [a]).
      rewrite <- app_assoc. change ([b] ++ [a]) with [b; a].
      rewrite path_sum_snoc.
      change (rev t ++ [b]) with (rev (b :: t)).
      rewrite IH, cross_antisym. lra.
Qed.

Lemma closed_path_sum_cross_rev (l : list (R * R)) :
  path_sum cross (closed (rev l)) = - path_sum cross (closed l).
Proof.
  destruct l as [ | a t ]; [ simpl; lra | ].
  change (rev (a :: t)) with (rot1 (a :: rev t)).
  rewrite closed_path_sum_rot1.
  unfold closed. change (hd (0, 0) (a :: rev t)) with a.
  change (hd (0, 0) (a :: t)) with a.
  rewrite <- path_sum_cross_rev.
  rewrite rev_app_distr. reflexivity.
Qed.

Lemma length_rot1 {A : Type} (l : list A) :
  List.length (rot1 l) = List.length l.
Proof.
  destruct l; simpl; [ reflexivity | ]. rewrite length_app. simpl. lia.
Qed.

Lemma length_rotate {A : Type} (k : nat) (l : list A) :
  List.length (rotate k l) = List.length l.
Proof.
  induction k as [ | k IH ]; [ reflexivity | ].
  unfold rotate in *. simpl. now rewrite length_rot1.
Qed.

Lemma firstn_skipn_step {A : Type} (k : nat) (l : list A) (a : A)
    (r : list A) :
  skipn k l = a :: r ->
  firstn (S k) l = firstn k l ++ [a] /\ skipn (S k) l = r.
Proof.
  revert l. induction k as [ | k IH ]; intros l H.
  - simpl in H. subst l. split; reflexivity.
  - destruct l as [ | x l ]; [ discriminate | ].
    change (skipn (S k) (x :: l)) with (skipn k l) in H.
    destruct (IH l H) as [IH1 IH2]. split.
    + change (firstn (S (S k)) (x :: l)) with (x :: firstn (S k) l).
      rewrite IH1. reflexivity.
    + exact IH2.
Qed.

(** Rotation by [k <= len] is Python's [l[k:] + l[:k]]. *)
Lemma rotate_skipn_firstn {A : Type} (k : nat) (l : list A) :
  (k <= List.length l)%nat -> rotate k l = skipn k l ++ firstn k l.
Proof.
  induction k as [ | k IH ]; intros Hk.
  - simpl. now rewrite app_nil_r.
  - change (rotate (S k) l) with (rot1 (rotate k l)).
    rewrite IH by lia.
    destruct (skipn k l) as [ | a r ] eqn:E.
    + exfalso. assert (H : List.length (skipn k l) = 0%nat) by now rewrite E.
      rewrite length_skipn in H. lia.
    + destruct (firstn_skipn_step k l a r E) as [E1 E2].
      rewrite E1, E2. simpl. now rewrite <- app_assoc.
Qed.

(** C3: on a vertex list with at least three points,
    [shoelace_area_pixels] returns the same value for the list, for the
    reversed list and for every cyclic rotation of it; the unit square has
    area 1 and perimeter 4. *)
Theorem shoelace_area_invariant :
  (forall pts : list Point, (3 <= List.length pts)%nat ->
     exists a,
       shoelace_area_pixels pts = Ok a
       /\ shoelace_area_pixels (rev pts) = Ok a
       /\ (forall k, shoelace_area_pixels (rotate k pts) = Ok a)
       /\ (forall k, (k <= List.length pts)%nat ->
             shoelace_area_pixels (skipn k pts ++ firstn k pts) = Ok a))
  /\ shoelace_area_pixels unit_square = Ok 1
  /\ shoelace_perimeter_pixels unit_square = Ok 4.
Proof.
  split; [ | split ].
  - intros pts Hn.
    assert (Hrot : forall k, shoelace_area_pixels (rotate k pts)
                   = Ok (Rabs (path_sum cross (closed pts)) / 2)).
    { intros k. rewrite shoelace_area_pixels_closed
        by (rewrite length_rotate; exact Hn).
      now rewrite closed_path_sum_rotate. }
    eexists. split; [ apply shoelace_area_pixels_closed; exact Hn | ].
    split; [ | split ].
    + rewrite shoelace_area_pixels_closed by (rewrite length_rev; exact Hn).
      rewrite closed_path_sum_cross_rev, Rabs_Ropp. reflexivity.
    + exact Hrot.
    + intros k Hk. rewrite <- rotate_skipn_firstn by exact Hk. apply Hrot.
  - rewrite shoelace_area_pixels_closed by (simpl; lia).
    unfold unit_square, closed, cross. simpl. f_equal.
    replace (0 * 0 - 1 * 0 + (1 * 1 - 1 * 0 + (1 * 1 - 0 * 1
             + (0 * 0 - 0 * 1 + 0)))) with 2 by lra.
    rewrite Rabs_pos_eq by lra. lra.
  - rewrite shoelace_perimeter_pixels_closed by (simpl; lia).
    unfold unit_square, closed, euclid. simpl. f_equal.
    replace ((1 - 0) * ((1 - 0) * 1) + (0 - 0) * ((0 - 0) * 1)) with 1 by lra.
    replace ((1 - 1) * ((1 - 1) * 1) + (1 - 0) * ((1 - 0) * 1)) with 1 by lra.
    replace ((0 - 1) * ((0 - 1) * 1) + (1 - 1) * ((1 - 1) * 1)) with 1 by lra.
    replace ((0 - 0) * ((0 - 0) * 1) + (0 - 1) * ((0 - 1) * 1)) with 1 by lra.
    rewrite sqrt_1. lra.
Qed.

(** The theorem at the triangle [(0,0), (4,0), (0,3)]. *)
Lemma shoelace_area_invariant_witness :
  exists a,
    shoelace_area_pixels [(0, 0); (4, 0); (0, 3)] = Ok a
    /\ shoelace_area_pixels (rev [(0, 0); (4, 0); (0, 3)]) = Ok a
    /\ (forall k, shoelace_area_pixels (rotate k [(0, 0); (4, 0); (0, 3)])
                  = Ok a)
    /\ (forall k, (k <= 3)%nat ->
          shoelace_area_pixels
            (skipn k [(0, 0); (4, 0); (0, 3)]
             ++ firstn k [(0, 0); (4, 0); (0, 3)]) = Ok a).
Proof.
  apply (proj1 shoelace_area_invariant [(0, 0); (4, 0); (0, 3)]).
  simpl. lia.
Defined.

(** C10: on exactly two points [shoelace_perimeter_pixels] does not raise
    and returns twice their Euclidean distance. *)
Theorem shoelace_perimeter_two_points :
  forall p q : Point,
    shoelace_perimeter_pixels [p; q] = Ok (2 * euclid p q).
Proof.
  intros [px py] [qx qy].
  rewrite shoelace_perimeter_pixels_closed by (simpl; lia).
  unfold closed, euclid. simpl. f_equal.
  replace ((px - qx) * ((px - qx) * 1) + (py - qy) * ((py - qy) * 1))
    with ((qx - px) * ((qx - px) * 1) + (qy - py) * ((qy - py) * 1)) by ring.
  lra.
Qed.

End ShoelaceFacts.

(** ** The angle of a line segment *)

Section AngleFacts.
Import Py VectorMeasurement.

Lemma atan_nonpos (t : R) : t <= 0 -> atan t <= 0.
Proof.
  intros [Ht | Ht].
  - left. rewrite <- atan_0. apply atan_increasing. exact Ht.
  - subst t. rewrite atan_0. lra.
Qed.

Lemma atan_pos (t : R) : 0 < t -> 0 < atan t.
Proof. intros Ht. rewrite <- atan_0. apply atan_increasing. exact Ht. Qed.

Lemma atan_neg (t : R) : t < 0 -> atan t < 0.
Proof. intros Ht. rewrite <- atan_0. apply atan_increasing. exact Ht. Qed.

Lemma div_neg_sign (y x : R) : x < 0 ->
  (0 <= y -> y / x <= 0) /\ (y < 0 -> 0 < y / x) /\ (0 < y -> y / x < 0).
Proof.
  intros Hx. assert (Hinv : / x < 0) by (apply Rinv_lt_0_compat; exact Hx).
  unfold Rdiv. repeat split; intros Hy; nra.
Qed.

Lemma atan2_range (y x : R) : - PI < atan2 y x <= PI.
Proof.
  pose proof PI_RGT_0 as Hpi. unfold atan2.
  case_Rltb 0 x.
  - pose proof (atan_bound (y / x)). lra.
  - case_Rltb x 0.
    + destruct (div_neg_sign y x Hcmp0) as (H1 & H2 & _).
      pose proof (atan_bound (y / x)) as Hb.
      case_Rleb 0 y.
      * pose proof (atan_nonpos _ (H1 Hcmp1)). lra.
      * pose proof (atan_pos _ (H2 Hcmp1)). lra.
    + case_Rltb 0 y; [ lra | ]. case_Rltb y 0; lra.
Qed.

Lemma atan2_eq_PI_iff (y x : R) : atan2 y x = PI <-> (x < 0 /\ y = 0).
Proof.
  pose proof PI_RGT_0 as Hpi. unfold atan2. split.
  - case_Rltb 0 x.
    { pose proof (atan_bound (y / x)). lra. }
    case_Rltb x 0.
    + destruct (div_neg_sign y x Hcmp0) as (_ & H2 & H3).
      pose proof (atan_bound (y / x)) as Hb.
      case_Rleb 0 y; [ | lra ].
      intros E. split; [ assumption | ].
      destruct Hcmp1 as [Hy | Hy]; [ | auto ].
      pose proof (atan_neg _ (H3 Hy)). lra.
    + case_Rltb 0 y; [ lra | ]. case_Rltb y 0; lra.
  - intros [Hx Hy]. subst y.
    Rb_false 0 x. Rb_true x 0. Rle_true 0 0.
    replace (0 / x) with 0 by (unfold Rdiv; ring).
    rewrite atan_0. lra.
Qed.

Lemma degrees_range (a : R) :
  - PI < a <= PI -> - 180 < degrees a <= 180.
Proof.
  pose proof PI_RGT_0 as Hpi. intros [Hlo Hhi]. unfold degrees.
  assert (E : a * 180 / PI * PI = a * 180) by (field; lra).
  split.
  - apply Rmult_lt_reg_r with PI; [ exact Hpi | ]. rewrite E. lra.
  - apply Rmult_le_reg_r with PI; [ exact Hpi | ]. rewrite E. lra.
Qed.

Lemma degrees_eq_180_iff (a : R) : degrees a = 180 <-> a = PI.
Proof.
  pose proof PI_RGT_0 as Hpi. unfold degrees. split.
  - intros E. assert (E' : a * 180 / PI * PI = 180 * PI) by (rewrite E; ring).
    replace (a * 180 / PI * PI) with (a * 180) in E' by (field; lra). lra.
  - intros ->. field. lra.
Qed.

Lemma angle_degrees_closed_range (s : LineSegment) :
  0 <= angle_degrees s <= 180.
Proof.
  pose proof (atan2_range (y2 s - y1 s) (x2 s - x1 s)) as Hr.
  pose proof (degrees_range _ Hr) as Hd.
  unfold angle_degrees.
  case_Rltb (degrees (atan2 (y2 s - y1 s) (x2 s - x1 s))) 0; lra.
Qed.

Lemma angle_degrees_eq_180_iff (s : LineSegment) :
  angle_degrees s = 180 <-> (y2 s = y1 s /\ x2 s < x1 s).
Proof.
  pose proof (atan2_range (y2 s - y1 s) (x2 s - x1 s)) as Hr.
  pose proof (degrees_range _ Hr) as Hd.
  unfold angle_degrees.
  case_Rltb (degrees (atan2 (y2 s - y1 s) (x2 s - x1 s))) 0.
  - split.
    + intros E. lra.
    + intros [Hy Hx].
      assert (Hpi : atan2 (y2 s - y1 s) (x2 s - x1 s) = PI)
        by (apply atan2_eq_PI_iff; lra).
      apply degrees_eq_180_iff in Hpi. lra.
  - rewrite degrees_eq_180_iff, atan2_eq_PI_iff. lra.
Qed.

(** C7, as the code has it: the angle of every segment lies in the closed
    interval from 0 to 180 degrees; 180 is returned exactly for the
    horizontal segments drawn from right to left, so every other segment
    has its angle in the half-open interval. *)
Theorem angle_degrees_range :
  forall s : LineSegment,
    0 <= angle_degrees s <= 180
    /\ (angle_degrees s = 180 <-> (y2 s = y1 s /\ x2 s < x1 s))
    /\ (~ (y2 s = y1 s /\ x2 s < x1 s) -> 0 <= angle_degrees s < 180).
Proof.
  intros s.
  pose proof (angle_degrees_closed_range s) as Hrange.
  pose proof (angle_degrees_eq_180_iff s) as H180.
  split; [ exact Hrange | split; [ exact H180 | ] ].
  intros Hn. split; [ lra | ].
  destruct Hrange as [_ [Hlt | Heq]]; [ exact Hlt | ].
  exfalso. apply Hn. apply H180. exact Heq.
Qed.

(** The theorem at the segment from (0,0) to (0,5). *)
Lemma angle_degrees_range_witness :
  0 <= angle_degrees (mkLineSegment 0 0 0 5 1) < 180.
Proof.
  apply (proj2 (proj2 (angle_degrees_range (mkLineSegment 0 0 0 5 1)))).
  simpl. lra.
Defined.

(** C7 as stated fails: the segment from (10,0) to (0,0) has distinct
    endpoints and the angle 180. *)
Lemma angle_degrees_reaches_180 :
  let s := mkLineSegment 10 0 0 0 1 in
  (x1 s, y1 s) <> (x2 s, y2 s)
  /\ angle_degrees s = 180
  /\ ~ (0 <= angle_degrees s < 180).
Proof.
  intros s.
  assert (E : angle_degrees s = 180).
  { apply angle_degrees_eq_180_iff. simpl. lra. }
  split; [ | split ].
  - simpl. intros H. inversion H. lra.
  - exact E.
  - rewrite E. lra.
Qed.

End AngleFacts.

(** ** Wall length and drywall area in a sector *)

Section WallLengthFacts.
Import Py VectorMeasurement.

(** Settle the comparisons of concrete reals in the goal. *)
Ltac eval_Rcmp :=
  repeat first
    [ progress cbn [xorb negb andb orb fst snd]
    | match goal with
      | |- context [Rltb ?a ?b] => first [ Rb_true a b | Rb_false a b ]
      | |- context [Rleb ?a ?b] => first [ Rle_true a b | Rle_false a b ]
      end ].

Lemma Int_part_IZR_between (x : R) (z : Z) :
  IZR z <= x < IZR z + 1 -> Int_part x = z.
Proof. intros H. symmetry. apply Int_part_spec. lra. Qed.

(** A value with at most [n] decimals is its own rounding. *)
Lemma round_ndigits_exact (x : R) (n : nat) (z : Z) :
  x * 10 ^ n = IZR z -> round_ndigits x n = x.
Proof.
  intros E. unfold round_ndigits, round_half_even. rewrite E.
  rewrite (Int_part_IZR_between (IZR z) z) by lra.
  replace (IZR z - IZR z) with 0 by ring.
  Rb_true 0 (1 / 2). rewrite <- E. field.
  apply pow_nonzero. lra.
Qed.

(** A value below half a unit of the last place rounds to zero. *)
Lemma round_ndigits_small (x : R) (n : nat) :
  0 <= x * 10 ^ n < 1 / 2 -> round_ndigits x n = 0.
Proof.
  intros H. unfold round_ndigits, round_half_even.
  rewrite (Int_part_IZR_between (x * 10 ^ n) 0) by (simpl; lra).
  replace (x * 10 ^ n - 0) with (x * 10 ^ n) by ring.
  Rb_true (x * 10 ^ n) (1 / 2). unfold Rdiv. ring.
Qed.

Lemma wall_length_body_counted (sector : MeasurementEngine.Sector)
    (rb : bool) (acc : WallAcc) (w : WallSegment) :
  wall_length_body sector rb acc w
  = if counted sector rb w
    then {| total_length_px := total_length_px acc + ws_length_px w;
            segment_count := S (segment_count acc);
            included_segment_ids :=
              included_segment_ids acc ++ [segment_id w] |}
    else acc.
Proof.
  unfold wall_length_body, counted.
  destruct (ws_page_number w =? MeasurementEngine.page_number sector)%Z;
    reflexivity.
Qed.

Lemma wall_length_fold_total (sector : MeasurementEngine.Sector) (rb : bool)
    (ws : list WallSegment) (acc : WallAcc) :
  total_length_px (fold_left (wall_length_body sector rb) ws acc)
  = total_length_px acc + counted_length_px sector rb ws
  /\ segment_count (fold_left (wall_length_body sector rb) ws acc)
     = (segment_count acc
        + List.length (filter (counted sector rb) ws))%nat.
Proof.
  unfold counted_length_px. revert acc.
  induction ws as [ | w ws IH ]; intros acc; simpl.
  - split; [ lra | lia ].
  - rewrite wall_length_body_counted.
    destruct (counted sector rb w); simpl.
    + destruct (IH {| total_length_px := total_length_px acc + ws_length_px w;
                      segment_count := S (segment_count acc);
                      included_segment_ids :=
                        included_segment_ids acc ++ [segment_id w] |})
        as [H1 H2].
      rewrite H1, H2. simpl. split; [ lra | lia ].
    + apply IH.
Qed.

Lemma wall_length_loop_total (sector : MeasurementEngine.Sector) (rb : bool)
    (ws : list WallSegment) :
  total_length_px (wall_length_loop ws sector rb)
  = counted_length_px sector rb ws.
Proof.
  unfold wall_length_loop.
  rewrite (proj1 (wall_length_fold_total sector rb ws _)). simpl. lra.
Qed.

(** A segment of another page leaves the whole loop state unchanged. *)
Lemma wall_length_loop_other_page (sector : MeasurementEngine.Sector)
    (rb : bool) (ws1 ws2 : list WallSegment) (w : WallSegment) :
  ws_page_number w <> MeasurementEngine.page_number sector ->
  wall_length_loop (ws1 ++ w :: ws2) sector rb
  = wall_length_loop (ws1 ++ ws2) sector rb.
Proof.
  intros Hp. unfold wall_length_loop. rewrite !fold_left_app. simpl.
  rewrite wall_length_body_counted. unfold counted.
  apply Z.eqb_neq in Hp. rewrite Hp. reflexivity.
Qed.

Lemma Rsum_app (l1 l2 : list R) : Rsum (l1 ++ l2) = Rsum l1 + Rsum l2.
Proof.
  unfold Rsum. induction l1 as [ | a l1 IH ]; simpl; [ lra | ].
  rewrite IH. lra.
Qed.

Lemma counted_length_px_insert (sector : MeasurementEngine.Sector)
    (rb : bool) (ws1 ws2 : list WallSegment) (w : WallSegment) :
  counted_length_px sector rb (ws1 ++ w :: ws2)
  = counted_length_px sector rb (ws1 ++ ws2)
    + (if counted sector rb w then ws_length_px w else 0).
Proof.
  unfold counted_length_px. rewrite !filter_app, !map_app, !Rsum_app. simpl.
  destruct (counted sector rb w); simpl; lra.
Qed.

Lemma segment_in_polygon_both (seg : LineSegment) (pts : list Point)
    (rb : bool) :
  segment_in_polygon seg pts true = true ->
  segment_in_polygon seg pts rb = true.
Proof.
  unfold segment_in_polygon. destruct rb; [ auto | ].
  intros H. apply andb_true_iff in H. destruct H as [H _].
  rewrite H. reflexivity.
Qed.

Lemma compute_wall_length_value (ws : list WallSegment)
    (sector : MeasurementEngine.Sector)
    (sc : ScaleCalibration.ScaleContext) (rb : bool) (ppm : R) :
  ScaleCalibration.pixels_per_meter sc = Some ppm -> 0 < ppm ->
  exists r,
    compute_wall_length_in_sector_m ws sector sc rb = Ok r
    /\ MeasurementEngine.value r
       = round_ndigits (counted_length_px sector rb ws / ppm) 4
    /\ MeasurementEngine.unit r = "m"%string
    /\ MeasurementEngine.assumptions r
       = [ MeasurementEngine.A_pixels_per_meter ppm;
           MeasurementEngine.A_segment_count
             (List.length (filter (counted sector rb) ws));
           MeasurementEngine.A_require_both_endpoints rb;
           MeasurementEngine.A_note
             "All line segments treated as walls (no layer filtering)" ].
Proof.
  intros Hsc Hppm.
  unfold compute_wall_length_in_sector_m, ScaleCalibration.has_scale.
  rewrite Hsc. Rb_true 0 ppm. simpl. eexists. split; [ reflexivity | ]. simpl.
  rewrite wall_length_loop_total. unfold wall_length_loop.
  rewrite (proj2 (wall_length_fold_total sector rb ws _)). simpl. auto.
Qed.

Lemma compute_drywall_area_value (ws : list WallSegment)
    (sector : MeasurementEngine.Sector)
    (sc : ScaleCalibration.ScaleContext) (h : R) (rb : bool) (ppm : R) :
  ScaleCalibration.pixels_per_meter sc = Some ppm -> 0 < ppm -> 0 < h ->
  exists r,
    compute_drywall_area_in_sector_m2 ws sector sc h rb = Ok r
    /\ MeasurementEngine.value r
       = round_ndigits
           (round_ndigits (counted_length_px sector rb ws / ppm) 4 * h) 4
    /\ MeasurementEngine.unit r = "m2"%string.
Proof.
  intros Hsc Hppm Hh. unfold compute_drywall_area_in_sector_m2.
  Rle_false h 0.
  destruct (compute_wall_length_value ws sector sc rb ppm Hsc Hppm)
    as (r & Hr & Hv & _).
  rewrite Hr. simpl. eexists. split; [ reflexivity | ]. simpl.
  rewrite Hv. auto.
Qed.

Lemma point_in_square_10_50 :
  point_in_polygon 10 50 (MeasurementEngine.polygon_points square_sector)
  = true.
Proof.
  unfold point_in_polygon, point_in_polygon_body. simpl.
  eval_Rcmp. reflexivity.
Qed.

Lemma point_in_square_90_50 :
  point_in_polygon 90 50 (MeasurementEngine.polygon_points square_sector)
  = true.
Proof.
  unfold point_in_polygon, point_in_polygon_body. simpl.
  eval_Rcmp. reflexivity.
Qed.

Lemma point_in_square_11_50 :
  point_in_polygon 11 50 (MeasurementEngine.polygon_points square_sector)
  = true.
Proof.
  unfold point_in_polygon, point_in_polygon_body. simpl.
  eval_Rcmp. reflexivity.
Qed.

Lemma horizontal_length_px (xa xb y : R) (page : Z) :
  xa <= xb -> ws_length_px (wall_between xa y xb y page) = xb - xa.
Proof.
  intros H. unfold ws_length_px, length_px. simpl.
  replace ((xb - xa) * ((xb - xa) * 1) + (y - y) * ((y - y) * 1))
    with ((xb - xa) * (xb - xa)) by ring.
  apply sqrt_square. lra.
Qed.

Lemma segment_in_polygon_wall_between (xa ya xb yb : R) (page : Z)
    (pts : list Point) :
  segment_in_polygon (segment (wall_between xa ya xb yb page)) pts true
  = point_in_polygon xa ya pts && point_in_polygon xb yb pts.
Proof. reflexivity. Qed.

Lemma scenario_counted_length (rb : bool) :
  counted_length_px square_sector rb [wall_between 10 50 90 50 1] = 80.
Proof.
  unfold counted_length_px, counted. simpl filter.
  change (VectorMeasurement.ws_page_number (wall_between 10 50 90 50 1)
          =? MeasurementEngine.page_number square_sector)%Z with true.
  rewrite segment_in_polygon_both.
  - simpl. rewrite horizontal_length_px by lra. lra.
  - change (point_in_polygon 10 50
              (MeasurementEngine.polygon_points square_sector)
            && point_in_polygon 90 50
                 (MeasurementEngine.polygon_points square_sector) = true).
    rewrite point_in_square_10_50, point_in_square_90_50. reflexivity.
Qed.

Lemma short_wall_counted_length (rb : bool) :
  counted_length_px square_sector rb [wall_between 10 50 11 50 1] = 1.
Proof.
  unfold counted_length_px, counted. simpl filter.
  change (VectorMeasurement.ws_page_number (wall_between 10 50 11 50 1)
          =? MeasurementEngine.page_number square_sector)%Z with true.
  rewrite segment_in_polygon_both.
  - simpl. rewrite horizontal_length_px by lra. lra.
  - change (point_in_polygon 10 50
              (MeasurementEngine.polygon_points square_sector)
            && point_in_polygon 11 50
                 (MeasurementEngine.polygon_points square_sector) = true).
    rewrite point_in_square_10_50, point_in_square_11_50. reflexivity.
Qed.

(** C1, as the code has it: with a positive [pixels_per_meter] the wall
    length is the total [length_px] of the segments on the sector's page
    that pass [segment_in_polygon], divided by [pixels_per_meter] and
    rounded to 4 decimals; a segment of another page changes nothing,
    whatever its coordinates; a segment of the sector's page with both
    endpoints inside adds its full [length_px] to the total; the drywall
    area is the wall length times the wall height, rounded to 4 decimals.
    In the scenario of the square sector the wall length is 8 and the
    drywall area at height 2.6 is 20.8. *)
Theorem compute_wall_length_in_sector_m_spec :
  (forall ws sector sc rb ppm,
      ScaleCalibration.pixels_per_meter sc = Some ppm -> 0 < ppm ->
      exists r,
        compute_wall_length_in_sector_m ws sector sc rb = Ok r
        /\ MeasurementEngine.value r
           = round_ndigits (counted_length_px sector rb ws / ppm) 4)
  /\ (forall ws1 w ws2 sector sc rb,
        ws_page_number w <> MeasurementEngine.page_number sector ->
        compute_wall_length_in_sector_m (ws1 ++ w :: ws2) sector sc rb
        = compute_wall_length_in_sector_m (ws1 ++ ws2) sector sc rb
        /\ counted_length_px sector rb (ws1 ++ w :: ws2)
           = counted_length_px sector rb (ws1 ++ ws2))
  /\ (forall ws1 w ws2 sector rb,
        ws_page_number w = MeasurementEngine.page_number sector ->
        segment_in_polygon (segment w)
          (MeasurementEngine.polygon_points sector) true = true ->
        counted_length_px sector rb (ws1 ++ w :: ws2)
        = counted_length_px sector rb (ws1 ++ ws2) + ws_length_px w)
  /\ (forall ws sector sc h rb ppm,
        ScaleCalibration.pixels_per_meter sc = Some ppm -> 0 < ppm ->
        0 < h ->
        exists r,
          compute_drywall_area_in_sector_m2 ws sector sc h rb = Ok r
          /\ MeasurementEngine.value r
             = round_ndigits
                 (round_ndigits (counted_length_px sector rb ws / ppm) 4
                  * h) 4)
  /\ (exists r,
        compute_wall_length_in_sector_m [wall_between 10 50 90 50 1]
          square_sector (scale_with 10) true = Ok r
        /\ MeasurementEngine.value r = 8)
  /\ (exists r,
        compute_drywall_area_in_sector_m2 [wall_between 10 50 90 50 1]
          square_sector (scale_with 10) 2.6 true = Ok r
        /\ MeasurementEngine.value r = 20.8).
Proof.
  assert (R8 : round_ndigits (80 / 10) 4 = 8).
  { replace (80 / 10) with 8 by lra.
    apply (round_ndigits_exact 8 4 80000). simpl. lra. }
  split; [ | split; [ | split; [ | split; [ | split ] ] ] ].
  - intros ws sector sc rb ppm Hsc Hppm.
    destruct (compute_wall_length_value ws sector sc rb ppm Hsc Hppm)
      as (r & Hr & Hv & _).
    eauto.
  - intros ws1 w ws2 sector sc rb Hp. split.
    + unfold compute_wall_length_in_sector_m.
      rewrite wall_length_loop_other_page by exact Hp. reflexivity.
    + rewrite counted_length_px_insert. unfold counted.
      apply Z.eqb_neq in Hp. rewrite Hp. simpl. lra.
  - intros ws1 w ws2 sector rb Hp Hin.
    rewrite counted_length_px_insert. unfold counted.
    apply Z.eqb_eq in Hp. rewrite Hp.
    rewrite (segment_in_polygon_both _ _ rb Hin). reflexivity.
  - intros ws sector sc h rb ppm Hsc Hppm Hh.
    destruct (compute_drywall_area_value ws sector sc h rb ppm Hsc Hppm Hh)
      as (r & Hr & Hv & _).
    eauto.
  - destruct (compute_wall_length_value [wall_between 10 50 90 50 1]
                square_sector (scale_with 10) true 10 eq_refl)
      as (r & Hr & Hv & _); [ lra | ].
    exists r. split; [ exact Hr | ].
    rewrite Hv, scenario_counted_length. exact R8.
  - destruct (compute_drywall_area_value [wall_between 10 50 90 50 1]
                square_sector (scale_with 10) 2.6 true 10 eq_refl)
      as (r & Hr & Hv & _); [ lra | lra | ].
    exists r. split; [ exact Hr | ].
    rewrite Hv, scenario_counted_length, R8.
    replace (8 * 2.6) with 20.8 by lra.
    apply (round_ndigits_exact 20.8 4 208000). simpl. lra.
Qed.

(** The theorem at the scenario of the square sector. *)
Lemma compute_wall_length_in_sector_m_spec_witness :
  0 < 10 /\
  exists r,
    compute_wall_length_in_sector_m [wall_between 10 50 90 50 1]
      square_sector (scale_with 10) true = Ok r
    /\ MeasurementEngine.value r
       = round_ndigits
           (counted_length_px square_sector true
              [wall_between 10 50 90 50 1] / 10) 4.
Proof.
  split; [ lra | ].
  apply (proj1 compute_wall_length_in_sector_m_spec
           [wall_between 10 50 90 50 1] square_sector (scale_with 10)
           true 10 eq_refl).
  lra.
Defined.

(** C1 as stated fails: the reported length is not the quotient itself.
    At 100000 pixels per metre a segment of one pixel, on the sector's page
    and with both endpoints inside, has length 1/100000 m and the function
    reports 0. *)
Lemma wall_length_value_is_rounded :
  let w := wall_between 10 50 11 50 1 in
  ws_page_number w = MeasurementEngine.page_number square_sector
  /\ segment_in_polygon (segment w)
       (MeasurementEngine.polygon_points square_sector) true = true
  /\ ws_length_px w / 100000 = 1 / 100000
  /\ exists r,
       compute_wall_length_in_sector_m [w] square_sector
         (scale_with 100000) true = Ok r
       /\ MeasurementEngine.value r = 0
       /\ MeasurementEngine.value r
          <> counted_length_px square_sector true [w] / 100000.
Proof.
  intros w. split; [ reflexivity | split; [ | split ] ].
  - unfold w. rewrite segment_in_polygon_wall_between.
    rewrite point_in_square_10_50, point_in_square_11_50. reflexivity.
  - unfold w. rewrite horizontal_length_px by lra. lra.
  - destruct (compute_wall_length_value [w] square_sector
                (scale_with 100000) true 100000 eq_refl)
      as (r & Hr & Hv & _); [ lra | ].
    exists r. split; [ exact Hr | ].
    unfold w in Hv. rewrite short_wall_counted_length in Hv.
    rewrite round_ndigits_small in Hv by (simpl; lra).
    split; [ exact Hv | ].
    unfold w. rewrite Hv, short_wall_counted_length. lra.
Qed.

End WallLengthFacts.

(** ** Overlap suppression *)

Section MergeFacts.
Import Py CvPipeline.

Lemma insert_desc_perm {A : Type} (key : A -> R) (a : A) (l : list A) :
  Permutation (insert_desc key a l) (a :: l).
Proof.
  induction l as [ | b l IH ]; simpl.
  - apply Permutation_refl.
  - destruct (Rltb (key a) (key b)).
    + eapply perm_trans; [ apply perm_skip, IH | apply perm_swap ].
    + apply Permutation_refl.
Qed.

Lemma sorted_reverse_perm {A : Type} (key : A -> R) (l : list A) :
  Permutation (sorted_reverse key l) l.
Proof.
  unfold sorted_reverse. induction l as [ | a l IH ]; simpl.
  - apply perm_nil.
  - eapply perm_trans; [ apply insert_desc_perm | apply perm_skip, IH ].
Qed.

Lemma insert_desc_sorted {A : Type} (key : A -> R) (a : A) (l : list A) :
  desc_sorted key l -> desc_sorted key (insert_desc key a l).
Proof.
  induction 1 as [ | b l Hb Hs IH ]; simpl.
  - constructor; constructor.
  - case_Rltb (key a) (key b).
    + constructor; [ | exact IH ].
      apply (Permutation_Forall (Permutation_sym (insert_desc_perm key a l))).
      constructor; [ lra | exact Hb ].
    + constructor; [ | constructor; assumption ].
      constructor; [ exact Hcmp | ].
      eapply Forall_impl; [ | exact Hb ]. simpl. intros c Hc. lra.
Qed.

Lemma sorted_reverse_sorted {A : Type} (key : A -> R) (l : list A) :
  desc_sorted key (sorted_reverse key l).
Proof.
  unfold sorted_reverse. induction l as [ | a l IH ]; simpl.
  - constructor.
  - apply insert_desc_sorted, IH.
Qed.

Lemma desc_sorted_nth (s : list DetectedObject) :
  desc_sorted confidence s -> descending s.
Proof.
  unfold descending. induction 1 as [ | a l Ha Hs IH ]; intros i j Hij.
  - simpl in Hij. lia.
  - destruct j as [ | j ]; [ lia | ]. simpl in Hij.
    destruct i as [ | i ].
    + simpl. rewrite Forall_forall in Ha. apply Ha. apply nth_In. lia.
    + simpl. apply IH. lia.
Qed.

Lemma existsb_eqb_In (j : nat) (S : list nat) :
  existsb (Nat.eqb j) S = true <-> In j S.
Proof.
  rewrite existsb_exists. split.
  - intros (x & Hx & E). apply Nat.eqb_eq in E. now subst.
  - intros H. exists j. split; [ assumption | apply Nat.eqb_refl ].
Qed.

(** What the inner loop adds to [suppressed]. *)
Lemma suppress_loop_In (s : list DetectedObject) (obj : DetectedObject)
    (thr : R) (js : list nat) (S : list nat) (j : nat) :
  In j (fold_left (suppress_body s obj thr) js S)
  <-> In j S
      \/ (In j js
          /\ thr < _compute_iou (bbox obj) (bbox (nth j s no_object))).
Proof.
  revert S. induction js as [ | j0 js IH ]; intros S; simpl.
  - tauto.
  - rewrite IH. unfold suppress_body.
    destruct (existsb (Nat.eqb j0) S) eqn:E.
    + apply existsb_eqb_In in E. split.
      * intros [H | [H1 H2]]; [ left | right ]; tauto.
      * intros [H | [[H1 | H1] H2]]; [ tauto | subst; tauto | tauto ].
    + case_Rltb thr (_compute_iou (bbox obj) (bbox (nth j0 s no_object))).
      * simpl. split.
        -- intros [[H | H] | [H1 H2]]; [ subst; tauto | tauto | tauto ].
        -- intros [H | [[H1 | H1] H2]]; tauto.
      * split.
        -- intros [H | [H1 H2]]; tauto.
        -- intros [H | [[H1 | H1] H2]]; [ tauto | subst; lra | tauto ].
Qed.

(** The loop that keeps objects and the loop that keeps positions run in
    step. *)
Lemma merge_loops_in_step (s : list DetectedObject) (thr : R)
    (l : list (nat * DetectedObject)) (K : list nat) (S : list nat) :
  Forall (fun io => snd io = nth (fst io) s no_object) l ->
  fst (fold_left (merge_body s thr) l
         (map (fun i => nth i s no_object) K, S))
  = map (fun i => nth i s no_object)
        (fst (fold_left (merge_body_idx s thr) l (K, S))).
Proof.
  intros Hl. revert K S.
  induction Hl as [ | [i obj] l Hio _ IH ]; intros K S; simpl.
  - reflexivity.
  - simpl in Hio. destruct (existsb (Nat.eqb i) S).
    + apply IH.
    + replace (map (fun i0 => nth i0 s no_object) K ++ [obj])
        with (map (fun i0 => nth i0 s no_object) (K ++ [i]))
        by (rewrite map_app; simpl; now rewrite Hio).
      apply IH.
Qed.

Lemma enumerate_nth (s : list DetectedObject) :
  Forall (fun io : nat * DetectedObject =>
            snd io = nth (fst io) s no_object)
         (combine (seq 0 (List.length s)) s).
Proof.
  assert (G : forall t k,
             (forall p, (p < List.length t)%nat ->
                        nth p t no_object = nth (k + p) s no_object) ->
             Forall (fun io : nat * DetectedObject =>
                       snd io = nth (fst io) s no_object)
                    (combine (seq k (List.length t)) t)).
  { induction t as [ | a t IH ]; intros k Hk; simpl.
    - constructor.
    - constructor.
      + simpl. specialize (Hk 0%nat). simpl in Hk.
        rewrite Nat.add_0_r in Hk. apply Hk. lia.
      + apply IH. intros p Hp. specialize (Hk (S p)). simpl in Hk.
        rewrite Hk by lia. f_equal. lia. }
  apply G. intros p _. reflexivity.
Qed.

Lemma merge_as_positions (objects : list DetectedObject) (thr : R) :
  _merge_overlapping_detections objects thr
  = map (fun i => nth i (sorted_reverse confidence objects) no_object)
        (kept_positions (sorted_reverse confidence objects) thr).
Proof.
  unfold _merge_overlapping_detections, kept_positions.
  destruct objects as [ | a [ | b t ] ].
  - reflexivity.
  - simpl. reflexivity.
  - change (List.length (a :: b :: t) <=? 1)%nat with false. cbv iota.
    apply (merge_loops_in_step _ thr _ [] []). apply enumerate_nth.
Qed.

(** The positions kept from position [k] on, for any state the loop is in
    when it reaches [k]. *)
Lemma kept_positions_from (s : list DetectedObject) (thr : R)
    (t : list DetectedObject) :
  forall (k : nat) (K0 S0 : list nat),
    (forall p, (p < List.length t)%nat ->
               nth p t no_object = nth (k + p) s no_object) ->
    (k + List.length t = List.length s)%nat ->
    exists K',
      fst (fold_left (merge_body_idx s thr)
             (combine (seq k (List.length t)) t) (K0, S0)) = K0 ++ K'
      /\ Forall (fun i => (k <= i < List.length s)%nat) K'
      /\ StronglySorted lt K'
      /\ (forall j, (k <= j < List.length s)%nat ->
            (In j K' <->
             ~ In j S0
             /\ ~ exists i, In i K' /\ (i < j)%nat /\ overlaps_at s thr i j)).
Proof.
  induction t as [ | a t IH ]; intros k K0 S0 Ht Hn.
  - exists []. simpl. rewrite app_nil_r.
    split; [ reflexivity | ]. split; [ constructor | ].
    split; [ constructor | ].
    intros j Hj. simpl in Hn. lia.
  - assert (Ha : a = nth k s no_object).
    { specialize (Ht 0%nat). simpl in Ht. rewrite Nat.add_0_r in Ht.
      apply Ht. lia. }
    assert (Ht' : forall p, (p < List.length t)%nat ->
                            nth p t no_object = nth (S k + p) s no_object).
    { intros p Hp. specialize (Ht (S p)). simpl in Ht.
      rewrite Ht by lia. f_equal. lia. }
    assert (Hn' : (S k + List.length t = List.length s)%nat)
      by (simpl in Hn; lia).
    simpl combine. simpl fold_left.
    destruct (existsb (Nat.eqb k) S0) eqn:E.
    + apply existsb_eqb_In in E.
      destruct (IH (S k) K0 S0 Ht' Hn') as (K' & HK & Hr & Hs & Hc).
      exists K'. split; [ exact HK | ]. split; [ | split; [ exact Hs | ] ].
      * eapply Forall_impl; [ | exact Hr ]. simpl. intros; lia.
      * intros j Hj. destruct (Nat.eq_dec j k) as [-> | Hjk].
        -- split.
           ++ intros Hin. rewrite Forall_forall in Hr.
              specialize (Hr _ Hin). lia.
           ++ intros [Hns _]. contradiction.
        -- apply Hc. lia.
    + assert (Hk : ~ In k S0).
      { intros Hin. apply existsb_eqb_In in Hin. congruence. }
      set (S1 := fold_left (suppress_body s a thr)
                   (seq (k + 1) (List.length s - (k + 1))) S0).
      destruct (IH (S k) (K0 ++ [k]) S1 Ht' Hn')
        as (K' & HK & Hr & Hs & Hc).
      exists (k :: K'). split; [ | split; [ | split ] ].
      * rewrite HK. rewrite <- app_assoc. reflexivity.
      * constructor; [ lia | ].
        eapply Forall_impl; [ | exact Hr ]. simpl. intros; lia.
      * constructor; [ exact Hs | ].
        eapply Forall_impl; [ | exact Hr ]. simpl. intros; lia.
      * intros j Hj. rewrite Forall_forall in Hr.
        destruct (Nat.eq_dec j k) as [-> | Hjk].
        -- split; [ intros _ | intros _; left; reflexivity ].
           split; [ exact Hk | ].
           intros (i & [Hi | Hi] & Hlt & _); [ lia | ].
           specialize (Hr _ Hi). lia.
        -- assert (HS1 : In j S1 <-> In j S0 \/ overlaps_at s thr k j).
           { unfold S1. rewrite suppress_loop_In. unfold overlaps_at.
             rewrite <- Ha. rewrite in_seq. split.
             - intros [H | [_ H]]; tauto.
             - intros [H | H]; [ tauto | right; split; [ lia | exact H ] ]. }
           split.
           ++ intros [Hin | Hin]; [ lia | ].
              apply Hc in Hin; [ | lia ]. destruct Hin as [Hn1 Hn2].
              split.
              ** intros H0. apply Hn1. apply HS1. left. exact H0.
              ** intros (i & [Hi | Hi] & Hlt & Hov).
                 --- subst i. apply Hn1. apply HS1. right. exact Hov.
                 --- apply Hn2. exists i. auto.
           ++ intros [Hn0 Hne]. right. apply Hc; [ lia | ]. split.
              ** intros H1. apply HS1 in H1. destruct H1 as [H1 | H1].
                 --- contradiction.
                 --- apply Hne. exists k. split; [ left; reflexivity | ].
                     split; [ lia | exact H1 ].
              ** intros (i & Hi & Hlt & Hov). apply Hne.
                 exists i. split; [ right; exact Hi | auto ].
Qed.

(** The positions the loop keeps: in increasing order, and a position is
    kept exactly when no kept position before it overlaps it beyond the
    threshold. *)
Lemma kept_positions_char (s : list DetectedObject) (thr : R) :
  StronglySorted lt (kept_positions s thr)
  /\ Forall (fun i => (i < List.length s)%nat) (kept_positions s thr)
  /\ (forall j, (j < List.length s)%nat ->
        (In j (kept_positions s thr) <->
         ~ exists i, In i (kept_positions s thr) /\ (i < j)%nat
                     /\ overlaps_at s thr i j)).
Proof.
  destruct (kept_positions_from s thr s 0 [] [])
    as (K' & HK & Hr & Hs & Hc); [ reflexivity | reflexivity | ].
  unfold kept_positions. rewrite HK. simpl.
  split; [ exact Hs | split ].
  - eapply Forall_impl; [ | exact Hr ]. simpl. intros; lia.
  - intros j Hj. rewrite Hc by lia. simpl. tauto.
Qed.

Lemma _compute_iou_sym (b1 b2 : BoundingBox) :
  _compute_iou b1 b2 = _compute_iou b2 b1.
Proof.
  unfold _compute_iou, area.
  rewrite (Rmax_comm (x b1)), (Rmax_comm (y b1)).
  rewrite (Rmin_comm (x b1 + width b1)), (Rmin_comm (y b1 + height b1)).
  replace (width b1 * height b1 + width b2 * height b2)
    with (width b2 * height b2 + width b1 * height b1) by ring.
  reflexivity.
Qed.

(** The loop on a list of two candidates already in processing order. *)
Lemma merge_loop_pair (a b : DetectedObject) (thr : R) :
  fst (fold_left (merge_body [a; b] thr)
         (combine (seq 0 (List.length [a; b])) [a; b]) ([], []))
  = if Rltb thr (_compute_iou (bbox a) (bbox b)) then [a] else [a; b].
Proof.
  cbn [fold_left combine seq List.length merge_body suppress_body existsb
       Nat.eqb nth fst snd app Nat.add Nat.sub].
  destruct (Rltb thr (_compute_iou (bbox a) (bbox b)));
    cbn [fold_left existsb Nat.eqb orb fst snd app]; reflexivity.
Qed.

Lemma sorted_reverse_pair (a b : DetectedObject) :
  sorted_reverse confidence [a; b]
  = if Rltb (confidence a) (confidence b) then [b; a] else [a; b].
Proof. reflexivity. Qed.

Lemma merge_pair (a b : DetectedObject) (thr : R) :
  _merge_overlapping_detections [a; b] thr
  = if Rltb (confidence a) (confidence b)
    then (if Rltb thr (_compute_iou (bbox a) (bbox b)) then [b] else [b; a])
    else (if Rltb thr (_compute_iou (bbox a) (bbox b)) then [a] else [a; b]).
Proof.
  unfold _merge_overlapping_detections.
  change (List.length [a; b] <=? 1)%nat with false. cbv iota.
  rewrite sorted_reverse_pair.
  destruct (Rltb (confidence a) (confidence b)).
  - rewrite merge_loop_pair, (_compute_iou_sym (bbox b) (bbox a)).
    reflexivity.
  - apply merge_loop_pair.
Qed.

(** C4: the candidates are processed in descending order of confidence
    (the processed list is a descending permutation of the input); the
    result is the candidates at the kept positions, in that order, and a
    position is kept exactly when no kept position before it (a candidate
    at least as confident, kept earlier) has an IoU with it above the
    threshold.  Of two candidates whose IoU is above the threshold only
    the more confident one survives; two candidates whose IoU is not above
    the threshold both survive. *)
Theorem merge_overlapping_detections_spec :
  (forall objects thr,
     let s := sorted_reverse confidence objects in
     Permutation s objects
     /\ descending s
     /\ _merge_overlapping_detections objects thr
        = map (fun i => nth i s no_object) (kept_positions s thr)
     /\ StronglySorted lt (kept_positions s thr)
     /\ (forall j, (j < List.length s)%nat ->
           (In j (kept_positions s thr) <->
            ~ exists i, In i (kept_positions s thr) /\ (i < j)%nat
                        /\ overlaps_at s thr i j)))
  /\ (forall a b thr,
        confidence b < confidence a ->
        thr < _compute_iou (bbox a) (bbox b) ->
        _merge_overlapping_detections [a; b] thr = [a]
        /\ _merge_overlapping_detections [b; a] thr = [a])
  /\ (forall a b thr,
        _compute_iou (bbox a) (bbox b) <= thr ->
        Permutation (_merge_overlapping_detections [a; b] thr) [a; b]).
Proof.
  split; [ | split ].
  - intros objects thr s.
    destruct (kept_positions_char s thr) as (Hs & _ & Hc).
    split; [ apply sorted_reverse_perm | ].
    split; [ apply desc_sorted_nth, sorted_reverse_sorted | ].
    split; [ apply merge_as_positions | ].
    split; [ exact Hs | exact Hc ].
  - intros a b thr Hconf Hiou. rewrite !merge_pair.
    rewrite (_compute_iou_sym (bbox b) (bbox a)).
    Rb_false (confidence a) (confidence b).
    Rb_true (confidence b) (confidence a).
    Rb_true thr (_compute_iou (bbox a) (bbox b)).
    split; reflexivity.
  - intros a b thr Hiou. rewrite merge_pair.
    Rb_false thr (_compute_iou (bbox a) (bbox b)).
    destruct (Rltb (confidence a) (confidence b)).
    + apply perm_swap.
    + apply Permutation_refl.
Qed.

Lemma iou_of_shifted_boxes :
  _compute_iou (bbox (candidate 0 0 10 10 0.9))
               (bbox (candidate 1 0 10 10 0.8)) = 9 / 11.
Proof.
  unfold _compute_iou, area, candidate. simpl.
  rewrite (Rmax_right 0 1) by lra. rewrite (Rmax_left 0 0) by lra.
  rewrite (Rmin_left (0 + 10) (1 + 10)) by lra.
  rewrite (Rmin_left (0 + 10) (0 + 10)) by lra.
  Rle_false (0 + 10) 1. Rle_false (0 + 10) 0. simpl.
  Rb_true 0 (10 * 10 + 10 * 10 - (0 + 10 - 1) * (0 + 10 - 0)).
  field.
Qed.

(** The theorem at two boxes that overlap by 9/11, with the default
    threshold. *)
Lemma merge_overlapping_detections_spec_witness :
  _merge_overlapping_detections
    [candidate 0 0 10 10 0.9; candidate 1 0 10 10 0.8]
    iou_threshold_default
  = [candidate 0 0 10 10 0.9]
  /\ _merge_overlapping_detections
       [candidate 1 0 10 10 0.8; candidate 0 0 10 10 0.9]
       iou_threshold_default
     = [candidate 0 0 10 10 0.9].
Proof.
  apply (proj1 (proj2 merge_overlapping_detections_spec)).
  - simpl. lra.
  - rewrite iou_of_shifted_boxes. unfold iou_threshold_default. lra.
Defined.

End MergeFacts.

(** ** Door symbols and their widths *)

Section DoorFacts.
Import Py VectorMeasurement.

Lemma collect_item_body_arcs (page_number : Z) (scale lo hi : R)
    (st : list Arc * list LineSegment) (item : Item) :
  Forall (fun a => lo <= radius a <= hi) (fst st) ->
  Forall (fun a => lo <= radius a <= hi)
         (fst (collect_item_body page_number scale lo hi st item)).
Proof.
  destruct st as [arcs lines]. intros H. unfold collect_item_body.
  destruct item as [p1 p2 p3 p4 | p1 p2 | ].
  - destruct (_analyze_bezier_arc p1 p2 p3 _) as [info | ]; [ | exact H ].
    case_Rleb lo (ai_radius info * scale); simpl; [ | exact H ].
    case_Rleb (ai_radius info * scale) hi; simpl; [ | exact H ].
    apply Forall_app. split; [ exact H | ].
    constructor; [ simpl; lra | constructor ].
  - destruct (_ && _); exact H.
  - exact H.
Qed.

Lemma collect_items_arcs (page_number : Z) (scale lo hi : R)
    (drawings : list (list Item)) :
  Forall (fun a => lo <= radius a <= hi)
         (fst (collect_items page_number scale lo hi drawings)).
Proof.
  unfold collect_items.
  assert (Inner : forall items st,
             Forall (fun a => lo <= radius a <= hi) (fst st) ->
             Forall (fun a => lo <= radius a <= hi)
               (fst (fold_left (collect_item_body page_number scale lo hi)
                       items st))).
  { induction items as [ | it items IH ]; intros st H; simpl.
    - exact H.
    - apply IH. apply collect_item_body_arcs. exact H. }
  assert (Outer : forall ds st,
             Forall (fun a => lo <= radius a <= hi) (fst st) ->
             Forall (fun a => lo <= radius a <= hi)
               (fst (fold_left
                       (fun st items =>
                          fold_left
                            (collect_item_body page_number scale lo hi)
                            items st) ds st))).
  { induction ds as [ | d ds IH ]; intros st H; simpl.
    - exact H.
    - apply IH. apply Inner. exact H. }
  apply Outer. constructor.
Qed.

(** A door of the matching loop takes its radius from an arc, and has no
    width yet. *)
Lemma match_arc_fold_doors (page_number : Z) (roof : bool)
    (lines : list LineSegment) (rc rl conf : R) (P : R -> Prop)
    (l : list (nat * Arc)) :
  Forall (fun ia => P (radius (snd ia))) l ->
  forall st doors ua ul,
    (forall s, st = Ok s -> Forall (fun d => P (arc_radius_px d)) (fst (fst s))) ->
    fold_left (match_arc_body page_number roof lines rc rl conf) l st
    = Ok (doors, ua, ul) ->
    Forall (fun d => P (arc_radius_px d)) doors.
Proof.
  induction 1 as [ | [i arc] l Hia _ IH ]; intros st doors ua ul Hst Hfold.
  - simpl in Hfold. apply (Hst _ Hfold).
  - simpl in Hfold. eapply IH; [ | exact Hfold ].
    intros s Hs. unfold match_arc_body in Hs.
    destruct st as [[[ds ua0] ul0] | e]; simpl in Hs; [ | discriminate ].
    specialize (Hst _ eq_refl). simpl in Hst.
    destruct (existsb (Nat.eqb i) ua0).
    + inversion Hs; subst. exact Hst.
    + destruct (fold_left _ (enumerate lines) (Ok None)) as [[b | ] | e];
        simpl in Hs; try discriminate.
      * inversion Hs; subst. simpl. apply Forall_app.
        split; [ exact Hst | ].
        constructor; [ exact Hia | constructor ].
      * inversion Hs; subst. exact Hst.
Qed.

Lemma combine_snd_Forall {A B : Type} (P : B -> Prop) (la : list A)
    (lb : list B) :
  Forall P lb -> Forall (fun ab => P (snd ab)) (combine la lb).
Proof.
  intros H. revert la.
  induction H as [ | b lb Hb _ IH ]; intros [ | a la ]; simpl;
    try constructor; auto.
Qed.

(** Every door handed back by the extraction has an arc radius inside the
    pixel thresholds it was called with. *)
Lemma extract_door_symbols_radius (env : PdfEnv) (page_number dpi : Z)
    (minw maxw ppm : R) (doors : list DoorSymbol) :
  ppm <> 0 ->
  extract_door_symbols_from_page env page_number dpi minw maxw (Some ppm)
  = Ok doors ->
  Forall (fun d => minw * ppm <= arc_radius_px d <= maxw * ppm) doors.
Proof.
  intros Hppm. unfold extract_door_symbols_from_page.
  destruct (negb (FITZ_AVAILABLE env)); [ discriminate | ].
  destruct (negb (path_exists env)); [ discriminate | ].
  replace (Reqb ppm 0) with false
    by (symmetry; apply Reqb_false_iff; exact Hppm).
  destruct ((page_number - 1 <? 0)%Z || _); [ discriminate | ].
  destruct (nth_error (doc env) _) as [page | ]; [ | discriminate ].
  pose proof (collect_items_arcs page_number (IZR dpi / 72)
                (minw * ppm) (maxw * ppm) (drawings page)) as Harcs.
  destruct (collect_items _ _ _ _ _) as [arcs lines]. simpl in Harcs.
  destruct (is_roof_plan page).
  - destruct (fold_left _ (enumerate arcs) _) as [[[ds ua] ul] | e] eqn:E;
      simpl; [ | discriminate ].
    intros H. inversion H; subst.
    refine (match_arc_fold_doors _ _ _ _ _ _
              (fun r => minw * ppm <= r <= maxw * ppm) _ _ _ _ _ _ _ E).
    + exact (combine_snd_Forall
               (fun a => minw * ppm <= radius a <= maxw * ppm) _ _ Harcs).
    + intros s Hs. inversion Hs; subst. constructor.
  - destruct (fold_left _ (enumerate arcs) _) as [[[ds ua] ul] | e] eqn:E;
      simpl; [ | discriminate ].
    intros H. inversion H; subst.
    refine (match_arc_fold_doors _ _ _ _ _ _
              (fun r => minw * ppm <= r <= maxw * ppm) _ _ _ _ _ _ _ E).
    + exact (combine_snd_Forall
               (fun a => minw * ppm <= radius a <= maxw * ppm) _ _ Harcs).
    + intros s Hs. inversion Hs; subst. constructor.
Qed.

Lemma set_widths_spec (ppm : R) (P : R -> Prop)
    (doors doors' : list DoorSymbol) :
  set_widths ppm doors = Ok doors' ->
  Forall (fun d => P (arc_radius_px d)) doors ->
  Forall (fun d => width_m d = Some (arc_radius_px d / ppm)
                   /\ P (arc_radius_px d)) doors'.
Proof.
  revert doors'. induction doors as [ | d doors IH ]; intros doors' H HP.
  - simpl in H. inversion H. constructor.
  - simpl in H. unfold set_width_m, div in H.
    destruct (Reqb ppm 0); simpl in H; [ discriminate | ].
    destruct (set_widths ppm doors) as [rest | e]; simpl in H;
      [ | discriminate ].
    inversion H; subst. inversion HP; subst.
    constructor; [ simpl; auto | apply IH; auto ].
Qed.

Lemma width_in_range (minw maxw ppm r : R) :
  0 < ppm -> minw * ppm <= r <= maxw * ppm -> minw <= r / ppm <= maxw.
Proof.
  intros Hppm [Hlo Hhi]. split.
  - apply Rmult_le_reg_r with ppm; [ exact Hppm | ].
    replace (r / ppm * ppm) with r by (field; lra). exact Hlo.
  - apply Rmult_le_reg_r with ppm; [ exact Hppm | ].
    replace (r / ppm * ppm) with r by (field; lra). exact Hhi.
Qed.

Lemma measure_doors_on_page_widths (env : PdfEnv) (page_number dpi : Z)
    (ppm minw maxw : R) (doors : list DoorSymbol) :
  0 < ppm ->
  measure_doors_on_page env page_number ppm dpi minw maxw = Ok doors ->
  Forall (fun d => width_m d = Some (arc_radius_px d / ppm)
                   /\ minw <= arc_radius_px d / ppm <= maxw) doors.
Proof.
  intros Hppm. unfold measure_doors_on_page.
  destruct (extract_door_symbols_from_page _ _ _ _ _ _) as [ds | e] eqn:E;
    simpl; [ | discriminate ].
  intros H. apply extract_door_symbols_radius in E; [ | lra ].
  pose proof (set_widths_spec ppm
                (fun r => minw * ppm <= r <= maxw * ppm) ds doors H E)
    as HF.
  eapply Forall_impl; [ | exact HF ]. simpl.
  intros d [Hw Hr]. split; [ exact Hw | ].
  apply width_in_range; assumption.
Qed.

(** Replace a square root in the goal by its value [v]. *)
Ltac sqrt_is v :=
  match goal with
  | |- context [sqrt ?E] =>
      replace (sqrt E) with v
        by (replace E with (v * v) by (simpl; lra);
            symmetry; apply sqrt_square; lra)
  end.

Lemma sqrt_lower (a E : R) : 0 <= a -> a * a <= E -> a <= sqrt E.
Proof.
  intros Ha H. rewrite <- (sqrt_square a) by exact Ha.
  apply sqrt_le_1_alt. exact H.
Qed.

Lemma degrees_atan2_down (y x : R) :
  x = 0 -> y < 0 -> degrees (atan2 y x) = - 90.
Proof.
  intros -> Hy. unfold atan2. Rb_false 0 0. Rb_false 0 y. Rb_true y 0.
  unfold degrees. field. apply PI_neq0.
Qed.

Lemma degrees_atan2_left (y x : R) :
  y = 0 -> x < 0 -> degrees (atan2 y x) = 180.
Proof.
  intros Hy Hx. apply degrees_eq_180_iff. apply atan2_eq_PI_iff. auto.
Qed.

Lemma analyze_quarter_arc :
  _analyze_bezier_arc (61, 0) (27, 0) (0, 27) (0, 61)
  = Some {| ai_center := (61, 61); ai_radius := (61 + 61) / 2;
            ai_start_angle := - 90 + 360; ai_end_angle := 180;
            ai_arc_angle := Rabs (180 - (- 90 + 360)) |}.
Proof.
  unfold _analyze_bezier_arc.
  assert (Hc : 5 <= sqrt ((0 - 61) ^ 2 + (61 - 0) ^ 2))
    by (apply sqrt_lower; simpl; lra).
  replace (Rltb (sqrt ((0 - 61) ^ 2 + (61 - 0) ^ 2)) 5) with false
    by (symmetry; apply Rltb_false_iff; exact Hc).
  cbn [fold_left]. unfold bezier_candidate_body.
  repeat sqrt_is 61.
  replace (Rabs (61 - 61)) with 0
    by (rewrite Rabs_pos_eq by lra; lra).
  Rb_true 5 61. cbn [andb]. Rb_false 0 0. cbn [andb]. cbv iota beta.
  Rb_false ((61 + 61) / 2 * 0.3) 0.
  rewrite (degrees_atan2_down (0 - 61) (61 - 61)) by lra.
  rewrite (degrees_atan2_left (61 - 61) (0 - 61)) by lra.
  unfold normalize_360. Rb_true (- 90) 0. Rb_false 180 0.
  assert (E : Rabs (180 - (- 90 + 360)) = 90)
    by (rewrite Rabs_left1 by lra; lra).
  rewrite E. Rb_false 180 90. Rb_true 70 90. Rb_true 90 110.
  reflexivity.
Qed.

Lemma collect_door_page (lo hi : R) :
  lo <= 61 <= hi ->
  collect_items 1 (IZR 72 / 72) lo hi (drawings door_page)
  = ([ {| center := (61 * 1, 61 * 1); radius := (61 + 61) / 2 * 1;
          start_angle := - 90 + 360; end_angle := 180 |} ],
     [ {| x1 := 61 * 1; y1 := 61 * 1; x2 := 61 * 1; y2 := 0 * 1;
          page_number := 1 |} ]).
Proof.
  intros H. replace (IZR 72 / 72) with 1 by lra.
  unfold collect_items, door_page. cbn [drawings fold_left].
  unfold collect_item_body at 2. rewrite analyze_quarter_arc.
  cbn [ai_center ai_radius ai_start_angle ai_end_angle fst snd].
  Rle_true lo ((61 + 61) / 2 * 1). Rle_true ((61 + 61) / 2 * 1) hi.
  cbn [andb app]. unfold collect_item_body. cbn [fst snd].
  sqrt_is 61. Rle_true lo 61. Rle_true 61 hi. cbn [andb app].
  reflexivity.
Qed.

Lemma collect_door_page_rejects (lo hi : R) :
  61 < lo ->
  collect_items 1 (IZR 72 / 72) lo hi (drawings door_page) = ([], []).
Proof.
  intros H. replace (IZR 72 / 72) with 1 by lra.
  unfold collect_items, door_page. cbn [drawings fold_left].
  unfold collect_item_body at 2. rewrite analyze_quarter_arc.
  cbn [ai_center ai_radius ai_start_angle ai_end_angle fst snd].
  Rle_false lo ((61 + 61) / 2 * 1).
  cbn [andb app]. unfold collect_item_body. cbn [fst snd].
  sqrt_is 61. Rle_false lo 61. cbn [andb app].
  reflexivity.
Qed.

Lemma extract_door_page (minw maxw : R) :
  minw * 100 <= 61 <= maxw * 100 ->
  exists d,
    extract_door_symbols_from_page door_env 1 72 minw maxw (Some 100)
    = Ok [d]
    /\ arc_radius_px d = 61 /\ width_m d = None.
Proof.
  intros H. unfold extract_door_symbols_from_page, door_env.
  cbn [FITZ_AVAILABLE path_exists doc negb].
  replace (Reqb 100 0) with false
    by (symmetry; apply Reqb_false_iff; lra).
  change ((1 - 1 <? 0)%Z || (Z.of_nat (List.length [door_page]) <=? 1 - 1)%Z)
    with false.
  cbv iota. change (nth_error [door_page] (Z.to_nat (1 - 1)))
    with (Some door_page).
  cbv iota. rewrite collect_door_page by exact H.
  change (is_roof_plan door_page) with false. cbv iota.
  unfold enumerate. cbn [List.length seq combine fold_left].
  unfold match_arc_body. cbn [bind existsb].
  unfold enumerate. cbn [List.length seq combine fold_left].
  unfold match_line_body. cbn [bind existsb center radius x1 y1 x2 y2 fst snd].
  unfold length_px. cbn [x1 y1 x2 y2].
  sqrt_is 0. repeat sqrt_is 61.
  replace (Rabs (61 - (61 + 61) / 2 * 1)) with 0
    by (rewrite Rabs_pos_eq by lra; lra).
  unfold div. replace (Reqb ((61 + 61) / 2 * 1) 0) with false
    by (symmetry; apply Reqb_false_iff; lra).
  cbn [bind]. rewrite (Rmin_left 0 61) by lra.
  Rb_true 0 ((61 + 61) / 2 * 1 * 0.6).
  replace (0 / ((61 + 61) / 2 * 1)) with 0 by (field; lra).
  Rb_true 0 0.3. cbn [andb bind app fst snd].
  eexists. split; [ reflexivity | ]. cbn [arc_radius_px width_m].
  split; [ lra | reflexivity ].
Qed.

Lemma measure_door_page (minw maxw : R) :
  minw * 100 <= 61 <= maxw * 100 ->
  exists d,
    measure_doors_on_page door_env 1 100 72 minw maxw = Ok [d]
    /\ arc_radius_px d = 61 /\ width_m d = Some (61 / 100).
Proof.
  intros H. unfold measure_doors_on_page.
  destruct (extract_door_page minw maxw H) as (d & Hd & Hr & _).
  rewrite Hd. cbn [bind set_widths]. unfold set_width_m, div.
  replace (Reqb 100 0) with false
    by (symmetry; apply Reqb_false_iff; lra).
  cbn [bind]. eexists. split; [ reflexivity | ].
  cbn [arc_radius_px width_m]. rewrite Hr. auto.
Qed.

Lemma measure_door_page_rejects (minw maxw : R) :
  61 < minw * 100 ->
  measure_doors_on_page door_env 1 100 72 minw maxw = Ok [].
Proof.
  intros H. unfold measure_doors_on_page, extract_door_symbols_from_page,
    door_env.
  cbn [FITZ_AVAILABLE path_exists doc negb].
  replace (Reqb 100 0) with false
    by (symmetry; apply Reqb_false_iff; lra).
  change ((1 - 1 <? 0)%Z || (Z.of_nat (List.length [door_page]) <=? 1 - 1)%Z)
    with false.
  cbv iota. change (nth_error [door_page] (Z.to_nat (1 - 1)))
    with (Some door_page).
  cbv iota. rewrite collect_door_page_rejects by exact H.
  reflexivity.
Qed.

(** A range below the arc's radius collects nothing from the page. *)
Lemma collect_door_page_too_large (lo hi : R) :
  hi < 61 ->
  collect_items 1 (IZR 72 / 72) lo hi (drawings door_page) = ([], []).
Proof.
  intros H. replace (IZR 72 / 72) with 1 by lra.
  unfold collect_items, door_page. cbn [drawings fold_left].
  unfold collect_item_body at 2. rewrite analyze_quarter_arc.
  cbn [ai_center ai_radius ai_start_angle ai_end_angle fst snd].
  Rle_false ((61 + 61) / 2 * 1) hi. rewrite andb_false_r.
  unfold collect_item_body. cbn [fst snd].
  sqrt_is 61. Rle_false 61 hi. rewrite andb_false_r.
  reflexivity.
Qed.

(** With a scale of zero the extraction falls back to its pixel
    thresholds and finds the door of the page. *)
Lemma extract_door_page_zero_scale (minw maxw : R) :
  exists d,
    extract_door_symbols_from_page door_env 1 72 minw maxw (Some 0)
    = Ok [d]
    /\ arc_radius_px d = 61 /\ width_m d = None.
Proof.
  unfold extract_door_symbols_from_page, door_env.
  cbn [FITZ_AVAILABLE path_exists doc negb].
  replace (Reqb 0 0) with true
    by (symmetry; apply Reqb_true_iff; reflexivity).
  change ((1 - 1 <? 0)%Z || (Z.of_nat (List.length [door_page]) <=? 1 - 1)%Z)
    with false.
  cbv iota. change (nth_error [door_page] (Z.to_nat (1 - 1)))
    with (Some door_page).
  cbv iota. rewrite collect_door_page by lra.
  change (is_roof_plan door_page) with false. cbv iota.
  unfold enumerate. cbn [List.length seq combine fold_left].
  unfold match_arc_body. cbn [bind existsb].
  unfold enumerate. cbn [List.length seq combine fold_left].
  unfold match_line_body. cbn [bind existsb center radius x1 y1 x2 y2 fst snd].
  unfold length_px. cbn [x1 y1 x2 y2].
  sqrt_is 0. repeat sqrt_is 61.
  replace (Rabs (61 - (61 + 61) / 2 * 1)) with 0
    by (rewrite Rabs_pos_eq by lra; lra).
  unfold div. replace (Reqb ((61 + 61) / 2 * 1) 0) with false
    by (symmetry; apply Reqb_false_iff; lra).
  cbn [bind]. rewrite (Rmin_left 0 61) by lra.
  Rb_true 0 ((61 + 61) / 2 * 1 * 0.6).
  replace (0 / ((61 + 61) / 2 * 1)) with 0 by (field; lra).
  Rb_true 0 0.3. cbn [andb bind app fst snd].
  eexists. split; [ reflexivity | ]. cbn [arc_radius_px width_m].
  split; [ lra | reflexivity ].
Qed.

(** With a negative scale the accepted range is empty and the door of
    the page is not returned. *)
Lemma measure_door_page_negative_scale :
  measure_doors_on_page door_env 1 (- 100) 72 0.6 2.0 = Ok [].
Proof.
  unfold measure_doors_on_page, extract_door_symbols_from_page, door_env.
  cbn [FITZ_AVAILABLE path_exists doc negb].
  replace (Reqb (- 100) 0) with false
    by (symmetry; apply Reqb_false_iff; lra).
  change ((1 - 1 <? 0)%Z || (Z.of_nat (List.length [door_page]) <=? 1 - 1)%Z)
    with false.
  cbv iota. change (nth_error [door_page] (Z.to_nat (1 - 1)))
    with (Some door_page).
  cbv iota. rewrite collect_door_page_too_large by lra.
  reflexivity.
Qed.

(** C6, as the code has it: for a positive [pixels_per_meter],
    [measure_doors_on_page] sets each returned door's [width_m] to
    [arc_radius_px / pixels_per_meter] and returns only doors whose width
    lies in the range it was called with; the defaults of the range are
    0.5 to 2.5 m for the extraction and 0.62 to 2.0 m for
    [measure_doors_on_page]. *)
Theorem measure_doors_on_page_spec :
  (forall env page_number ppm dpi minw maxw doors,
      0 < ppm ->
      measure_doors_on_page env page_number ppm dpi minw maxw = Ok doors ->
      Forall (fun d => width_m d = Some (arc_radius_px d / ppm)
                       /\ minw <= arc_radius_px d / ppm <= maxw) doors)
  /\ (forall env page_number ppm doors,
        0 < ppm ->
        measure_doors_on_page_default env page_number ppm = Ok doors ->
        Forall (fun d => width_m d = Some (arc_radius_px d / ppm)
                         /\ 0.62 <= arc_radius_px d / ppm <= 2.0) doors)
  /\ extract_min_door_width_m_default = 0.5
  /\ extract_max_door_width_m_default = 2.5
  /\ measure_min_door_width_m_default = 0.62
  /\ measure_max_door_width_m_default = 2.0.
Proof.
  split; [ | split ].
  - intros env page_number ppm dpi minw maxw doors Hppm H.
    exact (measure_doors_on_page_widths env page_number dpi ppm minw maxw
             doors Hppm H).
  - intros env page_number ppm doors Hppm H.
    unfold measure_doors_on_page_default in H.
    exact (measure_doors_on_page_widths env page_number _ ppm _ _
             doors Hppm H).
  - repeat split; reflexivity.
Qed.

(** The theorem at a page with one door of arc radius 61 px, at 100 px
    per metre and the range 0.6 to 2.0 m. *)
Lemma measure_doors_on_page_spec_witness :
  exists d,
    measure_doors_on_page door_env 1 100 72 0.6 2.0 = Ok [d]
    /\ width_m d = Some (arc_radius_px d / 100)
    /\ 0.6 <= arc_radius_px d / 100 <= 2.0.
Proof.
  destruct (measure_door_page 0.6 2.0) as (d & Hd & _); [ lra | ].
  exists d. split; [ exact Hd | ].
  assert (Hppm : 0 < 100) by lra.
  pose proof (proj1 measure_doors_on_page_spec door_env 1%Z 100 72%Z
                0.6 2.0 [d] Hppm Hd) as HF.
  inversion HF; subst. assumption.
Defined.

(** C6 as stated fails on the default: the minimum width of
    [measure_doors_on_page] is 0.62 m, not 0.6 m.  A door 0.61 m wide is
    returned for the range 0.6 to 2.0 m and dropped for the default
    range. *)
Lemma measure_default_min_width_is_not_0_6 :
  measure_min_door_width_m_default <> 0.6
  /\ measure_doors_on_page door_env 1 100 72
       measure_min_door_width_m_default measure_max_door_width_m_default
     = Ok []
  /\ exists d,
       measure_doors_on_page door_env 1 100 72 0.6 2.0 = Ok [d]
       /\ width_m d = Some (61 / 100).
Proof.
  split; [ unfold measure_min_door_width_m_default; lra | split ].
  - apply measure_door_page_rejects.
    unfold measure_min_door_width_m_default. lra.
  - destruct (measure_door_page 0.6 2.0) as (d & Hd & _ & Hw); [ lra | ].
    exists d. auto.
Qed.

End DoorFacts.

(** ** The wall-opening entry point *)

Section PipelineFacts.
Import Py WallOpeningDetector.

Lemma div_one_nonzero (scale : Z) :
  scale <> 0%Z -> div 1 (IZR scale) = Ok (1 / IZR scale).
Proof.
  intros H. unfold div.
  replace (Reqb (IZR scale) 0) with false; [ reflexivity | ].
  symmetry. apply Reqb_false_iff. apply not_0_IZR. exact H.
Qed.

Lemma div_one_zero : div 1 (IZR 0) = Raise ZeroDivisionError.
Proof.
  unfold div. replace (Reqb (IZR 0) 0) with true; [ reflexivity | ].
  symmetry. apply Reqb_true_iff. reflexivity.
Qed.

(** With both libraries present and a zero scale, the entry point raises
    before it renders. *)
Lemma detect_doors_zero_scale (env : Steps) (pdf_path : string)
    (page_number dpi : Z) (minw maxw : R) (dbg : option string) :
  CV2_AVAILABLE env = true -> FITZ_AVAILABLE env = true ->
  detect_doors_from_wall_openings env pdf_path page_number 0 dpi minw maxw
    dbg = Raise ZeroDivisionError.
Proof.
  intros Hcv Hfitz. unfold detect_doors_from_wall_openings.
  rewrite Hcv, Hfitz. cbn [negb]. rewrite div_one_zero. reflexivity.
Qed.

(** An exception of the mask extraction is not caught: the [try] around
    it has a [finally] and no [except]. *)
Lemma detect_doors_mask_failure_propagates (env : Steps) (pdf_path : string)
    (page_number scale dpi : Z) (minw maxw : R) (dbg : option string)
    (image_path : string) (e : exn) :
  CV2_AVAILABLE env = true -> FITZ_AVAILABLE env = true ->
  scale <> 0%Z ->
  render_pdf_page_high_dpi env pdf_path page_number dpi = Ok image_path ->
  extract_wall_mask env image_path dbg = Raise e ->
  detect_doors_from_wall_openings env pdf_path page_number scale dpi
    minw maxw dbg = Raise e.
Proof.
  intros Hcv Hfitz Hscale Hrender Hmask.
  unfold detect_doors_from_wall_openings.
  rewrite Hcv, Hfitz. cbn [negb].
  rewrite (div_one_nonzero scale Hscale). cbn [bind].
  rewrite Hrender, Hmask. reflexivity.
Qed.

(** C8, as the code has it: the entry point returns a result with no door
    and one warning when OpenCV is missing, when PyMuPDF is missing, and,
    for a non-zero scale, when rendering the page raises and when the wall
    mask is [None] or sums to zero.  With both libraries present and
    [scale = 0] it raises [ZeroDivisionError]. *)
Theorem detect_doors_from_wall_openings_degrades :
  forall env pdf_path page_number scale dpi minw maxw dbg,
    (CV2_AVAILABLE env = false ->
     exists r,
       detect_doors_from_wall_openings env pdf_path page_number scale dpi
         minw maxw dbg = Ok r
       /\ degraded r "OpenCV not available")
    /\ (CV2_AVAILABLE env = true -> FITZ_AVAILABLE env = false ->
        exists r,
          detect_doors_from_wall_openings env pdf_path page_number scale dpi
            minw maxw dbg = Ok r
          /\ degraded r "PyMuPDF not available")
    /\ (CV2_AVAILABLE env = true -> FITZ_AVAILABLE env = true ->
        scale <> 0%Z ->
        forall e,
          render_pdf_page_high_dpi env pdf_path page_number dpi = Raise e ->
          exists r,
            detect_doors_from_wall_openings env pdf_path page_number scale
              dpi minw maxw dbg = Ok r
            /\ degraded r ("Failed to render PDF: " ++ exn_str e))
    /\ (CV2_AVAILABLE env = true -> FITZ_AVAILABLE env = true ->
        scale <> 0%Z ->
        forall image_path,
          render_pdf_page_high_dpi env pdf_path page_number dpi
          = Ok image_path ->
          (extract_wall_mask env image_path dbg = Ok None
           \/ exists m, extract_wall_mask env image_path dbg = Ok (Some m)
                        /\ mask_sum m = 0%Z) ->
          exists r,
            detect_doors_from_wall_openings env pdf_path page_number scale
              dpi minw maxw dbg = Ok r
            /\ degraded r "No walls detected in image")
    /\ (CV2_AVAILABLE env = true -> FITZ_AVAILABLE env = true ->
        scale = 0%Z ->
        detect_doors_from_wall_openings env pdf_path page_number scale dpi
          minw maxw dbg = Raise ZeroDivisionError).
Proof.
  intros env pdf_path page_number scale dpi minw maxw dbg.
  unfold degraded.
  split; [ | split; [ | split; [ | split ] ] ].
  - intros Hcv. unfold detect_doors_from_wall_openings. rewrite Hcv.
    cbn [negb]. eexists. split; [ reflexivity | ]. split; reflexivity.
  - intros Hcv Hfitz. unfold detect_doors_from_wall_openings.
    rewrite Hcv, Hfitz. cbn [negb].
    eexists. split; [ reflexivity | ]. split; reflexivity.
  - intros Hcv Hfitz Hscale e Hrender.
    unfold detect_doors_from_wall_openings.
    rewrite Hcv, Hfitz. cbn [negb].
    rewrite (div_one_nonzero scale Hscale). cbn [bind].
    rewrite Hrender.
    eexists. split; [ reflexivity | ]. split; reflexivity.
  - intros Hcv Hfitz Hscale image_path Hrender Hmask.
    unfold detect_doors_from_wall_openings.
    rewrite Hcv, Hfitz. cbn [negb].
    rewrite (div_one_nonzero scale Hscale). cbn [bind].
    rewrite Hrender.
    destruct Hmask as [Hm | (m & Hm & Hsum)]; rewrite Hm; cbn [bind].
    + eexists. split; [ reflexivity | ]. split; reflexivity.
    + rewrite Hsum. cbn [Z.eqb].
      eexists. split; [ reflexivity | ]. split; reflexivity.
  - intros Hcv Hfitz ->. apply detect_doors_zero_scale; assumption.
Qed.

(** The theorem at an installation without OpenCV. *)
Lemma detect_doors_from_wall_openings_degrades_witness :
  exists r,
    detect_doors_from_wall_openings steps_without_cv2 "plan.pdf" 1 100 400
      min_door_width_m_default max_door_width_m_default None = Ok r
    /\ degraded r "OpenCV not available".
Proof.
  apply (proj1 (detect_doors_from_wall_openings_degrades steps_without_cv2
                  "plan.pdf"%string 1%Z 100%Z 400%Z min_door_width_m_default
                  max_door_width_m_default None)).
  reflexivity.
Defined.

(** C8 as stated fails: with both libraries present and [scale = 0] the
    entry point raises instead of returning a result. *)
Lemma detect_doors_raises_on_zero_scale :
  detect_doors_from_wall_openings steps_ok "plan.pdf" 1 0 400
    min_door_width_m_default max_door_width_m_default None
  = Raise ZeroDivisionError
  /\ ~ exists r,
         detect_doors_from_wall_openings steps_ok "plan.pdf" 1 0 400
           min_door_width_m_default max_door_width_m_default None = Ok r.
Proof.
  assert (E : detect_doors_from_wall_openings steps_ok "plan.pdf" 1 0 400
                min_door_width_m_default max_door_width_m_default None
              = Raise ZeroDivisionError)
    by (apply detect_doors_zero_scale; reflexivity).
  split; [ exact E | ].
  intros [r Hr]. rewrite E in Hr. discriminate.
Qed.

End PipelineFacts.

(* ================================================================== *)
(** * Part III: further properties of the code *)
(* ================================================================== *)

(** ** Scale contexts: conversions, inference, validation *)

Section ScaleConversionFacts.
Import Py ScaleCalibration.

(** X1: [px_to_meters] raises exactly when the context has no
    [pixels_per_meter] or a zero one; on every other context the two
    conversions are inverse to each other. *)
Theorem px_meters_round_trip :
  forall (s : ScaleContext),
    ((exists msg, forall px, px_to_meters s px = Raise (ValueError msg))
     <-> (pixels_per_meter s = None \/ pixels_per_meter s = Some 0))
    /\ (forall ppm, pixels_per_meter s = Some ppm -> ppm <> 0 ->
          (forall m, (px <- meters_to_px s m ;; px_to_meters s px) = Ok m)
          /\ (forall px, (m <- px_to_meters s px ;; meters_to_px s m)
                         = Ok px)).
Proof.
  intros s. split.
  - unfold px_to_meters. split.
    + intros [msg H]. specialize (H 0).
      destruct (pixels_per_meter s) as [ppm | ]; [ | auto ].
      case_Reqb ppm 0; [ right; now subst | discriminate ].
    + intros [H | H]; rewrite H.
      * eexists. intros px. reflexivity.
      * replace (Reqb 0 0) with true
          by (symmetry; apply Reqb_true_iff; reflexivity).
        eexists. intros px. reflexivity.
  - intros ppm Hs Hppm. unfold px_to_meters, meters_to_px. rewrite Hs.
    replace (Reqb ppm 0) with false
      by (symmetry; apply Reqb_false_iff; exact Hppm).
    simpl. split; intros v; f_equal; field; exact Hppm.
Qed.

(** The theorem at 100 pixels per metre. *)
Lemma px_meters_round_trip_witness :
  (forall m, (px <- meters_to_px (scale_with 100) m ;;
              px_to_meters (scale_with 100) px) = Ok m)
  /\ (forall px, (m <- px_to_meters (scale_with 100) px ;;
                  meters_to_px (scale_with 100) m) = Ok px).
Proof.
  apply (proj2 (px_meters_round_trip (scale_with 100)) 100 eq_refl). lra.
Defined.

Lemma Rabs_self_zero (a : R) : Rabs (a - a) = 0.
Proof. replace (a - a) with 0 by ring. apply Rabs_R0. Qed.

(** X3: a context calibrated from a reference of [px] pixels for [m]
    metres validates that same reference, whatever the tolerance
    ([>= 0]). *)
Theorem calibration_validates_its_reference :
  forall px m pn pi fid tol,
    0 < px -> 0 < m -> 0 <= tol -> dpi_of pi <> 0%Z ->
    exists ctx,
      compute_scale_from_points px m pn pi fid = Ok ctx
      /\ validate_scale ctx px m tol = Ok true.
Proof.
  intros px m pn pi fid tol Hpx Hm Htol Hdpi.
  unfold compute_scale_from_points.
  Rle_false px 0. Rle_false m 0.
  destruct (infer_scale_string_loop_returns COMMON_SCALES (px / m)
              (dpi_of pi) COMMON_SCALES_positive Hdpi) as [s Hs].
  unfold infer_scale_string. rewrite Hs. simpl.
  eexists. split; [ reflexivity | ].
  assert (Hq : 0 < px / m) by (apply Rdiv_lt_0_compat; assumption).
  unfold validate_scale, has_scale, px_to_meters. simpl.
  Rb_true 0 (px / m). simpl.
  replace (Reqb (px / m) 0) with false
    by (symmetry; apply Reqb_false_iff; lra).
  simpl. unfold div.
  replace (Reqb m 0) with false by (symmetry; apply Reqb_false_iff; lra).
  simpl. f_equal.
  replace (px / (px / m)) with m by (field; lra).
  rewrite Rabs_self_zero.
  apply Rleb_true_iff. unfold Rdiv. rewrite Rmult_0_l. exact Htol.
Qed.

(** The theorem at 90 px for 0.9 m and the default tolerance. *)
Lemma calibration_validates_its_reference_witness :
  exists ctx,
    compute_scale_from_points 90 0.9 1 None None = Ok ctx
    /\ validate_scale ctx 90 0.9 validate_scale_tolerance_default = Ok true.
Proof.
  apply calibration_validates_its_reference;
    unfold validate_scale_tolerance_default; simpl; try lra; lia.
Defined.

End ScaleConversionFacts.

Section ScaleInferenceFacts.
Import Py ScaleCalibration.

Lemma relative_error_of_scales (sk sj : R) (dpi : Z) :
  0 < sk -> 0 < sj -> (0 < dpi)%Z ->
  Rabs (1 / sk * INCHES_PER_METER * IZR dpi
        - 1 / sj * INCHES_PER_METER * IZR dpi)
  / (1 / sj * INCHES_PER_METER * IZR dpi)
  = Rabs (sj / sk - 1).
Proof.
  intros Hk Hj Hd. assert (Hd' : 0 < IZR dpi) by (apply IZR_lt; exact Hd).
  unfold INCHES_PER_METER.
  assert (He : 0 < 1 / sj * 39.3701 * IZR dpi).
  { assert (0 < 1 / sj) by (apply Rdiv_lt_0_compat; lra). nra. }
  unfold Rdiv at 1.
  rewrite <- (Rabs_pos_eq (/ (1 / sj * 39.3701 * IZR dpi))).
  - rewrite <- Rabs_mult. f_equal. field. lra.
  - left. apply Rinv_0_lt_compat. exact He.
Qed.

(** One pass of the search, on the pixels-per-metre value of scale [sk]. *)
Lemma infer_scale_string_loop_step (name : string) (sj sk : R) (dpi : Z)
    (rest : list (string * R)) :
  0 < sk -> 0 < sj -> (0 < dpi)%Z ->
  infer_scale_string_loop ((name, sj) :: rest)
    (1 / sk * INCHES_PER_METER * IZR dpi) dpi
  = if Rltb (Rabs (sj / sk - 1)) 0.05 then Ok (Some name)
    else infer_scale_string_loop rest
           (1 / sk * INCHES_PER_METER * IZR dpi) dpi.
Proof.
  intros Hk Hj Hd. simpl. unfold compute_pixels_per_meter.
  Rle_false sj 0. simpl. unfold div.
  replace (Reqb (1 / sj * INCHES_PER_METER * IZR dpi) 0) with false.
  - simpl. rewrite relative_error_of_scales by assumption. reflexivity.
  - symmetry. apply Reqb_false_iff. apply expected_ppm_nonzero; [ lra | lia ].
Qed.

(** Settle a comparison of the absolute value of a concrete real. *)
Ltac Rabs_cmp :=
  match goal with
  | |- context [Rltb (Rabs ?E) ?c] =>
      first
        [ replace (Rltb (Rabs E) c) with true
            by (symmetry; apply Rltb_true_iff; unfold Rabs;
                destruct (Rcase_abs E); lra)
        | replace (Rltb (Rabs E) c) with false
            by (symmetry; apply Rltb_false_iff; unfold Rabs;
                destruct (Rcase_abs E); lra) ]
  end.

Ltac infer_steps :=
  repeat (rewrite infer_scale_string_loop_step by (try lra; assumption);
          Rabs_cmp; cbv iota).

Lemma infer_scale_string_of_common_scale (dpi : Z) :
  (0 < dpi)%Z ->
  Forall (fun p : string * R =>
            infer_scale_string (1 / snd p * INCHES_PER_METER * IZR dpi) dpi
            = Ok (Some (fst p))
            /\ dict_get COMMON_SCALES (fst p) = Some (snd p))
         COMMON_SCALES.
Proof.
  intros Hd. unfold infer_scale_string.
  unfold COMMON_SCALES at 3.
  repeat constructor; cbn [fst snd]; unfold COMMON_SCALES;
    infer_steps; reflexivity.
Qed.

(** X2: for every entry ["1:N"] of [COMMON_SCALES] and every positive
    resolution, [infer_scale_string] recovers the entry's name from the
    pixels-per-metre value [compute_pixels_per_meter] gives for [N], and a
    user calibration that measures exactly that ratio is labelled with the
    name and the denominator [N]. *)
Theorem common_scale_round_trip :
  forall name sf dpi,
    In (name, sf) COMMON_SCALES -> (0 < dpi)%Z ->
    exists ppm,
      compute_pixels_per_meter sf 0 0 dpi = Ok ppm
      /\ 0 < ppm
      /\ infer_scale_string ppm dpi = Ok (Some name)
      /\ (forall rd pn pi fid, 0 < rd -> dpi_of pi = dpi ->
            exists ctx,
              compute_scale_from_points (ppm * rd) rd pn pi fid = Ok ctx
              /\ scale_string ctx = Some name
              /\ scale_factor ctx = Some sf).
Proof.
  intros name sf dpi Hin Hd.
  pose proof (infer_scale_string_of_common_scale dpi Hd) as HF.
  rewrite Forall_forall in HF. destruct (HF _ Hin) as [Hinf Hget].
  cbn [fst snd] in Hinf, Hget.
  pose proof COMMON_SCALES_positive as Hpos.
  rewrite Forall_forall in Hpos. specialize (Hpos _ Hin). cbn [snd] in Hpos.
  assert (Hd' : 0 < IZR dpi) by (apply IZR_lt; exact Hd).
  assert (Hppm : 0 < 1 / sf * INCHES_PER_METER * IZR dpi).
  { unfold INCHES_PER_METER.
    assert (0 < 1 / sf) by (apply Rdiv_lt_0_compat; lra). nra. }
  exists (1 / sf * INCHES_PER_METER * IZR dpi).
  split; [ | split; [ exact Hppm | split; [ exact Hinf | ] ] ].
  - unfold compute_pixels_per_meter. Rle_false sf 0. reflexivity.
  - intros rd pn pi fid Hrd Hpi. unfold compute_scale_from_points.
    assert (0 < 1 / sf * INCHES_PER_METER * IZR dpi * rd) by nra.
    Rle_false (1 / sf * INCHES_PER_METER * IZR dpi * rd) 0. Rle_false rd 0.
    replace (1 / sf * INCHES_PER_METER * IZR dpi * rd / rd)
      with (1 / sf * INCHES_PER_METER * IZR dpi) by (field; lra).
    rewrite Hpi, Hinf. cbn [bind]. rewrite Hget.
    eexists. split; [ reflexivity | ]. cbn [scale_string scale_factor].
    auto.
Qed.

(** The theorem at the entry 1:100 and 150 dpi. *)
Lemma common_scale_round_trip_witness :
  exists ppm,
    compute_pixels_per_meter 100 0 0 150 = Ok ppm
    /\ 0 < ppm
    /\ infer_scale_string ppm 150 = Ok (Some "1:100"%string)
    /\ (forall rd pn pi fid, 0 < rd -> dpi_of pi = 150%Z ->
          exists ctx,
            compute_scale_from_points (ppm * rd) rd pn pi fid = Ok ctx
            /\ scale_string ctx = Some "1:100"%string
            /\ scale_factor ctx = Some 100).
Proof.
  apply (common_scale_round_trip "1:100"%string 100 150%Z).
  - unfold COMMON_SCALES. simpl. tauto.
  - lia.
Defined.

End ScaleInferenceFacts.

(** ** Polygons: errors, signs, translation and scaling *)

Section PolygonFacts.
Import Py MeasurementEngine.

Lemma path_sum_nonneg (f : R * R -> R * R -> R) (l : list (R * R)) :
  (forall p q, 0 <= f p q) -> 0 <= path_sum f l.
Proof.
  intros Hf. induction l as [ | a l IH ]; [ simpl; lra | ].
  destruct l as [ | b t ]; [ simpl; lra | ].
  change (path_sum f (a :: b :: t)) with (f a b + path_sum f (b :: t)).
  specialize (Hf a b). lra.
Qed.

Lemma euclid_nonneg (p q : R * R) : 0 <= euclid p q.
Proof. unfold euclid. apply sqrt_pos. Qed.

(** X4: [shoelace_area_pixels] raises exactly below three points and
    [shoelace_perimeter_pixels] exactly below two; an area or a perimeter
    that is returned is never negative. *)
Theorem shoelace_errors_and_signs :
  forall pts : list (R * R),
    ((exists msg, shoelace_area_pixels pts = Raise (ValueError msg))
     <-> (List.length pts < 3)%nat)
    /\ ((exists msg, shoelace_perimeter_pixels pts = Raise (ValueError msg))
        <-> (List.length pts < 2)%nat)
    /\ (forall a, shoelace_area_pixels pts = Ok a -> 0 <= a)
    /\ (forall p, shoelace_perimeter_pixels pts = Ok p -> 0 <= p).
Proof.
  intros pts. split; [ | split; [ | split ] ].
  - destruct (Nat.lt_ge_cases (List.length pts) 3) as [H | H].
    + split; [ auto | intros _ ]. unfold shoelace_area_pixels, Point.
      rewrite (proj2 (Nat.ltb_lt _ _) H). eauto.
    + rewrite shoelace_area_pixels_closed by exact H.
      split; [ intros [msg E]; discriminate | lia ].
  - destruct (Nat.lt_ge_cases (List.length pts) 2) as [H | H].
    + split; [ auto | intros _ ]. unfold shoelace_perimeter_pixels, Point.
      rewrite (proj2 (Nat.ltb_lt _ _) H). eauto.
    + rewrite shoelace_perimeter_pixels_closed by exact H.
      split; [ intros [msg E]; discriminate | lia ].
  - intros a Ha.
    destruct (Nat.lt_ge_cases (List.length pts) 3) as [H | H].
    + unfold shoelace_area_pixels, Point in Ha.
      rewrite (proj2 (Nat.ltb_lt _ _) H) in Ha. discriminate.
    + rewrite shoelace_area_pixels_closed in Ha by exact H.
      inversion Ha. pose proof (Rabs_pos (path_sum cross (closed pts))). lra.
  - intros p Hp.
    destruct (Nat.lt_ge_cases (List.length pts) 2) as [H | H].
    + unfold shoelace_perimeter_pixels, Point in Hp.
      rewrite (proj2 (Nat.ltb_lt _ _) H) in Hp. discriminate.
    + rewrite shoelace_perimeter_pixels_closed in Hp by exact H.
      inversion Hp. apply path_sum_nonneg. apply euclid_nonneg.
Qed.

(** The theorem at the unit square. *)
Lemma shoelace_errors_and_signs_witness :
  shoelace_area_pixels unit_square = Ok 1 /\ 0 <= 1.
Proof.
  assert (E : shoelace_area_pixels unit_square = Ok 1).
  { rewrite shoelace_area_pixels_closed by (simpl; lia).
    unfold unit_square, closed, cross. simpl. f_equal.
    replace (0 * 0 - 1 * 0 + (1 * 1 - 1 * 0 + (1 * 1 - 0 * 1
             + (0 * 0 - 0 * 1 + 0)))) with 2 by lra.
    rewrite Rabs_pos_eq by lra. lra. }
  split; [ exact E | ].
  exact (proj1 (proj2 (proj2 (shoelace_errors_and_signs unit_square))) 1 E).
Defined.

Lemma path_sum_map (f : R * R -> R * R -> R) (h : R * R -> R * R)
    (l : list (R * R)) :
  path_sum f (map h l) = path_sum (fun p q => f (h p) (h q)) l.
Proof.
  induction l as [ | a l IH ]; [ reflexivity | ].
  destruct l as [ | b t ]; [ reflexivity | ].
  change (path_sum f (map h (a :: b :: t)))
    with (f (h a) (h b) + path_sum f (map h (b :: t))).
  rewrite IH. reflexivity.
Qed.

Lemma path_sum_ext (f g : R * R -> R * R -> R) (l : list (R * R)) :
  (forall p q, f p q = g p q) -> path_sum f l = path_sum g l.
Proof.
  intros H. induction l as [ | a l IH ]; [ reflexivity | ].
  destruct l as [ | b t ]; [ reflexivity | ].
  change (path_sum f (a :: b :: t)) with (f a b + path_sum f (b :: t)).
  change (path_sum g (a :: b :: t)) with (g a b + path_sum g (b :: t)).
  rewrite IH, H. reflexivity.
Qed.

Lemma path_sum_plus (f g : R * R -> R * R -> R) (l : list (R * R)) :
  path_sum (fun p q => f p q + g p q) l = path_sum f l + path_sum g l.
Proof.
  induction l as [ | a l IH ]; [ simpl; lra | ].
  destruct l as [ | b t ]; [ simpl; lra | ].
  change (path_sum (fun p q => f p q + g p q) (a :: b :: t))
    with (f a b + g a b + path_sum (fun p q => f p q + g p q) (b :: t)).
  change (path_sum f (a :: b :: t)) with (f a b + path_sum f (b :: t)).
  change (path_sum g (a :: b :: t)) with (g a b + path_sum g (b :: t)).
  rewrite IH. lra.
Qed.

Lemma path_sum_scal (c : R) (f : R * R -> R * R -> R) (l : list (R * R)) :
  path_sum (fun p q => c * f p q) l = c * path_sum f l.
Proof.
  induction l as [ | a l IH ]; [ simpl; lra | ].
  destruct l as [ | b t ]; [ simpl; lra | ].
  change (path_sum (fun p q => c * f p q) (a :: b :: t))
    with (c * f a b + path_sum (fun p q => c * f p q) (b :: t)).
  change (path_sum f (a :: b :: t)) with (f a b + path_sum f (b :: t)).
  rewrite IH. lra.
Qed.

(** A sum of differences [g q - g p] along a path telescopes. *)
Lemma path_sum_telescope (g : R * R -> R) (a : R * R) (l : list (R * R)) :
  path_sum (fun p q => g q - g p) (a :: l) = g (last l a) - g a.
Proof.
  revert a. induction l as [ | b t IH ]; intros a.
  - simpl. lra.
  - change (path_sum (fun p q => g q - g p) (a :: b :: t))
      with (g b - g a + path_sum (fun p q => g q - g p) (b :: t)).
    rewrite IH.
    replace (last (b :: t) a) with (last t b)
      by (clear; revert b; induction t as [ | c t IH ]; intros b;
          [ reflexivity | simpl; destruct t; [ reflexivity | apply IH ] ]).
    lra.
Qed.

Lemma closed_path_sum_telescope (g : R * R -> R) (l : list (R * R)) :
  path_sum (fun p q => g q - g p) (closed l) = 0.
Proof.
  unfold closed. destruct l as [ | a t ]; [ simpl; lra | ].
  change ((a :: t) ++ [hd (0, 0) (a :: t)]) with (a :: (t ++ [a])).
  rewrite path_sum_telescope, last_last. lra.
Qed.

Lemma closed_map (h : R * R -> R * R) (l : list (R * R)) :
  l <> [] -> closed (map h l) = map h (closed l).
Proof.
  intros Hl. unfold closed. destruct l as [ | a t ]; [ contradiction | ].
  rewrite map_app. reflexivity.
Qed.

Lemma nonempty_of_length {A : Type} (l : list A) (n : nat) :
  (S n <= List.length l)%nat -> l <> [].
Proof. intros H E. subst l. simpl in H. lia. Qed.

(** X5: moving every vertex by the same vector changes neither the area
    nor the perimeter. *)
Theorem shoelace_translation_invariant :
  forall (pts : list (R * R)) (dx dy : R),
    shoelace_area_pixels (translate dx dy pts) = shoelace_area_pixels pts
    /\ shoelace_perimeter_pixels (translate dx dy pts)
       = shoelace_perimeter_pixels pts.
Proof.
  intros pts dx dy. split.
  - destruct (Nat.lt_ge_cases (List.length pts) 3) as [H | H].
    + unfold shoelace_area_pixels, translate, Point. rewrite length_map.
      rewrite (proj2 (Nat.ltb_lt _ _) H). reflexivity.
    + rewrite !shoelace_area_pixels_closed
        by (unfold translate; rewrite ?length_map; exact H).
      unfold translate.
      rewrite closed_map by (apply (nonempty_of_length pts 2); exact H).
      rewrite path_sum_map.
      rewrite (path_sum_ext _
                 (fun p q => cross p q
                             + (dx * (snd q - snd p)
                                + - dy * (fst q - fst p)))).
      * rewrite path_sum_plus, path_sum_plus, !path_sum_scal.
        rewrite (closed_path_sum_telescope snd),
          (closed_path_sum_telescope fst).
        do 3 f_equal. ring.
      * intros p q. unfold cross. simpl. ring.
  - destruct (Nat.lt_ge_cases (List.length pts) 2) as [H | H].
    + unfold shoelace_perimeter_pixels, translate, Point. rewrite length_map.
      rewrite (proj2 (Nat.ltb_lt _ _) H). reflexivity.
    + rewrite !shoelace_perimeter_pixels_closed
        by (unfold translate; rewrite ?length_map; exact H).
      unfold translate.
      rewrite closed_map by (apply (nonempty_of_length pts 1); exact H).
      rewrite path_sum_map. f_equal. apply path_sum_ext.
      intros p q. unfold euclid. simpl. f_equal. ring.
Qed.

Lemma euclid_shrink (k : R) (p q : R * R) :
  0 < k ->
  euclid (fst p / k, snd p / k) (fst q / k, snd q / k) = / k * euclid p q.
Proof.
  intros Hk. unfold euclid. simpl.
  replace ((fst q / k - fst p / k) * ((fst q / k - fst p / k) * 1)
           + (snd q / k - snd p / k) * ((snd q / k - snd p / k) * 1))
    with ((/ k * / k)
          * ((fst q - fst p) * ((fst q - fst p) * 1)
             + (snd q - snd p) * ((snd q - snd p) * 1)))
    by (field; lra).
  rewrite sqrt_mult_alt.
  - rewrite sqrt_square; [ reflexivity | ].
    left. apply Rinv_0_lt_compat. exact Hk.
  - assert (0 < / k) by (apply Rinv_0_lt_compat; exact Hk). nra.
Qed.

(** X6: for a positive scale, the area in square metres is the shoelace
    area of the polygon with its coordinates converted to metres, and the
    perimeter in metres is the perimeter of that polygon; a scale that is
    not positive raises [ValueError]. *)
Theorem sector_measures_in_metres :
  forall (pts : list (R * R)) (ppm : R),
    (0 < ppm ->
     compute_sector_area_m2 pts ppm = shoelace_area_pixels (shrink ppm pts)
     /\ compute_sector_perimeter_m pts ppm
        = shoelace_perimeter_pixels (shrink ppm pts))
    /\ (ppm <= 0 ->
        (exists msg, compute_sector_area_m2 pts ppm = Raise (ValueError msg))
        /\ (exists msg,
              compute_sector_perimeter_m pts ppm = Raise (ValueError msg))).
Proof.
  intros pts ppm. split.
  - intros Hppm. unfold compute_sector_area_m2, compute_sector_perimeter_m.
    Rle_false ppm 0. split.
    + destruct (Nat.lt_ge_cases (List.length pts) 3) as [H | H].
      * unfold shoelace_area_pixels, shrink, Point. rewrite length_map.
        rewrite (proj2 (Nat.ltb_lt _ _) H). reflexivity.
      * rewrite !shoelace_area_pixels_closed
          by (unfold shrink; rewrite ?length_map; exact H).
        cbn [bind]. f_equal. unfold shrink.
        rewrite closed_map by (apply (nonempty_of_length pts 2); exact H).
        rewrite path_sum_map.
        rewrite (path_sum_ext
                   (fun p q => cross (fst p / ppm, snd p / ppm)
                                     (fst q / ppm, snd q / ppm))
                   (fun p q => (/ ppm * / ppm) * cross p q)).
        -- rewrite path_sum_scal, Rabs_mult.
           assert (0 < / ppm) by (apply Rinv_0_lt_compat; exact Hppm).
           rewrite (Rabs_pos_eq (/ ppm * / ppm)) by nra.
           simpl. field. lra.
        -- intros p q. unfold cross. simpl. field. lra.
    + destruct (Nat.lt_ge_cases (List.length pts) 2) as [H | H].
      * unfold shoelace_perimeter_pixels, shrink, Point. rewrite length_map.
        rewrite (proj2 (Nat.ltb_lt _ _) H). reflexivity.
      * rewrite !shoelace_perimeter_pixels_closed
          by (unfold shrink; rewrite ?length_map; exact H).
        cbn [bind]. f_equal. unfold shrink.
        rewrite closed_map by (apply (nonempty_of_length pts 1); exact H).
        rewrite path_sum_map.
        rewrite (path_sum_ext
                   (fun p q => euclid (fst p / ppm, snd p / ppm)
                                      (fst q / ppm, snd q / ppm))
                   (fun p q => / ppm * euclid p q)).
        -- rewrite path_sum_scal. unfold Rdiv. ring.
        -- intros p q. apply euclid_shrink. exact Hppm.
  - intros Hppm. unfold compute_sector_area_m2, compute_sector_perimeter_m.
    Rle_true ppm 0. split; eauto.
Qed.

(** The theorem at the unit square and 10 pixels per metre. *)
Lemma sector_measures_in_metres_witness :
  compute_sector_area_m2 unit_square 10
  = shoelace_area_pixels (shrink 10 unit_square)
  /\ compute_sector_perimeter_m unit_square 10
     = shoelace_perimeter_pixels (shrink 10 unit_square).
Proof.
  apply (proj1 (sector_measures_in_metres unit_square 10)). lra.
Defined.

(** X7: an axis-aligned rectangle of width [w >= 0] and height [h >= 0]
    has area [w * h] and perimeter [2 * (w + h)], wherever it lies. *)
Theorem rectangle_area_and_perimeter :
  forall xa ya w h : R,
    0 <= w -> 0 <= h ->
    shoelace_area_pixels (rectangle xa ya (xa + w) (ya + h)) = Ok (w * h)
    /\ shoelace_perimeter_pixels (rectangle xa ya (xa + w) (ya + h))
       = Ok (2 * (w + h)).
Proof.
  intros xa ya w h Hw Hh. split.
  - rewrite shoelace_area_pixels_closed by (simpl; lia).
    unfold rectangle, closed, cross. simpl. f_equal.
    replace (xa * ya - (xa + w) * ya
             + ((xa + w) * (ya + h) - (xa + w) * ya
                + ((xa + w) * (ya + h) - xa * (ya + h)
                   + (xa * ya - xa * (ya + h) + 0))))
      with (2 * (w * h)) by ring.
    rewrite Rabs_pos_eq by nra. lra.
  - rewrite shoelace_perimeter_pixels_closed by (simpl; lia).
    unfold rectangle, closed, euclid. simpl. f_equal.
    replace ((xa + w - xa) * ((xa + w - xa) * 1)
             + (ya - ya) * ((ya - ya) * 1)) with (w * w) by ring.
    replace ((xa + w - (xa + w)) * ((xa + w - (xa + w)) * 1)
             + (ya + h - ya) * ((ya + h - ya) * 1)) with (h * h) by ring.
    replace ((xa - (xa + w)) * ((xa - (xa + w)) * 1)
             + (ya + h - (ya + h)) * ((ya + h - (ya + h)) * 1))
      with (w * w) by ring.
    replace ((xa - xa) * ((xa - xa) * 1)
             + (ya - (ya + h)) * ((ya - (ya + h)) * 1))
      with (h * h) by ring.
    rewrite !sqrt_square by assumption. lra.
Qed.

(** The theorem at a 4 x 3 rectangle. *)
Lemma rectangle_area_and_perimeter_witness :
  shoelace_area_pixels (rectangle 1 2 (1 + 4) (2 + 3)) = Ok (4 * 3)
  /\ shoelace_perimeter_pixels (rectangle 1 2 (1 + 4) (2 + 3))
     = Ok (2 * (4 + 3)).
Proof. apply rectangle_area_and_perimeter; lra. Defined.

End PolygonFacts.

(** ** Ray casting: rectangles and bounding boxes *)

Section RayCastingBoxFacts.
Import Py VectorMeasurement.

Lemma point_in_polygon_body_step (pts : list (R * R)) (x y : R)
    (inside : bool) (i j : nat) :
  point_in_polygon_body pts x y (inside, j) i
  = ((if (if xorb (Rltb y (snd (nth i pts (0, 0))))
                  (Rltb y (snd (nth j pts (0, 0))))
          then Rltb x ((fst (nth j pts (0, 0)) - fst (nth i pts (0, 0)))
                       * (y - snd (nth i pts (0, 0)))
                       / (snd (nth j pts (0, 0)) - snd (nth i pts (0, 0)))
                       + fst (nth i pts (0, 0)))
          else false)
      then negb inside else inside), i).
Proof.
  unfold point_in_polygon_body, Point.
  destruct (nth i pts (0, 0)) as [xi yi].
  destruct (nth j pts (0, 0)) as [xj yj]. cbn [fst snd].
  destruct (xorb (Rltb y yi) (Rltb y yj)); [ | reflexivity ].
  destruct (Rltb x _); reflexivity.
Qed.

(** X8: on an axis-aligned rectangle the ray-casting test is the half-open
    box test: the left and lower edges are inside, the right and upper
    edges are outside. *)
Theorem point_in_rectangle :
  forall xa ya xb yb x y : R,
    xa < xb -> ya < yb ->
    point_in_polygon x y (rectangle xa ya xb yb)
    = Rleb xa x && Rltb x xb && (Rleb ya y && Rltb y yb).
Proof.
  intros xa ya xb yb x y Hx Hy.
  unfold point_in_polygon, rectangle.
  cbn [List.length Nat.ltb Nat.leb seq fold_left Nat.sub].
  rewrite !point_in_polygon_body_step. cbn [nth fst snd].
  replace ((xa - xa) * (y - ya) / (yb - ya) + xa) with xa
    by (unfold Rdiv; ring).
  replace ((xb - xb) * (y - yb) / (ya - yb) + xb) with xb
    by (unfold Rdiv; ring).
  rewrite !xorb_nilpotent.
  case_Rltb y ya; case_Rltb y yb; try lra;
    case_Rleb ya y; try lra;
    case_Rleb xa x; case_Rltb x xa; try lra;
    case_Rltb x xb; try lra; reflexivity.
Qed.

(** The theorem at the square sector of the scenario. *)
Lemma point_in_rectangle_witness :
  point_in_polygon 0 0 (rectangle 0 0 100 100)
  = Rleb 0 0 && Rltb 0 100 && (Rleb 0 0 && Rltb 0 100).
Proof. apply point_in_rectangle; lra. Defined.

Lemma fold_seq_invariant {A : Type} (P : nat -> A -> Prop)
    (f : A -> nat -> A) (len start : nat) (init : A) :
  P start init ->
  (forall i st, (start <= i < start + len)%nat -> P i st -> P (S i) (f st i)) ->
  P (start + len)%nat (fold_left f (seq start len) init).
Proof.
  revert start init. induction len as [ | len IH ]; intros start init H0 Hs.
  - simpl. now rewrite Nat.add_0_r.
  - simpl. replace (start + S len)%nat with (S start + len)%nat by lia.
    apply IH.
    + apply Hs; [ lia | exact H0 ].
    + intros i st Hi. apply Hs. lia.
Qed.

(** Where an edge that straddles the height [y] meets it lies between the
    abscissas of its two ends. *)
Lemma crossing_between (xi yi xj yj y : R) :
  xorb (Rltb y yi) (Rltb y yj) = true ->
  let c := (xj - xi) * (y - yi) / (yj - yi) + xi in
  Rmin xi xj <= c <= Rmax xi xj.
Proof.
  intros Hx c.
  assert (Ht : exists t, 0 <= t <= 1 /\ y - yi = t * (yj - yi)
                         /\ yj - yi <> 0).
  { case_Rltb y yi; case_Rltb y yj; simpl in Hx; try discriminate.
    - exists ((y - yi) / (yj - yi)).
      assert (Hd : yj - yi < 0) by lra.
      assert (Hinv : / (yj - yi) < 0) by (apply Rinv_lt_0_compat; exact Hd).
      split; [ | split; [ field; lra | lra ] ].
      split.
      + unfold Rdiv. nra.
      + apply Rmult_le_reg_r with (- (yj - yi)); [ lra | ].
        replace ((y - yi) / (yj - yi) * - (yj - yi)) with (- (y - yi))
          by (field; lra).
        lra.
    - exists ((y - yi) / (yj - yi)).
      assert (Hd : 0 < yj - yi) by lra.
      assert (Hinv : 0 < / (yj - yi)) by (apply Rinv_0_lt_compat; exact Hd).
      split; [ | split; [ field; lra | lra ] ].
      split.
      + unfold Rdiv. nra.
      + apply Rmult_le_reg_r with (yj - yi); [ lra | ].
        replace ((y - yi) / (yj - yi) * (yj - yi)) with (y - yi)
          by (field; lra).
        lra. }
  destruct Ht as (t & [Ht0 Ht1] & Hy & Hd).
  assert (Ec : c = xi + (xj - xi) * t).
  { unfold c. rewrite Hy. field. exact Hd. }
  rewrite Ec. unfold Rmin, Rmax.
  destruct (Rle_dec xi xj); split; nra.
Qed.

Lemma prev_index_lt (n k : nat) :
  (0 < n)%nat -> (k <= n)%nat -> (prev_index n k < n)%nat.
Proof. intros Hn Hk. destruct k; simpl; lia. Qed.

Lemma Forall_nth_pt (P : R * R -> Prop) (pts : list (R * R)) (i : nat) :
  Forall P pts -> (i < List.length pts)%nat -> P (nth i pts (0, 0)).
Proof.
  intros HF Hi. rewrite Forall_forall in HF. apply HF. apply nth_In. exact Hi.
Qed.

(** A loop that never toggles ends outside. *)
Lemma ray_loop_never_toggles (pts : list (R * R)) (x y : R) :
  (forall i j, (i < List.length pts)%nat -> (j < List.length pts)%nat ->
     (if xorb (Rltb y (snd (nth i pts (0, 0))))
              (Rltb y (snd (nth j pts (0, 0))))
      then Rltb x ((fst (nth j pts (0, 0)) - fst (nth i pts (0, 0)))
                   * (y - snd (nth i pts (0, 0)))
                   / (snd (nth j pts (0, 0)) - snd (nth i pts (0, 0)))
                   + fst (nth i pts (0, 0)))
      else false) = false) ->
  (0 < List.length pts)%nat ->
  fst (fold_left (point_in_polygon_body pts x y)
         (seq 0 (List.length pts)) (false, (List.length pts - 1)%nat))
  = false.
Proof.
  intros Hno Hn.
  pose proof (fold_seq_invariant
                (fun k (st : bool * nat) =>
                   (k <= List.length pts)%nat ->
                   snd st = prev_index (List.length pts) k
                   /\ fst st = false)
                (point_in_polygon_body pts x y) (List.length pts) 0
                (false, (List.length pts - 1)%nat)) as Inv.
  simpl in Inv. apply Inv; [ auto | | lia ].
  intros i [inside j] Hi HP Hle. simpl in HP.
  destruct HP as [Hj Hin]; [ lia | ]. subst inside.
  rewrite point_in_polygon_body_step. rewrite Hno.
  - simpl. auto.
  - lia.
  - rewrite Hj. apply prev_index_lt; lia.
Qed.

(** X9: a point outside the bounding box of the vertices is outside the
    polygon: strictly left of every vertex, or not left of any, or
    strictly below every vertex, or not below any. *)
Theorem point_outside_bounding_box :
  forall (pts : list (R * R)) (x y : R),
    Forall (fun p => x < fst p) pts
    \/ Forall (fun p => fst p <= x) pts
    \/ Forall (fun p => y < snd p) pts
    \/ Forall (fun p => snd p <= y) pts ->
    point_in_polygon x y pts = false.
Proof.
  intros pts x y Hbox. unfold point_in_polygon, Point.
  destruct (List.length pts <? 3)%nat eqn:En; [ reflexivity | ].
  apply Nat.ltb_ge in En.
  destruct Hbox as [Hl | [Hr | [Hb | Ht]]].
  - (* left of every vertex: every straddling edge toggles, and the
       straddles around the cycle cancel *)
    pose proof (fold_seq_invariant
                  (fun k (st : bool * nat) =>
                     (k <= List.length pts)%nat ->
                     snd st = prev_index (List.length pts) k
                     /\ fst st
                        = xorb (Rltb y (snd (nth (prev_index
                                                    (List.length pts) k)
                                                 pts (0, 0))))
                               (Rltb y (snd (nth (List.length pts - 1)
                                                 pts (0, 0)))))
                  (point_in_polygon_body pts x y) (List.length pts) 0
                  (false, (List.length pts - 1)%nat)) as Inv.
    simpl in Inv.
    destruct Inv as [_ Hfin]; [ | | lia | ].
    + intros _. split; [ reflexivity | ]. now rewrite xorb_nilpotent.
    + intros i [inside j] Hi HP Hle. simpl in HP.
      destruct HP as [Hj Hin]; [ lia | ].
      rewrite point_in_polygon_body_step. cbn [fst snd]. split; [ reflexivity | ].
      assert (Hjn : (j < List.length pts)%nat)
        by (rewrite Hj; apply prev_index_lt; lia).
      pose proof (Forall_nth_pt _ pts i Hl) as Hxi.
      pose proof (Forall_nth_pt _ pts j Hl Hjn) as Hxj.
      specialize (Hxi ltac:(lia)). simpl in Hxi, Hxj.
      rewrite Hin, <- Hj.
      destruct (xorb (Rltb y (snd (nth i pts (0, 0))))
                     (Rltb y (snd (nth j pts (0, 0))))) eqn:Ex.
      * pose proof (crossing_between (fst (nth i pts (0, 0))) _
                      (fst (nth j pts (0, 0))) _ _ Ex) as Hc.
        cbv zeta in Hc.
        match goal with
        | |- context [Rltb x ?c] =>
            replace (Rltb x c) with true
        end.
        -- destruct (Rltb y (snd (nth i pts (0, 0))));
             destruct (Rltb y (snd (nth j pts (0, 0))));
             destruct (Rltb y (snd (nth (List.length pts - 1) pts (0, 0))));
             simpl in *; try discriminate; reflexivity.
        -- symmetry. apply Rltb_true_iff.
           destruct Hc as [Hc _]. revert Hc. unfold Rmin.
           destruct (Rle_dec _ _); lra.
      * destruct (Rltb y (snd (nth i pts (0, 0))));
          destruct (Rltb y (snd (nth j pts (0, 0))));
          destruct (Rltb y (snd (nth (List.length pts - 1) pts (0, 0))));
          simpl in *; try discriminate; reflexivity.
    + rewrite Hfin.
      replace (prev_index (List.length pts) (List.length pts))
        with (List.length pts - 1)%nat
        by (destruct (List.length pts); simpl; lia).
      apply xorb_nilpotent.
  - apply ray_loop_never_toggles; [ | lia ].
    intros i j Hi Hj.
    destruct (xorb _ _) eqn:Ex; [ | reflexivity ].
    pose proof (crossing_between (fst (nth i pts (0, 0))) _
                      (fst (nth j pts (0, 0))) _ _ Ex) as Hc. cbv zeta in Hc.
    pose proof (Forall_nth_pt _ pts i Hr Hi) as Hxi.
    pose proof (Forall_nth_pt _ pts j Hr Hj) as Hxj.
    simpl in Hxi, Hxj. apply Rltb_false_iff.
    destruct Hc as [_ Hc]. revert Hc. unfold Rmax.
    destruct (Rle_dec _ _); lra.
  - apply ray_loop_never_toggles; [ | lia ].
    intros i j Hi Hj.
    pose proof (Forall_nth_pt _ pts i Hb Hi) as Hyi.
    pose proof (Forall_nth_pt _ pts j Hb Hj) as Hyj.
    simpl in Hyi, Hyj.
    Rb_true y (snd (nth i pts (0, 0))). Rb_true y (snd (nth j pts (0, 0))).
    reflexivity.
  - apply ray_loop_never_toggles; [ | lia ].
    intros i j Hi Hj.
    pose proof (Forall_nth_pt _ pts i Ht Hi) as Hyi.
    pose proof (Forall_nth_pt _ pts j Ht Hj) as Hyj.
    simpl in Hyi, Hyj.
    Rb_false y (snd (nth i pts (0, 0))). Rb_false y (snd (nth j pts (0, 0))).
    reflexivity.
Qed.

(** The theorem at a point to the left of the unit square. *)
Lemma point_outside_bounding_box_witness :
  point_in_polygon (- 1) (1 / 2) unit_square = false.
Proof.
  apply point_outside_bounding_box. left.
  unfold unit_square. repeat constructor; simpl; lra.
Defined.

End RayCastingBoxFacts.

(** ** Wall lengths: errors, signs, order of the input *)

Section WallLengthMoreFacts.
Import Py VectorMeasurement.

Lemma Int_part_nonneg (x : R) : 0 <= x -> (0 <= Int_part x)%Z.
Proof.
  intros Hx. destruct (base_Int_part x) as [H1 H2].
  apply le_IZR. apply Rnot_lt_le. intros Hlt.
  assert (IZR (Int_part x) <= -1).
  { change (-1) with (IZR (-1)). apply IZR_le.
    apply lt_IZR in Hlt. lia. }
  lra.
Qed.

Lemma Int_part_mono (x y : R) : x <= y -> (Int_part x <= Int_part y)%Z.
Proof.
  intros Hxy. destruct (base_Int_part x) as [Hx1 Hx2].
  destruct (base_Int_part y) as [Hy1 Hy2].
  apply Z.lt_succ_r. apply lt_IZR. rewrite succ_IZR. lra.
Qed.

Lemma round_half_even_bounds (x : R) :
  (Int_part x <= round_half_even x <= Int_part x + 1)%Z
  /\ (x - IZR (Int_part x) < 1 / 2 -> round_half_even x = Int_part x)
  /\ (1 / 2 < x - IZR (Int_part x) ->
      round_half_even x = (Int_part x + 1)%Z).
Proof.
  unfold round_half_even.
  case_Rltb (x - IZR (Int_part x)) (1 / 2).
  - split; [ lia | ]. split; [ auto | lra ].
  - case_Rltb (1 / 2) (x - IZR (Int_part x)).
    + split; [ lia | ]. split; [ lra | auto ].
    + split; [ destruct (Z.even (Int_part x)); lia | ]. split; lra.
Qed.

Lemma round_half_even_mono (x y : R) :
  x <= y -> (round_half_even x <= round_half_even y)%Z.
Proof.
  intros Hxy. pose proof (Int_part_mono x y Hxy) as Hi.
  destruct (round_half_even_bounds x) as (Bx & Lx & Ux).
  destruct (round_half_even_bounds y) as (By & Ly & Uy).
  destruct (Z.eq_dec (Int_part x) (Int_part y)) as [E | E]; [ | lia ].
  destruct (Rlt_dec (x - IZR (Int_part x)) (1 / 2)) as [H1 | H1].
  - rewrite (Lx H1). lia.
  - destruct (Rlt_dec (1 / 2) (y - IZR (Int_part y))) as [H2 | H2].
    + rewrite (Uy H2). lia.
    + (* both fractions are one half: the same tie *)
      assert (Ex : x - IZR (Int_part x) = 1 / 2) by (rewrite E in *; lra).
      assert (Ey : y - IZR (Int_part y) = 1 / 2) by (rewrite E in *; lra).
      unfold round_half_even. rewrite Ex, Ey, E.
      Rb_false (1 / 2) (1 / 2). lia.
Qed.

Lemma round_ndigits_mono (x y : R) (n : nat) :
  x <= y -> round_ndigits x n <= round_ndigits y n.
Proof.
  intros Hxy. unfold round_ndigits.
  assert (Hp : 0 < 10 ^ n) by (apply pow_lt; lra).
  apply Rmult_le_compat_r; [ left; apply Rinv_0_lt_compat; exact Hp | ].
  apply IZR_le. apply round_half_even_mono. nra.
Qed.

Lemma round_ndigits_zero (n : nat) : round_ndigits 0 n = 0.
Proof. apply (round_ndigits_exact 0 n 0). ring. Qed.

Lemma round_ndigits_nonneg (x : R) (n : nat) :
  0 <= x -> 0 <= round_ndigits x n.
Proof.
  intros Hx. rewrite <- (round_ndigits_zero n).
  apply round_ndigits_mono. exact Hx.
Qed.

Lemma length_px_nonneg (s : LineSegment) : 0 <= length_px s.
Proof. unfold length_px. apply sqrt_pos. Qed.

Lemma Rsum_nonneg (l : list R) : Forall (fun v => 0 <= v) l -> 0 <= Rsum l.
Proof.
  unfold Rsum. induction 1 as [ | v l Hv _ IH ]; simpl; lra.
Qed.

Lemma counted_length_px_nonneg (sector : MeasurementEngine.Sector)
    (rb : bool) (ws : list WallSegment) :
  0 <= counted_length_px sector rb ws.
Proof.
  unfold counted_length_px. apply Rsum_nonneg.
  apply Forall_forall. intros v Hv. apply in_map_iff in Hv.
  destruct Hv as (w & <- & _). apply length_px_nonneg.
Qed.

(** X10: [compute_wall_length_in_sector_m] raises [ValueError] exactly
    when the scale context has no positive [pixels_per_meter];
    [compute_drywall_area_in_sector_m2] raises it exactly when the wall
    height is not positive or the scale is missing; neither raises
    anything else, so that with a scale the wall length is returned and,
    for a positive height, the drywall area too; and a value that is
    returned is never negative. *)
Theorem wall_length_errors_and_signs :
  forall ws sector sc rb h,
    ((exists msg, compute_wall_length_in_sector_m ws sector sc rb
                  = Raise (ValueError msg))
     <-> ScaleCalibration.has_scale sc = false)
    /\ ((exists msg, compute_drywall_area_in_sector_m2 ws sector sc h rb
                     = Raise (ValueError msg))
        <-> (h <= 0 \/ ScaleCalibration.has_scale sc = false))
    /\ (forall r, compute_wall_length_in_sector_m ws sector sc rb = Ok r ->
          0 <= MeasurementEngine.value r)
    /\ (forall r, compute_drywall_area_in_sector_m2 ws sector sc h rb = Ok r ->
          0 <= MeasurementEngine.value r)
    /\ (forall e, compute_drywall_area_in_sector_m2 ws sector sc h rb
                  = Raise e -> exists msg, e = ValueError msg)
    /\ (forall e, compute_wall_length_in_sector_m ws sector sc rb
                  = Raise e -> exists msg, e = ValueError msg)
    /\ (ScaleCalibration.has_scale sc = true ->
        (exists r, compute_wall_length_in_sector_m ws sector sc rb = Ok r)
        /\ (0 < h ->
            exists r,
              compute_drywall_area_in_sector_m2 ws sector sc h rb = Ok r)).
Proof.
  intros ws sector sc rb h.
  destruct (ScaleCalibration.has_scale sc) eqn:Hs.
  - unfold ScaleCalibration.has_scale in Hs.
    destruct (ScaleCalibration.pixels_per_meter sc) as [ppm | ] eqn:Hp;
      [ | discriminate ].
    apply Rltb_true_iff in Hs.
    destruct (compute_wall_length_value ws sector sc rb ppm Hp Hs)
      as (r & Hr & Hv & _).
    assert (Hr0 : 0 <= MeasurementEngine.value r).
    { rewrite Hv. apply round_ndigits_nonneg.
      apply Rmult_le_pos; [ apply counted_length_px_nonneg | ].
      left. apply Rinv_0_lt_compat. exact Hs. }
    split; [ | split; [ | split; [ | split; [ | split; [ | split ] ] ] ] ].
    + rewrite Hr. split; [ intros [msg E]; discriminate | discriminate ].
    + unfold compute_drywall_area_in_sector_m2. case_Rleb h 0.
      * split; [ auto | eauto ].
      * rewrite Hr. simpl.
        split; [ intros [msg E]; discriminate | ].
        intros [H | H]; [ lra | discriminate ].
    + intros r' Hr'. rewrite Hr in Hr'. inversion Hr'; subst. exact Hr0.
    + unfold compute_drywall_area_in_sector_m2. case_Rleb h 0;
        [ discriminate | ].
      rewrite Hr. simpl. intros r' Hr'. inversion Hr'; subst. simpl.
      apply round_ndigits_nonneg. apply Rmult_le_pos; lra.
    + unfold compute_drywall_area_in_sector_m2. case_Rleb h 0.
      * intros e He. inversion He. eauto.
      * rewrite Hr. simpl. discriminate.
    + rewrite Hr. discriminate.
    + intros _. split; [ exists r; exact Hr | ].
      intros Hh. unfold compute_drywall_area_in_sector_m2.
      Rle_false h 0. rewrite Hr. simpl. eexists. reflexivity.
  - assert (Hraise : compute_wall_length_in_sector_m ws sector sc rb
                     = Raise (ValueError
                                "ScaleContext must have valid pixels_per_meter")).
    { unfold compute_wall_length_in_sector_m. rewrite Hs. reflexivity. }
    split; [ | split; [ | split; [ | split; [ | split; [ | split ] ] ] ] ].
    + rewrite Hraise. split; eauto.
    + unfold compute_drywall_area_in_sector_m2. case_Rleb h 0.
      * split; eauto.
      * rewrite Hraise. simpl. split; eauto.
    + rewrite Hraise. discriminate.
    + unfold compute_drywall_area_in_sector_m2. case_Rleb h 0;
        [ discriminate | ].
      rewrite Hraise. discriminate.
    + unfold compute_drywall_area_in_sector_m2. case_Rleb h 0.
      * intros e He. inversion He. eauto.
      * rewrite Hraise. simpl. intros e He. inversion He. eauto.
    + rewrite Hraise. intros e He. inversion He. eauto.
    + intros H. discriminate H.
Qed.

(** The theorem at the scenario of the square sector. *)
Lemma wall_length_errors_and_signs_witness :
  exists r,
    compute_wall_length_in_sector_m [wall_between 10 50 90 50 1]
      square_sector (scale_with 10) true = Ok r
    /\ 0 <= MeasurementEngine.value r.
Proof.
  destruct (compute_wall_length_value [wall_between 10 50 90 50 1]
              square_sector (scale_with 10) true 10 eq_refl)
    as (r & Hr & _); [ lra | ].
  exists r. split; [ exact Hr | ].
  exact (proj1 (proj2 (proj2 (wall_length_errors_and_signs
                                [wall_between 10 50 90 50 1] square_sector
                                (scale_with 10) true 1))) r Hr).
Defined.

Lemma counted_both_implies_either (sector : MeasurementEngine.Sector)
    (w : WallSegment) :
  counted sector true w = true -> counted sector false w = true.
Proof.
  unfold counted. intros H. apply andb_true_iff in H. destruct H as [H1 H2].
  rewrite H1. cbn [andb]. exact (segment_in_polygon_both _ _ false H2).
Qed.

Lemma counted_length_px_both_le_either (sector : MeasurementEngine.Sector)
    (ws : list WallSegment) :
  counted_length_px sector true ws <= counted_length_px sector false ws
  /\ (List.length (filter (counted sector true) ws)
      <= List.length (filter (counted sector false) ws))%nat.
Proof.
  unfold counted_length_px, Rsum.
  induction ws as [ | w ws [IH1 IH2] ];
    cbn [filter map fold_right List.length]; [ split; [ lra | lia ] | ].
  pose proof (length_px_nonneg (segment w)) as Hw.
  fold (ws_length_px w) in Hw.
  destruct (counted sector true w) eqn:E.
  - rewrite (counted_both_implies_either _ _ E).
    cbn [filter map fold_right List.length]. split; [ lra | lia ].
  - destruct (counted sector false w);
      cbn [filter map fold_right List.length]; split; try lra; lia.
Qed.

(** X11: requiring both endpoints inside never reports more than
    requiring one: neither a longer wall length nor a larger drywall
    area. *)
Theorem both_endpoints_le_either :
  forall ws sector sc h r_both r_either a_both a_either,
    compute_wall_length_in_sector_m ws sector sc true = Ok r_both ->
    compute_wall_length_in_sector_m ws sector sc false = Ok r_either ->
    compute_drywall_area_in_sector_m2 ws sector sc h true = Ok a_both ->
    compute_drywall_area_in_sector_m2 ws sector sc h false = Ok a_either ->
    MeasurementEngine.value r_both <= MeasurementEngine.value r_either
    /\ MeasurementEngine.value a_both <= MeasurementEngine.value a_either.
Proof.
  intros ws sector sc h rb re ab ae Hb He Hab Hae.
  destruct (ScaleCalibration.has_scale sc) eqn:Hs.
  2: { unfold compute_wall_length_in_sector_m in Hb. rewrite Hs in Hb.
       discriminate. }
  unfold ScaleCalibration.has_scale in Hs.
  destruct (ScaleCalibration.pixels_per_meter sc) as [ppm | ] eqn:Hp;
    [ | discriminate ].
  apply Rltb_true_iff in Hs.
  destruct (compute_wall_length_value ws sector sc true ppm Hp Hs)
    as (r1 & Hr1 & Hv1 & _).
  destruct (compute_wall_length_value ws sector sc false ppm Hp Hs)
    as (r2 & Hr2 & Hv2 & _).
  rewrite Hr1 in Hb. rewrite Hr2 in He.
  inversion Hb; subst r1. inversion He; subst r2.
  assert (Hle : MeasurementEngine.value rb <= MeasurementEngine.value re).
  { rewrite Hv1, Hv2. apply round_ndigits_mono.
    apply Rmult_le_compat_r; [ left; apply Rinv_0_lt_compat; exact Hs | ].
    apply counted_length_px_both_le_either. }
  split; [ exact Hle | ].
  unfold compute_drywall_area_in_sector_m2 in Hab, Hae.
  case_Rleb h 0; [ discriminate | ].
  rewrite Hr1 in Hab. rewrite Hr2 in Hae. simpl in Hab, Hae.
  inversion Hab; subst ab. inversion Hae; subst ae. simpl.
  apply round_ndigits_mono. apply Rmult_le_compat_r; lra.
Qed.

(** The theorem at the scenario of the square sector. *)
Lemma both_endpoints_le_either_witness :
  exists r_both r_either a_both a_either,
    compute_wall_length_in_sector_m [wall_between 10 50 90 50 1]
      square_sector (scale_with 10) true = Ok r_both
    /\ compute_wall_length_in_sector_m [wall_between 10 50 90 50 1]
         square_sector (scale_with 10) false = Ok r_either
    /\ compute_drywall_area_in_sector_m2 [wall_between 10 50 90 50 1]
         square_sector (scale_with 10) 2.6 true = Ok a_both
    /\ compute_drywall_area_in_sector_m2 [wall_between 10 50 90 50 1]
         square_sector (scale_with 10) 2.6 false = Ok a_either
    /\ MeasurementEngine.value r_both <= MeasurementEngine.value r_either
    /\ MeasurementEngine.value a_both <= MeasurementEngine.value a_either.
Proof.
  destruct (compute_wall_length_value [wall_between 10 50 90 50 1]
              square_sector (scale_with 10) true 10 eq_refl)
    as (r1 & Hr1 & _); [ lra | ].
  destruct (compute_wall_length_value [wall_between 10 50 90 50 1]
              square_sector (scale_with 10) false 10 eq_refl)
    as (r2 & Hr2 & _); [ lra | ].
  destruct (compute_drywall_area_value [wall_between 10 50 90 50 1]
              square_sector (scale_with 10) 2.6 true 10 eq_refl)
    as (a1 & Ha1 & _); [ lra | lra | ].
  destruct (compute_drywall_area_value [wall_between 10 50 90 50 1]
              square_sector (scale_with 10) 2.6 false 10 eq_refl)
    as (a2 & Ha2 & _); [ lra | lra | ].
  exists r1, r2, a1, a2. repeat (split; [ assumption | ]).
  exact (both_endpoints_le_either _ _ _ _ _ _ _ _ Hr1 Hr2 Ha1 Ha2).
Defined.

Lemma Rsum_perm (l1 l2 : list R) : Permutation l1 l2 -> Rsum l1 = Rsum l2.
Proof.
  unfold Rsum. induction 1; simpl; try lra.
Qed.

Lemma filter_perm {A : Type} (p : A -> bool) (l1 l2 : list A) :
  Permutation l1 l2 -> Permutation (filter p l1) (filter p l2).
Proof.
  induction 1 as [ | a l1 l2 _ IH | a b l | l1 l2 l3 _ IH1 _ IH2 ]; simpl.
  - constructor.
  - destruct (p a); [ constructor; exact IH | exact IH ].
  - destruct (p a), (p b); try apply Permutation_refl. apply perm_swap.
  - eapply perm_trans; eassumption.
Qed.

(** X12: the order of the wall segments does not matter: a permutation of
    the list gives the same wall-length result and the same drywall
    result. *)
Theorem wall_length_order_independent :
  forall ws ws' sector sc h rb,
    Permutation ws ws' ->
    compute_wall_length_in_sector_m ws sector sc rb
    = compute_wall_length_in_sector_m ws' sector sc rb
    /\ compute_drywall_area_in_sector_m2 ws sector sc h rb
       = compute_drywall_area_in_sector_m2 ws' sector sc h rb.
Proof.
  intros ws ws' sector sc h rb Hperm.
  assert (Hf : Permutation (filter (counted sector rb) ws)
                           (filter (counted sector rb) ws'))
    by (apply filter_perm; exact Hperm).
  assert (E : compute_wall_length_in_sector_m ws sector sc rb
              = compute_wall_length_in_sector_m ws' sector sc rb).
  { unfold compute_wall_length_in_sector_m.
    destruct (negb (ScaleCalibration.has_scale sc)); [ reflexivity | ].
    destruct (ScaleCalibration.pixels_per_meter sc) as [ppm | ];
      [ | reflexivity ].
    rewrite !wall_length_loop_total. unfold wall_length_loop.
    rewrite (proj2 (wall_length_fold_total sector rb ws _)).
    rewrite (proj2 (wall_length_fold_total sector rb ws' _)).
    unfold counted_length_px.
    rewrite (Rsum_perm _ _ (Permutation_map ws_length_px Hf)).
    rewrite (Permutation_length Hf). reflexivity. }
  split; [ exact E | ].
  unfold compute_drywall_area_in_sector_m2. rewrite E. reflexivity.
Qed.

(** The theorem at two segments in either order. *)
Lemma wall_length_order_independent_witness :
  compute_wall_length_in_sector_m
    [wall_between 10 50 90 50 1; wall_between 10 50 11 50 1]
    square_sector (scale_with 10) true
  = compute_wall_length_in_sector_m
      [wall_between 10 50 11 50 1; wall_between 10 50 90 50 1]
      square_sector (scale_with 10) true.
Proof.
  apply (wall_length_order_independent
           [wall_between 10 50 90 50 1; wall_between 10 50 11 50 1]
           [wall_between 10 50 11 50 1; wall_between 10 50 90 50 1]
           square_sector (scale_with 10) 1 true).
  apply perm_swap.
Defined.

End WallLengthMoreFacts.

(** ** Line segments and their reverse *)

Section SegmentFacts.
Import Py VectorMeasurement.

Lemma degrees_plus_PI (a : R) : degrees (a + PI) = degrees a + 180.
Proof. unfold degrees. field. apply PI_neq0. Qed.

Lemma degrees_minus_PI (a : R) : degrees (a - PI) = degrees a - 180.
Proof. unfold degrees. field. apply PI_neq0. Qed.

Lemma degrees_atan_range (q : R) :
  - 90 < degrees (atan q) < 90
  /\ (0 < q -> 0 < degrees (atan q))
  /\ (q < 0 -> degrees (atan q) < 0).
Proof.
  pose proof PI_RGT_0 as Hpi. pose proof (atan_bound q) as [Hlo Hhi].
  assert (E : degrees (atan q) * PI = atan q * 180)
    by (unfold degrees; field; lra).
  split; [ split | split ].
  - apply Rmult_lt_reg_r with PI; [ exact Hpi | ]. rewrite E. lra.
  - apply Rmult_lt_reg_r with PI; [ exact Hpi | ]. rewrite E. lra.
  - intros Hq. pose proof (atan_pos q Hq).
    apply Rmult_lt_reg_r with PI; [ exact Hpi | ]. rewrite E. lra.
  - intros Hq. pose proof (atan_neg q Hq).
    apply Rmult_lt_reg_r with PI; [ exact Hpi | ]. rewrite E. lra.
Qed.

Lemma opp_div_opp (a b : R) : b <> 0 -> - a / - b = a / b.
Proof. intros Hb. field. exact Hb. Qed.

Lemma div_pos_sign (y x : R) : 0 < x ->
  (0 < y -> 0 < y / x) /\ (y < 0 -> y / x < 0).
Proof.
  intros Hx. assert (Hinv : 0 < / x) by (apply Rinv_0_lt_compat; exact Hx).
  unfold Rdiv. split; intros Hy; nra.
Qed.

(** The normalised angle of a direction and of its opposite agree, unless
    the direction is horizontal. *)
Lemma normalised_angle_opp (dy dx : R) :
  dy <> 0 ->
  (if Rltb (degrees (atan2 (- dy) (- dx))) 0
   then degrees (atan2 (- dy) (- dx)) + 180
   else degrees (atan2 (- dy) (- dx)))
  = (if Rltb (degrees (atan2 dy dx)) 0
     then degrees (atan2 dy dx) + 180
     else degrees (atan2 dy dx)).
Proof.
  intros Hdy. pose proof PI_RGT_0 as Hpi.
  assert (H90 : degrees (PI / 2) = 90) by (unfold degrees; field; lra).
  assert (H90' : degrees (- (PI / 2)) = - 90) by (unfold degrees; field; lra).
  destruct (Rtotal_order dx 0) as [Hx | [Hx | Hx]].
  - (* dx < 0 *)
    destruct (div_neg_sign dy dx Hx) as (_ & Hq1 & Hq2).
    destruct (degrees_atan_range (dy / dx)) as (Hr & Hp & Hn).
    unfold atan2. Rb_true 0 (- dx). Rb_false 0 dx. Rb_true dx 0.
    rewrite opp_div_opp by lra.
    destruct (Rtotal_order dy 0) as [Hy | [Hy | Hy]]; [ | lra | ].
    + Rle_false 0 dy. rewrite degrees_minus_PI.
      specialize (Hp (Hq1 Hy)).
      Rb_false (degrees (atan (dy / dx))) 0.
      Rb_true (degrees (atan (dy / dx)) - 180) 0. lra.
    + Rle_true 0 dy. rewrite degrees_plus_PI.
      specialize (Hn (Hq2 Hy)).
      Rb_true (degrees (atan (dy / dx))) 0.
      Rb_false (degrees (atan (dy / dx)) + 180) 0. reflexivity.
  - (* dx = 0 *)
    subst dx. unfold atan2. replace (- 0) with 0 by ring.
    Rb_false 0 0.
    destruct (Rtotal_order dy 0) as [Hy | [Hy | Hy]]; [ | lra | ].
    + Rb_true 0 (- dy). Rb_false 0 dy. Rb_true dy 0.
      rewrite H90, H90'. Rb_false 90 0. Rb_true (- 90) 0. lra.
    + Rb_false 0 (- dy). Rb_true (- dy) 0. Rb_true 0 dy.
      rewrite H90, H90'. Rb_false 90 0. Rb_true (- 90) 0. lra.
  - (* dx > 0 *)
    destruct (div_pos_sign dy dx Hx) as (Hq1 & Hq2).
    destruct (degrees_atan_range (dy / dx)) as (Hr & Hp & Hn).
    unfold atan2. Rb_false 0 (- dx). Rb_true (- dx) 0. Rb_true 0 dx.
    rewrite opp_div_opp by lra.
    destruct (Rtotal_order dy 0) as [Hy | [Hy | Hy]]; [ | lra | ].
    + Rle_true 0 (- dy). rewrite degrees_plus_PI.
      specialize (Hn (Hq2 Hy)).
      Rb_true (degrees (atan (dy / dx))) 0.
      Rb_false (degrees (atan (dy / dx)) + 180) 0. reflexivity.
    + Rle_false 0 (- dy). rewrite degrees_minus_PI.
      specialize (Hp (Hq1 Hy)).
      Rb_false (degrees (atan (dy / dx))) 0.
      Rb_true (degrees (atan (dy / dx)) - 180) 0. lra.
Qed.

Lemma sum_squares_zero (a b : R) : a * a + b * b = 0 -> a = 0 /\ b = 0.
Proof. intros H. split; nra. Qed.

(** X13: a segment and the same segment drawn from its other end have the
    same length and the same midpoint, and, unless the segment is
    horizontal, the same angle; the length is never negative and is zero
    exactly when the two endpoints coincide. *)
Theorem segment_and_its_reverse :
  forall s : LineSegment,
    length_px (reversed s) = length_px s
    /\ midpoint (reversed s) = midpoint s
    /\ (y1 s <> y2 s -> angle_degrees (reversed s) = angle_degrees s)
    /\ 0 <= length_px s
    /\ (length_px s = 0 <-> (x1 s = x2 s /\ y1 s = y2 s)).
Proof.
  intros s. split; [ | split; [ | split; [ | split ] ] ].
  - unfold length_px, reversed. simpl. f_equal. ring.
  - unfold midpoint, reversed. simpl. f_equal; lra.
  - intros Hy. unfold angle_degrees, reversed. simpl.
    replace (y1 s - y2 s) with (- (y2 s - y1 s)) by ring.
    replace (x1 s - x2 s) with (- (x2 s - x1 s)) by ring.
    apply normalised_angle_opp. lra.
  - unfold length_px. apply sqrt_pos.
  - unfold length_px.
    assert (E : (x2 s - x1 s) ^ 2 + (y2 s - y1 s) ^ 2
                = (x2 s - x1 s) * (x2 s - x1 s)
                  + (y2 s - y1 s) * (y2 s - y1 s)) by ring.
    rewrite E. split.
    + intros H. apply sqrt_eq_0 in H.
      * apply sum_squares_zero in H. lra.
      * pose proof (Rle_0_sqr (x2 s - x1 s)).
        pose proof (Rle_0_sqr (y2 s - y1 s)). unfold Rsqr in *. lra.
    + intros [Hx Hy]. rewrite Hx, Hy.
      replace ((x2 s - x2 s) * (x2 s - x2 s)
               + (y2 s - y2 s) * (y2 s - y2 s)) with 0 by ring.
      apply sqrt_0.
Qed.

(** The theorem at the segment from (0,0) to (3,4). *)
Lemma segment_and_its_reverse_witness :
  angle_degrees (reversed (mkLineSegment 0 0 3 4 1))
  = angle_degrees (mkLineSegment 0 0 3 4 1).
Proof.
  apply (proj1 (proj2 (proj2 (segment_and_its_reverse
                                (mkLineSegment 0 0 3 4 1))))).
  simpl. lra.
Defined.

End SegmentFacts.

(** ** Bounding boxes and their IoU *)

Section BoxFacts.
Import Py CvPipeline.

(** X14: for boxes with sides that are not negative, the IoU lies between
    0 and 1, does not depend on the order of the two boxes, is 1 for a box
    of positive area and itself, and is 0 for boxes that [overlaps] tells
    apart; every box contains its own centre, and [overlaps] is
    symmetric. *)
Theorem iou_and_overlaps :
  forall b1 b2 : BoundingBox,
    well_formed_box b1 -> well_formed_box b2 ->
    0 <= _compute_iou b1 b2 <= 1
    /\ _compute_iou b1 b2 = _compute_iou b2 b1
    /\ (0 < width b1 -> 0 < height b1 -> _compute_iou b1 b1 = 1)
    /\ (overlaps b1 b2 = false -> _compute_iou b1 b2 = 0)
    /\ overlaps b1 b2 = overlaps b2 b1
    /\ contains_point b1 (fst (center b1)) (snd (center b1)) = true.
Proof.
  intros b1 b2 [Hw1 Hh1] [Hw2 Hh2].
  split; [ | split; [ | split; [ | split; [ | split ] ] ] ].
  - unfold _compute_iou, area.
    set (xl := Rmax (x b1) (x b2)). set (yl := Rmax (y b1) (y b2)).
    set (xr := Rmin (x b1 + width b1) (x b2 + width b2)).
    set (yr := Rmin (y b1 + height b1) (y b2 + height b2)).
    case_Rleb xr xl; [ simpl; lra | ].
    case_Rleb yr yl; [ simpl; lra | ]. simpl.
    case_Rltb 0 (width b1 * height b1 + width b2 * height b2
                 - (xr - xl) * (yr - yl)); [ | lra ].
    assert (Hx1 : xr - xl <= width b1).
    { pose proof (Rmax_l (x b1) (x b2)).
      pose proof (Rmin_l (x b1 + width b1) (x b2 + width b2)).
      unfold xr, xl. lra. }
    assert (Hy1 : yr - yl <= height b1).
    { pose proof (Rmax_l (y b1) (y b2)).
      pose proof (Rmin_l (y b1 + height b1) (y b2 + height b2)).
      unfold yr, yl. lra. }
    assert (Hx2 : xr - xl <= width b2).
    { pose proof (Rmax_r (x b1) (x b2)).
      pose proof (Rmin_r (x b1 + width b1) (x b2 + width b2)).
      unfold xr, xl. lra. }
    assert (Hy2 : yr - yl <= height b2).
    { pose proof (Rmax_r (y b1) (y b2)).
      pose proof (Rmin_r (y b1 + height b1) (y b2 + height b2)).
      unfold yr, yl. lra. }
    assert (Hi : 0 < (xr - xl) * (yr - yl)) by nra.
    assert (Hi1 : (xr - xl) * (yr - yl) <= width b1 * height b1) by nra.
    assert (Hi2 : (xr - xl) * (yr - yl) <= width b2 * height b2) by nra.
    split.
    + left. apply Rdiv_lt_0_compat; lra.
    + apply Rmult_le_reg_r
        with (width b1 * height b1 + width b2 * height b2
              - (xr - xl) * (yr - yl)); [ lra | ].
      unfold Rdiv. rewrite Rmult_assoc, Rinv_l by lra. lra.
  - apply _compute_iou_sym.
  - intros Hw Hh. unfold _compute_iou, area.
    rewrite (Rmax_left (x b1) (x b1)) by lra.
    rewrite (Rmax_left (y b1) (y b1)) by lra.
    rewrite (Rmin_left (x b1 + width b1) (x b1 + width b1)) by lra.
    rewrite (Rmin_left (y b1 + height b1) (y b1 + height b1)) by lra.
    Rle_false (x b1 + width b1) (x b1). Rle_false (y b1 + height b1) (y b1).
    simpl.
    replace ((x b1 + width b1 - x b1) * (y b1 + height b1 - y b1))
      with (width b1 * height b1) by ring.
    assert (0 < width b1 * height b1) by nra.
    Rb_true 0 (width b1 * height b1 + width b1 * height b1
               - width b1 * height b1).
    field. nra.
  - unfold overlaps, _compute_iou. intros Ho.
    apply negb_false_iff in Ho.
    set (xl := Rmax (x b1) (x b2)). set (yl := Rmax (y b1) (y b2)).
    set (xr := Rmin (x b1 + width b1) (x b2 + width b2)).
    set (yr := Rmin (y b1 + height b1) (y b2 + height b2)).
    assert (Hsep : xr <= xl \/ yr <= yl).
    { pose proof (Rmax_l (x b1) (x b2)). pose proof (Rmax_r (x b1) (x b2)).
      pose proof (Rmax_l (y b1) (y b2)). pose proof (Rmax_r (y b1) (y b2)).
      pose proof (Rmin_l (x b1 + width b1) (x b2 + width b2)).
      pose proof (Rmin_r (x b1 + width b1) (x b2 + width b2)).
      pose proof (Rmin_l (y b1 + height b1) (y b2 + height b2)).
      pose proof (Rmin_r (y b1 + height b1) (y b2 + height b2)).
      fold xl in H, H0. fold yl in H1, H2. fold xr in H3, H4.
      fold yr in H5, H6.
      apply orb_true_iff in Ho. destruct Ho as [Ho | Ho].
      - apply orb_true_iff in Ho. destruct Ho as [Ho | Ho].
        + apply orb_true_iff in Ho. destruct Ho as [Ho | Ho];
            apply Rltb_true_iff in Ho; left; lra.
        + apply Rltb_true_iff in Ho. right. lra.
      - apply Rltb_true_iff in Ho. right. lra. }
    destruct Hsep as [Hs | Hs].
    + Rle_true xr xl. reflexivity.
    + Rle_true yr yl. rewrite orb_true_r. reflexivity.
  - unfold overlaps. f_equal.
    destruct (Rltb (x b1 + width b1) (x b2)),
      (Rltb (x b2 + width b2) (x b1)),
      (Rltb (y b1 + height b1) (y b2)),
      (Rltb (y b2 + height b2) (y b1)); reflexivity.
  - unfold contains_point, center. simpl.
    Rle_true (x b1) (x b1 + width b1 / 2).
    Rle_true (x b1 + width b1 / 2) (x b1 + width b1).
    Rle_true (y b1) (y b1 + height b1 / 2).
    Rle_true (y b1 + height b1 / 2) (y b1 + height b1).
    reflexivity.
Qed.

(** The theorem at the two boxes that overlap by 9/11. *)
Lemma iou_and_overlaps_witness :
  0 <= _compute_iou (bbox (candidate 0 0 10 10 0.9))
                    (bbox (candidate 1 0 10 10 0.8)) <= 1.
Proof.
  apply (iou_and_overlaps (bbox (candidate 0 0 10 10 0.9))
                          (bbox (candidate 1 0 10 10 0.8)));
    unfold well_formed_box; simpl; lra.
Defined.

End BoxFacts.

(** ** Non-maximum suppression: what the result looks like *)

Section SuppressionFacts.
Import Py CvPipeline.

Lemma StronglySorted_lt_NoDup (K : list nat) :
  StronglySorted lt K -> NoDup K.
Proof.
  induction 1 as [ | a l Hs IH Ha ]; constructor; [ | exact IH ].
  intros Hin. rewrite Forall_forall in Ha. specialize (Ha _ Hin). lia.
Qed.

Lemma StronglySorted_lt_length (K : list nat) (n : nat) :
  StronglySorted lt K -> Forall (fun i => (i < n)%nat) K ->
  (List.length K <= n)%nat.
Proof.
  intros Hs Hb. rewrite <- (length_seq n 0).
  apply NoDup_incl_length; [ apply StronglySorted_lt_NoDup, Hs | ].
  intros i Hi. rewrite Forall_forall in Hb. apply in_seq.
  specialize (Hb _ Hi). lia.
Qed.

Lemma StronglySorted_lt_head (K : list nat) :
  StronglySorted lt K -> In 0%nat K -> exists K', K = 0%nat :: K'.
Proof.
  intros Hs Hin. destruct K as [ | a l ]; [ contradiction | ].
  apply StronglySorted_inv in Hs. destruct Hs as [_ Ha].
  destruct Hin as [-> | Hin]; [ now exists l | ].
  rewrite Forall_forall in Ha. specialize (Ha _ Hin). lia.
Qed.

(** A relation between the elements at increasing positions holds between
    the elements of the list read off at those positions. *)
Lemma positions_ordered_pairs {A : Type} (f : nat -> A) (Q : A -> A -> Prop)
    (K : list nat) :
  StronglySorted lt K ->
  (forall i j, In i K -> In j K -> (i < j)%nat -> Q (f i) (f j)) ->
  ForallOrdPairs Q (map f K).
Proof.
  induction 1 as [ | a l Hs IH Ha ]; intros HQ; simpl.
  - constructor.
  - constructor.
    + rewrite Forall_forall. intros b Hb. apply in_map_iff in Hb.
      destruct Hb as (j & <- & Hj). rewrite Forall_forall in Ha.
      apply HQ; [ left; reflexivity | right; exact Hj | apply Ha, Hj ].
    + apply IH. intros i j Hi Hj Hij. apply HQ; [ right | right | ];
        assumption.
Qed.

Lemma ordered_pairs_nth {A : Type} (Q : A -> A -> Prop) (d : A)
    (l : list A) :
  ForallOrdPairs Q l ->
  forall i j, (i < j < List.length l)%nat -> Q (nth i l d) (nth j l d).
Proof.
  induction 1 as [ | a l Ha Hl IH ]; intros i j Hij.
  - simpl in Hij. lia.
  - destruct j as [ | j ]; [ lia | ]. simpl in Hij.
    destruct i as [ | i ]; simpl.
    + rewrite Forall_forall in Ha. apply Ha, nth_In. lia.
    + apply IH. lia.
Qed.

Lemma ordered_pairs_perm {A : Type} (Q : A -> A -> Prop) (l l' : list A) :
  (forall a b, Q a b -> Q b a) ->
  Permutation l l' -> ForallOrdPairs Q l -> ForallOrdPairs Q l'.
Proof.
  intros Hsym. induction 1 as [ | a l l' Hp IH | a b l | l l' l'' _ IH1 _ IH2 ];
    intros H.
  - exact H.
  - inversion H as [ | ? ? Ha Hl ]; subst. constructor.
    + apply (Permutation_Forall Hp). exact Ha.
    + apply IH, Hl.
  - inversion H as [ | ? ? Hb Hl ]; subst.
    inversion Hl as [ | ? ? Ha Hl' ]; subst.
    inversion Hb as [ | ? ? Hba Hb' ]; subst.
    constructor; [ constructor; [ apply Hsym, Hba | exact Ha ] | ].
    constructor; assumption.
  - apply IH2, IH1, H.
Qed.

Lemma ordered_pairs_impl {A : Type} (Q Q' : A -> A -> Prop) (l : list A) :
  (forall a b, Q a b -> Q' a b) ->
  ForallOrdPairs Q l -> ForallOrdPairs Q' l.
Proof.
  intros HQ. induction 1 as [ | a l Ha Hl IH ]; constructor.
  - eapply Forall_impl; [ | exact Ha ]. exact (HQ a).
  - exact IH.
Qed.

(** Sorting a list that is already in descending order changes nothing. *)
Lemma sorted_reverse_of_descending {A : Type} (key : A -> R) (l : list A) :
  ForallOrdPairs (fun a b => key b <= key a) l -> sorted_reverse key l = l.
Proof.
  unfold sorted_reverse. induction 1 as [ | a l Ha Hl IH ]; simpl.
  - reflexivity.
  - rewrite IH. destruct l as [ | b l' ]; [ reflexivity | ]. simpl.
    apply Forall_inv in Ha. Rb_false (key a) (key b). reflexivity.
Qed.

(** The inner loop suppresses nothing when nothing overlaps [obj]. *)
Lemma suppress_loop_nothing (s : list DetectedObject) (obj : DetectedObject)
    (thr : R) (js : list nat) :
  (forall j, In j js ->
     _compute_iou (bbox obj) (bbox (nth j s no_object)) <= thr) ->
  fold_left (suppress_body s obj thr) js [] = [].
Proof.
  induction js as [ | j js IH ]; intros H; simpl.
  - reflexivity.
  - unfold suppress_body at 2. simpl existsb. cbv iota.
    pose proof (H j (or_introl eq_refl)) as Hj.
    Rb_false thr (_compute_iou (bbox obj) (bbox (nth j s no_object))).
    apply IH. intros j' Hj'. apply H. right. exact Hj'.
Qed.

(** The outer loop keeps every object of a list in which no object
    overlaps a later one beyond the threshold. *)
Lemma merge_loop_keeps_all (s : list DetectedObject) (thr : R) :
  (forall i j, (i < j < List.length s)%nat ->
     _compute_iou (bbox (nth i s no_object)) (bbox (nth j s no_object))
     <= thr) ->
  forall (t : list DetectedObject) (k : nat) (K0 : list DetectedObject),
    (forall p, (p < List.length t)%nat ->
               nth p t no_object = nth (k + p) s no_object) ->
    (k + List.length t = List.length s)%nat ->
    fst (fold_left (merge_body s thr)
           (combine (seq k (List.length t)) t) (K0, [])) = K0 ++ t.
Proof.
  intros Hfar. induction t as [ | a t IH ]; intros k K0 Ht Hn.
  - simpl. now rewrite app_nil_r.
  - assert (Ha : a = nth k s no_object).
    { specialize (Ht 0%nat). simpl in Ht. rewrite Nat.add_0_r in Ht.
      apply Ht. lia. }
    simpl combine. simpl fold_left.
    rewrite suppress_loop_nothing.
    + rewrite (IH (S k) (K0 ++ [a])).
      * rewrite <- app_assoc. reflexivity.
      * intros p Hp. specialize (Ht (S p)). simpl in Ht.
        rewrite Ht by lia. f_equal. lia.
      * simpl in Hn. lia.
    + intros j Hj. apply in_seq in Hj. rewrite Ha. apply Hfar.
      simpl in Hn. lia.
Qed.

Lemma merge_of_separated (l : list DetectedObject) (thr : R) :
  ForallOrdPairs
    (fun a b => confidence b <= confidence a
                /\ _compute_iou (bbox a) (bbox b) <= thr) l ->
  _merge_overlapping_detections l thr = l.
Proof.
  intros H. unfold _merge_overlapping_detections.
  destruct (List.length l <=? 1)%nat; [ reflexivity | ].
  cbv zeta. rewrite sorted_reverse_of_descending.
  - apply (merge_loop_keeps_all l thr) with (k := 0%nat) (K0 := []).
    + intros i j Hij.
      apply (ordered_pairs_nth _ no_object l H i j Hij).
    + intros p _. reflexivity.
    + reflexivity.
  - eapply ordered_pairs_impl; [ | exact H ]. simpl. tauto.
Qed.

(** What holds of the kept objects. *)
Lemma merge_result_pairs (objects : list DetectedObject) (thr : R) :
  ForallOrdPairs
    (fun a b => confidence b <= confidence a
                /\ _compute_iou (bbox a) (bbox b) <= thr)
    (_merge_overlapping_detections objects thr).
Proof.
  rewrite merge_as_positions.
  set (s := sorted_reverse confidence objects).
  destruct (kept_positions_char s thr) as (Hs & Hb & Hc).
  apply positions_ordered_pairs; [ exact Hs | ].
  intros i j Hi Hj Hij. rewrite Forall_forall in Hb.
  pose proof (Hb _ Hj) as Hjn. split.
  - apply (desc_sorted_nth s); [ apply sorted_reverse_sorted | lia ].
  - apply Rnot_lt_le. intros Hov.
    apply (proj1 (Hc j Hjn) Hj). exists i. split; [ exact Hi | ].
    split; [ exact Hij | exact Hov ].
Qed.

(** X15: whatever the candidates and the threshold, the result of the
    suppression lists input candidates only and never more of them than
    it was given; it is in descending order of confidence and no kept
    candidate overlaps a later kept one beyond the threshold; and for a
    non-empty input it starts with a candidate of highest confidence. *)
Theorem merge_result_invariants :
  forall (objects : list DetectedObject) (thr : R),
    (forall o, In o (_merge_overlapping_detections objects thr) ->
               In o objects)
    /\ (List.length (_merge_overlapping_detections objects thr)
        <= List.length objects)%nat
    /\ ForallOrdPairs
         (fun a b => confidence b <= confidence a
                     /\ _compute_iou (bbox a) (bbox b) <= thr)
         (_merge_overlapping_detections objects thr)
    /\ (objects <> [] ->
        exists top rest,
          _merge_overlapping_detections objects thr = top :: rest
          /\ forall o, In o objects -> confidence o <= confidence top).
Proof.
  intros objects thr.
  pose proof (merge_result_pairs objects thr) as Hpairs.
  rewrite merge_as_positions in *.
  set (s := sorted_reverse confidence objects) in *.
  assert (Hperm : Permutation s objects) by apply sorted_reverse_perm.
  destruct (kept_positions_char s thr) as (Hs & Hb & Hc).
  split; [ | split; [ | split ] ].
  - intros o Ho. apply in_map_iff in Ho. destruct Ho as (i & <- & Hi).
    rewrite Forall_forall in Hb. apply (Permutation_in _ Hperm).
    apply nth_In. apply Hb, Hi.
  - rewrite length_map, <- (Permutation_length Hperm).
    apply StronglySorted_lt_length; assumption.
  - exact Hpairs.
  - intros Hne.
    assert (Hlen : (0 < List.length s)%nat).
    { rewrite (Permutation_length Hperm).
      destruct objects; [ congruence | simpl; lia ]. }
    assert (H0 : In 0%nat (kept_positions s thr)).
    { apply (Hc 0%nat Hlen). intros (i & _ & Hi & _). lia. }
    destruct (StronglySorted_lt_head _ Hs H0) as [K' EK].
    exists (nth 0 s no_object),
           (map (fun i => nth i s no_object) K').
    split; [ rewrite EK; reflexivity | ].
    intros o Ho. apply (Permutation_in _ (Permutation_sym Hperm)) in Ho.
    destruct (In_nth _ _ no_object Ho) as (j & Hj & <-).
    destruct j as [ | j ]; [ lra | ].
    apply (desc_sorted_nth s); [ apply sorted_reverse_sorted | lia ].
Qed.

(** The theorem at three candidates, the first two overlapping. *)
Lemma merge_result_invariants_witness :
  exists top rest,
    _merge_overlapping_detections
      [candidate 1 0 10 10 0.8; candidate 0 0 10 10 0.9;
       candidate 50 50 10 10 0.7] iou_threshold_default = top :: rest
    /\ forall o,
         In o [candidate 1 0 10 10 0.8; candidate 0 0 10 10 0.9;
               candidate 50 50 10 10 0.7] ->
         confidence o <= confidence top.
Proof.
  apply (proj2 (proj2 (proj2 (merge_result_invariants
    [candidate 1 0 10 10 0.8; candidate 0 0 10 10 0.9;
     candidate 50 50 10 10 0.7] iou_threshold_default)))).
  discriminate.
Defined.

(** X16: suppressing twice is suppressing once. *)
Theorem merge_idempotent :
  forall (objects : list DetectedObject) (thr : R),
    _merge_overlapping_detections
      (_merge_overlapping_detections objects thr) thr
    = _merge_overlapping_detections objects thr.
Proof.
  intros objects thr. apply merge_of_separated, merge_result_pairs.
Qed.

(** X17: when no two candidates have an IoU above the threshold, nothing
    is dropped: more than one candidate comes back sorted by descending
    confidence, candidates of equal confidence in their input order. *)
Theorem merge_drops_nothing_when_separated :
  forall (objects : list DetectedObject) (thr : R),
    ForallOrdPairs
      (fun a b => _compute_iou (bbox a) (bbox b) <= thr) objects ->
    Permutation (_merge_overlapping_detections objects thr) objects
    /\ ((2 <= List.length objects)%nat ->
        _merge_overlapping_detections objects thr
        = sorted_reverse confidence objects).
Proof.
  intros objects thr Hsep.
  assert (E : (2 <= List.length objects)%nat ->
              _merge_overlapping_detections objects thr
              = sorted_reverse confidence objects).
  { intros Hlen. unfold _merge_overlapping_detections.
    rewrite (proj2 (Nat.leb_gt _ _)) by lia. cbv zeta.
    apply (merge_loop_keeps_all (sorted_reverse confidence objects) thr)
      with (k := 0%nat) (K0 := []).
    - apply (ordered_pairs_nth
               (fun a b => _compute_iou (bbox a) (bbox b) <= thr) no_object).
      apply ordered_pairs_perm with (l := objects).
      + intros a b Hab. rewrite _compute_iou_sym. exact Hab.
      + apply Permutation_sym, sorted_reverse_perm.
      + exact Hsep.
    - intros p _. reflexivity.
    - reflexivity. }
  split; [ | exact E ].
  destruct (Nat.lt_ge_cases (List.length objects) 2) as [Hlt | Hge].
  - unfold _merge_overlapping_detections.
    rewrite (proj2 (Nat.leb_le _ _)) by lia. apply Permutation_refl.
  - rewrite (E Hge). apply sorted_reverse_perm.
Qed.

(** The theorem at two boxes far apart, the less confident one first. *)
Lemma merge_drops_nothing_when_separated_witness :
  Permutation
    (_merge_overlapping_detections
       [candidate 0 0 10 10 0.8; candidate 50 50 10 10 0.9] 0.5)
    [candidate 0 0 10 10 0.8; candidate 50 50 10 10 0.9].
Proof.
  apply (merge_drops_nothing_when_separated
           [candidate 0 0 10 10 0.8; candidate 50 50 10 10 0.9] 0.5).
  constructor; [ | constructor; [ constructor | constructor ] ].
  constructor; [ | constructor ].
  unfold _compute_iou, candidate. simpl.
  rewrite (Rmax_right 0 50) by lra.
  rewrite (Rmin_left (0 + 10) (50 + 10)) by lra.
  Rle_true (0 + 10) 50. simpl. lra.
Defined.

End SuppressionFacts.

(** ** Width validation of wall openings *)

Section ValidationFacts.
Import Py WallOpeningDetector.

Lemma Rmin_lt_iff (a b c : R) : Rmin a b < c <-> a < c \/ b < c.
Proof. unfold Rmin. destruct (Rle_dec a b); lra. Qed.

Lemma fold_left_Rmin_lt (l : list R) (a c : R) :
  fold_left Rmin l a < c <-> a < c \/ exists x, In x l /\ x < c.
Proof.
  revert a. induction l as [ | x l IH ]; intros a; simpl.
  - split; [ tauto | intros [H | (x & [] & _)]; exact H ].
  - rewrite IH, Rmin_lt_iff. split.
    + intros [[H | H] | (z & Hz & Hlt)].
      * left. exact H.
      * right. exists x. tauto.
      * right. exists z. tauto.
    + intros [H | (z & [-> | Hz] & Hlt)].
      * tauto.
      * tauto.
      * right. exists z. tauto.
Qed.

(** The smallest deviation is below [c] exactly when some standard width
    is closer than [c]. *)
Lemma min_deviation_lt (w0 : R) (Wr : list R) (w c : R) :
  fold_left Rmin (map (fun std => Rabs (w - std)) Wr) (Rabs (w - w0)) < c
  <-> exists std, In std (w0 :: Wr) /\ Rabs (w - std) < c.
Proof.
  rewrite fold_left_Rmin_lt. split.
  - intros [H | (x & Hx & Hlt)].
    + exists w0. split; [ left; reflexivity | exact H ].
    + apply in_map_iff in Hx. destruct Hx as (std & <- & Hstd).
      exists std. split; [ right; exact Hstd | exact Hlt ].
  - intros (std & [<- | Hstd] & Hlt).
    + left. exact Hlt.
    + right. exists (Rabs (w - std)). split; [ | exact Hlt ].
      apply in_map_iff. exists std. tauto.
Qed.

Lemma not_exists_closer (W : list R) (w c : R) :
  ~ (exists std, In std W /\ Rabs (w - std) < c) ->
  forall std, In std W -> c <= Rabs (w - std).
Proof.
  intros H std Hstd. apply Rnot_lt_le. intros Hlt. apply H.
  exists std. tauto.
Qed.

(** One turn of the loop, for a scale that is not zero. *)
Lemma validate_body_step (ppm minw maxw w0 : R) (Wr : list R)
    (v : list WallOpening) (o : WallOpening) :
  ppm <> 0 ->
  (~ minw <= width_px o / ppm <= maxw
   /\ validate_body ppm minw maxw (w0 :: Wr) (Ok v) o = Ok v)
  \/ (exists d,
        door_of (w0 :: Wr) ppm minw maxw o d
        /\ validate_body ppm minw maxw (w0 :: Wr) (Ok v) o = Ok (v ++ [d])).
Proof.
  intros Hppm. unfold validate_body. cbn [bind]. unfold div.
  replace (Reqb ppm 0) with false
    by (symmetry; apply Reqb_false_iff; exact Hppm).
  cbn [bind]. set (w := width_px o / ppm).
  case_Rleb minw w; [ | left; split; [ lra | reflexivity ] ].
  case_Rleb w maxw; [ | left; split; [ lra | reflexivity ] ].
  right. cbn [andb py_min map bind].
  set (md := fold_left Rmin (map (fun std => Rabs (w - std)) Wr)
               (Rabs (w - w0))).
  pose proof (min_deviation_lt w0 Wr w 0.05) as H5.
  pose proof (min_deviation_lt w0 Wr w 0.10) as H10.
  fold md in H5, H10.
  case_Rltb md 0.05.
  - eexists. split; [ | reflexivity ].
    unfold door_of. cbn [opening_id page_number center_x center_y width_px
                         is_door width_m confidence].
    fold w. repeat (split; [ first [ reflexivity | lra ] | ]).
    left. split; [ reflexivity | apply H5; exact Hcmp1 ].
  - case_Rltb md 0.10.
    + eexists. split; [ | reflexivity ].
      unfold door_of. cbn [opening_id page_number center_x center_y width_px
                           is_door width_m confidence].
      fold w. repeat (split; [ first [ reflexivity | lra ] | ]).
      right. left. split; [ reflexivity | ]. split.
      * apply not_exists_closer. intros H. apply H5 in H. lra.
      * apply H10. exact Hcmp2.
    + eexists. split; [ | reflexivity ].
      unfold door_of. cbn [opening_id page_number center_x center_y width_px
                           is_door width_m confidence].
      fold w. repeat (split; [ first [ reflexivity | lra ] | ]).
      right. right. split; [ reflexivity | ].
      apply not_exists_closer. intros H. apply H10 in H. lra.
Qed.

Lemma validate_loop_raised (ppm minw maxw : R) (W : list R) (e : exn)
    (l : list WallOpening) :
  fold_left (validate_body ppm minw maxw W) l (Raise e) = Raise e.
Proof. induction l as [ | o l IH ]; simpl; [ reflexivity | exact IH ]. Qed.

(** The loop, for a scale that is not zero and at least one standard
    width. *)
Lemma validate_loop (ppm minw maxw w0 : R) (Wr : list R) :
  ppm <> 0 ->
  forall (l : list WallOpening) (v0 : list WallOpening),
    exists v,
      fold_left (validate_body ppm minw maxw (w0 :: Wr)) l (Ok v0)
      = Ok (v0 ++ v)
      /\ (List.length v <= List.length l)%nat
      /\ Forall (fun d => exists o,
                   In o l /\ door_of (w0 :: Wr) ppm minw maxw o d) v
      /\ (forall o, In o l -> minw <= width_px o / ppm <= maxw ->
            exists d, In d v /\ door_of (w0 :: Wr) ppm minw maxw o d).
Proof.
  intros Hppm. induction l as [ | o l IH ]; intros v0.
  - exists []. simpl. rewrite app_nil_r.
    split; [ reflexivity | ]. split; [ lia | ].
    split; [ constructor | intros o [] ].
  - cbn [fold_left].
    destruct (validate_body_step ppm minw maxw w0 Wr v0 o Hppm)
      as [[Hout E] | (d & Hd & E)]; rewrite E.
    + destruct (IH v0) as (v & Ev & Hlen & Hall & Hin).
      exists v. split; [ exact Ev | ]. split; [ simpl; lia | ]. split.
      * eapply Forall_impl; [ | exact Hall ]. simpl.
        intros d (o' & Ho' & Hd). exists o'. tauto.
      * intros o' [<- | Ho'] Hr; [ contradiction | ]. apply Hin; assumption.
    + destruct (IH (v0 ++ [d])) as (v & Ev & Hlen & Hall & Hin).
      exists (d :: v). split; [ | split; [ simpl; lia | split ] ].
      * rewrite Ev, <- app_assoc. reflexivity.
      * constructor.
        -- exists o. split; [ left; reflexivity | exact Hd ].
        -- eapply Forall_impl; [ | exact Hall ]. simpl.
           intros d' (o' & Ho' & Hd'). exists o'. tauto.
      * intros o' [<- | Ho'] Hr.
        -- exists d. split; [ left; reflexivity | exact Hd ].
        -- destruct (Hin o' Ho' Hr) as (d' & Hd' & Hdo).
           exists d'. split; [ right; exact Hd' | exact Hdo ].
Qed.

(** X18: with the default standard widths, [validate_door_openings] raises
    [ZeroDivisionError] on a zero scale as soon as there is an opening;
    on any other scale it returns, and what it returns are the openings
    whose width in metres lies in the accepted range, each at its place,
    flagged as a door, with that width recorded and a confidence of 0.9,
    0.75 or 0.6 according to its distance from the nearest standard
    width; no opening in the range is left out. *)
Theorem validate_door_openings_invariants :
  forall (openings : list WallOpening) (ppm minw maxw : R),
    (ppm = 0 -> openings <> [] ->
     validate_door_openings openings ppm minw maxw None
     = Raise ZeroDivisionError)
    /\ (ppm <> 0 ->
        exists doors,
          validate_door_openings openings ppm minw maxw None = Ok doors
          /\ (List.length doors <= List.length openings)%nat
          /\ Forall (fun d => exists o,
                       In o openings
                       /\ door_of standard_widths_default ppm minw maxw o d)
                    doors
          /\ (forall o, In o openings ->
                minw <= width_px o / ppm <= maxw ->
                exists d,
                  In d doors
                  /\ door_of standard_widths_default ppm minw maxw o d)).
Proof.
  intros openings ppm minw maxw. split.
  - intros -> Hne. destruct openings as [ | o l ]; [ congruence | ].
    unfold validate_door_openings. cbn [fold_left].
    unfold validate_body at 2. cbn [bind]. unfold div.
    replace (Reqb 0 0) with true
      by (symmetry; apply Reqb_true_iff; reflexivity).
    cbn [bind]. apply validate_loop_raised.
  - intros Hppm. unfold validate_door_openings, standard_widths_default.
    destruct (validate_loop ppm minw maxw 0.625
                [0.755; 0.885; 1.01; 1.135; 1.26; 1.385; 1.51; 1.76; 2.01]
                Hppm openings [])
      as (v & Ev & Hlen & Hall & Hin).
    exists v. simpl app in Ev. auto.
Qed.

(** The theorem at one opening of 90 px on a plan of 100 px per metre. *)
Lemma validate_door_openings_invariants_witness :
  exists doors,
    validate_door_openings [opening_at 10 20] 100 0.6 2.2 None = Ok doors
    /\ (List.length doors <= List.length [opening_at 10 20])%nat
    /\ Forall (fun d => exists o,
                 In o [opening_at 10 20]
                 /\ door_of standard_widths_default 100 0.6 2.2 o d) doors
    /\ (forall o, In o [opening_at 10 20] ->
          0.6 <= width_px o / 100 <= 2.2 ->
          exists d,
            In d doors /\ door_of standard_widths_default 100 0.6 2.2 o d).
Proof.
  apply (proj2 (validate_door_openings_invariants
                  [opening_at 10 20] 100 0.6 2.2)).
  lra.
Defined.

End ValidationFacts.

(** ** Deduplication of wall openings *)

Section DeduplicationFacts.
Import Py WallOpeningDetector.

Lemma centre_distance_sym (a b : WallOpening) :
  centre_distance a b = centre_distance b a.
Proof. unfold centre_distance. f_equal. ring. Qed.

Lemma is_duplicate_loop_false (o : WallOpening) (kept : list WallOpening)
    (thr : R) :
  is_duplicate_loop o kept thr = false
  <-> Forall (fun k => thr <= centre_distance o k) kept.
Proof.
  induction kept as [ | k kept IH ].
  - simpl. split; [ constructor | reflexivity ].
  - change (is_duplicate_loop o (k :: kept) thr)
      with (if Rltb (centre_distance o k) thr then true
            else is_duplicate_loop o kept thr).
    case_Rltb (centre_distance o k) thr.
    + split; [ intros H; discriminate H | ]. intros H.
      apply Forall_inv in H. lra.
    + rewrite IH. split.
      * intros H. constructor; assumption.
      * intros H. apply Forall_inv_tail in H. exact H.
Qed.

Lemma is_duplicate_loop_true (o : WallOpening) (kept : list WallOpening)
    (thr : R) :
  is_duplicate_loop o kept thr = true ->
  exists k, In k kept /\ centre_distance o k < thr.
Proof.
  induction kept as [ | k kept IH ].
  - simpl. intros H; discriminate H.
  - change (is_duplicate_loop o (k :: kept) thr)
      with (if Rltb (centre_distance o k) thr then true
            else is_duplicate_loop o kept thr).
    case_Rltb (centre_distance o k) thr.
    + intros _. exists k. split; [ left; reflexivity | exact Hcmp ].
    + intros H. destruct (IH H) as (k' & Hk' & Hlt). exists k'.
      split; [ right; exact Hk' | exact Hlt ].
Qed.

Lemma existsb_string_In (id : string) (used : list string) :
  existsb (String.eqb id) used = true <-> In id used.
Proof.
  rewrite existsb_exists. split.
  - intros (x & Hx & E). apply String.eqb_eq in E. now subst.
  - intros H. exists id. split; [ exact H | apply String.eqb_refl ].
Qed.

Lemma ordered_pairs_snoc {A : Type} (Q : A -> A -> Prop) (l : list A)
    (o : A) :
  ForallOrdPairs Q l -> Forall (fun k => Q k o) l ->
  ForallOrdPairs Q (l ++ [o]).
Proof.
  induction 1 as [ | a l Ha Hl IH ]; intros Ho; simpl.
  - constructor; constructor.
  - constructor.
    + apply Forall_app. split; [ exact Ha | ].
      constructor; [ apply (Forall_inv Ho) | constructor ].
    + apply IH. apply (Forall_inv_tail Ho).
Qed.

Lemma NoDup_snoc {A : Type} (l : list A) (a : A) :
  NoDup l -> ~ In a l -> NoDup (l ++ [a]).
Proof.
  intros Hl Ha. apply (Permutation_NoDup (Permutation_cons_append l a)).
  constructor; assumption.
Qed.

(** The loop of [deduplicate_openings] from any state it can be in. *)
Lemma deduplicate_loop (thr : R) :
  forall (t kept : list WallOpening) (used : list string),
    desc_sorted confidence t ->
    (forall k o, In k kept -> In o t -> confidence o <= confidence k) ->
    ForallOrdPairs
      (fun a b => thr <= centre_distance a b
                  /\ confidence b <= confidence a) kept ->
    (forall id, In id used <-> exists k, In k kept /\ opening_id k = id) ->
    NoDup (map opening_id kept) ->
    exists more,
      fst (fold_left (deduplicate_body thr) t (kept, used)) = kept ++ more
      /\ incl more t
      /\ (List.length more <= List.length t)%nat
      /\ ForallOrdPairs
           (fun a b => thr <= centre_distance a b
                       /\ confidence b <= confidence a) (kept ++ more)
      /\ NoDup (map opening_id (kept ++ more))
      /\ (forall o, In o t ->
            exists k, In k (kept ++ more)
                      /\ (opening_id k = opening_id o
                          \/ centre_distance o k < thr))
      /\ (kept = [] -> forall a t', t = a :: t' ->
            exists rest, more = a :: rest).
Proof.
  induction t as [ | a t IH ]; intros kept used Hsorted Hconf Hpairs Hused Hnd.
  - exists []. simpl. rewrite app_nil_r.
    split; [ reflexivity | ]. split; [ intros x [] | ].
    split; [ lia | ]. split; [ exact Hpairs | ]. split; [ exact Hnd | ].
    split; [ intros o [] | intros _ a t' E; discriminate ].
  - inversion Hsorted as [ | ? ? Ha Ht ]; subst.
    assert (Hconf' : forall k o, In k kept -> In o t ->
                                 confidence o <= confidence k).
    { intros k o Hk Ho. apply Hconf; [ exact Hk | right; exact Ho ]. }
    cbn [fold_left]. unfold deduplicate_body at 2.
    destruct (existsb (String.eqb (opening_id a)) used) eqn:Eu.
    { apply existsb_string_In in Eu. apply Hused in Eu.
      destruct Eu as (k & Hk & Eid).
      destruct (IH kept used Ht Hconf' Hpairs Hused Hnd)
        as (more & E & Hincl & Hlen & Hp & Hn & Hcov & _).
      exists more. split; [ exact E | ].
      split; [ intros x Hx; right; apply Hincl, Hx | ].
      split; [ simpl; lia | ]. split; [ exact Hp | ]. split; [ exact Hn | ].
      split.
      - intros o [<- | Ho]; [ | apply Hcov, Ho ].
        exists k. split; [ apply in_or_app; left; exact Hk | left; exact Eid ].
      - intros -> . contradiction. }
    destruct (is_duplicate_loop a kept thr) eqn:Ed.
    { apply is_duplicate_loop_true in Ed. destruct Ed as (k & Hk & Hlt).
      destruct (IH kept used Ht Hconf' Hpairs Hused Hnd)
        as (more & E & Hincl & Hlen & Hp & Hn & Hcov & _).
      exists more. split; [ exact E | ].
      split; [ intros x Hx; right; apply Hincl, Hx | ].
      split; [ simpl; lia | ]. split; [ exact Hp | ]. split; [ exact Hn | ].
      split.
      - intros o [<- | Ho]; [ | apply Hcov, Ho ].
        exists k. split; [ apply in_or_app; left; exact Hk | right; exact Hlt ].
      - intros -> . contradiction. }
    apply is_duplicate_loop_false in Ed.
    assert (Hnu : ~ In (opening_id a) used).
    { intros H. apply existsb_string_In in H. congruence. }
    destruct (IH (kept ++ [a]) (opening_id a :: used) Ht)
      as (more & E & Hincl & Hlen & Hp & Hn & Hcov & _).
    + intros k o Hk Ho. apply in_app_or in Hk. destruct Hk as [Hk | [<- | []]].
      * apply Hconf'; assumption.
      * rewrite Forall_forall in Ha. apply Ha, Ho.
    + apply ordered_pairs_snoc; [ exact Hpairs | ].
      rewrite Forall_forall in *. intros k Hk. split.
      * rewrite centre_distance_sym. apply Ed, Hk.
      * apply Hconf; [ exact Hk | left; reflexivity ].
    + intros id. simpl. rewrite Hused. split.
      * intros [<- | (k & Hk & Eid)].
        -- exists a. split; [ apply in_or_app; right; left; reflexivity
                            | reflexivity ].
        -- exists k. split; [ apply in_or_app; left; exact Hk | exact Eid ].
      * intros (k & Hk & Eid). apply in_app_or in Hk.
        destruct Hk as [Hk | [<- | []]].
        -- right. exists k. tauto.
        -- left. exact Eid.
    + rewrite map_app. simpl. apply NoDup_snoc; [ exact Hnd | ].
      intros Hin. apply in_map_iff in Hin. destruct Hin as (k & Eid & Hk).
      apply Hnu, Hused. exists k. tauto.
    + rewrite <- app_assoc in E, Hp, Hn, Hcov. simpl in E, Hp, Hn, Hcov.
      exists (a :: more). split; [ exact E | ].
      split; [ intros x [<- | Hx]; [ left; reflexivity
                                    | right; apply Hincl, Hx ] | ].
      split; [ simpl; lia | ]. split; [ exact Hp | ]. split; [ exact Hn | ].
      split.
      * intros o [<- | Ho]; [ | apply Hcov, Ho ].
        exists a. split; [ apply in_or_app; right; left; reflexivity
                         | left; reflexivity ].
      * intros _ a0 t0 E0. inversion E0; subst. exists more. reflexivity.
Qed.

(** X19: whatever the openings and the threshold, [deduplicate_openings]
    returns input openings only and never more than it was given; the
    openings it returns are in descending order of confidence, have
    distinct ids and lie pairwise at least the threshold apart (for more
    than one input opening); every input opening has the id of a returned
    one or lies closer than the threshold to one; and for a non-empty
    input the first returned opening has the highest confidence. *)
Theorem deduplicate_openings_invariants :
  forall (openings : list WallOpening) (thr : R),
    incl (deduplicate_openings openings thr) openings
    /\ (List.length (deduplicate_openings openings thr)
        <= List.length openings)%nat
    /\ ((2 <= List.length openings)%nat ->
        ForallOrdPairs
          (fun a b => thr <= centre_distance a b
                      /\ confidence b <= confidence a)
          (deduplicate_openings openings thr)
        /\ NoDup (map opening_id (deduplicate_openings openings thr)))
    /\ (forall o, In o openings ->
          exists k, In k (deduplicate_openings openings thr)
                    /\ (opening_id k = opening_id o
                        \/ centre_distance o k < thr))
    /\ (openings <> [] ->
        exists top rest,
          deduplicate_openings openings thr = top :: rest
          /\ forall o, In o openings -> confidence o <= confidence top).
Proof.
  intros openings thr. unfold deduplicate_openings.
  destruct (List.length openings <=? 1)%nat eqn:El.
  - apply Nat.leb_le in El.
    split; [ apply incl_refl | ]. split; [ lia | ].
    split; [ intros H; lia | ].
    split; [ intros o Ho; exists o; tauto | ].
    intros Hne. destruct openings as [ | a [ | b l ] ];
      [ congruence | | simpl in El; lia ].
    exists a, []. split; [ reflexivity | ].
    intros o [<- | []]. lra.
  - apply Nat.leb_gt in El. cbv zeta.
    set (s := CvPipeline.sorted_reverse confidence openings).
    assert (Hperm : Permutation s openings)
      by apply sorted_reverse_perm.
    assert (Hsorted : desc_sorted confidence s)
      by apply sorted_reverse_sorted.
    destruct (deduplicate_loop thr s [] [] Hsorted)
      as (more & E & Hincl & Hlen & Hp & Hn & Hcov & Hhead).
    + intros k o [].
    + constructor.
    + intros id. split; [ intros [] | intros (k & [] & _) ].
    + constructor.
    + rewrite E. simpl app in *.
      split; [ intros x Hx; apply (Permutation_in _ Hperm), Hincl, Hx | ].
      split; [ rewrite <- (Permutation_length Hperm); exact Hlen | ].
      split; [ intros _; split; assumption | ].
      split.
      * intros o Ho. apply Hcov.
        apply (Permutation_in _ (Permutation_sym Hperm)), Ho.
      * intros _. destruct s as [ | a t ] eqn:Es.
        { apply Permutation_length in Hperm. simpl in Hperm. lia. }
        destruct (Hhead eq_refl a t eq_refl) as [rest ->].
        exists a, rest. split; [ reflexivity | ].
        intros o Ho. apply (Permutation_in _ (Permutation_sym Hperm)) in Ho.
        inversion Hsorted as [ | ? ? Ha Ht ]; subst.
        destruct Ho as [<- | Ho]; [ lra | ].
        rewrite Forall_forall in Ha. apply Ha, Ho.
Qed.

(** The theorem at two detections of one opening 30 px apart. *)
Lemma deduplicate_openings_invariants_witness :
  ForallOrdPairs
    (fun a b => distance_threshold_px_default <= centre_distance a b
                /\ confidence b <= confidence a)
    (deduplicate_openings [opening_at 100 100; opening_at 130 100]
       distance_threshold_px_default)
  /\ NoDup (map opening_id
              (deduplicate_openings [opening_at 100 100; opening_at 130 100]
                 distance_threshold_px_default)).
Proof.
  apply (proj1 (proj2 (proj2 (deduplicate_openings_invariants
    [opening_at 100 100; opening_at 130 100]
    distance_threshold_px_default)))).
  simpl. lia.
Defined.

End DeduplicationFacts.

(** ** The doors the pipeline reports *)

Section ReportedDoorsFacts.
Import Py WallOpeningDetector.

(** What [validate_door_openings] returns when it returns. *)
Lemma validate_door_openings_returned (openings doors : list WallOpening)
    (ppm minw maxw : R) :
  validate_door_openings openings ppm minw maxw None = Ok doors ->
  (List.length doors <= List.length openings)%nat
  /\ Forall (fun d => exists o,
               In o openings
               /\ door_of standard_widths_default ppm minw maxw o d) doors.
Proof.
  unfold validate_door_openings, standard_widths_default. intros H.
  destruct (Req_dec ppm 0) as [-> | Hppm].
  - destruct openings as [ | o l ].
    + simpl in H. inversion H; subst. split; [ simpl; lia | constructor ].
    + cbn [fold_left] in H. unfold validate_body at 2 in H.
      cbn [bind] in H. unfold div in H.
      replace (Reqb 0 0) with true in H
        by (symmetry; apply Reqb_true_iff; reflexivity).
      cbn [bind] in H. rewrite validate_loop_raised in H. discriminate H.
  - destruct (validate_loop ppm minw maxw 0.625
                [0.755; 0.885; 1.01; 1.135; 1.26; 1.385; 1.51; 1.76; 2.01]
                Hppm openings [])
      as (v & Ev & Hlen & Hall & _).
    rewrite Ev in H. simpl app in H. inversion H; subst. tauto.
Qed.

(** What [deduplicate_openings] keeps. *)
Lemma deduplicate_openings_kept (openings : list WallOpening) (thr : R) :
  incl (deduplicate_openings openings thr) openings
  /\ (List.length (deduplicate_openings openings thr)
      <= List.length openings)%nat
  /\ ForallOrdPairs (fun a b => thr <= centre_distance a b)
       (deduplicate_openings openings thr).
Proof.
  unfold deduplicate_openings.
  destruct (List.length openings <=? 1)%nat eqn:El.
  - apply Nat.leb_le in El.
    split; [ apply incl_refl | ]. split; [ lia | ].
    destruct openings as [ | a [ | b l ] ]; [ constructor | | simpl in El; lia ].
    constructor; constructor.
  - cbv zeta. set (s := CvPipeline.sorted_reverse confidence openings).
    assert (Hperm : Permutation s openings) by apply sorted_reverse_perm.
    destruct (deduplicate_loop thr s [] [] (sorted_reverse_sorted _ _))
      as (more & E & Hincl & Hlen & Hp & _).
    + intros k o [].
    + constructor.
    + intros id. split; [ intros [] | intros (k & [] & _) ].
    + constructor.
    + rewrite E. simpl app in *.
      split; [ intros x Hx; apply (Permutation_in _ Hperm), Hincl, Hx | ].
      split; [ rewrite <- (Permutation_length Hperm); exact Hlen | ].
      eapply ordered_pairs_impl; [ | exact Hp ]. simpl. tauto.
Qed.

Lemma filter_length_le {A : Type} (p : A -> bool) (l : list A) :
  (List.length (filter p l) <= List.length l)%nat.
Proof.
  induction l as [ | a l IH ]; simpl; [ lia | ].
  destruct (p a); simpl; lia.
Qed.

(** X20: when the pipeline reports that a wall mask was generated, it has
    no warning; it reports no more doors than openings it analysed; every
    reported door is flagged as a door, has a width in metres inside the
    accepted range and a confidence of 0.9, 0.75 or 0.6; the reported
    doors lie pairwise at least 50 px apart; and none has its centre in a
    hatch region detected on the rendered page. *)
Theorem reported_doors_invariants :
  forall env pdf_path pn scale dpi minw maxw dbg r,
    detect_doors_from_wall_openings env pdf_path pn scale dpi minw maxw dbg
    = Ok r ->
    wall_mask_generated r = true ->
    warnings r = []
    /\ (List.length (doors r) <= total_openings_analyzed r)%nat
    /\ Forall (fun d =>
                 is_door d = true
                 /\ (exists w, width_m d = Some w /\ minw <= w <= maxw)
                 /\ (confidence d = 0.9 \/ confidence d = 0.75
                     \/ confidence d = 0.6)) (doors r)
    /\ ForallOrdPairs
         (fun a b => distance_threshold_px_default <= centre_distance a b)
         (doors r)
    /\ (forall image hs,
          render_pdf_page_high_dpi env pdf_path pn dpi = Ok image ->
          detect_hatch_regions env image = Ok hs ->
          forall d h, In d (doors r) -> In h hs -> ~ in_box d h).
Proof.
  intros env pdf_path pn scale dpi minw maxw dbg r H Hmask.
  unfold detect_doors_from_wall_openings in H.
  destruct (CV2_AVAILABLE env);
    [ | inversion H; subst; discriminate Hmask ].
  destruct (FITZ_AVAILABLE env);
    [ | inversion H; subst; discriminate Hmask ].
  cbn [negb] in H.
  destruct (div 1 (IZR scale)) as [ q | e ]; [ | discriminate H ].
  cbn [bind] in H.
  destruct (render_pdf_page_high_dpi env pdf_path pn dpi)
    as [ image | e ]; [ | inversion H; subst; discriminate Hmask ].
  destruct (extract_wall_mask env image dbg) as [ [ mask | ] | e ];
    [ | inversion H; subst; discriminate Hmask | discriminate H ].
  cbn [bind] in H.
  destruct (mask_sum mask =? 0)%Z;
    [ inversion H; subst; discriminate Hmask | ].
  destruct (find_wall_openings env mask _ _ pn) as [ os | e ];
    [ | discriminate H ].
  cbn [bind] in H.
  destruct (detect_hatch_regions env image) as [ hs | e ] eqn:Eh;
    [ | discriminate H ].
  cbn [bind] in H.
  set (fs := match hs with
             | [] => os
             | _ :: _ => filter_openings_in_hatch os hs
             end) in H.
  assert (Efs : fs = filter (fun o => negb (in_hatch_loop o hs)) os).
  { unfold fs. rewrite <- filter_openings_in_hatch_filter.
    destruct hs; reflexivity. }
  destruct (validate_door_openings fs _ minw maxw None) as [ ds | e ] eqn:Ev;
    [ | discriminate H ].
  cbn [bind] in H. inversion H; subst r; clear H.
  cbn [warnings doors total_openings_analyzed].
  apply validate_door_openings_returned in Ev. destruct Ev as [Hlen Hall].
  destruct (deduplicate_openings_kept ds distance_threshold_px_default)
    as (Hincl & Hlen' & Hfar).
  rewrite Forall_forall in Hall.
  split; [ reflexivity | ]. split; [ | split; [ | split ] ].
  - pose proof (filter_length_le (fun o => negb (in_hatch_loop o hs)) os).
    rewrite <- Efs in H. lia.
  - rewrite Forall_forall. intros d Hd.
    destruct (Hall d (Hincl d Hd))
      as (o & _ & _ & _ & _ & _ & _ & Hdoor & Hw & Hr & Hg).
    split; [ exact Hdoor | ]. split; [ eexists; split; [ exact Hw | exact Hr ] | ].
    destruct Hg as [[Hc _] | [[Hc _] | [Hc _]]]; tauto.
  - exact Hfar.
  - intros image' hs' Ei Eh' d h Hd Hh Hbox.
    inversion Ei; subst image'. rewrite Eh in Eh'. inversion Eh'; subst hs'.
    destruct (Hall d (Hincl d Hd))
      as (o & Ho & _ & _ & Hx & Hy & _).
    rewrite Efs in Ho. apply filter_In in Ho. destruct Ho as [_ Ho].
    apply negb_true_iff in Ho.
    assert (Hin : in_hatch_loop o hs = true).
    { apply in_hatch_loop_true_iff. exists h. split; [ exact Hh | ].
      unfold in_box in *. destruct h as [[[hx hy] hw] hh].
      rewrite <- Hx, <- Hy. exact Hbox. }
    congruence.
Qed.

(** One turn of the validation loop on a gap 90 px wide, at 100 px per
    metre. *)
Lemma validate_gap_opening (v : list WallOpening) (id : string) (cx cy : R) :
  validate_body 100 0.60 2.20 standard_widths_default (Ok v)
    (gap_opening id cx cy)
  = Ok (v ++ [standard_door id cx cy]).
Proof.
  unfold validate_body, gap_opening, standard_widths_default.
  cbn [bind width_px]. unfold div.
  replace (Reqb 100 0) with false
    by (symmetry; apply Reqb_false_iff; lra).
  cbn [bind]. Rle_true 0.60 (90 / 100). Rle_true (90 / 100) 2.20.
  cbn [andb py_min map bind].
  set (md := fold_left Rmin _ _).
  assert (Hmd : md < 0.05).
  { unfold md.
    apply (proj2 (min_deviation_lt 0.625
                    [0.755; 0.885; 1.01; 1.135; 1.26; 1.385; 1.51; 1.76;
                     2.01] (90 / 100) 0.05)).
    exists 0.885. split; [ simpl; auto | ].
    rewrite Rabs_pos_eq by lra. lra. }
  Rb_true md 0.05. Rb_false (90 / 100) 0.70. Rb_true (90 / 100) 0.95.
  reflexivity.
Qed.

(** The gap at (500, 500) lies in the hatch region and is dropped. *)
Lemma gaps_outside_hatch :
  filter_openings_in_hatch
    [ gap_opening "opening_1" 100 100; gap_opening "opening_2" 130 100;
      gap_opening "opening_3" 400 100; gap_opening "opening_4" 500 500 ]
    [ (480, 480, 40, 40)%Z ]
  = [ gap_opening "opening_1" 100 100; gap_opening "opening_2" 130 100;
      gap_opening "opening_3" 400 100 ].
Proof.
  unfold filter_openings_in_hatch.
  cbn [fold_left in_hatch_loop gap_opening center_x center_y].
  change (480 + 40)%Z with 520%Z.
  Rle_false (IZR 480) 100. Rle_false (IZR 480) 130. Rle_false (IZR 480) 400.
  Rle_true (IZR 480) 500. Rle_true 500 (IZR 520).
  reflexivity.
Qed.

(** The door 30 px from the first one is dropped as its duplicate. *)
Lemma deduplicate_standard_doors :
  deduplicate_openings
    [ standard_door "opening_1" 100 100; standard_door "opening_2" 130 100;
      standard_door "opening_3" 400 100 ] distance_threshold_px_default
  = [ standard_door "opening_1" 100 100; standard_door "opening_3" 400 100 ].
Proof.
  unfold deduplicate_openings, distance_threshold_px_default.
  cbn [List.length Nat.leb]. cbv zeta.
  rewrite sorted_reverse_of_descending.
  2: { repeat constructor; cbn [confidence standard_door]; lra. }
  cbn [fold_left]. unfold deduplicate_body.
  cbn [existsb is_duplicate_loop standard_door opening_id center_x center_y
       app fst].
  change ("opening_2" =? "opening_1")%string with false. cbn [orb].
  assert (E30 : sqrt ((130 - 100) ^ 2 + (100 - 100) ^ 2) = 30).
  { replace ((130 - 100) ^ 2 + (100 - 100) ^ 2) with (30 * 30)
      by (simpl; lra).
    apply sqrt_square. lra. }
  rewrite E30. Rb_true 30 50. cbv iota beta.
  change (existsb (String.eqb "opening_3") ["opening_1"%string]) with false.
  cbv iota.
  cbn [is_duplicate_loop standard_door center_x center_y].
  assert (E300 : sqrt ((400 - 100) ^ 2 + (100 - 100) ^ 2) = 300).
  { replace ((400 - 100) ^ 2 + (100 - 100) ^ 2) with (300 * 300)
      by (simpl; lra).
    apply sqrt_square. lra. }
  rewrite E300. Rb_false 300 50. reflexivity.
Qed.

(** At 1:100 and 254 DPI a metre is 100 px. *)
Lemma pixels_per_meter_at_254_dpi :
  1 / IZR 100 * (1 / 0.0254) * IZR 254 = 100.
Proof. lra. Qed.

(** The pipeline on the page with four gaps: two doors are reported. *)
Lemma detect_doors_with_gaps :
  detect_doors_from_wall_openings steps_with_gaps "plan.pdf" 1 100 254
    min_door_width_m_default max_door_width_m_default None
  = Ok {| dr_page_number := 1;
          doors := [ standard_door "opening_1" 100 100;
                     standard_door "opening_3" 400 100 ];
          total_openings_analyzed := 4;
          wall_mask_generated := true;
          hatch_regions_filtered := 1;
          warnings := [] |}.
Proof.
  unfold detect_doors_from_wall_openings, steps_with_gaps.
  cbn [CV2_AVAILABLE FITZ_AVAILABLE negb].
  rewrite div_one_nonzero by discriminate.
  cbn [bind render_pdf_page_high_dpi extract_wall_mask mask_sum Z.eqb
       find_wall_openings detect_hatch_regions List.length].
  rewrite pixels_per_meter_at_254_dpi.
  rewrite gaps_outside_hatch.
  unfold validate_door_openings, min_door_width_m_default,
    max_door_width_m_default.
  cbn [fold_left]. rewrite !validate_gap_opening. cbn [app bind].
  rewrite deduplicate_standard_doors. reflexivity.
Qed.

(** The theorem at the page with four gaps: the two reported doors are
    validated, 300 px apart and outside the hatch region. *)
Lemma reported_doors_invariants_witness :
  exists r a c,
    detect_doors_from_wall_openings steps_with_gaps "plan.pdf" 1 100 254
      min_door_width_m_default max_door_width_m_default None = Ok r
    /\ doors r = [a; c]
    /\ total_openings_analyzed r = 4%nat
    /\ warnings r = []
    /\ (is_door a = true
        /\ (exists w, width_m a = Some w
                      /\ min_door_width_m_default <= w
                         <= max_door_width_m_default)
        /\ (confidence a = 0.9 \/ confidence a = 0.75
            \/ confidence a = 0.6))
    /\ distance_threshold_px_default <= centre_distance a c
    /\ ~ in_box a (480, 480, 40, 40)%Z
    /\ ~ in_box c (480, 480, 40, 40)%Z.
Proof.
  destruct (reported_doors_invariants steps_with_gaps "plan.pdf"%string 1%Z
              100%Z 254%Z min_door_width_m_default max_door_width_m_default
              None _ detect_doors_with_gaps eq_refl)
    as (Hw & _ & Hall & Hfar & Hhatch).
  eexists. exists (standard_door "opening_1" 100 100),
    (standard_door "opening_3" 400 100).
  split; [ exact detect_doors_with_gaps | ].
  cbn [doors total_openings_analyzed warnings] in *.
  split; [ reflexivity | ]. split; [ reflexivity | ].
  split; [ reflexivity | ].
  split; [ exact (Forall_inv Hall) | ].
  split.
  - inversion Hfar as [ | a l Ha _ ]; subst. exact (Forall_inv Ha).
  - split; apply (Hhatch "page.png"%string [ (480, 480, 40, 40)%Z ]
                    eq_refl eq_refl); simpl; auto.
Defined.

End ReportedDoorsFacts.

(** ** Door symbols: leaves, and scales that are not positive *)

Section DoorLeafFacts.
Import Py VectorMeasurement.

(** The line the inner loop settles on is not in use and matches the
    arc. *)
Lemma match_line_fold_good (c : Point) (r rc rl : R) (used : list nat)
    (l : list (nat * LineSegment)) :
  forall (st : result (option BestLine)) (b : BestLine),
    (forall b0, st = Ok (Some b0) ->
       ~ In (best_line_idx b0) used /\ leaf_matches rc rl c r (best_line b0)) ->
    fold_left (match_line_body c r rc rl used) l st = Ok (Some b) ->
    ~ In (best_line_idx b) used /\ leaf_matches rc rl c r (best_line b).
Proof.
  induction l as [ | [j line] l IH ]; intros st b Hst Hfold.
  - simpl in Hfold. apply Hst, Hfold.
  - cbn [fold_left] in Hfold. eapply IH; [ | exact Hfold ].
    clear Hfold IH. intros b0 Hb0. unfold match_line_body in Hb0.
    destruct st as [ best | e ]; cbn [bind] in Hb0; [ | discriminate Hb0 ].
    destruct (existsb (Nat.eqb j) used) eqn:Eu.
    { apply Hst. exact Hb0. }
    assert (Hj : ~ In j used).
    { intros Hin. apply existsb_eqb_In in Hin. congruence. }
    unfold div in Hb0. destruct (Reqb r 0); cbn [bind] in Hb0;
      [ discriminate Hb0 | ].
    match type of Hb0 with
    | (if Rltb ?a ?b && Rltb ?c ?d then _ else _) = _ =>
        case_Rltb a b; [ case_Rltb c d | ]
    end; cbn [andb] in Hb0; try (apply Hst; exact Hb0).
    assert (Hm : leaf_matches rc rl c r line) by (split; assumption).
    destruct best as [ b1 | ].
    + destruct (Rltb _ (best_score b1)).
      * inversion Hb0; subst b0. simpl. tauto.
      * apply Hst. exact Hb0.
    + inversion Hb0; subst b0. simpl. tauto.
Qed.

(** What the outer loop keeps true of the doors it has built. *)
Lemma match_arc_fold_good (pn : Z) (roof : bool) (lines : list LineSegment)
    (rc rl conf : R) (l : list (nat * Arc)) :
  forall (st : result (list DoorSymbol * list nat * list nat))
         (doors : list DoorSymbol) (ua ul : list nat),
    (forall ds ua0 ul0, st = Ok (ds, ua0, ul0) ->
       (forall j, In j ul0 <-> In j (map md_line_index ds))
       /\ NoDup (map md_line_index ds)
       /\ Forall (door_with_leaf pn roof rc rl conf) ds) ->
    fold_left (match_arc_body pn roof lines rc rl conf) l st
    = Ok (doors, ua, ul) ->
    (forall j, In j ul <-> In j (map md_line_index doors))
    /\ NoDup (map md_line_index doors)
    /\ Forall (door_with_leaf pn roof rc rl conf) doors.
Proof.
  induction l as [ | [i arc] l IH ]; intros st doors ua ul Hst Hfold.
  - simpl in Hfold. apply (Hst _ _ _ Hfold).
  - cbn [fold_left] in Hfold. eapply IH; [ | exact Hfold ].
    clear Hfold IH. intros ds' ua' ul' Hs. unfold match_arc_body in Hs.
    destruct st as [ [[ds ua0] ul0] | e ]; cbn [bind] in Hs;
      [ | discriminate Hs ].
    destruct (Hst ds ua0 ul0 eq_refl) as (Hul & Hnd & Hall).
    destruct (existsb (Nat.eqb i) ua0).
    { inversion Hs; subst. auto. }
    destruct (fold_left _ (enumerate lines) (Ok None))
      as [ [ b | ] | e ] eqn:Eb; cbn [bind] in Hs;
      [ | inversion Hs; subst; auto | discriminate Hs ].
    apply match_line_fold_good in Eb; [ | intros b0 Hb0; discriminate Hb0 ].
    destruct Eb as [Hnew Hm]. inversion Hs; subst ds' ua' ul'; clear Hs.
    rewrite map_app. cbn [map md_line_index].
    split; [ | split ].
    + intros j. rewrite in_app_iff. simpl. rewrite Hul. tauto.
    + apply NoDup_snoc; [ exact Hnd | ]. rewrite <- Hul. exact Hnew.
    + apply Forall_app. split; [ exact Hall | ].
      constructor; [ | constructor ].
      unfold door_with_leaf. simpl.
      repeat (split; [ reflexivity | ]).
      exists (best_line b). split; [ reflexivity | exact Hm ].
Qed.

(** X21: every door [extract_door_symbols_from_page] returns is on the
    page asked for, carries no width yet, and has a leaf line: a line with
    one end closer to the arc centre than 60% of the arc radius and a
    length within 30% of the radius, with confidence 0.85 (25%, 20% and
    confidence 0.70 on a roof plan); and no line is the leaf of two
    doors. *)
Theorem extracted_doors_have_leaves :
  forall env page_number dpi minw maxw ppm doors,
    extract_door_symbols_from_page env page_number dpi minw maxw ppm
    = Ok doors ->
    Forall (fun d =>
              door_with_leaf page_number false 0.6 0.3 0.85 d
              \/ door_with_leaf page_number true 0.25 0.20 0.70 d) doors
    /\ NoDup (map md_line_index doors).
Proof.
  intros env pn dpi minw maxw ppm doors.
  unfold extract_door_symbols_from_page.
  destruct (negb (FITZ_AVAILABLE env)); [ intros H; discriminate H | ].
  destruct (negb (path_exists env)); [ intros H; discriminate H | ].
  destruct (match ppm with
            | Some p => if Reqb p 0 then (20, 200) else (minw * p, maxw * p)
            | None => (20, 200)
            end) as [lo hi].
  destruct ((pn - 1 <? 0)%Z || _); [ intros H; discriminate H | ].
  destruct (nth_error (doc env) _) as [ page | ];
    [ | intros H; discriminate H ].
  destruct (collect_items pn (IZR dpi / 72) lo hi (drawings page))
    as [arcs lines].
  destruct (is_roof_plan page).
  - destruct (fold_left _ (enumerate arcs) (Ok ([], [], [])))
      as [ [[ds ua] ul] | e ] eqn:E; cbn [bind];
      intros H; [ | discriminate H ].
    inversion H; subst doors; clear H. cbn [fst].
    apply match_arc_fold_good in E.
    + destruct E as (_ & Hnd & Hall). split; [ | exact Hnd ].
      eapply Forall_impl; [ | exact Hall ]. simpl. tauto.
    + intros ds0 ua0 ul0 H0. inversion H0; subst.
      split; [ simpl; tauto | ]. split; constructor.
  - destruct (fold_left _ (enumerate arcs) (Ok ([], [], [])))
      as [ [[ds ua] ul] | e ] eqn:E; cbn [bind];
      intros H; [ | discriminate H ].
    inversion H; subst doors; clear H. cbn [fst].
    apply match_arc_fold_good in E.
    + destruct E as (_ & Hnd & Hall). split; [ | exact Hnd ].
      eapply Forall_impl; [ | exact Hall ]. simpl. tauto.
    + intros ds0 ua0 ul0 H0. inversion H0; subst.
      split; [ simpl; tauto | ]. split; constructor.
Qed.

(** The theorem at the page with one door. *)
Lemma extracted_doors_have_leaves_witness :
  exists d,
    extract_door_symbols_from_page door_env 1 72 0.6 2.0 (Some 100) = Ok [d]
    /\ (door_with_leaf 1 false 0.6 0.3 0.85 d
        \/ door_with_leaf 1 true 0.25 0.20 0.70 d).
Proof.
  destruct (extract_door_page 0.6 2.0) as (d & Hd & _); [ lra | ].
  exists d. split; [ exact Hd | ].
  destruct (extracted_doors_have_leaves door_env 1%Z 72%Z 0.6 2.0 (Some 100)
              [d] Hd) as [HF _].
  inversion HF; subst. assumption.
Defined.

Lemma set_widths_zero_scale (d : DoorSymbol) (ds : list DoorSymbol) :
  set_widths 0 (d :: ds) = Raise ZeroDivisionError.
Proof.
  cbn [set_widths]. unfold set_width_m, div.
  replace (Reqb 0 0) with true
    by (symmetry; apply Reqb_true_iff; reflexivity).
  reflexivity.
Qed.

Lemma set_widths_length (ppm : R) (ds ds' : list DoorSymbol) :
  set_widths ppm ds = Ok ds' -> List.length ds' = List.length ds.
Proof.
  revert ds'. induction ds as [ | d ds IH ]; intros ds' H.
  - simpl in H. inversion H. reflexivity.
  - cbn [set_widths] in H.
    destruct (set_width_m ppm d); cbn [bind] in H; [ | discriminate H ].
    destruct (set_widths ppm ds) as [ rest | e ]; cbn [bind] in H;
      [ | discriminate H ].
    inversion H; subst. simpl. f_equal. apply IH. reflexivity.
Qed.

(** X22: [measure_doors_on_page] never returns a door for a scale that is
    not positive (and a range with [min < max]): what it returns then is
    the empty list; on a zero scale it raises [ZeroDivisionError] as soon
    as the extraction, which then falls back to its pixel thresholds,
    finds a door.  Without PyMuPDF it raises [ImportError], then for a
    missing file [FileNotFoundError], then for a page number outside the
    document [ValueError]. *)
Theorem measure_doors_without_positive_scale :
  forall env page_number ppm dpi minw maxw,
    (ppm <= 0 -> minw < maxw ->
     forall doors,
       measure_doors_on_page env page_number ppm dpi minw maxw = Ok doors ->
       doors = [])
    /\ (forall d ds,
          extract_door_symbols_from_page env page_number dpi minw maxw
            (Some 0) = Ok (d :: ds) ->
          measure_doors_on_page env page_number 0 dpi minw maxw
          = Raise ZeroDivisionError)
    /\ (FITZ_AVAILABLE env = false ->
        exists msg,
          measure_doors_on_page env page_number ppm dpi minw maxw
          = Raise (ImportError msg))
    /\ (FITZ_AVAILABLE env = true -> path_exists env = false ->
        exists msg,
          measure_doors_on_page env page_number ppm dpi minw maxw
          = Raise (FileNotFoundError msg))
    /\ (FITZ_AVAILABLE env = true -> path_exists env = true ->
        (page_number < 1 \/ Z.of_nat (List.length (doc env)) < page_number)%Z ->
        exists msg,
          measure_doors_on_page env page_number ppm dpi minw maxw
          = Raise (ValueError msg)).
Proof.
  intros env pn ppm dpi minw maxw.
  split; [ | split; [ | split; [ | split ] ] ].
  - intros Hppm Hrange doors H. unfold measure_doors_on_page in H.
    destruct (extract_door_symbols_from_page env pn dpi minw maxw (Some ppm))
      as [ ds | e ] eqn:E; cbn [bind] in H; [ | discriminate H ].
    destruct (Req_dec ppm 0) as [-> | Hnz].
    + destruct ds as [ | d ds ].
      * simpl in H. inversion H. reflexivity.
      * rewrite set_widths_zero_scale in H. discriminate H.
    + apply extract_door_symbols_radius in E; [ | exact Hnz ].
      destruct ds as [ | d ds ].
      * simpl in H. inversion H. reflexivity.
      * apply Forall_inv in E. nra.
  - intros d ds E. unfold measure_doors_on_page. rewrite E. cbn [bind].
    apply set_widths_zero_scale.
  - intros Hf. unfold measure_doors_on_page, extract_door_symbols_from_page.
    rewrite Hf. cbn [negb bind]. eexists. reflexivity.
  - intros Hf Hp. unfold measure_doors_on_page,
      extract_door_symbols_from_page.
    rewrite Hf, Hp. cbn [negb bind]. eexists. reflexivity.
  - intros Hf Hp Hpage. unfold measure_doors_on_page,
      extract_door_symbols_from_page.
    rewrite Hf, Hp. cbn [negb].
    destruct (match Some ppm with
              | Some p => if Reqb p 0 then (20, 200) else (minw * p, maxw * p)
              | None => (20, 200)
              end) as [lo hi].
    replace ((pn - 1 <? 0)%Z
             || (Z.of_nat (List.length (doc env)) <=? pn - 1)%Z) with true.
    + cbn [bind]. eexists. reflexivity.
    + symmetry. apply orb_true_iff.
      destruct Hpage; [ left; apply Z.ltb_lt | right; apply Z.leb_le ]; lia.
Qed.

(** The theorem at the page with one door: a scale of zero raises, a
    negative scale returns nothing, a scale of 100 returns the door. *)
Lemma measure_doors_without_positive_scale_witness :
  measure_doors_on_page door_env 1 0 72 0.6 2.0 = Raise ZeroDivisionError
  /\ (exists doors,
        measure_doors_on_page door_env 1 (- 100) 72 0.6 2.0 = Ok doors
        /\ doors = [])
  /\ (exists d,
        measure_doors_on_page door_env 1 100 72 0.6 2.0 = Ok [d]).
Proof.
  split; [ | split ].
  - destruct (extract_door_page_zero_scale 0.6 2.0) as (d & Hd & _).
    apply (proj1 (proj2 (measure_doors_without_positive_scale door_env 1%Z
                           0 72%Z 0.6 2.0)) d [] Hd).
  - exists []. split; [ exact measure_door_page_negative_scale | ].
    apply (proj1 (measure_doors_without_positive_scale door_env 1%Z
                    (- 100) 72%Z 0.6 2.0)) with (doors := []);
      [ lra | lra | exact measure_door_page_negative_scale ].
  - destruct (measure_door_page 0.6 2.0) as (d & Hd & _); [ lra | ].
    exists d. exact Hd.
Defined.

End DoorLeafFacts.

(** ** Quarter arcs *)

Section BezierArcFacts.
Import Py VectorMeasurement.

Lemma dist_vertical (u v w : R) :
  sqrt ((u - u) ^ 2 + (v - w) ^ 2) = Rabs (v - w).
Proof.
  replace ((u - u) ^ 2 + (v - w) ^ 2) with (Rsqr (v - w))
    by (unfold Rsqr; ring).
  apply sqrt_Rsqr_abs.
Qed.

Lemma dist_horizontal (u w v : R) :
  sqrt ((u - w) ^ 2 + (v - v) ^ 2) = Rabs (u - w).
Proof.
  replace ((u - w) ^ 2 + (v - v) ^ 2) with (Rsqr (u - w))
    by (unfold Rsqr; ring).
  apply sqrt_Rsqr_abs.
Qed.

Lemma chord_ge (dx dy : R) :
  Rabs dx <= sqrt (dx ^ 2 + dy ^ 2) /\ Rabs dy <= sqrt (dx ^ 2 + dy ^ 2).
Proof.
  split; apply sqrt_lower; try apply Rabs_pos.
  - pose proof (pow2_abs dx). pose proof (pow2_ge_0 dy). simpl in *. nra.
  - pose proof (pow2_abs dy). pose proof (pow2_ge_0 dx). simpl in *. nra.
Qed.


Lemma axis_angle_v (u y : R) :
  y <> 0 ->
  normalize_360 (degrees (atan2 y (u - u)))
  = if Rltb 0 y then 90 else 270.
Proof.
  intros Hy. pose proof PI_RGT_0 as Hpi.
  replace (u - u) with 0 by ring. unfold atan2.
  Rb_false 0 0. case_Rltb 0 y.
  - replace (degrees (PI / 2)) with 90 by (unfold degrees; field; lra).
    unfold normalize_360. Rb_false 90 0. reflexivity.
  - Rb_true y 0.
    replace (degrees (- (PI / 2))) with (- 90)
      by (unfold degrees; field; lra).
    unfold normalize_360. Rb_true (- 90) 0. lra.
Qed.

Lemma axis_angle_h (v x : R) :
  x <> 0 ->
  normalize_360 (degrees (atan2 (v - v) x))
  = if Rltb 0 x then 0 else 180.
Proof.
  intros Hx. pose proof PI_RGT_0 as Hpi.
  replace (v - v) with 0 by ring. unfold atan2.
  replace (0 / x) with 0 by (unfold Rdiv; ring). rewrite atan_0.
  case_Rltb 0 x.
  - replace (degrees 0) with 0 by (unfold degrees; field; lra).
    unfold normalize_360. Rb_false 0 0. reflexivity.
  - Rb_true x 0. Rle_true 0 0.
    replace (degrees (0 + PI)) with 180 by (unfold degrees; field; lra).
    unfold normalize_360. Rb_false 180 0. reflexivity.
Qed.

Lemma quarter_turn (s e : R) :
  s = 90 \/ s = 270 -> e = 0 \/ e = 180 ->
  (if Rltb 180 (Rabs (e - s)) then 360 - Rabs (e - s) else Rabs (e - s)) = 90
  /\ (if Rltb 180 (Rabs (s - e)) then 360 - Rabs (s - e) else Rabs (s - e))
     = 90.
Proof.
  intros [-> | ->] [-> | ->].
  - replace (Rabs (0 - 90)) with 90 by (rewrite Rabs_left; lra).
    replace (Rabs (90 - 0)) with 90 by (rewrite Rabs_right; lra).
    Rb_false 180 90. auto.
  - replace (Rabs (180 - 90)) with 90 by (rewrite Rabs_right; lra).
    replace (Rabs (90 - 180)) with 90 by (rewrite Rabs_left; lra).
    Rb_false 180 90. auto.
  - replace (Rabs (0 - 270)) with 270 by (rewrite Rabs_left; lra).
    replace (Rabs (270 - 0)) with 270 by (rewrite Rabs_right; lra).
    Rb_true 180 270. split; lra.
  - replace (Rabs (180 - 270)) with 90 by (rewrite Rabs_left; lra).
    replace (Rabs (270 - 180)) with 90 by (rewrite Rabs_right; lra).
    Rb_false 180 90. auto.
Qed.

Lemma vertical_angle_cases (u y : R) :
  y <> 0 ->
  normalize_360 (degrees (atan2 y (u - u))) = 90
  \/ normalize_360 (degrees (atan2 y (u - u))) = 270.
Proof.
  intros Hy. rewrite axis_angle_v by exact Hy.
  destruct (Rltb 0 y); auto.
Qed.

Lemma horizontal_angle_cases (v x : R) :
  x <> 0 ->
  normalize_360 (degrees (atan2 (v - v) x)) = 0
  \/ normalize_360 (degrees (atan2 (v - v) x)) = 180.
Proof.
  intros Hx. rewrite axis_angle_h by exact Hx.
  destruct (Rltb 0 x); auto.
Qed.

(** X23: [_analyze_bezier_arc] looks at the two end points only.  With [a]
    and [b] the horizontal and the vertical extent between them, it
    returns an arc exactly when one extent is above 5 and the two differ
    by at most 30% of their mean; the arc then has radius [(a + b) / 2],
    its centre at the corner [(x1, y4)] if [b > 5] and at [(x4, y1)]
    otherwise, and an arc angle of exactly 90 degrees. *)
Theorem analyze_bezier_arc_char :
  forall (p1 p2 p3 p4 : Point),
    let a := Rabs (fst p4 - fst p1) in
    let b := Rabs (snd p4 - snd p1) in
    (((5 < a \/ 5 < b) /\ Rabs (a - b) <= 0.3 * ((a + b) / 2)) ->
     exists info,
       _analyze_bezier_arc p1 p2 p3 p4 = Some info
       /\ ai_center info
          = (if Rltb 5 b then (fst p1, snd p4) else (fst p4, snd p1))
       /\ ai_radius info = (a + b) / 2
       /\ ai_arc_angle info = 90)
    /\ (~ ((5 < a \/ 5 < b) /\ Rabs (a - b) <= 0.3 * ((a + b) / 2)) ->
        _analyze_bezier_arc p1 p2 p3 p4 = None).
Proof.
  intros [xa ya] p2 p3 [xd yd] a b. cbn [fst snd] in a, b |- *.
  destruct (chord_ge (xd - xa) (yd - ya)) as [Hca Hcb].
  fold a in Hca. fold b in Hcb.
  assert (Ha0 : 0 <= a) by apply Rabs_pos.
  assert (Hb0 : 0 <= b) by apply Rabs_pos.
  unfold _analyze_bezier_arc.
  case_Rltb (sqrt ((xd - xa) ^ 2 + (yd - ya) ^ 2)) 5.
  { split; [ intros [[H | H] _]; lra | reflexivity ]. }
  cbn [fold_left]. unfold bezier_candidate_body.
  rewrite !dist_vertical, !dist_horizontal.
  rewrite (Rabs_minus_sym ya yd), (Rabs_minus_sym xa xd).
  fold a. fold b. cbn [andb].
  case_Rltb 5 b.
  - (* the corner (xa, yd) *)
    rewrite (Rabs_minus_sym b a).
    Rb_false (Rabs (a - b)) (Rabs (a - b)).
    cbn [andb].
    case_Rltb ((b + a) / 2 * 0.3) (Rabs (a - b)).
    { split; [ | reflexivity ]. intros [_ H]. lra. }
    assert (Hapos : 0 < a).
    { destruct (Rle_lt_or_eq_dec 0 a Ha0) as [H | H]; [ exact H | ].
      rewrite <- H in Hcmp1. replace (0 - b) with (- b) in Hcmp1 by ring.
      rewrite Rabs_Ropp, (Rabs_right b) in Hcmp1 by lra. lra. }
    assert (Hy : ya - yd <> 0).
    { intros E. unfold b in Hcmp0. replace (yd - ya) with 0 in Hcmp0 by lra.
      rewrite Rabs_R0 in Hcmp0. lra. }
    assert (Hx : xd - xa <> 0).
    { intros E. unfold a in Hapos. rewrite E, Rabs_R0 in Hapos. lra. }
    destruct (quarter_turn _ _ (vertical_angle_cases xa (ya - yd) Hy)
                (horizontal_angle_cases yd (xd - xa) Hx)) as [Hq _].
    rewrite Hq. Rb_true 70 90. Rb_true 90 110. cbn [andb].
    split; [ intros _ | intros H; exfalso; apply H ].
    + eexists. split; [ reflexivity | ]. cbn [ai_center ai_radius ai_arc_angle].
      split; [ reflexivity | ]. split; lra.
    + split; [ right; exact Hcmp0 | lra ].
  - cbn [andb]. case_Rltb 5 a.
    + (* the corner (xd, ya) *)
      case_Rltb ((a + b) / 2 * 0.3) (Rabs (a - b)).
      { split; [ | reflexivity ]. intros [_ H]. lra. }
      assert (Hbpos : 0 < b).
      { destruct (Rle_lt_or_eq_dec 0 b Hb0) as [H | H]; [ exact H | ].
        rewrite <- H in Hcmp2. replace (a - 0) with a in Hcmp2 by ring.
        rewrite (Rabs_right a) in Hcmp2 by lra. lra. }
      assert (Hx : xa - xd <> 0).
      { intros E. unfold a in Hcmp1. replace (xd - xa) with 0 in Hcmp1 by lra.
        rewrite Rabs_R0 in Hcmp1. lra. }
      assert (Hy : yd - ya <> 0).
      { intros E. unfold b in Hbpos. rewrite E, Rabs_R0 in Hbpos. lra. }
      destruct (quarter_turn _ _ (vertical_angle_cases xd (yd - ya) Hy)
                  (horizontal_angle_cases ya (xa - xd) Hx)) as [_ Hq].
      rewrite Hq. Rb_true 70 90. Rb_true 90 110. cbn [andb].
      split; [ intros _ | intros H; exfalso; apply H ].
      * eexists. split; [ reflexivity | ].
        cbn [ai_center ai_radius ai_arc_angle].
        split; [ reflexivity | ]. split; lra.
      * split; [ left; exact Hcmp1 | lra ].
    + split; [ intros [[H | H] _]; lra | reflexivity ].
Qed.

(** The theorem at the swing arc from (61,0) to (0,61). *)
Lemma analyze_bezier_arc_char_witness :
  exists info,
    _analyze_bezier_arc (61, 0) (27, 0) (0, 27) (0, 61) = Some info
    /\ ai_radius info = (Rabs (0 - 61) + Rabs (61 - 0)) / 2
    /\ ai_arc_angle info = 90.
Proof.
  destruct (proj1 (analyze_bezier_arc_char (61, 0) (27, 0) (0, 27) (0, 61)))
    as (info & E & _ & Hr & Ha).
  - cbn [fst snd]. rewrite (Rabs_left (0 - 61)) by lra.
    rewrite (Rabs_right (61 - 0)) by lra.
    split; [ left; lra | ].
    replace (- (0 - 61) - (61 - 0)) with 0 by ring. rewrite Rabs_R0. lra.
  - exists info. split; [ exact E | ]. split; [ exact Hr | exact Ha ].
Defined.

End BezierArcFacts.

(** ** The line and wall segments of a page *)

Section ExtractionFacts.
Import Py VectorMeasurement.

Lemma append_if_long_extracted (pn : Z) (minlen : R)
    (segs : list LineSegment) (ax ay bx by_ : R) :
  Forall (extracted_on pn minlen) segs ->
  Forall (extracted_on pn minlen)
         (VectorExtraction.append_if_long pn minlen segs ax ay bx by_).
Proof.
  intros H. unfold VectorExtraction.append_if_long.
  case_Rleb minlen (sqrt ((bx - ax) ^ 2 + (by_ - ay) ^ 2)); [ | exact H ].
  apply Forall_app. split; [ exact H | ].
  constructor; [ | constructor ]. split; [ reflexivity | exact Hcmp ].
Qed.

Lemma line_item_body_extracted (pn : Z) (scale minlen : R)
    (segs : list LineSegment) (item : VectorExtraction.Item) :
  Forall (extracted_on pn minlen) segs ->
  Forall (extracted_on pn minlen)
         (VectorExtraction.line_item_body pn scale minlen segs item).
Proof.
  intros H. destruct item as [ p | p1 p2 | rx0 ry0 rx1 ry1 | p1 p2 p3 p4 | ];
    cbn [VectorExtraction.line_item_body fold_left].
  - exact H.
  - apply append_if_long_extracted, H.
  - repeat apply append_if_long_extracted. exact H.
  - apply append_if_long_extracted, H.
  - exact H.
Qed.

Lemma extract_line_segments_extracted (env : VectorExtraction.PdfEnv)
    (pn dpi : Z) (minlen : R) (lines : list LineSegment) :
  VectorExtraction.extract_line_segments_from_page env pn dpi minlen
  = Ok lines ->
  Forall (extracted_on pn minlen) lines.
Proof.
  unfold VectorExtraction.extract_line_segments_from_page.
  destruct (negb (VectorExtraction.FITZ_AVAILABLE env));
    [ intros H; discriminate H | ].
  destruct (negb (VectorExtraction.path_exists env));
    [ intros H; discriminate H | ].
  destruct ((pn - 1 <? 0)%Z || _); [ intros H; discriminate H | ].
  destruct (nth_error _ _) as [ page | ]; [ | intros H; discriminate H ].
  intros H. inversion H; subst lines; clear H.
  assert (Inner : forall items segs,
             Forall (extracted_on pn minlen) segs ->
             Forall (extracted_on pn minlen)
               (fold_left (VectorExtraction.line_item_body pn (IZR dpi / 72)
                             minlen) items segs)).
  { induction items as [ | it items IH ]; intros segs Hs; simpl;
      [ exact Hs | apply IH, line_item_body_extracted, Hs ]. }
  generalize (@nil LineSegment) (Forall_nil (extracted_on pn minlen)).
  induction (VectorExtraction.drawings page) as [ | d ds IH ];
    intros segs Hs; simpl; [ exact Hs | apply IH, Inner, Hs ].
Qed.

(** The loop that turns lines into walls. *)
Lemma wall_fold (env : VectorExtraction.PdfEnv) (fba : bool)
    (lines : list LineSegment) :
  forall acc : list WallSegment,
    map segment_id acc
    = map (VectorExtraction.generate_wall_segment_id env)
          (seq 0 (List.length acc)) ->
    Forall (fun w => kind w = "wall"%string /\ ws_confidence w = 1) acc ->
    let walls := fold_left (VectorExtraction.wall_body env fba) lines acc in
    map segment walls
    = map segment acc
      ++ (if fba then filter VectorExtraction.axis_aligned lines else lines)
    /\ map segment_id walls
       = map (VectorExtraction.generate_wall_segment_id env)
             (seq 0 (List.length walls))
    /\ Forall (fun w => kind w = "wall"%string /\ ws_confidence w = 1) walls.
Proof.
  induction lines as [ | line lines IH ]; intros acc Hid Hk; cbn zeta.
  - simpl. split; [ | auto ]. destruct fba; simpl; now rewrite app_nil_r.
  - cbn [fold_left].
    set (acc' := VectorExtraction.wall_body env fba acc line).
    set (w := {| segment_id :=
                   VectorExtraction.generate_wall_segment_id env
                     (List.length acc);
                 segment := line; kind := "wall";
                 ws_confidence := 1 |}).
    assert (Hacc : (fba && negb (VectorExtraction.axis_aligned line) = true
                    /\ acc' = acc)
                   \/ (fba && negb (VectorExtraction.axis_aligned line)
                       = false /\ acc' = acc ++ [w])).
    { unfold acc', VectorExtraction.wall_body.
      destruct (fba && negb (VectorExtraction.axis_aligned line));
        [ left | right ]; split; reflexivity. }
    destruct Hacc as [[E ->] | [E ->]].
    + destruct (IH acc Hid Hk) as (H1 & H2 & H3).
      split; [ | auto ]. rewrite H1.
      apply andb_true_iff in E. destruct E as [-> E].
      apply negb_true_iff in E. simpl. rewrite E. reflexivity.
    + destruct (IH (acc ++ [w])) as (H1 & H2 & H3).
      * rewrite map_app, length_app. simpl.
        replace (List.length acc + 1)%nat with (S (List.length acc)) by lia.
        rewrite seq_S, map_app, Hid. reflexivity.
      * apply Forall_app. split; [ exact Hk | ].
        constructor; [ simpl; auto | constructor ].
      * split; [ | auto ]. rewrite H1, map_app, <- app_assoc. simpl.
        f_equal. destruct fba; [ | reflexivity ].
        simpl in E. apply negb_false_iff in E. simpl. rewrite E. reflexivity.
Qed.

(** What holds of the walls the extraction returns. *)
Lemma extract_wall_segments_extracted (env : VectorExtraction.PdfEnv)
    (pn dpi : Z) (minlen : R) (fba : bool) (walls : list WallSegment) :
  VectorExtraction.extract_wall_segments_from_page env pn dpi minlen fba
  = Ok walls ->
  exists lines,
    VectorExtraction.extract_line_segments_from_page env pn dpi minlen
    = Ok lines
    /\ map segment walls
       = (if fba then filter VectorExtraction.axis_aligned lines else lines)
    /\ map segment_id walls
       = map (VectorExtraction.generate_wall_segment_id env)
             (seq 0 (List.length walls))
    /\ Forall (fun w => kind w = "wall"%string /\ ws_confidence w = 1) walls
    /\ Forall (fun w => extracted_on pn minlen (segment w)) walls.
Proof.
  unfold VectorExtraction.extract_wall_segments_from_page.
  destruct (VectorExtraction.extract_line_segments_from_page env pn dpi
              minlen) as [ lines | e ] eqn:El; cbn [bind];
    intros H; [ | discriminate H ].
  inversion H; subst walls; clear H.
  destruct (wall_fold env fba lines [] eq_refl (Forall_nil _))
    as (H1 & H2 & H3).
  simpl app in H1. exists lines.
  split; [ reflexivity | ]. split; [ exact H1 | ].
  split; [ exact H2 | ]. split; [ exact H3 | ].
  apply extract_line_segments_extracted in El.
  assert (Hsub : Forall (extracted_on pn minlen)
                   (if fba then filter VectorExtraction.axis_aligned lines
                    else lines)).
  { destruct fba; [ | exact El ].
    rewrite Forall_forall in *. intros s Hs. apply filter_In in Hs.
    apply El, Hs. }
  rewrite <- H1 in Hsub. rewrite Forall_forall in *.
  intros w Hw. apply Hsub. apply in_map. exact Hw.
Qed.

(** X24: the walls [extract_wall_segments_from_page] returns are the line
    segments [extract_line_segments_from_page] returns for the same
    arguments, in their order (with [filter_by_angle], those within 5
    degrees of an axis), each of kind "wall" with confidence 1 and with
    the identifier drawn for it; every one is on the page asked for and at
    least [min_length_px] long; and the wall extraction raises exactly
    when the line extraction does. *)
Theorem extracted_walls_are_the_lines :
  forall env page_number dpi min_length_px filter_by_angle,
    (forall walls,
       VectorExtraction.extract_wall_segments_from_page env page_number dpi
         min_length_px filter_by_angle = Ok walls ->
       exists lines,
         VectorExtraction.extract_line_segments_from_page env page_number
           dpi min_length_px = Ok lines
         /\ map segment walls
            = (if filter_by_angle
               then filter VectorExtraction.axis_aligned lines else lines)
         /\ map segment_id walls
            = map (VectorExtraction.generate_wall_segment_id env)
                  (seq 0 (List.length walls))
         /\ Forall (fun w => kind w = "wall"%string /\ ws_confidence w = 1
                             /\ ws_page_number w = page_number
                             /\ min_length_px <= ws_length_px w) walls)
    /\ (forall e,
          VectorExtraction.extract_wall_segments_from_page env page_number
            dpi min_length_px filter_by_angle = Raise e
          <-> VectorExtraction.extract_line_segments_from_page env
                page_number dpi min_length_px = Raise e).
Proof.
  intros env pn dpi minlen fba. split.
  - intros walls H.
    destruct (extract_wall_segments_extracted env pn dpi minlen fba walls H)
      as (lines & El & H1 & H2 & H3 & H4).
    exists lines. split; [ exact El | ]. split; [ exact H1 | ].
    split; [ exact H2 | ].
    rewrite Forall_forall in *. intros w Hw.
    destruct (H3 w Hw) as [Hk Hc]. destruct (H4 w Hw) as [Hp Hl]. auto.
  - intros e. unfold VectorExtraction.extract_wall_segments_from_page.
    destruct (VectorExtraction.extract_line_segments_from_page env pn dpi
                minlen) as [ lines | e' ]; cbn [bind].
    + split; intros H; discriminate H.
    + split; intros H; inversion H; reflexivity.
Qed.

(** The page with one rectangle gives its four sides. *)
Lemma extract_room_page :
  VectorExtraction.extract_wall_segments_from_page room_env 1 72 10 false
  = Ok [ {| segment_id := "wall_0123456789ab";
            segment := {| x1 := 10 * 1; y1 := 10 * 1; x2 := 90 * 1;
                          y2 := 10 * 1; page_number := 1 |};
            kind := "wall"; ws_confidence := 1 |};
         {| segment_id := "wall_0123456789ab";
            segment := {| x1 := 90 * 1; y1 := 10 * 1; x2 := 90 * 1;
                          y2 := 90 * 1; page_number := 1 |};
            kind := "wall"; ws_confidence := 1 |};
         {| segment_id := "wall_0123456789ab";
            segment := {| x1 := 90 * 1; y1 := 90 * 1; x2 := 10 * 1;
                          y2 := 90 * 1; page_number := 1 |};
            kind := "wall"; ws_confidence := 1 |};
         {| segment_id := "wall_0123456789ab";
            segment := {| x1 := 10 * 1; y1 := 90 * 1; x2 := 10 * 1;
                          y2 := 10 * 1; page_number := 1 |};
            kind := "wall"; ws_confidence := 1 |} ].
Proof.
  unfold VectorExtraction.extract_wall_segments_from_page,
    VectorExtraction.extract_line_segments_from_page, room_env.
  cbn [VectorExtraction.FITZ_AVAILABLE VectorExtraction.path_exists
       VectorExtraction.doc negb].
  change ((1 - 1 <? 0)%Z
          || (Z.of_nat (List.length
                [ {| VectorExtraction.drawings :=
                       [ [ VectorExtraction.ItemRect 10 10 90 90 ] ] |} ])
              <=? 1 - 1)%Z) with false.
  cbv iota.
  change (nth_error
            [ {| VectorExtraction.drawings :=
                   [ [ VectorExtraction.ItemRect 10 10 90 90 ] ] |} ]
            (Z.to_nat (1 - 1)))
    with (Some {| VectorExtraction.drawings :=
                    [ [ VectorExtraction.ItemRect 10 10 90 90 ] ] |}).
  cbv iota. replace (IZR 72 / 72) with 1 by lra.
  cbn [VectorExtraction.drawings fold_left VectorExtraction.line_item_body].
  unfold VectorExtraction.append_if_long.
  rewrite !dist_horizontal, !dist_vertical.
  rewrite (Rabs_right (90 * 1 - 10 * 1)) by lra.
  rewrite (Rabs_left (10 * 1 - 90 * 1)) by lra.
  Rle_true 10 (90 * 1 - 10 * 1). Rle_true 10 (- (10 * 1 - 90 * 1)).
  cbn [app bind fold_left]. reflexivity.
Qed.

(** The theorem at the page with one rectangle. *)
Lemma extracted_walls_are_the_lines_witness :
  exists walls lines,
    VectorExtraction.extract_wall_segments_from_page room_env 1 72 10 false
    = Ok walls
    /\ VectorExtraction.extract_line_segments_from_page room_env 1 72 10
       = Ok lines
    /\ map segment walls = lines
    /\ List.length walls = 4%nat.
Proof.
  destruct (proj1 (extracted_walls_are_the_lines room_env 1%Z 72%Z 10 false)
              _ extract_room_page) as (lines & El & Hs & _).
  eexists. exists lines. split; [ exact extract_room_page | ].
  split; [ exact El | ]. split; [ exact Hs | reflexivity ].
Defined.

End ExtractionFacts.

(** ** The drywall trade *)

Section GewerkFacts.
Import Py Gewerke.

Lemma has_scale_positive (sc : ScaleCalibration.ScaleContext) :
  ScaleCalibration.has_scale sc = true ->
  exists ppm, ScaleCalibration.pixels_per_meter sc = Some ppm /\ 0 < ppm.
Proof.
  unfold ScaleCalibration.has_scale.
  destruct (ScaleCalibration.pixels_per_meter sc) as [ ppm | ];
    [ | intros H; discriminate H ].
  intros H. apply Rltb_true_iff in H. exists ppm. auto.
Qed.

(** On walls of the sector's page, counting is the polygon test alone. *)
Lemma counted_on_page (sector : MeasurementEngine.Sector)
    (walls : list VectorMeasurement.WallSegment) :
  Forall (fun w => VectorMeasurement.ws_page_number w
                   = MeasurementEngine.page_number sector) walls ->
  filter (counted sector true) walls = walls_inside sector walls.
Proof.
  intros H. unfold walls_inside. apply filter_ext_in. intros w Hw.
  rewrite Forall_forall in H. unfold counted. rewrite (H w Hw).
  rewrite Z.eqb_refl. reflexivity.
Qed.

(** The result for a sector when nothing fails. *)
Lemma sector_result_ok (env : VectorExtraction.PdfEnv) (pdf_path : string)
    (sector : MeasurementEngine.Sector)
    (sc : ScaleCalibration.ScaleContext) (h : R) (dpi : Z) (minlen : R)
    (ppm : R) (walls : list VectorMeasurement.WallSegment) :
  0 < h -> ScaleCalibration.pixels_per_meter sc = Some ppm -> 0 < ppm ->
  VectorExtraction.extract_wall_segments_from_page env
    (MeasurementEngine.page_number sector) dpi minlen false = Ok walls ->
  exists item,
    run_drywall_gewerk_for_sector env pdf_path sector sc h dpi minlen
    = {| gewerk_type := "drywall";
         source_file := pdf_path;
         status := "ok";
         items := [item];
         summary :=
           {| total_sectors := 1;
              total_wall_length_m := wall_length_m item;
              total_drywall_area_m2 := drywall_area_m2 item;
              average_wall_height_m := h |};
         errors := [];
         warnings :=
           match walls with
           | [] => [ M_no_wall_segments (MeasurementEngine.page_number sector) ]
           | _ :: _ => []
           end |}
    /\ sector_id item = MeasurementEngine.sector_id sector
    /\ page_number item = MeasurementEngine.page_number sector
    /\ wall_height_m item = h
    /\ wall_length_m item
       = round_ndigits (counted_length_px sector true walls / ppm) 4
    /\ drywall_area_m2 item = round_ndigits (wall_length_m item * h) 4
    /\ wall_segment_count item
       = List.length (filter (counted sector true) walls).
Proof.
  intros Hh Hsc Hppm Hex. unfold run_drywall_gewerk_for_sector.
  Rle_false h 0.
  replace (ScaleCalibration.has_scale sc) with true
    by (unfold ScaleCalibration.has_scale; rewrite Hsc; symmetry;
        apply Rltb_true_iff; exact Hppm).
  cbn [negb]. rewrite Hex.
  destruct (compute_wall_length_value walls sector sc true ppm Hsc Hppm)
    as (wl & Hwl & Hv & _ & Ha).
  destruct (compute_drywall_area_value walls sector sc h true ppm Hsc Hppm Hh)
    as (da & Hda & Hdv & _).
  rewrite Hwl, Hda. cbn [bind].
  exists {| sector_id := MeasurementEngine.sector_id sector;
            sector_name := MeasurementEngine.name sector;
            page_number := MeasurementEngine.page_number sector;
            wall_length_m := MeasurementEngine.value wl;
            wall_height_m := h;
            drywall_area_m2 := MeasurementEngine.value da;
            wall_segment_count :=
              VectorMeasurement.find_segment_count
                (MeasurementEngine.assumptions wl);
            confidence :=
              Rmin (MeasurementEngine.confidence wl)
                   (MeasurementEngine.confidence da);
            assumptions := MeasurementEngine.assumptions da |}.
  split; [ reflexivity | ].
  cbn [sector_id page_number wall_height_m wall_length_m drywall_area_m2
       wall_segment_count].
  rewrite Ha, Hv, Hdv. cbn [VectorMeasurement.find_segment_count].
  repeat (split; [ reflexivity | ]). reflexivity.
Qed.

(** A sector gives one item and no error, or one error and no item. *)
Lemma sector_result_cases (env : VectorExtraction.PdfEnv) (pdf_path : string)
    (sector : MeasurementEngine.Sector)
    (sc : ScaleCalibration.ScaleContext) (h : R) (dpi : Z) (minlen : R) :
  let r := run_drywall_gewerk_for_sector env pdf_path sector sc h dpi minlen in
  (0 < h /\ ScaleCalibration.has_scale sc = true
   /\ status r = "ok"%string /\ errors r = []
   /\ exists item,
        items r = [item]
        /\ wall_height_m item = h
        /\ 0 <= wall_length_m item
        /\ drywall_area_m2 item = round_ndigits (wall_length_m item * h) 4)
  \/ (status r = "error"%string /\ items r = []
      /\ summary r = default_summary
      /\ exists m, errors r = [m]).
Proof.
  cbn zeta.
  destruct (Rle_or_lt h 0) as [Hh | Hh].
  { right. unfold run_drywall_gewerk_for_sector. Rle_true h 0.
    simpl. eauto. }
  destruct (ScaleCalibration.has_scale sc) eqn:Hs.
  2: { right. unfold run_drywall_gewerk_for_sector. Rle_false h 0.
       rewrite Hs. simpl. eauto. }
  destruct (has_scale_positive sc Hs) as (ppm & Hsc & Hppm).
  destruct (VectorExtraction.extract_wall_segments_from_page env
              (MeasurementEngine.page_number sector) dpi minlen false)
    as [ walls | e ] eqn:Hex.
  - left.
    destruct (sector_result_ok env pdf_path sector sc h dpi minlen ppm walls
                Hh Hsc Hppm Hex)
      as (item & -> & _ & _ & Hht & Hl & Ha & _).
    cbn [status errors items].
    split; [ exact Hh | ]. split; [ reflexivity | ].
    split; [ reflexivity | ]. split; [ reflexivity | ].
    exists item. split; [ reflexivity | ]. split; [ exact Hht | ].
    split; [ | exact Ha ].
    rewrite Hl. apply round_ndigits_nonneg.
    apply Rmult_le_pos; [ apply counted_length_px_nonneg | ].
    left. apply Rinv_0_lt_compat. exact Hppm.
  - right. unfold run_drywall_gewerk_for_sector. Rle_false h 0.
    rewrite Hs, Hex. simpl. eauto.
Qed.

(** X25: [run_drywall_gewerk_for_sector] raises nothing and ends in
    status "ok" exactly when the wall height is positive, the context has
    a scale and the wall extraction of the sector's page returns; it then
    has no error and one item, whose wall length is the total length of
    the extracted walls with both ends inside the sector's polygon,
    converted to metres and rounded to 4 places, whose drywall area is
    that length times the wall height, rounded to 4 places, and whose
    segment count is the number of those walls; the summary repeats the
    item, and there is a warning exactly when the page has no wall at
    all.  Otherwise the status is "error", with one error and no item. *)
Theorem drywall_sector_result :
  forall env pdf_path sector sc h dpi minlen,
    let r := run_drywall_gewerk_for_sector env pdf_path sector sc h dpi
               minlen in
    (status r = "ok"%string
     <-> (0 < h /\ ScaleCalibration.has_scale sc = true
          /\ exists walls,
               VectorExtraction.extract_wall_segments_from_page env
                 (MeasurementEngine.page_number sector) dpi minlen false
               = Ok walls))
    /\ (status r <> "ok"%string ->
        status r = "error"%string /\ items r = []
        /\ exists m, errors r = [m])
    /\ (forall walls ppm,
          0 < h -> ScaleCalibration.pixels_per_meter sc = Some ppm ->
          0 < ppm ->
          VectorExtraction.extract_wall_segments_from_page env
            (MeasurementEngine.page_number sector) dpi minlen false
          = Ok walls ->
          errors r = []
          /\ (warnings r = [] <-> walls <> [])
          /\ exists item,
               items r = [item]
               /\ wall_length_m item
                  = round_ndigits
                      (Rsum (map VectorMeasurement.ws_length_px
                               (walls_inside sector walls)) / ppm) 4
               /\ drywall_area_m2 item
                  = round_ndigits (wall_length_m item * h) 4
               /\ wall_segment_count item
                  = List.length (walls_inside sector walls)
               /\ summary r
                  = {| total_sectors := 1;
                       total_wall_length_m := wall_length_m item;
                       total_drywall_area_m2 := drywall_area_m2 item;
                       average_wall_height_m := h |}).
Proof.
  intros env pdf_path sector sc h dpi minlen r.
  assert (Hok : forall walls ppm,
            0 < h -> ScaleCalibration.pixels_per_meter sc = Some ppm ->
            0 < ppm ->
            VectorExtraction.extract_wall_segments_from_page env
              (MeasurementEngine.page_number sector) dpi minlen false
            = Ok walls ->
            status r = "ok"%string /\ errors r = []
            /\ (warnings r = [] <-> walls <> [])
            /\ exists item,
                 items r = [item]
                 /\ wall_length_m item
                    = round_ndigits
                        (Rsum (map VectorMeasurement.ws_length_px
                                 (walls_inside sector walls)) / ppm) 4
                 /\ drywall_area_m2 item
                    = round_ndigits (wall_length_m item * h) 4
                 /\ wall_segment_count item
                    = List.length (walls_inside sector walls)
                 /\ summary r
                    = {| total_sectors := 1;
                         total_wall_length_m := wall_length_m item;
                         total_drywall_area_m2 := drywall_area_m2 item;
                         average_wall_height_m := h |}).
  { intros walls ppm Hh Hsc Hppm Hex.
    destruct (sector_result_ok env pdf_path sector sc h dpi minlen ppm walls
                Hh Hsc Hppm Hex)
      as (item & Er & _ & _ & _ & Hl & Ha & Hc).
    assert (Hpage : filter (counted sector true) walls
                    = walls_inside sector walls).
    { apply counted_on_page.
      destruct (extract_wall_segments_extracted _ _ _ _ _ _ Hex)
        as (_ & _ & _ & _ & _ & Hon).
      eapply Forall_impl; [ | exact Hon ]. simpl. intros w [Hp _]. exact Hp. }
    unfold r. rewrite Er. cbn [status errors warnings items summary].
    split; [ reflexivity | ]. split; [ reflexivity | ]. split.
    - destruct walls; split; intros H; try congruence; discriminate H.
    - exists item. split; [ reflexivity | ].
      unfold counted_length_px in Hl. rewrite Hpage in Hl, Hc.
      split; [ exact Hl | ]. split; [ exact Ha | ].
      split; [ exact Hc | reflexivity ]. }
  pose proof (sector_result_cases env pdf_path sector sc h dpi minlen) as Hc.
  cbn zeta in Hc. fold r in Hc.
  split; [ | split ].
  - split.
    + intros Hst.
      destruct Hc as [(Hh & Hs & _) | (He & _)];
        [ | rewrite He in Hst; discriminate Hst ].
      split; [ exact Hh | ]. split; [ exact Hs | ].
      destruct (VectorExtraction.extract_wall_segments_from_page env
                  (MeasurementEngine.page_number sector) dpi minlen false)
        as [ walls | e ] eqn:Hex; [ exists walls; reflexivity | ].
      exfalso. unfold r, run_drywall_gewerk_for_sector in Hst.
      Rle_false h 0. rewrite Hs, Hex in Hst.
      replace (Rleb h 0) with false in Hst
        by (symmetry; apply Rleb_false_iff; lra).
      simpl in Hst. discriminate Hst.
    + intros (Hh & Hs & walls & Hex).
      destruct (has_scale_positive sc Hs) as (ppm & Hsc & Hppm).
      apply (Hok walls ppm Hh Hsc Hppm Hex).
  - intros Hst. destruct Hc as [(_ & _ & Ho & _) | (He & Hi & _ & Hm)];
      [ contradiction | auto ].
  - intros walls ppm Hh Hsc Hppm Hex.
    destruct (Hok walls ppm Hh Hsc Hppm Hex) as (_ & H). exact H.
Qed.

Lemma extract_blank_page :
  VectorExtraction.extract_wall_segments_from_page blank_line_env 1 150 5
    false = Ok [].
Proof. reflexivity. Qed.

(** The theorem at the square room drawn on [room_env], at 10 px per
    metre and a wall height of 2.6 m. *)
Lemma drywall_sector_result_witness :
  let r := run_drywall_gewerk_for_sector room_env "plan.pdf" square_sector
             (scale_with 10) 2.6 72 10 in
  errors r = []
  /\ exists item,
       items r = [item]
       /\ drywall_area_m2 item = round_ndigits (wall_length_m item * 2.6) 4.
Proof.
  cbn zeta.
  destruct (proj2 (proj2 (drywall_sector_result room_env "plan.pdf"%string
                            square_sector (scale_with 10) 2.6 72%Z 10))
              _ 10 ltac:(lra) eq_refl ltac:(lra) extract_room_page)
    as (He & _ & item & Hi & _ & Ha & _).
  split; [ exact He | ]. exists item. split; [ exact Hi | exact Ha ].
Defined.

Lemma fold_left_plus_Rsum {A : Type} (f : A -> R) (l : list A) (t : R) :
  fold_left (fun t a => t + f a) l t = t + Rsum (map f l).
Proof.
  revert t. induction l as [ | a l IH ]; intros t; simpl.
  - unfold Rsum. simpl. lra.
  - rewrite IH. unfold Rsum. simpl. lra.
Qed.

(** The loop over the sectors, from any state it can be in. *)
Lemma sectors_loop (env : VectorExtraction.PdfEnv) (pdf_path : string)
    (sc : ScaleCalibration.ScaleContext) (h : R) (dpi : Z) (minlen : R)
    (P : DrywallGewerkItem -> Prop) :
  (forall sector item,
     In item (items (run_drywall_gewerk_for_sector env pdf_path sector sc h
                       dpi minlen)) -> P item) ->
  forall (sectors : list MeasurementEngine.Sector) (acc : SectorsAcc),
    let acc' := fold_left (sectors_body env pdf_path sc h dpi minlen)
                          sectors acc in
    (List.length (acc_items acc') + List.length (acc_errors acc')
     = List.length (acc_items acc) + List.length (acc_errors acc)
       + List.length sectors)%nat
    /\ total_length acc' - Rsum (map wall_length_m (acc_items acc'))
       = total_length acc - Rsum (map wall_length_m (acc_items acc))
    /\ total_area acc' - Rsum (map drywall_area_m2 (acc_items acc'))
       = total_area acc - Rsum (map drywall_area_m2 (acc_items acc))
    /\ (Forall P (acc_items acc) -> Forall P (acc_items acc'))
    /\ ((h <= 0 \/ ScaleCalibration.has_scale sc = false) ->
        acc_items acc' = acc_items acc).
Proof.
  intros HP. induction sectors as [ | sector sectors IH ]; intros acc;
    cbn zeta.
  - simpl. split; [ lia | ]. split; [ reflexivity | ].
    split; [ reflexivity | ]. split; [ auto | reflexivity ].
  - cbn [fold_left].
    set (r := run_drywall_gewerk_for_sector env pdf_path sector sc h dpi
                minlen).
    set (acc1 := sectors_body env pdf_path sc h dpi minlen acc sector).
    assert (Ei : acc_items acc1 = acc_items acc ++ items r) by reflexivity.
    assert (Ee : acc_errors acc1 = acc_errors acc ++ errors r)
      by reflexivity.
    assert (El : total_length acc1
                 = total_length acc + Rsum (map wall_length_m (items r))).
    { unfold acc1, sectors_body. cbn [total_length].
      apply fold_left_plus_Rsum. }
    assert (Ea : total_area acc1
                 = total_area acc + Rsum (map drywall_area_m2 (items r))).
    { unfold acc1, sectors_body. cbn [total_area].
      apply fold_left_plus_Rsum. }
    destruct (IH acc1) as (Hn & Hl & Ha & HF & Hz).
    rewrite Ei, Ee in Hn. rewrite Ei, El in Hl. rewrite Ei, Ea in Ha.
    rewrite Ei in HF, Hz.
    rewrite !map_app, !Rsum_app in Hl, Ha. rewrite !length_app in Hn.
    pose proof (sector_result_cases env pdf_path sector sc h dpi minlen)
      as Hc. cbn zeta in Hc. fold r in Hc.
    pose proof (HP sector) as HPs. fold r in HPs.
    assert (Hone : (List.length (items r) + List.length (errors r) = 1)%nat).
    { destruct Hc as [(_ & _ & _ & He & item & Hi & _)
                     | (_ & Hi & _ & m & He)];
        rewrite Hi, He; reflexivity. }
    split; [ simpl; lia | ]. split; [ lra | ]. split; [ lra | ]. split.
    + intros H0. apply HF. apply Forall_app. split; [ exact H0 | ].
      apply Forall_forall. exact HPs.
    + intros Hbad. rewrite (Hz Hbad).
      destruct Hc as [(Hh & Hs & _) | (_ & Hi & _)].
      * destruct Hbad; [ lra | congruence ].
      * rewrite Hi. apply app_nil_r.
Qed.

(** X26: [run_drywall_gewerk_for_sectors] counts every sector it was
    given, and each sector gives either one item or one error; the totals
    of the summary are the sums of the items' wall lengths and drywall
    areas; every item has the wall height asked for, a wall length that is
    not negative and a drywall area equal to its wall length times the
    height, rounded to 4 places; the status is "ok" exactly without
    errors, "partial" with errors and items, "error" with errors and no
    item; and a wall height that is not positive or a context without
    scale gives no item and totals of zero. *)
Theorem drywall_sectors_result :
  forall env pdf_path sectors sc h dpi minlen,
    let r := run_drywall_gewerk_for_sectors env pdf_path sectors sc h dpi
               minlen in
    total_sectors (summary r) = List.length sectors
    /\ (List.length (items r) + List.length (errors r)
        = List.length sectors)%nat
    /\ total_wall_length_m (summary r) = Rsum (map wall_length_m (items r))
    /\ total_drywall_area_m2 (summary r)
       = Rsum (map drywall_area_m2 (items r))
    /\ Forall (fun item =>
                 wall_height_m item = h
                 /\ 0 <= wall_length_m item
                 /\ drywall_area_m2 item
                    = round_ndigits (wall_length_m item * h) 4) (items r)
    /\ (status r = "ok"%string <-> errors r = [])
    /\ (status r = "partial"%string <-> errors r <> [] /\ items r <> [])
    /\ (status r = "error"%string <-> errors r <> [] /\ items r = [])
    /\ ((h <= 0 \/ ScaleCalibration.has_scale sc = false) ->
        items r = []
        /\ total_wall_length_m (summary r) = 0
        /\ total_drywall_area_m2 (summary r) = 0).
Proof.
  intros env pdf_path sectors sc h dpi minlen r.
  destruct (sectors_loop env pdf_path sc h dpi minlen
              (fun item =>
                 wall_height_m item = h
                 /\ 0 <= wall_length_m item
                 /\ drywall_area_m2 item
                    = round_ndigits (wall_length_m item * h) 4))
    with (sectors := sectors)
         (acc := {| acc_items := []; acc_warnings := []; acc_errors := [];
                    total_length := 0; total_area := 0 |})
    as (Hn & Hl & Ha & HF & Hz).
  { intros sector item Hin.
    pose proof (sector_result_cases env pdf_path sector sc h dpi minlen)
      as Hc. cbn zeta in Hc.
    destruct Hc as [(_ & _ & _ & _ & it & Hi & H1 & H2 & H3)
                   | (_ & Hi & _)]; rewrite Hi in Hin.
    - destruct Hin as [<- | []]. auto.
    - destruct Hin. }
  cbn [acc_items acc_errors total_length total_area List.length map] in *.
  unfold Rsum at 2 in Hl. unfold Rsum at 2 in Ha. simpl in Hl, Ha.
  unfold r, run_drywall_gewerk_for_sectors.
  cbn [summary items errors status total_sectors total_wall_length_m
       total_drywall_area_m2].
  set (acc := fold_left (sectors_body env pdf_path sc h dpi minlen) sectors
                {| acc_items := []; acc_warnings := []; acc_errors := [];
                   total_length := 0; total_area := 0 |}) in *.
  split; [ reflexivity | ]. split; [ simpl in Hn; lia | ].
  split; [ lra | ]. split; [ lra | ].
  split; [ apply HF; constructor | ].
  split; [ | split; [ | split ] ].
  - destruct (acc_errors acc); [ tauto | ].
    destruct (acc_items acc); split; intros H; discriminate H.
  - destruct (acc_errors acc) as [ | m ms ].
    + split; [ intros H; discriminate H | intros [H _]; congruence ].
    + destruct (acc_items acc).
      * split; [ intros H; discriminate H | intros [_ H]; congruence ].
      * split; [ intros _; split; intros H; discriminate H | reflexivity ].
  - destruct (acc_errors acc) as [ | m ms ].
    + split; [ intros H; discriminate H | intros [H _]; congruence ].
    + destruct (acc_items acc).
      * split; [ intros _; split; [ intros H; discriminate H | reflexivity ]
               | reflexivity ].
      * split; [ intros H; discriminate H | intros [_ H]; discriminate H ].
  - intros Hbad. pose proof (Hz Hbad) as E. rewrite E in Hl, Ha.
    unfold Rsum in Hl, Ha. simpl in Hl, Ha.
    split; [ exact E | ]. split; lra.
Qed.

(** The theorem at two sectors and a wall height of zero. *)
Lemma drywall_sectors_result_witness :
  let r := run_drywall_gewerk_for_sectors room_env "plan.pdf"
             [square_sector; square_sector] (scale_with 10) 0 72 10 in
  items r = []
  /\ total_wall_length_m (summary r) = 0
  /\ total_drywall_area_m2 (summary r) = 0.
Proof.
  apply (proj2 (proj2 (proj2 (proj2 (proj2 (proj2 (proj2 (proj2
           (drywall_sectors_result room_env "plan.pdf"%string
              [square_sector; square_sector] (scale_with 10) 0 72%Z
              10))))))))).
  left. lra.
Defined.

End GewerkFacts.

(** ** Gaps between collinear wall lines *)

Section GapFacts.
Import Py WallGaps.

Lemma insert_asc_perm {A : Type} (key : A -> R) (a : A) (l : list A) :
  Permutation (insert_asc key a l) (a :: l).
Proof.
  induction l as [ | b l IH ]; simpl.
  - apply Permutation_refl.
  - destruct (Rltb (key b) (key a)).
    + eapply perm_trans; [ apply perm_skip, IH | apply perm_swap ].
    + apply Permutation_refl.
Qed.

Lemma sorted_perm {A : Type} (key : A -> R) (l : list A) :
  Permutation (sorted key l) l.
Proof.
  unfold sorted. induction l as [ | a l IH ]; simpl.
  - apply perm_nil.
  - eapply perm_trans; [ apply insert_asc_perm | apply perm_skip, IH ].
Qed.

Lemma total_members_app (gs1 gs2 : list (list Line)) :
  total_members (gs1 ++ gs2) = (total_members gs1 + total_members gs2)%nat.
Proof.
  unfold total_members. induction gs1 as [ | g gs1 IH ]; simpl; [ lia | ].
  rewrite IH. lia.
Qed.

(** The grouping loop, from any state it can be in. *)
Lemma group_loop (o : string) (lines : list Line) (rest : list Line) :
  forall (groups : list (list Line)) (cur : list Line) (pos : R),
    incl rest lines -> incl cur lines -> cur <> [] ->
    pos = position_key o (nth 0 cur (0, 0, 0, 0)%Z) ->
    Forall (fun l => Rabs (position_key o l - pos) <= tolerance) cur ->
    Forall (good_group o lines) groups ->
    let '(groups', cur', pos') :=
      fold_left (group_body o) rest (groups, cur, pos) in
    incl cur' lines /\ cur' <> []
    /\ pos' = position_key o (nth 0 cur' (0, 0, 0, 0)%Z)
    /\ Forall (fun l => Rabs (position_key o l - pos') <= tolerance) cur'
    /\ Forall (good_group o lines) groups'
    /\ (total_members groups' + List.length cur'
        <= total_members groups + List.length cur + List.length rest)%nat.
Proof.
  induction rest as [ | line rest IH ];
    intros groups cur pos Hrest Hcur Hne Hpos Hclose Hgood.
  - simpl. split; [ exact Hcur | ]. split; [ exact Hne | ].
    split; [ exact Hpos | ]. split; [ exact Hclose | ].
    split; [ exact Hgood | lia ].
  - cbn [fold_left]. unfold group_body at 2.
    assert (Hline : In line lines) by (apply Hrest; left; reflexivity).
    assert (Hrest' : incl rest lines)
      by (intros l Hl; apply Hrest; right; exact Hl).
    case_Rleb (Rabs (position_key o line - pos)) tolerance.
    + specialize (IH groups (cur ++ [line]) pos Hrest').
      destruct (fold_left (group_body o) rest (groups, cur ++ [line], pos))
        as [[groups' cur'] pos'].
      destruct IH as (H1 & H2 & H3 & H4 & H5 & H6).
      * intros l Hl. apply in_app_or in Hl.
        destruct Hl as [Hl | [<- | []]]; [ apply Hcur, Hl | exact Hline ].
      * destruct cur; discriminate.
      * rewrite Hpos. destruct cur; [ congruence | reflexivity ].
      * apply Forall_app. split; [ exact Hclose | ].
        constructor; [ exact Hcmp | constructor ].
      * exact Hgood.
      * rewrite length_app in H6. simpl in H6 |- *.
        repeat (split; [ assumption | ]). lia.
    + set (groups1 := if (2 <=? List.length cur)%nat
                      then groups ++ [cur] else groups).
      specialize (IH groups1 [line] (position_key o line) Hrest').
      destruct (fold_left (group_body o) rest
                  (groups1, [line], position_key o line))
        as [[groups' cur'] pos'].
      assert (Hg1 : Forall (good_group o lines) groups1
                    /\ (total_members groups1 <= total_members groups
                                                 + List.length cur)%nat).
      { unfold groups1. destruct (2 <=? List.length cur)%nat eqn:E2.
        - apply Nat.leb_le in E2. split.
          + apply Forall_app. split; [ exact Hgood | ].
            constructor; [ | constructor ].
            split; [ exact E2 | ]. split; [ exact Hcur | ].
            rewrite <- Hpos. exact Hclose.
          + rewrite total_members_app. simpl. lia.
        - split; [ exact Hgood | lia ]. }
      destruct IH as (H1 & H2 & H3 & H4 & H5 & H6).
      * intros l [<- | []]. exact Hline.
      * discriminate.
      * reflexivity.
      * constructor; [ | constructor ].
        replace (position_key o line - position_key o line) with 0 by ring.
        rewrite Rabs_R0. unfold tolerance. lra.
      * apply Hg1.
      * repeat (split; [ assumption | ]). simpl in H6 |- *.
        destruct Hg1 as [_ Hle]. lia.
Qed.

Lemma groups_of_good (o : string) (lines : list Line) :
  Forall (good_group o lines) (groups_of o lines)
  /\ (total_members (groups_of o lines) <= List.length lines)%nat.
Proof.
  unfold groups_of. destruct lines as [ | first rest ].
  - split; [ constructor | simpl; lia ].
  - pose proof (group_loop o (first :: rest) rest [] [first]
                  (position_key o first)) as H.
    destruct (fold_left (group_body o) rest
                ([], [first], position_key o first))
      as [[groups cur] pos].
    destruct H as (H1 & H2 & H3 & H4 & H5 & H6).
    + intros l Hl. right. exact Hl.
    + intros l [<- | []]. left. reflexivity.
    + discriminate.
    + reflexivity.
    + constructor; [ | constructor ].
      replace (position_key o first - position_key o first) with 0 by ring.
      rewrite Rabs_R0. unfold tolerance. lra.
    + constructor.
    + simpl in H6. destruct (2 <=? List.length cur)%nat eqn:E2.
      * apply Nat.leb_le in E2. split.
        -- apply Forall_app. split; [ exact H5 | ].
           constructor; [ | constructor ].
           split; [ exact E2 | ]. split; [ exact H1 | ].
           rewrite <- H3. exact H4.
        -- rewrite total_members_app. simpl. lia.
      * split; [ exact H5 | simpl; lia ].
Qed.

(** One turn of the gap loop adds at most one opening, a gap between two
    lines of the group. *)
Lemma gap_body_found (ids : nat -> string) (o : string)
    (min_gap max_gap min_context pn : Z) (lines : list Line)
    (group : list Line) (segments : list (Z * Z))
    (openings : list WallOpeningDetector.WallOpening) (i : nat) :
  good_group o lines group ->
  incl segments (map (extent_key o) group) ->
  (i + 1 < List.length segments)%nat ->
  Forall (found_gap o min_gap max_gap min_context pn lines) openings ->
  Forall (found_gap o min_gap max_gap min_context pn lines)
         (gap_body ids o min_gap max_gap min_context pn group segments
            openings i)
  /\ (List.length (gap_body ids o min_gap max_gap min_context pn group
                     segments openings i)
      <= List.length openings + 1)%nat.
Proof.
  intros (Hlen & Hincl & Hclose) Hseg Hi Hall. unfold gap_body.
  set (s1 := nth i segments (0, 0)%Z).
  set (s2 := nth (i + 1) segments (0, 0)%Z).
  destruct ((min_gap <=? fst s2 - snd s1)%Z && (fst s2 - snd s1 <=? max_gap)%Z)
    eqn:Eg; [ | split; [ exact Hall | lia ] ].
  destruct ((min_context <=? snd s1 - fst s1)%Z
            && (min_context <=? snd s2 - fst s2)%Z) eqn:Ec;
    [ | split; [ exact Hall | lia ] ].
  apply andb_true_iff in Eg. destruct Eg as [Eg1 Eg2].
  apply andb_true_iff in Ec. destruct Ec as [Ec1 Ec2].
  apply Z.leb_le in Eg1, Eg2, Ec1, Ec2.
  assert (H1 : exists l1, In l1 group /\ extent_key o l1 = s1).
  { assert (Hin : In s1 (map (extent_key o) group))
      by (apply Hseg, nth_In; lia).
    apply in_map_iff in Hin. destruct Hin as (l1 & E & Hl1). eauto. }
  assert (H2 : exists l2, In l2 group /\ extent_key o l2 = s2).
  { assert (Hin : In s2 (map (extent_key o) group))
      by (apply Hseg, nth_In; lia).
    apply in_map_iff in Hin. destruct Hin as (l2 & E & Hl2). eauto. }
  destruct H1 as (l1 & Hl1 & E1). destruct H2 as (l2 & Hl2 & E2).
  rewrite Forall_forall in Hclose.
  assert (H0 : In (nth 0 group (0, 0, 0, 0)%Z) group)
    by (apply nth_In; lia).
  split; [ | destruct (String.eqb o "horizontal"); rewrite length_app;
             simpl; lia ].
  destruct (String.eqb o "horizontal") eqn:Eo.
  - apply Forall_app. split; [ exact Hall | ].
    constructor; [ | constructor ].
    unfold found_gap. cbn [WallOpeningDetector.page_number
      WallOpeningDetector.is_door WallOpeningDetector.width_m
      WallOpeningDetector.confidence].
    repeat (split; [ reflexivity | ]).
    exists (nth 0 group (0, 0, 0, 0)%Z), l1, l2.
    split; [ apply Hincl, H0 | ]. split; [ apply Hincl, Hl1 | ].
    split; [ apply Hincl, Hl2 | ].
    unfold gap_between. rewrite E1, E2, Eo.
    cbn [WallOpeningDetector.width_px WallOpeningDetector.center_x
         WallOpeningDetector.center_y WallOpeningDetector.angle_degrees].
    split; [ reflexivity | ]. split; [ lia | ]. split; [ exact Ec1 | ].
    split; [ exact Ec2 | ].
    split; [ split; [ reflexivity | split; reflexivity ] | ].
    split; [ apply Hclose, Hl1 | apply Hclose, Hl2 ].
  - apply Forall_app. split; [ exact Hall | ].
    constructor; [ | constructor ].
    unfold found_gap. cbn [WallOpeningDetector.page_number
      WallOpeningDetector.is_door WallOpeningDetector.width_m
      WallOpeningDetector.confidence].
    repeat (split; [ reflexivity | ]).
    exists (nth 0 group (0, 0, 0, 0)%Z), l1, l2.
    split; [ apply Hincl, H0 | ]. split; [ apply Hincl, Hl1 | ].
    split; [ apply Hincl, Hl2 | ].
    unfold gap_between. rewrite E1, E2, Eo.
    cbn [WallOpeningDetector.width_px WallOpeningDetector.center_x
         WallOpeningDetector.center_y WallOpeningDetector.angle_degrees].
    split; [ reflexivity | ]. split; [ lia | ]. split; [ exact Ec1 | ].
    split; [ exact Ec2 | ].
    split; [ split; [ reflexivity | split; reflexivity ] | ].
    split; [ apply Hclose, Hl1 | apply Hclose, Hl2 ].
Qed.

Lemma gap_loop_found (ids : nat -> string) (o : string)
    (min_gap max_gap min_context pn : Z) (lines : list Line)
    (group : list Line) (segments : list (Z * Z)) (idxs : list nat) :
  good_group o lines group ->
  incl segments (map (extent_key o) group) ->
  Forall (fun i => (i + 1 < List.length segments)%nat) idxs ->
  forall openings,
    Forall (found_gap o min_gap max_gap min_context pn lines) openings ->
    Forall (found_gap o min_gap max_gap min_context pn lines)
           (fold_left (gap_body ids o min_gap max_gap min_context pn group
                         segments) idxs openings)
    /\ (List.length (fold_left (gap_body ids o min_gap max_gap min_context
                                  pn group segments) idxs openings)
        <= List.length openings + List.length idxs)%nat.
Proof.
  intros Hg Hseg. induction 1 as [ | i idxs Hi _ IH ]; intros openings Hall.
  - simpl. split; [ exact Hall | lia ].
  - cbn [fold_left].
    destruct (gap_body_found ids o min_gap max_gap min_context pn lines
                group segments openings i Hg Hseg Hi Hall) as [Hf Hl].
    destruct (IH _ Hf) as [Hf' Hl']. split; [ exact Hf' | simpl; lia ].
Qed.

Lemma gaps_of_group_found (ids : nat -> string) (o : string)
    (min_gap max_gap min_context pn : Z) (lines : list Line)
    (group : list Line)
    (openings : list WallOpeningDetector.WallOpening) :
  good_group o lines group ->
  Forall (found_gap o min_gap max_gap min_context pn lines) openings ->
  Forall (found_gap o min_gap max_gap min_context pn lines)
         (gaps_of_group ids o min_gap max_gap min_context pn openings group)
  /\ (List.length (gaps_of_group ids o min_gap max_gap min_context pn
                     openings group) + 1
      <= List.length openings + List.length group)%nat.
Proof.
  intros Hg Hall. unfold gaps_of_group.
  set (segments := sorted (fun s : Z * Z => IZR (fst s))
                          (map (extent_key o) group)).
  assert (Hperm : Permutation segments (map (extent_key o) group))
    by apply sorted_perm.
  assert (Hlen : List.length segments = List.length group).
  { rewrite (Permutation_length Hperm). apply length_map. }
  destruct (gap_loop_found ids o min_gap max_gap min_context pn lines group
              segments (seq 0 (List.length segments - 1)) Hg) with
    (openings := openings) as [Hf Hl].
  - intros s Hs. apply (Permutation_in _ Hperm), Hs.
  - apply Forall_forall. intros i Hi. apply in_seq in Hi. lia.
  - exact Hall.
  - split; [ exact Hf | ]. rewrite length_seq in Hl.
    destruct Hg as [H2 _]. lia.
Qed.

Lemma groups_loop_found (ids : nat -> string) (o : string)
    (min_gap max_gap min_context pn : Z) (lines : list Line)
    (groups : list (list Line)) :
  Forall (good_group o lines) groups ->
  forall openings,
    Forall (found_gap o min_gap max_gap min_context pn lines) openings ->
    Forall (found_gap o min_gap max_gap min_context pn lines)
           (fold_left (gaps_of_group ids o min_gap max_gap min_context pn)
                      groups openings)
    /\ (List.length (fold_left (gaps_of_group ids o min_gap max_gap
                                  min_context pn) groups openings)
        + List.length groups
        <= List.length openings + total_members groups)%nat.
Proof.
  induction 1 as [ | g groups Hg _ IH ]; intros openings Hall.
  - simpl. split; [ exact Hall | lia ].
  - cbn [fold_left].
    destruct (gaps_of_group_found ids o min_gap max_gap min_context pn lines
                g openings Hg Hall) as [Hf Hl].
    destruct (IH _ Hf) as [Hf' Hl']. split; [ exact Hf' | ].
    simpl. lia.
Qed.

(** X27: [_find_collinear_gaps] returns nothing for fewer than two lines,
    and never as many openings as it was given lines.  Every opening it
    returns is the gap between the end of one given line and the start of
    another: its width is that gap, which lies between [min_gap] and
    [max_gap]; both lines are at least [min_context] long and lie within
    20 px of the line that gives the opening its position; the opening is
    centred in the gap, at angle 0 for horizontal lines and 90 otherwise,
    on the page asked for, not yet a door, with confidence 0.5. *)
Theorem collinear_gaps_invariants :
  forall ids lines o min_gap max_gap min_context pn img_h img_w,
    let openings :=
      _find_collinear_gaps ids lines o min_gap max_gap min_context pn
        img_h img_w in
    ((List.length lines < 2)%nat -> openings = [])
    /\ (List.length openings <= List.length lines - 1)%nat
    /\ Forall (found_gap o min_gap max_gap min_context pn lines) openings
    /\ ((max_gap < min_gap)%Z -> openings = []).
Proof.
  intros ids lines o min_gap max_gap min_context pn img_h img_w openings.
  assert (Hmain : (List.length openings <= List.length lines - 1)%nat
                  /\ Forall (found_gap o min_gap max_gap min_context pn lines)
                       openings).
  { unfold openings, _find_collinear_gaps.
    destruct (List.length lines <? 2)%nat eqn:E2.
    { split; [ simpl; lia | constructor ]. }
    cbv zeta.
    set (ls := sorted (position_key o) lines).
    assert (Hperm : Permutation ls lines) by apply sorted_perm.
    destruct (groups_of_good o ls) as [Hgood Htot].
    assert (Hgood' : Forall (good_group o lines) (groups_of o ls)).
    { eapply Forall_impl; [ | exact Hgood ]. simpl.
      intros g (H2 & Hincl & Hc). split; [ exact H2 | ].
      split; [ | exact Hc ].
      intros l Hl. apply (Permutation_in _ Hperm), Hincl, Hl. }
    destruct (groups_loop_found ids o min_gap max_gap min_context pn lines
                (groups_of o ls) Hgood' [] (Forall_nil _)) as [Hf Hl].
    split; [ | exact Hf ].
    rewrite (Permutation_length Hperm) in Htot.
    destruct (groups_of o ls) as [ | g gs ] eqn:Eg.
    - simpl. lia.
    - cbn [List.length] in Hl. lia. }
  destruct Hmain as [Hlen Hall].
  split; [ | split; [ exact Hlen | split; [ exact Hall | ] ] ].
  - intros H. destruct openings; [ reflexivity | simpl in Hlen; lia ].
  - intros Hrange. destruct openings as [ | op ops ]; [ reflexivity | ].
    apply Forall_inv in Hall.
    destruct Hall as (_ & _ & _ & _ & l0 & l1 & l2 & _ & _ & _ & Hg).
    destruct Hg as (_ & Hr & _). lia.
Qed.

(** Two wall lines on one row, 90 px apart. *)
Lemma gap_between_two_lines (ids : nat -> string) :
  _find_collinear_gaps ids [ (0, 100, 100, 100)%Z; (190, 100, 300, 100)%Z ]
    "horizontal" 20 300 30 1 1000 1000
  = [ {| WallOpeningDetector.opening_id := ("opening_" ++ ids 0%nat)%string;
         WallOpeningDetector.page_number := 1;
         WallOpeningDetector.center_x := IZR 100 + IZR 90 / 2;
         WallOpeningDetector.center_y := IZR (100 + 100) / 2;
         WallOpeningDetector.width_px := IZR 90;
         WallOpeningDetector.angle_degrees := 0;
         WallOpeningDetector.wall_thickness_px := 10;
         WallOpeningDetector.width_m := None;
         WallOpeningDetector.confidence := 0.5;
         WallOpeningDetector.is_door := false;
         WallOpeningDetector.detection_signals :=
           [ "horizontal_wall"%string; "collinear_gap"%string;
             "context_L100_R110"%string ];
         WallOpeningDetector.md_door_type := None |} ].
Proof.
  unfold _find_collinear_gaps.
  cbn [List.length Nat.ltb Nat.leb sorted fold_right insert_asc].
  unfold position_key at 1 2. cbn [String.eqb Ascii.eqb Bool.eqb].
  Rb_false (IZR (100 + 100) / 2) (IZR (100 + 100) / 2).
  unfold groups_of. cbn [fold_left]. unfold group_body.
  unfold position_key at 1 2 3. cbn [String.eqb Ascii.eqb Bool.eqb].
  replace (IZR (100 + 100) / 2 - IZR (100 + 100) / 2) with 0 by ring.
  rewrite Rabs_R0. unfold tolerance. Rle_true 0 20.
  cbn [app List.length Nat.leb fold_left].
  unfold gaps_of_group.
  cbn [map extent_key String.eqb Ascii.eqb Bool.eqb sorted fold_right
       insert_asc fst snd].
  replace (Z.min 0 100) with 0%Z by reflexivity.
  replace (Z.min 190 300) with 190%Z by reflexivity.
  replace (Z.max 0 100) with 100%Z by reflexivity.
  replace (Z.max 190 300) with 300%Z by reflexivity.
  cbn [fst snd]. Rb_false (IZR 190) (IZR 0).
  cbn [List.length Nat.sub seq fold_left]. unfold gap_body.
  cbn [nth Nat.add fst snd].
  replace (190 - 100)%Z with 90%Z by reflexivity.
  replace (100 - 0)%Z with 100%Z by reflexivity.
  replace (300 - 190)%Z with 110%Z by reflexivity.
  cbn [Z.leb Z.compare Pos.compare Pos.compare_cont andb].
  unfold position_key. cbn [String.eqb Ascii.eqb Bool.eqb app List.length].
  reflexivity.
Qed.

(** The theorem at two wall lines on one row, 90 px apart. *)
Lemma collinear_gaps_invariants_witness :
  exists op,
    _find_collinear_gaps (fun _ => "0123abcd"%string)
      [ (0, 100, 100, 100)%Z; (190, 100, 300, 100)%Z ]
      "horizontal" 20 300 30 1 1000 1000 = [op]
    /\ found_gap "horizontal" 20 300 30 1
         [ (0, 100, 100, 100)%Z; (190, 100, 300, 100)%Z ] op.
Proof.
  destruct (collinear_gaps_invariants (fun _ => "0123abcd"%string)
              [ (0, 100, 100, 100)%Z; (190, 100, 300, 100)%Z ]
              "horizontal"%string 20%Z 300%Z 30%Z 1%Z 1000%Z 1000%Z)
    as (_ & _ & Hall & _).
  rewrite gap_between_two_lines in Hall. eexists.
  split; [ apply gap_between_two_lines | ].
  apply (Forall_inv Hall).
Defined.

End GapFacts.

(** ** The scale written on a page *)

Section ScaleDetectionFacts.
Import Py ScaleCalibration ScaleDetection.

(** What the pattern loop returns, what it raises, and when it returns. *)
Lemma detect_loop_cases (env : TextEnv) (text : string)
    (l : list (Pattern * R)) :
  (forall s f c, detect_loop env l text = Ok (Some (s, f, c)) ->
     exists d p,
       (1 <= d <= 10000)%Z /\ s = ("1:" ++ PyText.str_int d)%string
       /\ f = IZR d /\ In (p, c) l)
  /\ (forall e, detect_loop env l text = Raise e ->
        exists p c, In (p, c) l /\ re_search env p text = Some (Raise e))
  /\ ((forall p e, re_search env p text <> Some (Raise e)) ->
        exists v, detect_loop env l text = Ok v).
Proof.
  induction l as [ | [p c0] l (IH1 & IH2 & IH3) ]; cbn [detect_loop].
  - split; [ intros s f c H; discriminate H | ].
    split; [ intros e H; discriminate H | ].
    intros _. eexists. reflexivity.
  - assert (Hrest :
      (forall s f c, detect_loop env l text = Ok (Some (s, f, c)) ->
         exists d p',
           (1 <= d <= 10000)%Z /\ s = ("1:" ++ PyText.str_int d)%string
           /\ f = IZR d /\ In (p', c) ((p, c0) :: l))
      /\ (forall e, detect_loop env l text = Raise e ->
            exists p' c, In (p', c) ((p, c0) :: l)
                         /\ re_search env p' text = Some (Raise e))).
    { split.
      - intros s f c H. destruct (IH1 s f c H) as (d & p' & H1 & H2 & H3 & H4).
        exists d, p'. split; [ exact H1 | ]. split; [ exact H2 | ].
        split; [ exact H3 | right; exact H4 ].
      - intros e H. destruct (IH2 e H) as (p' & c & Hin & Hr).
        exists p', c. split; [ right; exact Hin | exact Hr ]. }
    destruct Hrest as [Hr1 Hr2].
    destruct (re_search env p text) as [ [ d | e0 ] | ] eqn:Es; cbn [bind].
    + destruct ((1 <=? d)%Z && (d <=? 10000)%Z) eqn:E.
      * split; [ | split ].
        -- intros s f c H. inversion H; subst.
           apply andb_true_iff in E. destruct E as [E1 E2].
           apply Z.leb_le in E1, E2. exists d, p.
           split; [ lia | ]. split; [ reflexivity | ].
           split; [ reflexivity | left; reflexivity ].
        -- intros e H. discriminate H.
        -- intros _. eexists. reflexivity.
      * split; [ exact Hr1 | ]. split; [ exact Hr2 | exact IH3 ].
    + split; [ intros s f c H; discriminate H | ]. split.
      * intros e H. inversion H; subst. exists p, c0.
        split; [ left; reflexivity | exact Es ].
      * intros Hno. exfalso. apply (Hno p e0). exact Es.
    + split; [ exact Hr1 | ]. split; [ exact Hr2 | exact IH3 ].
Qed.

(** What [detect_scale_from_page] returns when it returns. *)
Lemma page_result_ok (env : TextEnv) (path : string) (pn : Z)
    (pi : PageInfo) (fid : option string) (r : ScaleContext) :
  detect_scale_from_page env path pn pi fid = Ok r ->
  source_page r = pn /\ render_dpi r = dpi pi /\ file_id r = fid
  /\ (r = no_scale_on_page pn pi fid \/ text_scale_context (dpi pi) r).
Proof.
  unfold detect_scale_from_page.
  destruct (extract_page_text env path pn) as [ text | e ].
  2: { intros H. inversion H; subst. simpl. auto. }
  destruct (detect_scale_from_text env text) as [ [ [[s f] c] | ] | e ] eqn:E;
    cbn [bind].
  3: { intros H. discriminate H. }
  2: { intros H. inversion H; subst. simpl. auto. }
  unfold detect_scale_from_text in E.
  apply (proj1 (detect_loop_cases env text patterns_with_confidence)) in E.
  destruct E as (d & p & Hd & -> & -> & Hin).
  unfold compute_pixels_per_meter.
  assert (Hpos : 0 < IZR d) by (apply IZR_lt; lia).
  Rle_false (IZR d) 0. cbn [bind].
  intros H. inversion H; subst r. simpl.
  repeat (split; [ reflexivity | ]). right.
  unfold text_scale_context. simpl. split; [ reflexivity | ]. split.
  - unfold patterns_with_confidence in Hin. simpl in Hin.
    destruct Hin as [H0 | [H0 | [H0 | [H0 | []]]]]; inversion H0; auto.
  - exists d. auto.
Qed.

(** What [detect_scale_from_page] raises. *)
Lemma page_result_raise (env : TextEnv) (path : string) (pn : Z)
    (pi : PageInfo) (fid : option string) (e : exn) :
  detect_scale_from_page env path pn pi fid = Raise e ->
  exists text p,
    extract_page_text env path pn = Ok text
    /\ re_search env p text = Some (Raise e).
Proof.
  unfold detect_scale_from_page.
  destruct (extract_page_text env path pn) as [ text | e0 ];
    [ | intros H; discriminate H ].
  destruct (detect_scale_from_text env text) as [ [ [[s f] c] | ] | e1 ] eqn:E;
    cbn [bind].
  - unfold detect_scale_from_text in E.
    apply (proj1 (detect_loop_cases env text patterns_with_confidence)) in E.
    destruct E as (d & p & Hd & -> & -> & Hin).
    unfold compute_pixels_per_meter.
    assert (Hpos : 0 < IZR d) by (apply IZR_lt; lia).
    Rle_false (IZR d) 0. cbn [bind]. intros H. discriminate H.
  - intros H. discriminate H.
  - intros H. inversion H; subst e1.
    unfold detect_scale_from_text in E.
    apply (proj1 (proj2 (detect_loop_cases env text
                           patterns_with_confidence))) in E.
    destruct E as (p & c & _ & Hr). exists text, p. auto.
Qed.

Lemma text_scale_confidence_pos (d : Z) (r : ScaleContext) :
  text_scale_context d r -> 0 < confidence r.
Proof. intros (_ & [H | [H | [H | H]]] & _); rewrite H; lra. Qed.

(** X28: [detect_scale_from_page] raises only what [int] raises on the
    digits a pattern captured (a [ValueError], for a digit run beyond the
    interpreter's limit), and it does raise it when the first pattern,
    "Massstab 1:N", captures such a run; a text extraction that fails is
    caught and gives the context without scale.  A context that is
    returned is for the page and the rendering asked about; either it
    holds no scale, with method "none" and confidence 0, or it is a text
    scale "1:d" with [d] from 1 to 10000, confidence 0.95, 0.90, 0.85 or
    0.70, and [pixels_per_meter = 1/d * 39.3701 * dpi]; and it has a
    usable scale exactly when it is a text scale rendered at a positive
    DPI. *)
Theorem page_scale_context :
  forall env path pn pi fid,
    (forall e, detect_scale_from_page env path pn pi fid = Raise e ->
       exists text p,
         extract_page_text env path pn = Ok text
         /\ re_search env p text = Some (Raise e))
    /\ (forall text e,
          extract_page_text env path pn = Ok text ->
          re_search env P_MASSSTAB text = Some (Raise e) ->
          detect_scale_from_page env path pn pi fid = Raise e)
    /\ ((forall text p e,
           extract_page_text env path pn = Ok text ->
           re_search env p text <> Some (Raise e)) ->
        exists r, detect_scale_from_page env path pn pi fid = Ok r)
    /\ (forall e, extract_page_text env path pn = Raise e ->
          detect_scale_from_page env path pn pi fid
          = Ok (no_scale_on_page pn pi fid))
    /\ (forall text,
          extract_page_text env path pn = Ok text ->
          detect_scale_from_text env text = Ok None ->
          detect_scale_from_page env path pn pi fid
          = Ok (no_scale_on_page pn pi fid))
    /\ (forall r, detect_scale_from_page env path pn pi fid = Ok r ->
          source_page r = pn /\ render_dpi r = dpi pi /\ file_id r = fid
          /\ ((r = no_scale_on_page pn pi fid
               /\ detection_method r = "none"%string /\ confidence r = 0)
              \/ text_scale_context (dpi pi) r)
          /\ (has_scale r = true
              <-> (detection_method r = "text_scale"%string
                   /\ (0 < dpi pi)%Z))).
Proof.
  intros env path pn pi fid.
  split; [ | split; [ | split; [ | split; [ | split ] ] ] ].
  - intros e H. apply (page_result_raise env path pn pi fid e H).
  - intros text e Hex Hre. unfold detect_scale_from_page. rewrite Hex.
    unfold detect_scale_from_text, patterns_with_confidence.
    cbn [detect_loop]. rewrite Hre. reflexivity.
  - intros Hno.
    destruct (detect_scale_from_page env path pn pi fid) as [ r | e ] eqn:E;
      [ exists r; reflexivity | ].
    exfalso. destruct (page_result_raise env path pn pi fid e E)
      as (text & p & Hex & Hre).
    exact (Hno text p e Hex Hre).
  - intros e Hex. unfold detect_scale_from_page. rewrite Hex. reflexivity.
  - intros text Hex Hnone. unfold detect_scale_from_page.
    rewrite Hex, Hnone. reflexivity.
  - intros r Er.
    destruct (page_result_ok env path pn pi fid r Er)
      as (H1 & H2 & H3 & Hc).
    split; [ exact H1 | ]. split; [ exact H2 | ]. split; [ exact H3 | ].
    split.
    + destruct Hc as [-> | Hc]; [ left; simpl; auto | right; exact Hc ].
    + destruct Hc as [-> | (Hm & _ & d & Hd & _ & _ & Hp)].
      * simpl. split; [ intros H; discriminate H | ].
        intros [H _]. discriminate H.
      * unfold has_scale. rewrite Hp, Hm.
        assert (Hdpos : 0 < IZR d) by (apply IZR_lt; lia).
        assert (Hk : 0 < 1 / IZR d * INCHES_PER_METER).
        { unfold INCHES_PER_METER. apply Rmult_lt_0_compat; [ | lra ].
          apply Rdiv_lt_0_compat; lra. }
        split.
        -- intros H. apply Rltb_true_iff in H. split; [ reflexivity | ].
           apply lt_IZR.
           destruct (Rle_or_lt (IZR (dpi pi)) 0) as [Hle | Hlt];
             [ exfalso; nra | exact Hlt ].
        -- intros [_ H]. apply Rltb_true_iff. apply IZR_lt in H. nra.
Qed.

(** The theorem at the page that reads "M 1:100", and at the page whose
    digit run [int] refuses. *)
Lemma page_scale_context_witness :
  (exists r,
     detect_scale_from_page plan_text_env "plan.pdf" 1 a4_page None = Ok r
     /\ has_scale r = true
     /\ confidence r = 0.85)
  /\ detect_scale_from_page long_digits_env "plan.pdf" 1 a4_page None
     = Raise (ValueError
                "Exceeds the limit (4300 digits) for integer string conversion").
Proof.
  split.
  - assert (E : detect_scale_from_page plan_text_env "plan.pdf" 1 a4_page
                  None
                = Ok {| file_id := None;
                        scale_string := Some "1:100"%string;
                        scale_factor := Some (IZR 100);
                        pixels_per_meter :=
                          Some (1 / IZR 100 * INCHES_PER_METER * IZR 150);
                        detection_method := "text_scale";
                        confidence := 0.85;
                        source_page := 1;
                        page_width_points := Some 595;
                        page_height_points := Some 842;
                        render_dpi := 150;
                        user_reference_px := None;
                        user_reference_m := None;
                        is_active := true |}).
    { unfold detect_scale_from_page, plan_text_env.
      cbn [extract_page_text detect_scale_from_text detect_loop
           patterns_with_confidence re_search bind Z.leb Z.compare
           Pos.compare Pos.compare_cont andb].
      unfold compute_pixels_per_meter. Rle_false (IZR 100) 0. reflexivity. }
    eexists. split; [ exact E | ]. split; [ | reflexivity ].
    destruct (proj2 (proj2 (proj2 (proj2 (proj2
                (page_scale_context plan_text_env "plan.pdf"%string 1%Z
                   a4_page None))))) _ E) as (_ & _ & _ & _ & Hs).
    apply Hs. split; reflexivity.
  - apply (proj1 (proj2 (page_scale_context long_digits_env
                           "plan.pdf"%string 1%Z a4_page None))
             "Massstab 1:1000..."%string); reflexivity.
Defined.

(** The loop over the searched pages, from any state it can be in. *)
Lemma document_loop_result (env : TextEnv) (document : PlanDocument) :
  forall (l : list Z) (best : option ScaleContext) (bc : R),
    0 <= bc ->
    (forall r0, best = Some r0 -> confidence r0 = bc /\ 0 < bc) ->
    (best = None -> bc = 0) ->
    (forall e, document_loop env document l best bc = Raise e ->
       raised_on_page env document l e)
    /\ ((forall e, ~ raised_on_page env document l e) ->
        exists r, document_loop env document l best bc = Ok r)
    /\ (forall r, document_loop env document l best bc = Ok r ->
          (0.9 <= confidence r
           \/ (bc <= confidence r
               /\ forall r', read_from_page env document l r' ->
                             confidence r' <= confidence r))
          /\ (read_from_page env document l r /\ 0 < confidence r
              \/ best = Some r
              \/ (best = None /\ r = no_scale_in_document document))).
Proof.
  induction l as [ | pn l IH ]; intros best bc Hbc Hbest Hnone.
  - cbn [document_loop]. split; [ | split ].
    + intros e H. destruct best; discriminate H.
    + intros _. destruct best; eexists; reflexivity.
    + intros r H. destruct best as [ r0 | ]; inversion H; subst r.
      * destruct (Hbest r0 eq_refl) as [E _]. split; [ | auto ].
        right. split; [ lra | ]. intros r' (p & pi & [] & _).
      * split; [ | auto ]. right. rewrite (Hnone eq_refl). simpl.
        split; [ lra | ]. intros r' (p & pi & [] & _).
  - assert (Hraise_lift : forall e, raised_on_page env document l e ->
                                    raised_on_page env document (pn :: l) e).
    { intros e (p & pi & Hp & Hg & Hd). exists p, pi.
      split; [ right; exact Hp | auto ]. }
    assert (Hlift : forall r', read_from_page env document l r' ->
                               read_from_page env document (pn :: l) r').
    { intros r' (p & pi' & Hp & Hg & Hd). exists p, pi'.
      split; [ right; exact Hp | auto ]. }
    cbn [document_loop].
    destruct (get_page document pn) as [ pi | ] eqn:Eg.
    2: { destruct (IH best bc Hbc Hbest Hnone) as (I1 & I2 & I3).
         split; [ | split ].
         - intros e H. apply Hraise_lift, I1, H.
         - intros Hno. apply I2. intros e He. apply (Hno e), Hraise_lift, He.
         - intros r H. destruct (I3 r H) as [Hr Hfrom]. split.
           + destruct Hr as [Hr | [Hr1 Hr2]]; [ left; exact Hr | right ].
             split; [ exact Hr1 | ].
             intros r' (p & pi & [<- | Hp] & Hg & Hd); [ congruence | ].
             apply Hr2. exists p, pi. auto.
           + destruct Hfrom as [[Hf Hpos] | Hfrom];
               [ left; split; [ apply Hlift, Hf | exact Hpos ]
               | right; exact Hfrom ]. }
    destruct (detect_scale_from_page env (doc_file_path document) pn pi
                (Some (doc_file_id document))) as [ r1 | e1 ] eqn:Er1;
      cbn [bind].
    2: { split; [ | split ].
         - intros e H. inversion H; subst e1. exists pn, pi.
           split; [ left; reflexivity | auto ].
         - intros Hno. exfalso. apply (Hno e1). exists pn, pi.
           split; [ left; reflexivity | auto ].
         - intros r H. discriminate H. }
    assert (Hr1 : read_from_page env document (pn :: l) r1).
    { exists pn, pi. split; [ left; reflexivity | auto ]. }
    assert (Hsplit : forall r', read_from_page env document (pn :: l) r' ->
                                r' = r1 \/ read_from_page env document l r').
    { intros r' (p & pi' & [<- | Hp] & Hg & Hd).
      - left. rewrite Eg in Hg. inversion Hg; subst pi'.
        rewrite Er1 in Hd. inversion Hd. reflexivity.
      - right. exists p, pi'. auto. }
    case_Rleb 0.9 (confidence r1).
    { split; [ intros e H; discriminate H | ].
      split; [ intros _; eexists; reflexivity | ].
      intros r H. inversion H; subst r.
      split; [ left; exact Hcmp | ]. left. split; [ exact Hr1 | lra ]. }
    case_Rltb bc (confidence r1).
    + destruct (IH (Some r1) (confidence r1)) as (I1 & I2 & I3).
      * lra.
      * intros r0 E. inversion E; subst. split; [ reflexivity | lra ].
      * intros E. discriminate E.
      * split; [ | split ].
        -- intros e H. apply Hraise_lift, I1, H.
        -- intros Hno. apply I2. intros e He.
           apply (Hno e), Hraise_lift, He.
        -- intros r H. destruct (I3 r H) as [Hr Hfrom]. split.
           ++ destruct Hr as [Hr | [Hr1' Hr2]]; [ left; exact Hr | right ].
              split; [ lra | ].
              intros r' Hr'. destruct (Hsplit r' Hr') as [-> | Hl];
                [ exact Hr1' | apply Hr2, Hl ].
           ++ left. destruct Hfrom as [[Hf Hpos] | [E | [E _]]].
              ** split; [ apply Hlift, Hf | exact Hpos ].
              ** inversion E; subst r. split; [ exact Hr1 | lra ].
              ** discriminate E.
    + destruct (IH best bc Hbc Hbest Hnone) as (I1 & I2 & I3).
      split; [ | split ].
      * intros e H. apply Hraise_lift, I1, H.
      * intros Hno. apply I2. intros e He. apply (Hno e), Hraise_lift, He.
      * intros r H. destruct (I3 r H) as [Hr Hfrom]. split.
        -- destruct Hr as [Hr | [Hr1' Hr2]]; [ left; exact Hr | right ].
           split; [ exact Hr1' | ].
           intros r' Hr'. destruct (Hsplit r' Hr') as [-> | Hl];
             [ lra | apply Hr2, Hl ].
        -- destruct Hfrom as [[Hf Hpos] | Hfrom];
             [ left; split; [ apply Hlift, Hf | exact Hpos ]
             | right; exact Hfrom ].
Qed.

(** X29: [detect_scale_from_document] raises only what
    [detect_scale_from_page] raises on a searched page of the document,
    and returns when no searched page raises.  The context it returns has
    a confidence of at least 0.9, or a confidence at least that of every
    searched page of the document; it is the context of a searched page,
    with a positive confidence, or, when no searched page gives a scale,
    the document's own context without scale, with method "none",
    confidence 0 and source page 1.  Pages the document does not list are
    skipped. *)
Theorem document_scale_selection :
  forall env document search_pages,
    (forall e,
       detect_scale_from_document env document search_pages = Raise e ->
       raised_on_page env document (searched_pages document search_pages) e)
    /\ ((forall e,
           ~ raised_on_page env document
               (searched_pages document search_pages) e) ->
        exists r,
          detect_scale_from_document env document search_pages = Ok r)
    /\ (forall r,
          detect_scale_from_document env document search_pages = Ok r ->
          (0.9 <= confidence r
           \/ forall r',
                read_from_page env document
                  (searched_pages document search_pages) r' ->
                confidence r' <= confidence r)
          /\ ((read_from_page env document
                 (searched_pages document search_pages) r
               /\ 0 < confidence r
               /\ detection_method r = "text_scale"%string)
              \/ (r = no_scale_in_document document
                  /\ forall r',
                       read_from_page env document
                         (searched_pages document search_pages) r' ->
                       confidence r' = 0))).
Proof.
  intros env document sp. unfold detect_scale_from_document.
  fold (searched_pages document sp).
  destruct (document_loop_result env document (searched_pages document sp)
              None 0) as (I1 & I2 & I3).
  - lra.
  - intros r0 E. discriminate E.
  - reflexivity.
  - split; [ exact I1 | ]. split; [ exact I2 | ].
    intros r Er. destruct (I3 r Er) as [Hr Hfrom].
    assert (Hnonneg : forall r',
              read_from_page env document (searched_pages document sp) r' ->
              0 <= confidence r'
              /\ (0 < confidence r' ->
                  detection_method r' = "text_scale"%string)).
    { intros r' (p & pi & _ & _ & Hd).
      destruct (page_result_ok _ _ _ _ _ _ Hd) as (_ & _ & _ & Hc1).
      destruct Hc1 as [-> | Hc1].
      - simpl. split; [ lra | intros H; lra ].
      - pose proof (text_scale_confidence_pos _ _ Hc1).
        split; [ lra | intros _; apply Hc1 ]. }
    split.
    + destruct Hr as [Hr | [_ Hr]]; [ left; exact Hr | right; exact Hr ].
    + destruct Hfrom as [[Hf Hpos] | [E | [_ ->]]].
      * left. split; [ exact Hf | ]. split; [ exact Hpos | ].
        apply (Hnonneg r Hf), Hpos.
      * discriminate E.
      * right. split; [ reflexivity | ].
        intros r' Hr'. destruct Hr as [Hr | [_ Hr]].
        -- simpl in Hr. lra.
        -- specialize (Hr r' Hr'). simpl in Hr.
           destruct (Hnonneg r' Hr') as [H0 _]. lra.
Qed.

(** The theorem at the plan with one page: read as "M 1:100", and with
    the digit run [int] refuses. *)
Lemma document_scale_selection_witness :
  (exists r,
     detect_scale_from_document plan_text_env one_page_plan None = Ok r
     /\ read_from_page plan_text_env one_page_plan
          (searched_pages one_page_plan None) r
     /\ detection_method r = "text_scale"%string)
  /\ raised_on_page long_digits_env one_page_plan
       (searched_pages one_page_plan None)
       (ValueError
          "Exceeds the limit (4300 digits) for integer string conversion").
Proof.
  assert (Epage : detect_scale_from_page plan_text_env "plan.pdf" 1 a4_page
                    (Some "file_1"%string)
                  = Ok {| file_id := Some "file_1"%string;
                          scale_string := Some "1:100"%string;
                          scale_factor := Some (IZR 100);
                          pixels_per_meter :=
                            Some (1 / IZR 100 * INCHES_PER_METER * IZR 150);
                          detection_method := "text_scale";
                          confidence := 0.85;
                          source_page := 1;
                          page_width_points := Some 595;
                          page_height_points := Some 842;
                          render_dpi := 150;
                          user_reference_px := None;
                          user_reference_m := None;
                          is_active := true |}).
  { unfold detect_scale_from_page, plan_text_env.
    cbn [extract_page_text detect_scale_from_text detect_loop
         patterns_with_confidence re_search bind Z.leb Z.compare
         Pos.compare Pos.compare_cont andb].
    unfold compute_pixels_per_meter. Rle_false (IZR 100) 0. reflexivity. }
  assert (Edoc : detect_scale_from_document plan_text_env one_page_plan None
                 = Ok {| file_id := Some "file_1"%string;
                         scale_string := Some "1:100"%string;
                         scale_factor := Some (IZR 100);
                         pixels_per_meter :=
                           Some (1 / IZR 100 * INCHES_PER_METER * IZR 150);
                         detection_method := "text_scale";
                         confidence := 0.85;
                         source_page := 1;
                         page_width_points := Some 595;
                         page_height_points := Some 842;
                         render_dpi := 150;
                         user_reference_px := None;
                         user_reference_m := None;
                         is_active := true |}).
  { unfold detect_scale_from_document.
    change (all_pages one_page_plan) with [1%Z].
    cbn [document_loop].
    change (get_page one_page_plan 1) with (Some a4_page).
    change (doc_file_path one_page_plan) with "plan.pdf"%string.
    change (doc_file_id one_page_plan) with "file_1"%string.
    cbv beta iota. rewrite Epage. cbn [bind confidence].
    Rle_false 0.9 0.85. Rb_true 0 0.85. reflexivity. }
  split.
  - eexists. split; [ exact Edoc | ].
    destruct (proj2 (proj2 (document_scale_selection plan_text_env
                              one_page_plan None)) _ Edoc)
      as (_ & [(Hread & _ & Hm) | (E & _)]).
    + split; [ exact Hread | exact Hm ].
    + discriminate E.
  - apply (proj1 (document_scale_selection long_digits_env one_page_plan
                    None)).
    reflexivity.
Defined.

End ScaleDetectionFacts.
